(* ===== verification/_CoqProject ===== *)
-Q . S2P
Prelude.v
Bytes.v
Text.v
Float64.v
MessageSequence.v
FolderSpec.v
MemFolder.v
Bolt.v
BoltModel.v
StoreEnv.v
BoltFolder.v
Folders.v
Bmutil.v
Store.v
Database.v
Pow.v
Keys.v
Email.v
Codec.v
Mailbox.v
MailboxInv.v
IdMgr.v
Commands.v
User.v
Sending.v
Smtp.v
Server.v
Running.v
Config.v
Setup.v
Shutdown.v
Startup.v
Cli.v
