(* ===== verification/Prelude.v ===== *)
(** * bmagent: a verification library

    bmagent keeps the mail of a Bitmessage user: it holds his keys, talks to
    a Bitmessage node (bmd) for him, stores his messages in an encrypted
    database and shows them to mail programs through IMAP and SMTP.  This
    library models its Go code and proves what makes it correct, or where it
    is not.  The names are those of the code where Rocq allows it; every file
    says which source files it models.

    ** How the program is put together

    [main] reads the configuration, opens the key file and the data store and
    starts a server.  The server (server.go) receives objects from bmd; those
    that one of the keys decrypts go to the user (user/), whose mailboxes are
    views of folders of the data store (store/).  Mail programs read and write
    the same mailboxes.  A message to be sent waits in the Outbox until the
    public key of its recipient is known, is encrypted, and is put in the
    queue for proofs of work (powmgr/); when its proof is done it is sent and
    moves to Sent, or to Limbo while an ack is awaited.  Commands to the agent
    itself (cmd/) come by e-mail or by RPC.

    ** The files, from the bottom up

    - [Prelude]: outcomes of Go calls ([res]: a value, an error, a panic, or no
      answer), state passing with outcomes ([M]; the state of a failing call is
      kept), machine integers, tactics, sorted lists.  [Bytes], [Text],
      [Float64]: what is used of Go's standard library.
    - [FolderSpec] states the contract of a message folder (the interface
      Folder of store/data/folder.go) as a class and an abstract folder;
      [MemFolder] and [BoltFolder] (store/folder.go) implement it, and
      [Mailbox] and [MailboxInv] (user/mailbox.go, with [MessageSequence]) are
      proved against it.
    - [Bolt] and [StoreEnv]: the database, randomness, clock and ciphers under
      the store, as parameters with laws; [BoltModel] gives a database that has
      them.  [Folders] and [Store]: store/ (db.go, folder.go, user.go,
      broadcasts.go, pkrequests.go); [Database]: the objects that share one
      database, run together.
    - [Bmutil], [Keys], [IdMgr]: addresses, identities and the key manager
      (idmgr/).  [Email], [Codec]: messages as e-mail and as stored records
      (user/email/, user/bmail.go).  [Pow]: the queue (powmgr/).
    - [Commands] (cmd/), [User] (user/), [Server] (server.go, serverops.go,
      user.go, bmrpc/).  A user sees his server through the classes [Keyring]
      and [Host], and his folders through [FoldersOps]; the server and the
      persistent folders are instances.  [Sending] (user/process.go): a message
      on its way out, over what the user sees of the server ([HostView], whose
      promises [server_view] keeps).
    - [Running] (server.go, user/): all that can happen to a running server.
    - [Smtp] (user/smtp.go): the sessions of the SMTP server, over the
      handlers of [User].
    - [Config] (config.go, log.go, version.go), [Setup] (dbsetup.go,
      config.go), [Shutdown] (signal.go and the life of the server), [Startup]
      (bmagent.go, newServer of server.go, NewClient of bmrpc/client.go): the
      program, which composes them all.  [Cli] (cmd/client/main.go): the
      command-line client, over the commands of the agent.

    ** What is shown

    - Storage: folders, sets of folders, mailboxes, watch list and counters
      behave on every run as maps and lists ([folder_refinement],
      [folders_refinement], [mailbox_refinement], [memFolder_refinement],
      [pk_requests_map], [counters_map]), and together, over one database, as
      maps that share nothing ([database_refinement]); closing and opening again changes
      nothing ([folder_reopen], [Construct_create_open],
      [ChangePassphrase_opens], [counters_saved]); through everything that
      happens to a server its user keeps his mailboxes, and the next start goes
      on from the last objects received ([server_resumes]).
    - Data: messages, addresses, key files and commands are read back as they
      were written ([decode_serialize_roundtrip], [ToBm_BmToEmail],
      [FromEncrypted_ExportEncrypted] (names that are not UTF-8 apart),
      [created_keys_open], [BuildCommand_RPC]); the key manager keeps its lists
      ([manager_invariant], which also says when [New] breaks them); the commands that are accepted are known exactly
      ([ReadCommand_accepted]); a reply over RPC fits its request
      ([BMAgentRequest_typed]), and the command-line client does what an
      e-mail does ([client_as_email]).
    - Mail: what arrives is filed and acknowledged ([newMessage_delivers]),
      what is sent waits for its key ([DeliverFromSMTP_waits]) and, when it is
      known, for the proofs of work of its ack and of its object, which is then
      sent ([DeliverFromSMTP_queues], [ack_ready_queues], [Prepared_sends]); an
      ack moves its message ([DeliverAckReply_moves]), a command is answered.
    - Concurrency, as step relations over atomic steps: orders of the queue
      are never lost track of and the queue drains ([orders_accounted],
      [queue_drains]); handlers of interrupts run once, and shutting down ends
      once the server is stopped, not before ([handlers_called_once],
      [interrupts_served], [Stop_once], [shutdown_completes]: the goroutines of
      the client have a place in their loop, and end where the code returns); SMTP sessions take their own lines in order
      ([sessions_in_order]).
    - The whole program: what runs when it has started is as configured
      ([bmagentMain_starts]), and when it cannot start the data store is closed
      ([bmagentMain_fails]).
    - Configuration: what is accepted is usable ([Validate_usable]); questions
      on the console end ([ask_pass_answers]).
    - Where the code does not do what it means to, a theorem says what it does
      ([GetSequenceNumber_diverges], [empty_body_locks_mailbox],
      [newBroadcast_first], [NewUser_cannot_send], [nopass_locked] and others
      that are marked Not true of the code in the files).

    ** Fuel and bounds

    Loops that are not structural have fuel, and running out is [Hang], which
    is what an endless loop of the code is.  The search in a
    [MessageSequence] has the fuel with which it is proved to answer, or is
    proved to answer with none; deriving a key has the number of attempts that
    [mgr_New_next] asks for; a question for a passphrase has one more attempt
    than there are lines to be typed.  Unsigned integers wrap at 64 or 32 bits,
    the counters of starting and stopping at 32 bits signed; identifiers of
    messages are assumed to stay below the largest one, as the code does.

    ** Not modelled

    - Mutexes: the operations they guard are atomic steps.
    - The loops of IMAP and of gRPC, which are those of third-party servers; the
      generated protocol buffers; the profiling server; loggers.  Listening,
      dialling and the SMTP protocol itself are parameters.
    - What is logged or printed.
    - Failures of [crypto/rand] and of writing a time: reading randomness and
      [MarshalBinary] always succeed.  Times are those that the layout of the
      dates can write and read: years up to 9999, in zones whose names parse.
    - Third-party code (BoltDB, NaCl, JSON, ini files, MIME, IMAP types, flags,
      bmutil with its encryption and proofs of work) is a parameter, with laws
      where the code relies on them; every theorem with such laws has a witness
      that runs on a concrete instance.
    - In [User] and [Server] every mailbox has a folder state of its own, while
      in the program the folders of a user share one database; that they do not
      disturb each other is [database_refinement].
    - The broadcast addresses of a user ([Store]) are not among the objects of
      [database_refinement]: their bucket has the name of the user and can be
      one of the store's ([NewUser_breaks_watch_list]).
    - Go visits maps in no fixed order; here it is that of [map_to_list], and
      no theorem depends on it. *)

From stdpp Require Export base tactics list option numbers strings gmap sets sorting.
From Stdlib Require Export ZArith Lia.

Open Scope Z_scope.

(** ** Outcomes of a Go call

    A Go function that returns [(value, error)] is modelled by an outcome: a
    value with a nil error, a non-nil error, a run-time panic (nil pointer
    dereference, index out of range, explicit [panic]) or a call that never
    returns (an endless loop or a deadlock). *)

Inductive error : Type :=
  | ErrDuplicateID | ErrInvalidID | ErrNotFound
  | ErrDecryptionFailed | ErrDuplicateMailbox
  | ErrUnrecognizedAck | ErrNoAckExpected | ErrNoMessageFound | ErrMissingPrivateID
  | ErrInvalidEmail | ErrGetPubKeySent | ErrAckMissing
  | ErrIdentityNotFound | ErrUnknownKeyfileVersion | ErrNonexistentIdentity
  | ErrInvalidPrivateID | errSuccessCode
  | ErrInvalidString | ErrInvalidBoolean | ErrInvalidType | ErrInvalidRPCRequest
  | ErrUnknownCommand (cmd : string)
  | ErrUnrecognizedPattern (cmd : string) (patterns : list (list Z))
  | ErrInvalidNumberOfParameters (params : list string) (expected : Z)
  | ErrServerStopped
  | ErrNew (msg : string).   (** [errors.New], [fmt.Errorf]: not compared by identity *)

#[export] Instance error_eq_dec : EqDecision error.
Proof. solve_decision. Defined.

Inductive res (A : Type) : Type :=
  | Ok (a : A)
  | Err (e : error)
  | Panic
  | Hang.
Arguments Ok {A} _.
Arguments Err {A} _.
Arguments Panic {A}.
Arguments Hang {A}.

#[export] Instance res_eq_dec `{EqDecision A} : EqDecision (res A).
Proof. solve_decision. Defined.

Definition res_map {A B} (f : A → B) (r : res A) : res B :=
  match r with Ok a => Ok (f a) | Err e => Err e | Panic => Panic | Hang => Hang end.

Definition res_bind {A B} (r : res A) (k : A → res B) : res B :=
  match r with Ok a => k a | Err e => Err e | Panic => Panic | Hang => Hang end.

#[export] Instance res_ret : MRet res := λ A a, Ok a.
#[export] Instance res_mbind : MBind res := λ A B k r, res_bind r k.
#[export] Instance res_fmap : FMap res := λ A B f r, res_map f r.

(** Sequencing, with the first computation elaborated first. *)
Definition bind `{MBind T} {A B} (m : T A) (k : A → T B) : T B := mbind k m.
Declare Scope bm_scope.
Delimit Scope bm_scope with bm.
Notation "x ← y ; z" := (bind y (λ x : _, z))
  (at level 20, y at level 100, z at level 200, only parsing) : bm_scope.
Notation "' x ← y ; z" := (bind y (λ x : _, z))
  (at level 20, x pattern, y at level 100, z at level 200, only parsing) : bm_scope.
Open Scope bm_scope.

Definition is_Ok {A} (r : res A) : bool := match r with Ok _ => true | _ => false end.
Definition is_Panic {A} (r : res A) : bool := match r with Panic => true | _ => false end.

(** A nil test of the code: dereferencing [None] panics. *)
Definition deref {A} (o : option A) : res A :=
  match o with Some a => Ok a | None => Panic end.

(** ** Stateful Go code: state passing with outcomes

    The state reached is kept whatever the outcome, as in Go: a method that
    returns an error has still performed the writes it made before. *)

Definition M (S A : Type) : Type := S → res A * S.

Definition mret' {S A} (a : A) : M S A := λ s, (Ok a, s).
Definition mbind' {S A B} (k : A → M S B) (m : M S A) : M S B := λ s,
  match m s with
  | (Ok a, s') => k a s'
  | (Err e, s') => (Err e, s')
  | (Panic, s') => (Panic, s')
  | (Hang, s') => (Hang, s')
  end.

#[export] Instance M_ret S : MRet (M S) := λ A a, mret' a.
#[export] Instance M_bind S : MBind (M S) := λ A B k m, mbind' k m.

Definition get {S} : M S S := λ s, (Ok s, s).
Definition put {S} (s : S) : M S unit := λ _, (Ok tt, s).
Definition modify {S} (f : S → S) : M S unit := λ s, (Ok tt, f s).
Definition fail {S A} (e : error) : M S A := λ s, (Err e, s).
Definition panic {S A} : M S A := λ s, (Panic, s).
Definition lift {S A} (r : res A) : M S A := λ s, (r, s).
Definition gets {S A} (f : S → A) : M S A := λ s, (Ok (f s), s).

(** [v, err := m()] with the error inspected by the caller instead of returned. *)
Definition try {S A} (m : M S A) : M S (A + error) := λ s,
  match m s with
  | (Ok a, s') => (Ok (inl a), s')
  | (Err e, s') => (Ok (inr e), s')
  | (Panic, s') => (Panic, s')
  | (Hang, s') => (Hang, s')
  end.

(** [m] run on a component of the state. *)
Definition zoom {S T A} (g : S → T) (p : T → S → S) (m : M T A) : M S A := λ s,
  let '(r, t) := m (g s) in (r, p t s).

Fixpoint mfor {S A} (l : list A) (body : A → M S unit) : M S unit :=
  match l with
  | [] => mret tt
  | x :: l' => _ ← body x; mfor l' body
  end.

(** ** Unsigned machine integers *)

Definition u64 (z : Z) : Z := z `mod` 2 ^ 64.
Definition u32 (z : Z) : Z := z `mod` 2 ^ 32.
Definition is_u64 (z : Z) : Prop := 0 ≤ z < 2 ^ 64.
Definition is_u32 (z : Z) : Prop := 0 ≤ z < 2 ^ 32.

Lemma u64_id z : is_u64 z → u64 z = z.
Proof. intros H. by apply Z.mod_small. Qed.
Lemma u32_id z : is_u32 z → u32 z = z.
Proof. intros H. by apply Z.mod_small. Qed.
Lemma u64_range z : is_u64 (u64 z).
Proof. by apply Z.mod_pos_bound. Qed.
Lemma u32_range z : is_u32 (u32 z).
Proof. by apply Z.mod_pos_bound. Qed.

(** ** Automation *)

Create HintDb bm.
Create Rewrite HintDb bm.
#[export] Hint Rewrite u64_id u32_id using (unfold is_u64, is_u32 in *; lia) : bm.
#[export] Hint Resolve u64_range u32_range : bm.

(** Unfold the monads one step and compute. *)
Ltac munfold :=
  unfold bind, mret, mbind, M_ret, M_bind, mret', mbind', res_ret, res_mbind, fmap, res_fmap,
    res_bind, res_map, get, put, modify, fail, panic, lift, gets, try, zoom in *.
Ltac mrun := munfold; simpl in *.

(** Run the first computation of a sequence. *)
Lemma bind_Ok {S A B} (m : M S A) (k : A → M S B) s a s' :
  m s = (Ok a, s') → bind m k s = k a s'.
Proof. intros H. munfold. by rewrite H. Qed.
Lemma bind_Err {S A B} (m : M S A) (k : A → M S B) s e s' :
  m s = (Err e, s') → bind m k s = (Err e, s').
Proof. intros H. munfold. by rewrite H. Qed.
Lemma try_Ok {S A} (m : M S A) s a s' : m s = (Ok a, s') → try m s = (Ok (inl a), s').
Proof. intros H. unfold try. by rewrite H. Qed.
Lemma try_Err {S A} (m : M S A) s e s' : m s = (Err e, s') → try m s = (Ok (inr e), s').
Proof. intros H. unfold try. by rewrite H. Qed.

(** A sequence that succeeds, taken apart. *)
Lemma bind_inv {S A B} (m : M S A) (k : A → M S B) s b s' :
  bind m k s = (Ok b, s') → ∃ a s1, m s = (Ok a, s1) ∧ k a s1 = (Ok b, s').
Proof. munfold. destruct (m s) as [[a|e| |] s1]; [by eauto|done..]. Qed.
Lemma res_bind_inv {A B} (r : res A) (k : A → res B) b :
  bind r k = Ok b → ∃ a, r = Ok a ∧ k a = Ok b.
Proof. munfold. destruct r; [by eauto|done..]. Qed.

(** Calls that leave a part of the state alone, whatever their outcome. *)
Definition keeps {S T A} (g : S → T) (f : M S A) : Prop := ∀ s r s', f s = (r, s') → g s' = g s.

Lemma keeps_bind {S T A B} (g : S → T) (f : M S A) (k : A → M S B) :
  keeps g f → (∀ a, keeps g (k a)) → keeps g (bind f k).
Proof.
  intros Hf Hk s r s'. munfold. destruct (f s) as [[a|e| |] s1] eqn:E;
    [|by intros [= _ <-]; apply (Hf _ _ _ E)..].
  intros H. rewrite <- (Hf _ _ _ E). by apply (Hk a _ _ _ H).
Qed.
Lemma keeps_same {S T A} (g : S → T) (f : M S A) : (∀ s, (f s).2 = s) → keeps g f.
Proof. intros Hf s r s' H. specialize (Hf s). rewrite H in Hf. cbn in Hf. by subst. Qed.
Lemma keeps_try {S T A} (g : S → T) (f : M S A) : keeps g f → keeps g (try f).
Proof.
  intros Hf s r s'. unfold try. destruct (f s) as [[a|e| |] s1] eqn:E; intros [= _ <-]; by apply (Hf _ _ _ E).
Qed.
Lemma keeps_zoom {S T U A} (g : S → T) (get : S → U) (put : U → S → S) (f : M U A) :
  (∀ u s, g (put u s) = g s) → keeps g (zoom get put f).
Proof. intros Hp s r s'. unfold zoom. destruct (f _). intros [= _ <-]. apply Hp. Qed.

(** The calls of a component are in the database. *)
Create HintDb keeps.
Ltac keeps :=
  repeat first
    [ by auto with keeps | apply keeps_bind; [|intros ?] | apply keeps_try | by apply keeps_same | case_match ].

(** Calls that keep a property of the state, whatever their outcome. *)
Definition preserves {S A} (P : S → Prop) (f : M S A) : Prop := ∀ s r s', f s = (r, s') → P s → P s'.
Lemma preserves_bind {S A B} (P : S → Prop) (f : M S A) (k : A → M S B) :
  preserves P f → (∀ a, preserves P (k a)) → preserves P (bind f k).
Proof.
  intros Hf Hk s r s'. munfold. destruct (f s) as [[a|e| |] s1] eqn:E;
    [|by intros [= _ <-]; apply (Hf _ _ _ E)..].
  intros H Hs. exact (Hk a _ _ _ H (Hf _ _ _ E Hs)).
Qed.
Lemma preserves_keeps {S T A} (g : S → T) (P : T → Prop) (f : M S A) : keeps g f → preserves (λ s, P (g s)) f.
Proof. intros Hf s r s' H. by rewrite (Hf _ _ _ H). Qed.
Lemma preserves_mfor {S A} (P : S → Prop) (l : list A) f : (∀ x, preserves P (f x)) → preserves P (mfor l f).
Proof.
  intros Hf. induction l as [|x l IH]; [by intros s r s' [= _ <-]|]. cbn [mfor]. by apply preserves_bind.
Qed.

(** [run_step E]: the goal runs a sequence whose first computation has the
    outcome that [E] states. *)
Ltac run_step E := eapply eq_trans; [eapply bind_Ok; E|cbv beta].

(** Membership in a list of constants. *)
Ltac solve_elem := solve [repeat first [apply list_elem_of_here | apply list_elem_of_further]].

(** Case on the outermost scrutinee of the goal, keeping the equation. *)
Ltac mcase :=
  match goal with
  | |- context [match ?x with _ => _ end] =>
      lazymatch x with
      | context [match _ with _ => _ end] => fail
      | _ => destruct x eqn:?
      end
  end.
Ltac mcase_in H :=
  match type of H with
  | context [match ?x with _ => _ end] =>
      lazymatch x with
      | context [match _ with _ => _ end] => fail
      | _ => destruct x eqn:?
      end
  end.

(** ** Sorted lists of numbers *)

Section sorted.
Context {A : Type} (key : A → Z).
Implicit Types l : list A.

Definition ksorted l : Prop := StronglySorted (λ x y, key x < key y) l.

Lemma ksorted_cons x l : ksorted (x :: l) ↔ ksorted l ∧ Forall (λ y, key x < key y) l.
Proof. split; [intros H; by inversion H | intros [? ?]; by constructor]. Qed.

(** A list sorted by a key that identifies its elements is determined by
    its members. *)
Lemma ksorted_unique l1 l2 :
  ksorted l1 → ksorted l2 → (∀ x, x ∈ l1 ↔ x ∈ l2) → l1 = l2.
Proof.
  revert l2; induction l1 as [|x l1 IH]; intros [|y l2] H1 H2 Hel.
  - done.
  - exfalso. by eapply not_elem_of_nil, Hel, list_elem_of_here.
  - exfalso. by eapply not_elem_of_nil, Hel, list_elem_of_here.
  - apply ksorted_cons in H1 as [H1 F1]. apply ksorted_cons in H2 as [H2 F2].
    rewrite Forall_forall in F1, F2.
    assert (x = y) as <-.
    { assert (x ∈ y :: l2) as Hx by (apply Hel, list_elem_of_here).
      assert (y ∈ x :: l1) as Hy by (apply Hel, list_elem_of_here).
      apply elem_of_cons in Hx as [->|Hx]; [done|].
      apply elem_of_cons in Hy as [->|Hy]; [done|].
      specialize (F1 _ Hy). specialize (F2 _ Hx). lia. }
    f_equal. apply IH; [done..|]. intros z. specialize (Hel z).
    rewrite !elem_of_cons in Hel. split; intros Hz.
    + destruct (proj1 Hel (or_intror Hz)) as [->|]; [|done]. specialize (F1 _ Hz); lia.
    + destruct (proj2 Hel (or_intror Hz)) as [->|]; [|done]. specialize (F2 _ Hz); lia.
Qed.

Lemma ksorted_NoDup l : ksorted l → NoDup l.
Proof.
  induction l as [|x l IH]; [constructor|]. intros [H F]%ksorted_cons.
  constructor; [|by apply IH]. intros Hx. rewrite Forall_forall in F.
  specialize (F _ Hx). lia.
Qed.

Lemma ksorted_filter (P : A → Prop) `{∀ x, Decision (P x)} l :
  ksorted l → ksorted (filter P l).
Proof.
  induction l as [|x l IH]; [done|]. intros [H' F]%ksorted_cons.
  rewrite filter_cons. case_decide; [|by apply IH].
  apply ksorted_cons; split; [by apply IH|].
  rewrite Forall_forall in F |- *. intros y [_ Hy]%list_elem_of_filter. by apply F.
Qed.

Lemma ksorted_lookup l i j x y :
  ksorted l → l !! i = Some x → l !! j = Some y → (i < j)%nat → key x < key y.
Proof.
  intros Hs. revert i j; induction l as [|z l IH]; intros i j Hi Hj Hij; [done|].
  apply ksorted_cons in Hs as [Hs F]. rewrite Forall_forall in F.
  destruct i as [|i], j as [|j]; simplify_eq/=; try lia.
  - apply F. by eapply list_elem_of_lookup_2.
  - eapply IH; eauto; lia.
Qed.
End sorted.

(** ** Filters *)

Section filters.
Context {A : Type} (P : A → Prop) `{∀ x, Decision (P x)}.

Lemma filter_all (l : list A) : Forall P l → filter P l = l.
Proof.
  induction 1 as [|x l Hx Hl IH]; [done|]. rewrite filter_cons_True by done. by rewrite IH.
Qed.

Lemma filter_none (l : list A) : Forall (λ x, ¬ P x) l → filter P l = [].
Proof. induction 1; [done|]. by rewrite filter_cons_False. Qed.
End filters.

(** ** Sorting by a numeric key *)

Definition sort_by {A} (key : A → Z) (l : list A) : list A :=
  @merge_sort A (λ x y, key x ≤ key y) (λ x y, decide (key x ≤ key y)) l.

Section sort_by.
Context {A : Type} (key : A → Z).

#[local] Instance key_total : Total (λ x y : A, key x ≤ key y).
Proof. intros x y. destruct (Z.le_ge_cases (key x) (key y)); auto. Qed.
#[local] Instance key_trans : Transitive (λ x y : A, key x ≤ key y).
Proof. intros x y z. lia. Qed.

Lemma sort_by_Permutation l : sort_by key l ≡ₚ l.
Proof. apply merge_sort_Permutation. Qed.

Lemma elem_of_sort_by l x : x ∈ sort_by key l ↔ x ∈ l.
Proof. by rewrite sort_by_Permutation. Qed.

Lemma sort_by_ksorted l : NoDup (key <$> l) → ksorted key (sort_by key l).
Proof.
  intros Hnd. assert (NoDup (key <$> sort_by key l)) as Hnd' by (by rewrite sort_by_Permutation).
  assert (StronglySorted (λ x y : A, key x ≤ key y) (sort_by key l)) as Hs
    by (apply StronglySorted_merge_sort; apply _).
  revert Hnd' Hs. generalize (sort_by key l). clear l Hnd.
  intros l; induction l as [|x l IH]; intros Hnd Hs; [constructor|].
  apply StronglySorted_cons in Hs as [F Hs]. apply NoDup_cons in Hnd as [Hx Hnd].
  apply ksorted_cons. split; [by apply IH|].
  rewrite Forall_forall in F |- *. intros y Hy. specialize (F y Hy). cbn in F.
  assert (key x ≠ key y); [|lia]. intros Heq. apply Hx. rewrite Heq. by apply list_elem_of_fmap_2.
Qed.
End sort_by.

(** ** Go maps of numbers: a missing key reads as zero *)

Definition zlookup (m : gmap Z Z) (k : Z) : Z := default 0 (m !! k).
