(* ===== verification/Bytes.v ===== *)
(** * Byte strings and [encoding/binary]

    A Go [string] or [[]byte] is a [string] (a sequence of 8-bit characters).
    This file models the parts of [bytes] and [encoding/binary] the store
    uses: big-endian encodings of 32-bit and 64-bit integers and the
    byte-wise order in which database keys are sorted.  The keys of
    messages in [store/folder.go] are [be64 id ++ be64 suffix]. *)

From S2P Require Import Prelude.
From Stdlib Require Import Ascii.
Local Open Scope string_scope.
Local Open Scope Z_scope.

(** ** Integers as bytes *)

Definition byte_of_Z (z : Z) : ascii := ascii_of_N (Z.to_N (z `mod` 256)).
Definition Z_of_byte (c : ascii) : Z := Z.of_N (N_of_ascii c).

(** [binary.BigEndian.PutUintN]: the [n] low bytes of [z], highest first. *)
Fixpoint be (n : nat) (z : Z) : string :=
  match n with
  | O => EmptyString
  | S n' => String (byte_of_Z (z / 256 ^ Z.of_nat n')) (be n' z)
  end.

Definition be64 : Z → string := be 8.
Definition be32 : Z → string := be 4.

Fixpoint of_be_acc (acc : Z) (s : string) : Z :=
  match s with
  | EmptyString => acc
  | String c s' => of_be_acc (acc * 256 + Z_of_byte c) s'
  end.
Definition of_be (s : string) : Z := of_be_acc 0 s.

(** [s[:n]] and [s[n:]] when the length allows. *)
Definition stake (n : nat) (s : string) : string := String.substring 0 n s.
Definition sdrop (n : nat) (s : string) : string := String.substring n (String.length s - n) s.

(** Slicing beyond the length of a slice panics. *)
Definition slice_to (n : nat) (s : string) : res string :=
  if (n <=? String.length s)%nat then Ok (stake n s) else Panic.
Definition slice_from (n : nat) (s : string) : res string :=
  if (n <=? String.length s)%nat then Ok (sdrop n s) else Panic.

(** [binary.BigEndian.Uint64(b)] and [Uint32(b)] read the first bytes and panic when there are
    too few. *)
Definition Uint64 (b : string) : res Z := res_map of_be (slice_to 8 b).
Definition Uint32 (b : string) : res Z := res_map of_be (slice_to 4 b).

Arguments slice_to : simpl never.
Arguments slice_from : simpl never.
Arguments Uint64 : simpl never.
Arguments Uint32 : simpl never.
Arguments be64 : simpl never.
Arguments be32 : simpl never.

(** ** The byte-wise order ([bytes.Compare]) *)

Fixpoint bltb (s t : string) : bool :=
  match s, t with
  | EmptyString, EmptyString => false
  | EmptyString, String _ _ => true
  | String _ _, EmptyString => false
  | String a s', String b t' =>
      if Z_of_byte a <? Z_of_byte b then true
      else if Z_of_byte b <? Z_of_byte a then false
      else bltb s' t'
  end.
Definition bleb (s t : string) : bool := negb (bltb t s).
Definition blt (s t : string) : Prop := bltb s t = true.
Definition ble (s t : string) : Prop := bleb s t = true.
Arguments blt : simpl never.
Arguments ble : simpl never.

(** [bytes.HasPrefix] *)
Fixpoint sprefix (p s : string) : bool :=
  match p, s with
  | EmptyString, _ => true
  | String _ _, EmptyString => false
  | String a p', String b s' => bool_decide (a = b) && sprefix p' s'
  end.

Lemma Z_of_byte_inj a b : Z_of_byte a = Z_of_byte b → a = b.
Proof.
  intros H%N2Z.inj. rewrite <- (ascii_N_embedding a), <- (ascii_N_embedding b). congruence.
Qed.

Lemma Z_of_byte_range a : 0 ≤ Z_of_byte a < 256.
Proof.
  unfold Z_of_byte. pose proof (N_ascii_bounded a). lia.
Qed.

Lemma Z_of_byte_of_Z z : Z_of_byte (byte_of_Z z) = z `mod` 256.
Proof.
  unfold Z_of_byte, byte_of_Z. pose proof (Z.mod_pos_bound z 256).
  rewrite N_ascii_embedding by lia. lia.
Qed.

Lemma byte_of_Z_of_byte a : byte_of_Z (Z_of_byte a) = a.
Proof.
  apply Z_of_byte_inj. rewrite Z_of_byte_of_Z. pose proof (Z_of_byte_range a).
  by rewrite Z.mod_small.
Qed.

(** *** Order facts *)

Lemma blt_irrefl s : ¬ blt s s.
Proof. unfold blt. induction s as [|a s IH]; simpl; [done|]. by rewrite Z.ltb_irrefl. Qed.

Lemma blt_cons a s b t :
  blt (String a s) (String b t) ↔ Z_of_byte a < Z_of_byte b ∨ a = b ∧ blt s t.
Proof.
  unfold blt; simpl.
  destruct (Z.ltb_spec (Z_of_byte a) (Z_of_byte b)); [split; auto|].
  destruct (Z.ltb_spec (Z_of_byte b) (Z_of_byte a)).
  - split; [done|]. intros [?|[-> _]]; lia.
  - assert (a = b) as -> by (apply Z_of_byte_inj; lia).
    split; [by auto|]. intros [?|[_ ?]]; [lia|done].
Qed.

Lemma blt_trans s t u : blt s t → blt t u → blt s u.
Proof.
  revert t u; induction s as [|a s IH]; intros [|b t] [|c u]; try done.
  rewrite !blt_cons. intros [?|[-> ?]] [?|[-> ?]]; eauto with lia.
Qed.

Lemma blt_trichotomy s t : blt s t ∨ s = t ∨ blt t s.
Proof.
  revert t; induction s as [|a s IH]; intros [|b t]; [by auto|by left|by right; right|].
  rewrite !blt_cons.
  destruct (Z.lt_trichotomy (Z_of_byte a) (Z_of_byte b)) as [?|[->%Z_of_byte_inj|?]]; [by auto| |by auto].
  destruct (IH t) as [?|[->|?]]; auto.
Qed.

Lemma ble_blt s t : ble s t ↔ blt s t ∨ s = t.
Proof.
  unfold ble, bleb. rewrite negb_true_iff. split.
  - intros H. destruct (blt_trichotomy s t) as [?|[->|Hlt]]; auto.
    unfold blt in Hlt. congruence.
  - intros [H| ->].
    + destruct (bltb t s) eqn:E; [|done]. exfalso. by eapply blt_irrefl, blt_trans.
    + destruct (bltb t t) eqn:E; [|done]. by apply blt_irrefl in E.
Qed.

Lemma not_ble s t : ¬ ble s t ↔ blt t s.
Proof.
  unfold ble, bleb, blt. destruct (bltb t s); simpl; intuition congruence.
Qed.

Lemma bleb_spec s t : reflect (ble s t) (bleb s t).
Proof. unfold ble. destruct (bleb s t); constructor; congruence. Qed.

#[export] Instance blt_dec s t : Decision (blt s t).
Proof. unfold blt. apply _. Defined.
#[export] Instance ble_dec s t : Decision (ble s t).
Proof. unfold ble. apply _. Defined.
#[export] Instance ble_total : Total ble.
Proof. intros s t. rewrite !ble_blt. destruct (blt_trichotomy s t) as [?|[->|?]]; auto. Qed.
#[export] Instance ble_trans : Transitive ble.
Proof.
  intros s t u. rewrite !ble_blt. intros [?| ->] [?| ->]; eauto using blt_trans.
Qed.
#[export] Instance ble_antisymm : AntiSymm (=) ble.
Proof.
  intros s t. rewrite !ble_blt. intros [?|?] [?|?]; auto.
  exfalso. eapply blt_irrefl, blt_trans; eauto.
Qed.

(** *** Prefixes *)

Lemma sapp_cons a s t : String a s ++ t = String a (s ++ t).
Proof. done. Qed.

Lemma sprefix_spec p s : sprefix p s = true ↔ ∃ r, s = p ++ r.
Proof.
  revert s; induction p as [|a p IH]; intros s; simpl.
  { split; [intros _; by exists s | done]. }
  destruct s as [|b s]; simpl.
  { split; [done|]. by intros [r Hr]. }
  rewrite andb_true_iff, bool_decide_eq_true, IH. split.
  - intros [-> [r ->]]. by exists r.
  - intros [r [= -> ->]]. eauto.
Qed.

(** Every string at or above [p] in the order is above all extensions of
    [p], unless [p] is one of its prefixes. *)
Lemma blt_app_r p k r : sprefix p k = false → ble p k ↔ blt (p ++ r) k.
Proof.
  rewrite ble_blt.
  revert k; induction p as [|a p IH]; intros k; simpl; [done|].
  destruct k as [|b k].
  { intros _. split; [|done]. by intros [?|?]. }
  simpl. rewrite blt_cons. rewrite (blt_cons a (p ++ r)).
  intros [Hab|Hk]%andb_false_iff.
  - apply bool_decide_eq_false in Hab. split; [intros [[?|[? _]]|?]; auto; congruence|].
    intros [?|[? _]]; [by auto|congruence].
  - apply IH in Hk. split.
    + intros [[?|[? ?]]|[= -> ->]]; [by auto|right; tauto|right; tauto].
    + intros [?|[-> ?]]; [by auto|]. destruct (proj2 Hk) as [?| ->]; auto.
Qed.

Lemma ble_app_l p r : ble p (p ++ r).
Proof.
  rewrite ble_blt. induction p as [|a p IH]; simpl.
  - destruct r; [by right|by left].
  - destruct IH as [?|IH]; [left; rewrite sapp_cons, blt_cons; auto|right; rewrite sapp_cons; congruence].
Qed.

Lemma sapp_assoc (a b c : string) : (a ++ b) ++ c = a ++ (b ++ c).
Proof. induction a as [|x a IH]; [done|]. by rewrite !sapp_cons, IH. Qed.

Lemma sapp_nil_r (a : string) : a ++ EmptyString = a.
Proof. induction a as [|x a IH]; [done|]. by rewrite sapp_cons, IH. Qed.

Lemma slength_app (a b : string) :
  (String.length (a ++ b) = String.length a + String.length b)%nat.
Proof. induction a as [|x a IH]; [done|]. rewrite sapp_cons. simpl. by rewrite IH. Qed.

Lemma substring_full s : String.substring 0 (String.length s) s = s.
Proof. induction s; simpl; congruence. Qed.

Lemma stake_length n s : (n ≤ String.length s)%nat → String.length (stake n s) = n.
Proof.
  revert n; induction s as [|c s IH]; intros [|n]; simpl; try done; try lia.
  intros H. f_equal. apply IH. lia.
Qed.
Lemma stake_app a b n : String.length a = n → stake n (a ++ b) = a.
Proof.
  intros <-. unfold stake. induction a as [|c a IH].
  - by destruct b.
  - rewrite sapp_cons. simpl. by rewrite IH.
Qed.

Lemma sdrop_app a b n : String.length a = n → sdrop n (a ++ b) = b.
Proof.
  intros <-. unfold sdrop. rewrite slength_app. induction a as [|c a IH].
  - simpl. rewrite Nat.sub_0_r. apply substring_full.
  - apply IH.
Qed.
Lemma stake_sdrop n s : (stake n s ++ sdrop n s)%string = s.
Proof.
  revert s. induction n as [|n IH]; intros s.
  - assert (stake 0 s = EmptyString) as -> by (by destruct s). exact (sdrop_app EmptyString s 0 eq_refl).
  - destruct s as [|c s]; [done|]. change (String c (stake n s ++ sdrop n s) = String c s). by rewrite IH.
Qed.

Lemma sapp_inj a b c d :
  String.length a = String.length b → a ++ c = b ++ d → a = b ∧ c = d.
Proof.
  revert b; induction a as [|x a IH]; intros [|y b] Hl H; simplify_eq/=; [done|].
  destruct (IH b) as [-> ->]; auto.
Qed.

Lemma sprefix_same_length a b c :
  String.length a = String.length b → sprefix a (b ++ c) = true → a = b.
Proof.
  intros Hl [r Hr]%sprefix_spec. symmetry in Hr. by apply sapp_inj in Hr as [-> _].
Qed.

(** *** Big-endian encodings *)

Lemma be_length n z : String.length (be n z) = n.
Proof. induction n; simpl; congruence. Qed.

Lemma of_be_acc_be n z acc :
  of_be_acc acc (be n z) = acc * 256 ^ Z.of_nat n + z `mod` 256 ^ Z.of_nat n.
Proof.
  revert acc; induction n as [|n IH]; intros acc; cbn [be of_be_acc].
  - rewrite Z.pow_0_r, Z.mod_1_r. lia.
  - rewrite IH, Z_of_byte_of_Z, Nat2Z.inj_succ, Z.pow_succ_r by lia.
    assert (0 < 256 ^ Z.of_nat n) by (apply Z.pow_pos_nonneg; lia).
    rewrite (Z.mul_comm 256 (256 ^ Z.of_nat n)), Z.rem_mul_r by lia. lia.
Qed.

Lemma of_be_be n z : of_be (be n z) = z `mod` 256 ^ Z.of_nat n.
Proof. unfold of_be. rewrite of_be_acc_be. lia. Qed.

Lemma be_length_64 z : String.length (be64 z) = 8%nat.
Proof. apply be_length. Qed.

Lemma of_be_be64 z : is_u64 z → of_be (be64 z) = z.
Proof. intros Hz. unfold be64. rewrite of_be_be. by apply Z.mod_small. Qed.

Lemma Uint64_be64_app z r : is_u64 z → Uint64 (be64 z ++ r) = Ok z.
Proof.
  intros Hz. unfold Uint64, slice_to. rewrite slength_app, be_length_64. simpl.
  rewrite stake_app by apply be_length_64. by rewrite of_be_be64.
Qed.

Lemma Uint64_be64 z : is_u64 z → Uint64 (be64 z) = Ok z.
Proof.
  intros Hz. unfold Uint64, slice_to. rewrite be_length_64. cbn [Nat.leb res_map].
  unfold stake. rewrite <-(be_length_64 z) at 1. rewrite substring_full. by rewrite of_be_be64.
Qed.

Lemma Uint32_be32_app z r : is_u32 z → Uint32 (be32 z ++ r) = Ok z.
Proof.
  intros Hz. unfold Uint32, slice_to. rewrite slength_app. unfold be32. rewrite be_length.
  rewrite (proj2 (Nat.leb_le _ _)) by lia. cbn [res_map].
  rewrite stake_app by apply be_length. rewrite of_be_be. f_equal. by apply Z.mod_small.
Qed.

Lemma be64_inj x y : is_u64 x → is_u64 y → be64 x = be64 y → x = y.
Proof. intros Hx Hy H. by rewrite <-(of_be_be64 x), <-(of_be_be64 y), H. Qed.

(** Big-endian encodings of the same width are ordered as the numbers are:
    the reason why a database cursor visits message keys in increasing
    order of identifiers. *)
Lemma blt_be n x y r q :
  0 ≤ x < 256 ^ Z.of_nat n → 0 ≤ y < 256 ^ Z.of_nat n → x < y →
  blt (be n x ++ r) (be n y ++ q).
Proof.
  assert (∀ x y, 0 ≤ x → 0 ≤ y → x `mod` 256 ^ Z.of_nat n < y `mod` 256 ^ Z.of_nat n →
    blt (be n x ++ r) (be n y ++ q)) as Hgen.
  { clear. induction n as [|n IH]; intros x y Hx Hy Hlt.
    - change (Z.of_nat 0) with 0 in Hlt. rewrite Z.pow_0_r, !Z.mod_1_r in Hlt. lia.
    - cbn [be]. rewrite !sapp_cons, blt_cons, !Z_of_byte_of_Z.
      rewrite Nat2Z.inj_succ, Z.pow_succ_r in Hlt by lia.
      set (B := 256 ^ Z.of_nat n) in *.
      assert (0 < B) by (apply Z.pow_pos_nonneg; lia).
      rewrite (Z.mul_comm 256 B), !Z.rem_mul_r in Hlt by lia.
      pose proof (Z.mod_pos_bound x B). pose proof (Z.mod_pos_bound y B).
      pose proof (Z.mod_pos_bound (x / B) 256). pose proof (Z.mod_pos_bound (y / B) 256).
      destruct (Z.lt_trichotomy ((x / B) `mod` 256) ((y / B) `mod` 256)) as [?|[Heq|?]].
      + by left.
      + right. split; [apply Z_of_byte_inj; by rewrite !Z_of_byte_of_Z|]. apply IH; nia.
      + nia. }
  intros Hx Hy Hlt. apply Hgen; [lia..|]. by rewrite !Z.mod_small.
Qed.

Lemma blt_be64 x y r q : is_u64 x → is_u64 y → x < y → blt (be64 x ++ r) (be64 y ++ q).
Proof. intros. by apply (blt_be 8). Qed.

(** ** Positive numbers as strings of binary digits, for concrete encoders *)

Fixpoint pos_bits (p : positive) : string :=
  match p with
  | xH => EmptyString
  | xO p => String "0"%char (pos_bits p)
  | xI p => String "1"%char (pos_bits p)
  end.
Fixpoint bits_pos (s : string) : positive :=
  match s with
  | EmptyString => xH
  | String c s => if Ascii.eqb c "1"%char then xI (bits_pos s) else xO (bits_pos s)
  end.

Lemma bits_pos_bits p : bits_pos (pos_bits p) = p.
Proof. induction p; simpl; congruence. Qed.
