(* ===== verification/Text.v ===== *)
(** * Text: what the code uses of [strings], [strconv], [net] and [path/filepath]

    A Go string is a sequence of bytes.  Functions that depend on Unicode are
    modelled as far as their use can tell, as noted at each. *)

From S2P Require Import Prelude Bytes.
From stdpp Require Import pretty.
From Stdlib Require Import Ascii.
Local Open Scope Z_scope.
Local Open Scope list_scope.

(** ** Characters and lines *)

Fixpoint all_chars (p : ascii → bool) (s : string) : bool :=
  match s with EmptyString => true | String c s => p c && all_chars p s end.

Definition between (a b : Z) (c : ascii) : bool := (a <=? Z_of_byte c) && (Z_of_byte c <=? b).
Definition is_char (z : Z) (c : ascii) : bool := Z_of_byte c =? z.

(** [strings.ToLower] of ASCII letters. *)
Definition lower_char (c : ascii) : ascii :=
  if (65 <=? Z_of_byte c) && (Z_of_byte c <=? 90) then byte_of_Z (Z_of_byte c + 32) else c.
Fixpoint ToLower (s : string) : string :=
  match s with EmptyString => EmptyString | String c s => String (lower_char c) (ToLower s) end.

Definition newline : string := String "010" EmptyString.
Definition quote : string := String "034" EmptyString.
Fixpoint Join (sep : string) (l : list string) : string :=
  match l with
  | [] => EmptyString
  | [s] => s
  | s :: l => (s ++ sep ++ Join sep l)%string
  end.
(** ["%d"] of an unsigned number *)
Definition decimal (n : Z) : string := pretty (Z.to_N n).
(** ["%-14s"] of a text of ASCII characters, as the names of commands are *)
Fixpoint spaces (n : nat) : string :=
  match n with O => EmptyString | S n => String " " (spaces n) end.
Definition pad14 (s : string) : string := (s ++ spaces (14 - String.length s))%string.

(** Decimal numbers without a sign. *)
Fixpoint digits (acc : Z) (s : string) : option Z :=
  match s with
  | EmptyString => Some acc
  | String c s =>
      if (48 <=? Z_of_byte c) && (Z_of_byte c <=? 57)
      then digits (10 * acc + (Z_of_byte c - 48)) s else None
  end.
Definition natural (s : string) : option Z :=
  match s with EmptyString => None | _ => digits 0 s end.

(** ** Words *)

(** [strings.Fields]: the spaces of Unicode, in UTF-8. *)
Definition space_sequences : list string :=
  let seq := foldr (λ n s, String (byte_of_Z n) s) EmptyString in
  (seq <$> ([[9]; [10]; [11]; [12]; [13]; [32]; [194; 133]; [194; 160]; [225; 154; 128]] ++
   ((λ n, [226; 128; n]) <$> [128; 129; 130; 131; 132; 133; 134; 135; 136; 137; 138; 168; 169; 175]) ++
   [[226; 129; 159]; [227; 128; 128]])).
Definition space_at (s : string) : nat :=
  match filter (λ p, sprefix p s = true) space_sequences with p :: _ => String.length p | [] => 0%nat end.
(** [skip]: bytes left of the space at hand; [word]: the word so far. *)
Fixpoint fields (s : string) (skip : nat) (word : string) : list string :=
  let flush := if bool_decide (word = EmptyString) then [] else [word] in
  match s with
  | EmptyString => flush
  | String c r =>
      match skip with
      | S skip => fields r skip word
      | O =>
          match space_at s with
          | O => fields r 0 (word ++ String c EmptyString)
          | S n => flush ++ fields r n EmptyString
          end
      end
  end.
Definition Fields (s : string) : list string := fields s 0 EmptyString.

(** [strings.Contains] *)
Fixpoint Contains (s sub : string) : bool :=
  sprefix sub s || match s with EmptyString => false | String _ s => Contains s sub end.

(** [strings.ToLower] as far as it can give ["inbox"]: apart from the
    letters of ASCII, only U+0130 has one of its letters as lower case. *)
Fixpoint lower_name (s : string) : string :=
  match s with
  | String c r =>
      match r with
      | String d r' => if is_char 196 c && is_char 176 d then String "i" (lower_name r')
                       else String (lower_char c) (lower_name r)
      | EmptyString => String (lower_char c) EmptyString
      end
  | EmptyString => EmptyString
  end.

(** [strings.TrimSpace]; [skip]: bytes left of the space at hand. *)
Fixpoint trim_left (s : string) (skip : nat) : string :=
  match s with
  | EmptyString => EmptyString
  | String _ r =>
      match skip with
      | S skip => trim_left r skip
      | O => match space_at s with O => s | S n => trim_left r n end
      end
  end.
Fixpoint trim_right (s : string) : string :=
  match s with
  | EmptyString => EmptyString
  | String c r => if bool_decide (trim_left s 0 = EmptyString) then EmptyString else String c (trim_right r)
  end.
Definition TrimSpace (s : string) : string := trim_right (trim_left s 0).

(** [strings.Split] at a separator of one byte *)
Fixpoint Split (z : Z) (s : string) : list string :=
  match s with
  | EmptyString => [EmptyString]
  | String c s =>
      if is_char z c then EmptyString :: Split z s
      else match Split z s with
           | w :: l => String c w :: l
           | [] => [String c EmptyString]
           end
  end.

(** ** UTF-8 ([unicode/utf8]) *)

Definition is_ascii : ascii → bool := between 0 127.
(** The first byte of a sequence: the range of the second byte, and how many
    more follow.  Neither long forms nor surrogates are allowed. *)
Definition utf8_lead (c : ascii) : option (Z * Z * nat) :=
  if between 194 223 c then Some (128, 191, 0%nat)
  else if is_char 224 c then Some (160, 191, 1%nat)
  else if is_char 237 c then Some (128, 159, 1%nat)
  else if between 225 239 c then Some (128, 191, 1%nat)
  else if is_char 240 c then Some (144, 191, 2%nat)
  else if between 241 243 c then Some (128, 191, 2%nat)
  else if is_char 244 c then Some (128, 143, 2%nat)
  else None.
Fixpoint utf8_tail (n : nat) (s : string) : bool :=
  match n, s with
  | O, _ => true
  | S n, String c s => between 128 191 c && utf8_tail n s
  | S _, EmptyString => false
  end.
(** The bytes of the first character, zero if they are not one. *)
Definition rune_size (s : string) : nat :=
  match s with
  | EmptyString => 0
  | String c r =>
      if is_ascii c then 1
      else match utf8_lead c, r with
           | Some (lo, hi, n), String d r => if between lo hi d && utf8_tail n r then S (S n) else 0
           | _, _ => 0
           end
  end%nat.

(** [utf8.ValidString]; [skip]: bytes left of the character at hand. *)
Fixpoint utf8_from (s : string) (skip : nat) : bool :=
  match s with
  | EmptyString => true
  | String _ r =>
      match skip with
      | S skip => utf8_from r skip
      | O => match rune_size s with O => false | S n => utf8_from r n end
      end
  end.
Definition utf8_valid (s : string) : bool := utf8_from s 0.

(** Each byte that belongs to no character becomes U+FFFD, as when
    [encoding/json] writes a string. *)
Definition replacement (s : string) : string := String (byte_of_Z 239) (String (byte_of_Z 191) (String (byte_of_Z 189) s)).
Fixpoint replaced_from (s : string) (skip : nat) : string :=
  match s with
  | EmptyString => EmptyString
  | String c r =>
      match skip with
      | S skip => String c (replaced_from r skip)
      | O => match rune_size s with O => replacement (replaced_from r 0) | S n => String c (replaced_from r n) end
      end
  end.
Definition utf8_replaced (s : string) : string := replaced_from s 0.

(** ** Network addresses ([net]) *)

Fixpoint IndexByte (z : Z) (s : string) : option nat :=
  match s with
  | EmptyString => None
  | String c s => if is_char z c then Some 0%nat else S <$> IndexByte z s
  end.
Fixpoint LastIndexByte (z : Z) (s : string) : option nat :=
  match s with
  | EmptyString => None
  | String c s =>
      match LastIndexByte z s with
      | Some n => Some (S n)
      | None => if is_char z c then Some 0%nat else None
      end
  end.
Definition has_byte (z : Z) (s : string) : bool := bool_decide (is_Some (IndexByte z s)).

Definition addrErr (addr why : string) : error := ErrNew ("address " ++ addr ++ ": " ++ why).

(** The port follows the last colon; a host with colons is in brackets. *)
Definition SplitHostPort (hostport : string) : res (string * string) :=
  match LastIndexByte 58 hostport with
  | None => Err (addrErr hostport "missing port in address")
  | Some i =>
      let rest (host : string) (j k : nat) :=
        if has_byte 91 (sdrop j hostport) then Err (addrErr hostport "unexpected '[' in address")
        else if has_byte 93 (sdrop k hostport) then Err (addrErr hostport "unexpected ']' in address")
        else Ok (host, sdrop (S i) hostport) in
      if sprefix "[" hostport then
        match IndexByte 93 hostport with
        | None => Err (addrErr hostport "missing ']' in address")
        | Some e =>
            if (S e =? String.length hostport)%nat then Err (addrErr hostport "missing port in address")
            else if (S e =? i)%nat then rest (stake (e - 1) (sdrop 1 hostport)) 1%nat (S e)
            else if sprefix ":" (sdrop (S e) hostport) then Err (addrErr hostport "too many colons in address")
            else Err (addrErr hostport "missing port in address")
        end
      else
        let host := stake i hostport in
        if has_byte 58 host then Err (addrErr hostport "too many colons in address")
        else rest host 0%nat 0%nat
  end.

Definition JoinHostPort (host port : string) : string :=
  if has_byte 58 host then ("[" ++ host ++ "]:" ++ port)%string else (host ++ ":" ++ port)%string.

(** ** Paths ([path/filepath] on Unix) *)

(** The elements of a path without [.] and with [..] resolved; [stack]: the
    elements so far, in reverse. *)
Fixpoint clean_elems (rooted : bool) (l stack : list string) : list string :=
  match l with
  | [] => rev stack
  | e :: l =>
      if bool_decide (e = EmptyString) || bool_decide (e = "."%string) then clean_elems rooted l stack
      else if bool_decide (e = ".."%string) then
        match stack with
        | top :: rest =>
            clean_elems rooted l (if bool_decide (top = ".."%string) then e :: stack else rest)
        | [] => clean_elems rooted l (if rooted then [] else [e])
        end
      else clean_elems rooted l (e :: stack)
  end.
Definition Clean (path : string) : string :=
  let rooted := sprefix "/" path in
  let s := Join "/" (clean_elems rooted (Split 47 path) []) in
  if rooted then ("/" ++ s)%string else if bool_decide (s = EmptyString) then "."%string else s.
(** [filepath.Join] of two elements *)
Definition JoinPath (a b : string) : string :=
  if bool_decide (a = EmptyString) then if bool_decide (b = EmptyString) then EmptyString else Clean b
  else Clean (a ++ "/" ++ b)%string.
Definition Dir (path : string) : string :=
  match LastIndexByte 47 path with None => "."%string | Some i => Clean (stake (S i) path) end.

Example split_port : SplitHostPort "127.0.0.1:8442" = Ok ("127.0.0.1", "8442")%string.
Proof. vm_compute. reflexivity. Qed.
Example split_v6 : SplitHostPort (JoinHostPort "::1" "8442") = Ok ("::1", "8442")%string.
Proof. vm_compute. reflexivity. Qed.
Example clean_path : Clean "a/./b/../../../c//d/" = "../c/d"%string ∧ Clean "/../a/" = "/a"%string.
Proof. vm_compute. done. Qed.
Example dir_path : Dir "/home/u/.bmagent" = "/home/u"%string.
Proof. vm_compute. reflexivity. Qed.
Example trim : TrimSpace "  a b  " = "a b"%string.
Proof. vm_compute. reflexivity. Qed.

(** ** Hosts and ports *)

Lemma is_char_neq z c : is_char z c = false ↔ Z_of_byte c ≠ z.
Proof. unfold is_char. by rewrite Z.eqb_neq. Qed.

Lemma has_byte_false z s : has_byte z s = false ↔ IndexByte z s = None.
Proof. unfold has_byte. rewrite bool_decide_eq_false. by rewrite eq_None_not_Some. Qed.

Lemma IndexByte_app z a b : IndexByte z a = None →
  IndexByte z (a ++ b) = Nat.add (String.length a) <$> IndexByte z b.
Proof.
  induction a as [|c a IH].
  { intros _. change (EmptyString ++ b)%string with b. by destruct (IndexByte z b). }
  rewrite sapp_cons. cbn. destruct (is_char z c); [done|]. intros Ha.
  destruct (IndexByte z a); [done|]. rewrite IH by done. by destruct (IndexByte z b).
Qed.

Lemma LastIndexByte_None z s : IndexByte z s = None → LastIndexByte z s = None.
Proof.
  induction s as [|c s IH]; cbn; [done|]. destruct (is_char z c); [done|].
  intros Hs. destruct (IndexByte z s); [done|]. by rewrite IH.
Qed.

Lemma LastIndexByte_app z a c b : is_char z c = true → IndexByte z b = None →
  LastIndexByte z (a ++ String c b) = Some (String.length a).
Proof.
  intros Hc Hb. induction a as [|d a IH].
  - change (EmptyString ++ String c b)%string with (String c b). cbn. by rewrite LastIndexByte_None, Hc.
  - rewrite sapp_cons. cbn. by rewrite IH.
Qed.

Lemma has_byte_app z a b : has_byte z (a ++ b) = has_byte z a || has_byte z b.
Proof.
  unfold has_byte. destruct (IndexByte z a) as [n|] eqn:Ha.
  - assert (is_Some (IndexByte z (a ++ b))) as Hs.
    { clear -Ha. revert n Ha. induction a as [|c a IH]; intros n Ha; [done|]. rewrite sapp_cons. cbn in *.
      destruct (is_char z c); [by eexists|]. destruct (IndexByte z a) as [m|]; [|done].
      destruct (IH m eq_refl) as [k ->]. by eexists. }
    rewrite (bool_decide_eq_true_2 _ Hs). by rewrite bool_decide_eq_true_2.
  - rewrite IndexByte_app by done. by destruct (IndexByte z b).
Qed.

Lemma has_byte_one z c s : has_byte z (String c s) = is_char z c || has_byte z s.
Proof. unfold has_byte. cbn. destruct (is_char z c); [done|]. by destruct (IndexByte z s). Qed.

(** A host without brackets and a port without colons or brackets are
    found again in the address made of them. *)
Lemma SplitHostPort_JoinHostPort host port :
  has_byte 91 host = false → has_byte 93 host = false →
  has_byte 58 port = false → has_byte 91 port = false → has_byte 93 port = false →
  SplitHostPort (JoinHostPort host port) = Ok (host, port).
Proof.
  intros H91 H93 P58%has_byte_false P91 P93. unfold JoinHostPort. destruct (has_byte 58 host) eqn:H58.
  - set (full := ("[" ++ host ++ "]:" ++ port)%string).
    assert (full = (("[" ++ host ++ "]") ++ String ":" port)%string) as E1
      by (unfold full; by rewrite !sapp_assoc).
    assert (IndexByte 93 full = Some (S (String.length host))) as E2.
    { unfold full. rewrite IndexByte_app by done. rewrite IndexByte_app by by apply has_byte_false.
      change ("]:" ++ port)%string with (String "]" (String ":" port)). cbn.
      change (is_char 93 "]") with true. cbn. f_equal. lia. }
    assert (LastIndexByte 58 full = Some (S (S (String.length host)))) as E3.
    { rewrite E1, LastIndexByte_app by done. rewrite !slength_app. cbn. f_equal. lia. }
    assert (String.length full = (S (S (S (String.length host))) + String.length port)%nat) as E4.
    { rewrite E1, !slength_app. cbn. lia. }
    assert (sdrop 1 full = (host ++ "]:" ++ port)%string) as E5 by by apply (sdrop_app "[").
    assert (sdrop (S (S (String.length host))) full = String ":" port) as E6.
    { rewrite E1. apply sdrop_app. rewrite !slength_app. cbn. lia. }
    assert (sdrop (S (S (S (String.length host)))) full = port) as E7.
    { replace full with (("[" ++ host ++ "]:") ++ port)%string by (unfold full; by rewrite !sapp_assoc).
      apply sdrop_app. rewrite !slength_app. cbn. lia. }
    unfold SplitHostPort. rewrite E3, E2, E4, E5, E6, E7.
    rewrite (proj2 (Nat.eqb_neq (S (S (String.length host))) _)) by lia. rewrite Nat.eqb_refl.
    rewrite has_byte_app, H91, has_byte_app, P91, (has_byte_one 93 ":" port), P93.
    replace (S (String.length host) - 1)%nat with (String.length host) by lia.
    rewrite stake_app by done. by unfold full.
  - set (full := (host ++ ":" ++ port)%string).
    assert (LastIndexByte 58 full = Some (String.length host)) as E3 by by apply LastIndexByte_app.
    assert (sprefix "[" full = false) as E4.
    { unfold full. destruct host as [|c host]; [done|]. rewrite has_byte_one in H91.
      apply orb_false_iff in H91 as [Hc _]. rewrite sapp_cons. cbn [sprefix].
      rewrite bool_decide_eq_false_2; [done|]. intros <-. done. }
    assert (has_byte 91 full = false) as E5 by (unfold full; by rewrite !has_byte_app, H91, P91).
    assert (has_byte 93 full = false) as E6 by (unfold full; by rewrite !has_byte_app, H93, P93).
    assert (stake (String.length host) full = host) as E7 by by apply stake_app.
    assert (sdrop 0 full = full) as E8.
    { unfold sdrop. by rewrite Nat.sub_0_r, substring_full. }
    assert (sdrop (S (String.length host)) full = port) as E9.
    { replace full with ((host ++ ":") ++ port)%string by (unfold full; by rewrite sapp_assoc).
      apply sdrop_app. rewrite slength_app. cbn. lia. }
    unfold SplitHostPort. by rewrite E3, E4, E7, H58, E8, E5, E6, E9.
Qed.

(** Decimal numbers are written with digits only. *)
Lemma digit_free z x s : (z < 48 ∨ 57 < z) → has_byte z s = false →
  has_byte z (String (pretty_N_char (x `mod` 10)%N) s) = false.
Proof.
  intros Hz Hs. rewrite has_byte_one, Hs, orb_false_r. apply is_char_neq.
  assert (x `mod` 10 < 10)%N as Hx by by apply N.mod_lt. revert Hx. generalize (x `mod` 10)%N as d.
  intros d Hd. assert (48 ≤ Z_of_byte (pretty_N_char d) ≤ 57); [|lia].
  destruct d as [|p]; [by vm_compute|].
  do 4 (try destruct p as [p|p|]); try lia; by vm_compute.
Qed.

Lemma has_byte_pretty z (x : N) : (z < 48 ∨ 57 < z) → has_byte z (pretty x) = false.
Proof.
  intros Hz. unfold pretty, pretty_N. case_decide as Hx.
  { rewrite has_byte_one, orb_false_r. apply is_char_neq. change (Z_of_byte "0") with 48. lia. }
  assert (∀ s, has_byte z s = false → has_byte z (pretty_N_go x s) = false) as H; [|by apply H].
  clear Hx. induction (N.lt_wf_0 x) as [x _ IH]. intros s Hs.
  destruct (decide (0 < x)%N) as [Hx|Hx].
  - rewrite pretty_N_go_step by done. apply IH; [by apply N.div_lt|]. by apply digit_free.
  - replace x with 0%N by lia. by rewrite pretty_N_go_0.
Qed.

Lemma has_byte_decimal z n : (z < 48 ∨ 57 < z) → has_byte z (decimal n) = false.
Proof. apply has_byte_pretty. Qed.

Lemma Clean_nonempty p : Clean p ≠ EmptyString.
Proof.
  unfold Clean. destruct (sprefix "/" p); [by rewrite sapp_cons|]. by case_bool_decide.
Qed.

(** ** Splitting *)

Lemma Split_app z a c b : has_byte z a = false → is_char z c = true → Split z (a ++ String c b) = a :: Split z b.
Proof.
  intros Ha Hc. induction a as [|d a IH].
  - change (EmptyString ++ String c b)%string with (String c b). cbn. by rewrite Hc.
  - rewrite has_byte_one in Ha. apply orb_false_iff in Ha as [Hd Ha].
    rewrite sapp_cons. cbn. by rewrite Hd, IH.
Qed.

Lemma Split_none z a : has_byte z a = false → Split z a = [a].
Proof.
  induction a as [|d a IH]; [done|]. rewrite has_byte_one. intros [Hd Ha]%orb_false_iff. cbn.
  by rewrite Hd, IH.
Qed.

Lemma Split_Join z c l : is_char z c = true → l ≠ [] → Forall (λ s, has_byte z s = false) l →
  Split z (Join (String c EmptyString) l) = l.
Proof.
  intros Hc Hl Ha. induction Ha as [|s l Hs Ha IH]; [done|]. destruct l as [|t l]; [by apply Split_none|].
  change (Join (String c EmptyString) (s :: t :: l))
    with (s ++ String c (Join (String c EmptyString) (t :: l)))%string.
  by rewrite Split_app, IH.
Qed.

Lemma sprefix_app p a b : sprefix p a = true → sprefix p (a ++ b) = true.
Proof. rewrite !sprefix_spec. intros [r ->]. exists (r ++ b)%string. by rewrite sapp_assoc. Qed.

Lemma Contains_app a b sub : Contains a sub = true → Contains (a ++ b) sub = true.
Proof.
  induction a as [|c a IH]; intros H.
  - cbn in H. rewrite orb_false_r in H. apply (sprefix_app _ _ b) in H.
    change (EmptyString ++ b)%string with b in *. destruct b; cbn; by rewrite H.
  - cbn in H. apply orb_true_iff in H as [H|H]; rewrite sapp_cons; cbn; apply orb_true_iff;
      [left|right; by apply IH]. apply (sprefix_app _ _ b) in H. by rewrite sapp_cons in H.
Qed.

(** ** Replaced bytes *)

Lemma replaced_length s skip : (String.length s ≤ String.length (replaced_from s skip))%nat.
Proof.
  revert skip. induction s as [|c s IH]; intros skip; [done|]. cbn [replaced_from].
  destruct skip as [|skip]; [|specialize (IH skip); cbn; lia].
  destruct (rune_size _) as [|n]; [specialize (IH 0%nat); unfold replacement; cbn|specialize (IH n); cbn]; lia.
Qed.
Lemma replaced_valid s skip : replaced_from s skip = s ↔ utf8_from s skip = true.
Proof.
  revert skip. induction s as [|c s IH]; intros skip; [done|]. cbn [replaced_from utf8_from].
  assert (∀ n, String c (replaced_from s n) = String c s ↔ utf8_from s n = true) as H.
  { intros n. rewrite <- IH. split; [by intros [= ->]|by intros ->]. }
  destruct skip as [|skip]; [|done]. destruct (rune_size _) as [|n]; [|done].
  split; [|done]. intros E%(f_equal String.length). unfold replacement in E. cbn in E.
  pose proof (replaced_length s 0). lia.
Qed.
(** Only text that is valid stays as it is. *)
Lemma utf8_replaced_valid s : utf8_replaced s = s ↔ utf8_valid s = true.
Proof. apply replaced_valid. Qed.
Lemma ascii_utf8 s : all_chars is_ascii s = true → utf8_valid s = true.
Proof.
  unfold utf8_valid. induction s as [|c s IH]; [done|]. cbn [all_chars utf8_from rune_size].
  intros [-> Hs]%andb_true_iff. by apply IH.
Qed.
Lemma ascii_replaced s : all_chars is_ascii s = true → utf8_replaced s = s.
Proof. intros H. by apply utf8_replaced_valid, ascii_utf8. Qed.
