(* ===== verification/Float64.v ===== *)
(** * Go's [float64] on non-negative numbers

    [MessageSequence.GetSequenceNumber] interpolates with [float64]
    arithmetic.  A finite non-negative [float64] is modelled by its rational
    value; every operation computes the exact rational result and rounds it
    to 53 significant bits, ties to even, as IEEE 754 binary64 does.  The
    values of the program lie between [2^-64] and [2^97], far from overflow
    and from subnormal numbers, so the exponent is left unbounded.  [None]
    is the result of a division by zero (an infinity or a NaN). *)

From S2P Require Import Prelude.
From Stdlib Require Import QArith Qround Qpower Qminmax Lqa.
Local Open Scope Q_scope.

Definition pow2 (e : Z) : Q := Qpower 2 e.

(** The greatest [e] with [2^e <= x], for a positive [x]. *)
Definition log2_floor (x : Q) : Z :=
  let k := (Z.log2 (Qnum x) - Z.log2 (Zpos (Qden x)))%Z in
  if Qle_bool (pow2 k) x then k else (k - 1)%Z.

(** Nearest integer, ties to even. *)
Definition round_half_even (x : Q) : Z :=
  let f := Qfloor x in
  match Qcompare (x - inject_Z f) (1 # 2) with
  | Lt => f
  | Gt => (f + 1)%Z
  | Eq => if Z.even f then f else (f + 1)%Z
  end.

(** Round to nearest with 53 significant bits. *)
Definition rnd (x : Q) : Q :=
  if Qle_bool x 0 then 0
  else let e := (log2_floor x - 52)%Z in
       inject_Z (round_half_even (x * pow2 (- e))) * pow2 e.

Definition float64_of_uint (n : Z) : Q := rnd (inject_Z n).
Definition fadd (x y : Q) : Q := rnd (x + y).
Definition fmul (x y : Q) : Q := rnd (x * y).
Definition fdiv (x y : Q) : option Q :=
  if Qeq_bool y 0 then None else Some (rnd (x / y)).
(** [math.Floor], then the conversion to an integer type of width 32. *)
Definition uint32_of_floor (x : Q) : Z := u32 (Qfloor x).

(** ** Powers of two *)

Lemma pow2_pos e : 0 < pow2 e.
Proof. apply Qpower_0_lt. lra. Qed.

Lemma pow2_add a b : pow2 (a + b) == pow2 a * pow2 b.
Proof. apply Qpower_plus. lra. Qed.

Lemma pow2_opp a : pow2 a * pow2 (- a) == 1.
Proof. rewrite <-pow2_add. by rewrite Z.add_opp_diag_r. Qed.

Lemma pow2_inject n : (0 ≤ n)%Z → pow2 n == inject_Z (2 ^ n).
Proof. intros Hn. unfold pow2. by rewrite Zpower_Qpower. Qed.

Lemma pow2_le a b : (a ≤ b)%Z → pow2 a <= pow2 b.
Proof. intros. apply Qpower_le_compat_l; [done|lra]. Qed.

Lemma pow2_lt_inv a b : pow2 a < pow2 b → (a < b)%Z.
Proof.
  intros H. destruct (Z.lt_ge_cases a b) as [|Hge]; [done|].
  apply pow2_le in Hge. lra.
Qed.

Lemma pow2_succ e : pow2 (e + 1) == 2 * pow2 e.
Proof. rewrite pow2_add. change (pow2 1) with 2. ring. Qed.

(** ** The exponent *)

Lemma inject_Z_lt a b : (a < b)%Z → inject_Z a < inject_Z b.
Proof. by rewrite <-Zlt_Qlt. Qed.
Lemma inject_Z_le a b : (a ≤ b)%Z → inject_Z a <= inject_Z b.
Proof. by rewrite <-Zle_Qle. Qed.

Lemma Q_as_quotient x : x * inject_Z (Zpos (Qden x)) == inject_Z (Qnum x).
Proof. destruct x as [n d]. unfold Qeq; simpl. lia. Qed.

Lemma log2_floor_spec x : 0 < x →
  pow2 (log2_floor x) <= x ∧ x < pow2 (log2_floor x + 1).
Proof.
  intros Hx. unfold log2_floor.
  set (p := Qnum x). set (q := Zpos (Qden x)).
  assert (0 < p)%Z as Hp by (unfold Qlt in Hx; simpl in Hx; subst p; lia).
  assert (0 < q)%Z as Hq by (subst q; lia).
  pose proof (Q_as_quotient x) as Hpq. fold p q in Hpq.
  pose proof (Z.log2_spec p Hp) as [Hp1 Hp2]. pose proof (Z.log2_spec q Hq) as [Hq1 Hq2].
  pose proof (Z.log2_nonneg p). pose proof (Z.log2_nonneg q).
  apply inject_Z_le in Hp1, Hq1. apply inject_Z_lt in Hp2, Hq2.
  rewrite <-pow2_inject in Hp1, Hp2, Hq1, Hq2 by lia.
  unfold Z.succ in *.
  set (k := (Z.log2 p - Z.log2 q)%Z).
  assert (Hqpos : 0 < inject_Z q) by (apply (inject_Z_lt 0); lia).
  pose proof (pow2_pos (Z.log2 q)). pose proof (pow2_pos k).
  assert (Hk : pow2 (Z.log2 p) == pow2 k * pow2 (Z.log2 q)).
  { rewrite <-pow2_add. by replace (k + Z.log2 q)%Z with (Z.log2 p) by lia. }
  rewrite pow2_succ in Hp2, Hq2. rewrite Hk in Hp1, Hp2.
  assert (x < 2 * pow2 k) by (apply (Qmult_lt_r _ _ (inject_Z q)); [done|]; nra).
  destruct (Qle_bool (pow2 k) x) eqn:E.
  - apply Qle_bool_iff in E. rewrite pow2_succ. split; [done|lra].
  - assert (¬ pow2 k <= x) as Hlt by (rewrite <-Qle_bool_iff; congruence).
    apply Qnot_le_lt in Hlt.
    assert (pow2 k == 2 * pow2 (k - 1)) as Hk1.
    { rewrite <-pow2_succ. by replace (k - 1 + 1)%Z with k by lia. }
    replace (k - 1 + 1)%Z with k by lia. split; [|done].
    pose proof (pow2_pos (k - 1)). apply (Qmult_le_r _ _ (inject_Z q)); [done|]. nra.
Qed.

Lemma log2_floor_unique x e : pow2 e <= x → x < pow2 (e + 1) → log2_floor x = e.
Proof.
  intros H1 H2. pose proof (pow2_pos e).
  destruct (log2_floor_spec x) as [H3 H4]; [lra|].
  assert (log2_floor x < e + 1)%Z by (apply pow2_lt_inv; lra).
  assert (e < log2_floor x + 1)%Z by (apply pow2_lt_inv; lra). lia.
Qed.

Lemma log2_floor_mono x y : 0 < x → x <= y → (log2_floor x ≤ log2_floor y)%Z.
Proof.
  intros Hx Hxy. destruct (log2_floor_spec x) as [H1 H2]; [done|].
  destruct (log2_floor_spec y) as [H3 H4]; [lra|].
  assert (log2_floor x < log2_floor y + 1)%Z by (apply pow2_lt_inv; lra). lia.
Qed.

(** ** Rounding to an integer *)

Lemma rhe_floor x : (Qfloor x ≤ round_half_even x ≤ Qfloor x + 1)%Z.
Proof.
  unfold round_half_even. destruct (Qcompare _ _); [|lia..]. destruct (Z.even _); lia.
Qed.

Lemma rhe_mono x y : x <= y → (round_half_even x ≤ round_half_even y)%Z.
Proof.
  intros Hxy. pose proof (Qfloor_resp_le _ _ Hxy) as Hf.
  pose proof (rhe_floor x). pose proof (rhe_floor y).
  destruct (decide (Qfloor x = Qfloor y)) as [Heq|]; [|lia].
  unfold round_half_even. rewrite Heq.
  destruct (Qcompare_spec (x - inject_Z (Qfloor y)) (1 # 2)),
    (Qcompare_spec (y - inject_Z (Qfloor y)) (1 # 2)); try lia;
    try (destruct (Z.even _); lia); lra.
Qed.

#[export] Instance rhe_proper : Proper (Qeq ==> eq) round_half_even.
Proof.
  intros x y Hxy. apply Z.le_antisymm; apply rhe_mono; rewrite Hxy; apply Qle_refl.
Qed.

Lemma rhe_inject n : round_half_even (inject_Z n) = n.
Proof.
  unfold round_half_even. rewrite Qfloor_Z.
  destruct (Qcompare_spec (inject_Z n - inject_Z n) (1 # 2)); lra || done.
Qed.

(** ** Rounding to 53 bits *)

(** [rnd x] is between the powers of two around [x]. *)
Lemma rnd_pos_eq x : 0 < x →
  rnd x = inject_Z (round_half_even (x * pow2 (- (log2_floor x - 52)))) * pow2 (log2_floor x - 52).
Proof.
  intros Hx. unfold rnd. destruct (Qle_bool x 0) eqn:E; [|done].
  apply Qle_bool_iff in E. lra.
Qed.

Lemma rnd_binade x : 0 < x →
  pow2 (log2_floor x) <= rnd x ∧ rnd x <= pow2 (log2_floor x + 1).
Proof.
  intros Hx. rewrite rnd_pos_eq by done.
  destruct (log2_floor_spec x Hx) as [H1 H2].
  set (l := log2_floor x) in *. set (e := (l - 52)%Z).
  pose proof (pow2_pos e). pose proof (pow2_pos (- e)).
  assert (pow2 l == inject_Z (2 ^ 52) * pow2 e) as Hl.
  { rewrite <-pow2_inject, <-pow2_add by lia. by replace (52 + e)%Z with l by lia. }
  assert (pow2 (l + 1) == inject_Z (2 ^ 53) * pow2 e) as Hl1.
  { rewrite <-pow2_inject, <-pow2_add by lia. by replace (53 + e)%Z with (l + 1)%Z by lia. }
  pose proof (pow2_opp e) as He.
  rewrite Hl in H1. rewrite Hl1 in H2.
  assert (2 ^ 52 ≤ round_half_even (x * pow2 (- e)))%Z.
  { rewrite <-(rhe_inject (2 ^ 52)). apply rhe_mono. nra. }
  assert (round_half_even (x * pow2 (- e)) ≤ 2 ^ 53)%Z.
  { rewrite <-(rhe_inject (2 ^ 53)). apply rhe_mono. nra. }
  rewrite Hl, Hl1.
  split; (apply Qmult_le_r; [done|]; by apply inject_Z_le).
Qed.

Lemma rnd_nonneg x : 0 <= rnd x.
Proof.
  unfold rnd. destruct (Qle_bool x 0) eqn:E; [lra|].
  assert (0 < x) as Hx.
  { apply Qnot_le_lt. rewrite <-Qle_bool_iff. congruence. }
  destruct (rnd_binade x Hx) as [H _]. rewrite rnd_pos_eq in H by done.
  pose proof (pow2_pos (log2_floor x)). cbv zeta. lra.
Qed.

Lemma rnd_mono x y : x <= y → rnd x <= rnd y.
Proof.
  intros Hxy. destruct (Qlt_le_dec 0 x) as [Hx|Hx].
  2:{ unfold rnd at 1. rewrite (proj2 (Qle_bool_iff x 0)) by done. apply rnd_nonneg. }
  assert (0 < y) as Hy by lra.
  pose proof (log2_floor_mono x y Hx Hxy) as Hl.
  destruct (decide (log2_floor x = log2_floor y)) as [Heq|Hne].
  - rewrite !rnd_pos_eq, Heq by done.
    apply Qmult_le_r; [apply pow2_pos|]. apply inject_Z_le, rhe_mono.
    apply Qmult_le_r; [apply pow2_pos|done].
  - destruct (rnd_binade x Hx) as [_ H1]. destruct (rnd_binade y Hy) as [H2 _].
    assert (pow2 (log2_floor x + 1) <= pow2 (log2_floor y)) by (apply pow2_le; lia). lra.
Qed.

#[export] Instance rnd_proper : Proper (Qeq ==> Qeq) rnd.
Proof. intros x y Hxy. apply Qle_antisym; apply rnd_mono; rewrite Hxy; apply Qle_refl. Qed.

(** A number with at most 53 significant bits is not changed. *)
Lemma rnd_representable m e : (0 ≤ m < 2 ^ 53)%Z →
  rnd (inject_Z m * pow2 e) == inject_Z m * pow2 e.
Proof.
  intros Hm. destruct (decide (m = 0%Z)) as [->|Hm0].
  { change (inject_Z 0) with 0. rewrite Qmult_0_l. reflexivity. }
  pose proof (pow2_pos e).
  assert (0 < inject_Z m) by (apply (inject_Z_lt 0); lia).
  set (x := inject_Z m * pow2 e). assert (0 < x) as Hx by (subst x; nra).
  rewrite rnd_pos_eq by done.
  pose proof (Z.log2_spec m ltac:(lia)) as [H1 H2]. pose proof (Z.log2_nonneg m).
  assert (log2_floor x = (Z.log2 m + e)%Z) as ->.
  { apply inject_Z_le in H1. apply inject_Z_lt in H2. unfold Z.succ in H2.
    rewrite <-pow2_inject in H1, H2 by lia.
    apply log2_floor_unique; subst x.
    - rewrite pow2_add. by apply Qmult_le_r.
    - replace (Z.log2 m + e + 1)%Z with (Z.log2 m + 1 + e)%Z by lia.
      rewrite pow2_add. by apply Qmult_lt_r. }
  assert (Z.log2 m < 53)%Z by (apply Z.log2_lt_pow2; lia).
  set (d := (52 - Z.log2 m)%Z).
  replace (Z.log2 m + e - 52)%Z with (e - d)%Z by lia.
  assert (x * pow2 (- (e - d)) == inject_Z (m * 2 ^ d)) as ->.
  { subst x. rewrite inject_Z_mult, <-pow2_inject by lia.
    replace (- (e - d))%Z with (- e + d)%Z by lia. rewrite pow2_add.
    pose proof (pow2_opp e) as Ho.
    transitivity (inject_Z m * pow2 d * (pow2 e * pow2 (- e))); [ring|]. rewrite Ho. ring. }
  rewrite rhe_inject, inject_Z_mult, <-pow2_inject by lia. subst x.
  replace e with (d + (e - d))%Z at 2 by lia. rewrite pow2_add. ring.
Qed.

Lemma rnd_int n : (0 ≤ n < 2 ^ 53)%Z → rnd (inject_Z n) == inject_Z n.
Proof.
  intros Hn. pose proof (rnd_representable n 0 Hn) as H.
  change (pow2 0) with 1 in H. by rewrite Qmult_1_r in H.
Qed.

(** An integer minus a small power of two. *)
Lemma rnd_int_minus n k : (0 < n)%Z → (0 ≤ k)%Z → (n * 2 ^ k < 2 ^ 53)%Z →
  rnd (inject_Z n - pow2 (- k)) == inject_Z n - pow2 (- k).
Proof.
  intros Hn Hk Hb. assert (0 < 2 ^ k)%Z by (apply Z.pow_pos_nonneg; lia).
  pose proof (pow2_opp k) as Ho.
  assert (inject_Z n - pow2 (- k) == inject_Z (n * 2 ^ k - 1) * pow2 (- k)) as ->.
  { replace (n * 2 ^ k - 1)%Z with (n * 2 ^ k + -1)%Z by lia.
    rewrite inject_Z_plus, inject_Z_mult, <-pow2_inject by lia.
    change (inject_Z (-1)) with (-1 # 1).
    rewrite Qmult_plus_distr_l, <-Qmult_assoc, Ho. ring. }
  apply rnd_representable. nia.
Qed.

(** ** Agreement with the Standard Library's IEEE 754 specification

    The operations computed by [SpecFloat] at precision 53 and exponent
    bound 1024, on the expression the program evaluates. *)

From Stdlib Require Import SpecFloat.

Definition spec_float_Q (x : spec_float) : option Q :=
  match x with
  | S754_zero _ => Some 0
  | S754_finite false m e => Some (inject_Z (Zpos m) * pow2 e)
  | _ => None
  end.

Definition binary64 (n : Z) : spec_float := binary_normalize 53 1024 n 0 false.

(** [min + (a / b) * n] in both models. *)
Definition agrees_at (a b n min : Z) : bool :=
  match spec_float_Q (SFadd 53 1024 (binary64 min)
          (SFmul 53 1024 (SFdiv 53 1024 (binary64 a) (binary64 b)) (binary64 n))),
        fdiv (float64_of_uint a) (float64_of_uint b) with
  | Some q, Some r =>
      Qeq_bool q (fadd (float64_of_uint min) (fmul r (float64_of_uint n)))
  | None, None => true
  | _, _ => false
  end.

Example agrees_with_SpecFloat :
  forallb (λ '(a, b, n, min), agrees_at a b n min)
    [(5, 7, 3, 100); (2 ^ 60 + 1, 2 ^ 60 + 3, 17, 12345);
     (2 ^ 63 - 1, 2 ^ 64 - 1, 3, 4000000000); (1, 3, 1, 0);
     (2 ^ 53 + 1, 2 ^ 54 + 3, 100, 7); (0, 9, 5, 0); (0, 0, 1, 1);
     (4294967294, 4294967295, 1048575, 1048575)]%Z = true.
Proof. vm_compute. reflexivity. Qed.
