(* ===== verification/MessageSequence.v ===== *)
(** * Sequence numbers of a mailbox ([user/mailbox.go], [MessageSequence])

    A [MessageSequence] is the sorted list of the UIDs of a mailbox;
    [GetSequenceNumber] turns a UID into an IMAP sequence number by
    interpolation search with [float64] arithmetic.  The reference is the
    number of smaller UIDs plus one. *)

From S2P Require Import Prelude Float64.
From Stdlib Require Import QArith Qround Lqa.
Local Open Scope Z_scope.

Implicit Types (uids : list Z) (uid : Z).

(** [uids[i]]: an index out of range panics. *)
Definition index (uids : list Z) (i : Z) : res Z :=
  if 0 <=? i then deref (uids !! Z.to_nat i) else Panic.

Arguments index : simpl never.

Definition Len (uids : list Z) : Z := Z.of_nat (length uids).
Arguments Len : simpl never.
Definition Less (uids : list Z) (i j : Z) : res bool :=
  a ← index uids i; b ← index uids j; Ok (a <? b).
Definition Swap (uids : list Z) (i j : Z) : res (list Z) :=
  id ← index uids i;
  b ← index uids j;
  let uids := <[Z.to_nat i := b]> uids in
  Ok (<[Z.to_nat j := id]> uids).

(** [sort.Sort(uids)]: an increasing permutation (the order [Less]). *)
Definition Sort (uids : list Z) : list Z := sort_by id uids.

(** ** The search *)

(** The index the loop probes, [None] when the ratio is not a number. *)
Definition checkIndex (uid minIndex maxIndex minUID maxUID : Z) : option Z :=
  match fdiv (float64_of_uint (u64 (uid - minUID))) (float64_of_uint (u64 (maxUID - minUID))) with
  | Some ratio =>
      Some (uint32_of_floor
        (fadd (float64_of_uint minIndex)
              (fmul ratio (float64_of_uint (u32 (maxIndex - minIndex))))))
  | None => None
  end.

(** One iteration: a result, or the variables of the next iteration.  The
    conversion of a NaN to [uint32] has no value the language fixes: it is
    counted as a panic. *)
Inductive search := Found (seqno : Z) | Next (minIndex maxIndex minUID maxUID : Z).

Definition search_step (uids : list Z) (uid minIndex maxIndex minUID maxUID : Z) : res search :=
  checkIndex ← deref (checkIndex uid minIndex maxIndex minUID maxUID);
  newUID ← index uids checkIndex;
  if newUID =? uid then Ok (Found (u32 (checkIndex + 1)))
  else if newUID >? uid then Ok (Next minIndex checkIndex minUID newUID)
  else
    let minIndex := u32 (checkIndex + 1) in
    minUID ← index uids minIndex;
    if minUID >? uid then Ok (Found (u32 (minIndex + 1)))
    else Ok (Next minIndex maxIndex minUID maxUID).

Fixpoint search_loop (fuel : nat) (uids : list Z) (uid minIndex maxIndex minUID maxUID : Z) : res Z :=
  match fuel with
  | O => Hang
  | S fuel =>
      st ← search_step uids uid minIndex maxIndex minUID maxUID;
      match st with
      | Found seqno => Ok seqno
      | Next a b c d => search_loop fuel uids uid a b c d
      end
  end.

Definition GetSequenceNumber_fuel (fuel : nat) (uids : list Z) (uid : Z) : res Z :=
  if Len uids =? 0 then Ok 1
  else
    first ← index uids 0;
    if uid <? first then Ok 1
    else
      last ← index uids (Len uids - 1);
      if uid >? last then Ok (u32 (Len uids + 1))
      else if Len uids =? 1 then Ok 1
      else
        let minIndex := 0 in
        let maxIndex := u32 (Len uids - 1) in
        minUID ← index uids minIndex;
        maxUID ← index uids maxIndex;
        search_loop fuel uids uid minIndex maxIndex minUID maxUID.

(** Every iteration shrinks the interval: as many iterations as there are
    messages are enough. *)
Definition GetSequenceNumber (uids : list Z) (uid : Z) : res Z :=
  GetSequenceNumber_fuel (length uids) uids uid.

(** The reference: one more than the number of smaller UIDs. *)
Definition seqno_spec (uids : list Z) (uid : Z) : Z :=
  Z.of_nat (length (filter (λ x, x < uid) uids)) + 1.

Example GetSequenceNumber_tests :
  (λ '(l, u), GetSequenceNumber l u) <$>
    [([], 5); ([39], 39); ([39], 40); ([39], 30); ([7; 9; 20], 4); ([7; 9; 20], 7);
     ([7; 9; 20], 9); ([7; 9; 20], 8); ([7; 9; 20], 20); ([7; 9; 20], 10);
     ([7; 9; 20], 19); ([7; 9; 20], 21); ([7; 12; 16; 18; 19; 20], 18)]
  = Ok <$> [1; 1; 2; 1; 1; 1; 2; 2; 3; 3; 3; 4; 4].
Proof. vm_compute. reflexivity. Qed.

(** ** Counting smaller UIDs *)

Definition usorted (uids : list Z) : Prop := ksorted id uids.

(** Every UID and every count of the search fits its machine type. *)
Definition uids_ok (uids : list Z) : Prop :=
  usorted uids ∧ Forall is_u64 uids ∧ Len uids < 2 ^ 32.

Lemma index_lookup uids i x : index uids i = Ok x ↔ 0 ≤ i ∧ uids !! Z.to_nat i = Some x.
Proof.
  unfold index, deref. destruct (Z.leb_spec 0 i); [|split; [done|lia]].
  destruct (uids !! Z.to_nat i); split; intros H'; intuition congruence.
Qed.

Lemma index_total uids i : 0 ≤ i < Len uids → ∃ x, index uids i = Ok x.
Proof.
  intros Hi. destruct (lookup_lt_is_Some_2 uids (Z.to_nat i)) as [x Hx].
  { unfold Len in Hi. lia. }
  exists x. apply index_lookup. split; [lia|done].
Qed.

Lemma usorted_lt uids i j x y :
  usorted uids → index uids i = Ok x → index uids j = Ok y → i < j → x < y.
Proof.
  intros Hs [Hi Hx]%index_lookup [Hj Hy]%index_lookup Hij.
  apply (ksorted_lookup id uids (Z.to_nat i) (Z.to_nat j)); [done..|lia].
Qed.

Lemma usorted_le uids i j x y :
  usorted uids → index uids i = Ok x → index uids j = Ok y → i ≤ j → x ≤ y.
Proof.
  intros Hs Hx Hy Hij. destruct (decide (i = j)) as [->|].
  - rewrite Hx in Hy. by simplify_eq.
  - apply Z.lt_le_incl, (usorted_lt uids i j); [done..|lia].
Qed.

Lemma usorted_lt_inv uids i j x y :
  usorted uids → index uids i = Ok x → index uids j = Ok y → x < y → i < j.
Proof.
  intros Hs Hx Hy Hlt. destruct (Z.lt_ge_cases i j) as [|Hge]; [done|].
  pose proof (usorted_le uids j i y x Hs Hy Hx Hge). lia.
Qed.

(** The count is [k] when exactly the first [k] UIDs are smaller. *)
Lemma seqno_spec_split uids uid k :
  usorted uids → 0 ≤ k ≤ Len uids →
  (∀ i x, i < k → index uids i = Ok x → x < uid) →
  (∀ i x, k ≤ i → index uids i = Ok x → uid ≤ x) →
  seqno_spec uids uid = k + 1.
Proof.
  intros _ Hk Hlo Hhi. unfold seqno_spec. f_equal.
  rewrite <-(take_drop (Z.to_nat k) uids), filter_app, length_app.
  rewrite (filter_all _ (take _ _)).
  2:{ apply Forall_lookup_2. intros j x Hj. rewrite lookup_take_Some in Hj.
      destruct Hj as [Hx Hj]. apply (Hlo (Z.of_nat j)); [lia|]. apply index_lookup.
      rewrite Nat2Z.id. split; [lia|done]. }
  rewrite (filter_none _ (drop _ _)).
  2:{ apply Forall_lookup_2. intros j x Hj. rewrite lookup_drop in Hj.
      pose proof (Hhi (k + Z.of_nat j) x ltac:(lia)) as H.
      apply Z.le_ngt, H, index_lookup. split; [lia|].
      by replace (Z.to_nat (k + Z.of_nat j)) with (Z.to_nat k + j)%nat by lia. }
  rewrite length_take. unfold Len in Hk. simpl. lia.
Qed.

Lemma seqno_spec_found uids uid i :
  usorted uids → index uids i = Ok uid → seqno_spec uids uid = i + 1.
Proof.
  intros Hs Hi. apply seqno_spec_split; [done| | |].
  - apply index_lookup in Hi as [? Hi]. apply lookup_lt_Some in Hi. unfold Len. lia.
  - intros j x Hj Hx. by eapply usorted_lt.
  - intros j x Hj Hx. by eapply usorted_le.
Qed.

Lemma seqno_spec_between uids uid i x y :
  usorted uids → index uids i = Ok x → index uids (i + 1) = Ok y → x < uid < y →
  seqno_spec uids uid = i + 2.
Proof.
  intros Hs Hx Hy Hb. rewrite (seqno_spec_split uids uid (i + 1)); [lia|done| | |].
  - apply index_lookup in Hx as [? _], Hy as [? Hy]. apply lookup_lt_Some in Hy. unfold Len. lia.
  - intros j z Hj Hz. pose proof (usorted_le uids j i z x Hs Hz Hx). lia.
  - intros j z Hj Hz. pose proof (usorted_le uids (i + 1) j y z Hs Hy Hz). lia.
Qed.

(** ** The probed index *)

Section probe.
Context (uid lo hi a b : Z).
Hypothesis Hidx : 0 ≤ lo < hi.
Hypothesis Hhi : hi < 2 ^ 32.
Hypothesis Hab : a ≤ uid ≤ b.
Hypothesis Hlt : a < b.
Hypothesis Ha : is_u64 a.
Hypothesis Hb : is_u64 b.

Lemma width_pos : (0 < float64_of_uint (b - a))%Q.
Proof.
  unfold float64_of_uint. apply (Qlt_le_trans _ (inject_Z 1)); [done|].
  rewrite <-(rnd_int 1) by lia. apply rnd_mono. rewrite <-Zle_Qle. lia.
Qed.

(** The float expression without its conversion. *)
Lemma checkIndex_eq : ∃ ratio : Q,
  fdiv (float64_of_uint (uid - a)) (float64_of_uint (b - a)) = Some ratio ∧
  checkIndex uid lo hi a b = Some (uint32_of_floor
    (fadd (float64_of_uint lo) (fmul ratio (float64_of_uint (hi - lo))))).
Proof.
  unfold checkIndex. rewrite !u64_id, u32_id by (unfold is_u64, is_u32 in *; lia).
  unfold fdiv at 1 2. pose proof width_pos as Hw.
  destruct (Qeq_bool _ 0) eqn:E; [|eauto].
  apply Qeq_bool_iff in E. rewrite E in Hw. by apply Qlt_irrefl in Hw.
Qed.

Lemma sum_in_range (p s : Q) :
  (0 <= p)%Q → (p <= inject_Z (hi - lo))%Q → s = fadd (float64_of_uint lo) p →
  (inject_Z lo <= s)%Q ∧ (s <= inject_Z hi)%Q.
Proof.
  intros H0 H1 ->. unfold fadd, float64_of_uint.
  rewrite (rnd_int lo) by lia.
  unfold Z.sub in H1. rewrite inject_Z_plus, inject_Z_opp in H1.
  split.
  - rewrite <-(rnd_int lo) at 1 by lia. apply rnd_mono. lra.
  - rewrite <-(rnd_int hi) by lia. apply rnd_mono. lra.
Qed.

Lemma ratio_unit ratio :
  fdiv (float64_of_uint (uid - a)) (float64_of_uint (b - a)) = Some ratio →
  (0 <= ratio)%Q ∧ (ratio <= 1)%Q.
Proof.
  unfold fdiv. destruct (Qeq_bool _ 0); [done|]. intros [= <-].
  split; [apply rnd_nonneg|]. change 1%Q with (inject_Z 1).
  rewrite <-(rnd_int 1) by lia. apply rnd_mono.
  apply Qle_shift_div_r; [apply width_pos|]. rewrite Qmult_1_l.
  apply rnd_mono. rewrite <-Zle_Qle. lia.
Qed.

Lemma product_in_range ratio :
  (0 <= ratio)%Q → (ratio <= 1)%Q →
  (0 <= fmul ratio (float64_of_uint (hi - lo)))%Q ∧
  (fmul ratio (float64_of_uint (hi - lo)) <= inject_Z (hi - lo))%Q.
Proof.
  intros H0 H1. unfold fmul. split; [apply rnd_nonneg|].
  rewrite <-(rnd_int (hi - lo)) by lia. apply rnd_mono.
  unfold float64_of_uint. rewrite rnd_int by lia.
  assert (0 <= inject_Z (hi - lo))%Q by (change 0%Q with (inject_Z 0); rewrite <-Zle_Qle; lia).
  nra.
Qed.

(** The probe never leaves the interval. *)
Lemma checkIndex_in_range : ∃ c, checkIndex uid lo hi a b = Some c ∧ lo ≤ c ≤ hi.
Proof.
  destruct checkIndex_eq as (ratio & Hr & ->). eexists; split; [done|].
  destruct (ratio_unit ratio Hr) as [Hr0 Hr1].
  destruct (product_in_range ratio Hr0 Hr1) as [Hp0 Hp1].
  destruct (sum_in_range _ _ Hp0 Hp1 eq_refl) as [Hs0 Hs1].
  unfold uint32_of_floor. set (s := fadd _ _) in *.
  apply Qfloor_resp_le in Hs0, Hs1. rewrite !Qfloor_Z in *.
  rewrite u32_id; [done|]. unfold is_u32. lia.
Qed.

(** Searching for the last UID of the interval probes it at once. *)
Lemma checkIndex_last : uid = b → checkIndex uid lo hi a b = Some hi.
Proof.
  intros Hlast. destruct checkIndex_eq as (ratio & Hr & ->). f_equal.
  assert (ratio == 1)%Q as Hr1.
  { replace (uid - a) with (b - a) in Hr by lia. unfold fdiv in Hr. destruct (Qeq_bool _ 0) eqn:E; [done|]. simplify_eq.
    unfold Qdiv. rewrite Qmult_inv_r.
    - by apply (rnd_int 1).
    - intros Heq. apply Qeq_bool_iff in Heq. congruence. }
  unfold uint32_of_floor.
  assert (Qfloor (fadd (float64_of_uint lo) (fmul ratio (float64_of_uint (hi - lo)))) = hi) as ->.
  { transitivity (Qfloor (inject_Z hi)); [|apply Qfloor_Z]. apply Qfloor_comp.
    unfold fadd, fmul, float64_of_uint. rewrite Hr1, Qmult_1_l.
    rewrite !(rnd_int (hi - lo)), (rnd_int lo) by lia.
    rewrite <-inject_Z_plus. replace (lo + (hi - lo)) with hi by lia. apply rnd_int. lia. }
  apply u32_id. unfold is_u32. lia.
Qed.

(** With UIDs of 32 bits and at most [2^21] messages the rounding errors
    cannot push the probe of a smaller UID to the end of the interval. *)
Hypothesis Hsmall : hi < 2 ^ 21.
Hypothesis Hwidth : b - a ≤ 2 ^ 32.
Hypothesis Hbelow : uid < b.

Lemma pow2_m32 : (pow2 (- 32) == 1 # 4294967296)%Q.
Proof. reflexivity. Qed.

Lemma ratio_below ratio :
  fdiv (float64_of_uint (uid - a)) (float64_of_uint (b - a)) = Some ratio →
  (ratio <= 1 - pow2 (- 32))%Q.
Proof.
  unfold fdiv. destruct (Qeq_bool _ 0); [done|]. intros [= <-].
  change 1%Q with (inject_Z 1). rewrite <-(rnd_int_minus 1 32) by lia. apply rnd_mono.
  unfold float64_of_uint. rewrite !rnd_int by lia.
  assert (inject_Z (uid - a) <= inject_Z (b - a) - 1)%Q as H1.
  { change 1%Q with (inject_Z 1). unfold Qminus. rewrite <-inject_Z_opp, <-inject_Z_plus.
    rewrite <-Zle_Qle. lia. }
  assert (inject_Z (b - a) <= inject_Z (2 ^ 32))%Q as H2 by (rewrite <-Zle_Qle; lia).
  assert (0 < inject_Z (b - a))%Q by (change 0%Q with (inject_Z 0); rewrite <-Zlt_Qlt; lia).
  apply Qle_shift_div_r; [done|]. rewrite pow2_m32.
  change (inject_Z (2 ^ 32)) with (4294967296 # 1)%Q in H2. change (inject_Z 1) with 1%Q. lra.
Qed.

Lemma checkIndex_below : ∃ c, checkIndex uid lo hi a b = Some c ∧ lo ≤ c < hi.
Proof.
  destruct checkIndex_in_range as (c & Hc & Hr). exists c. split; [done|].
  split; [lia|].
  destruct checkIndex_eq as (ratio & Hratio & Hc'). rewrite Hc in Hc'. simplify_eq.
  pose proof (ratio_below ratio Hratio) as Hb1.
  destruct (ratio_unit ratio Hratio) as [Hr0 _].
  unfold uint32_of_floor in *. set (s := fadd _ _) in *.
  assert (s <= inject_Z hi - pow2 (- 32))%Q as Hs.
  { subst s. unfold fadd. rewrite <-(rnd_int_minus hi 32) by lia. apply rnd_mono.
    unfold float64_of_uint at 1. rewrite (rnd_int lo) by lia.
    assert (fmul ratio (float64_of_uint (hi - lo)) <= inject_Z (hi - lo) - pow2 (- 32))%Q as Hp.
    { unfold fmul. rewrite <-(rnd_int_minus (hi - lo) 32) by lia. apply rnd_mono.
      unfold float64_of_uint. rewrite rnd_int by lia.
      assert (1 <= inject_Z (hi - lo))%Q by (change 1%Q with (inject_Z 1); rewrite <-Zle_Qle; lia).
      rewrite pow2_m32 in *. nra. }
    assert (inject_Z (hi - lo) == inject_Z hi - inject_Z lo)%Q as Hsub.
    { unfold Z.sub. by rewrite inject_Z_plus, inject_Z_opp. }
    rewrite Hsub in Hp. change (Z.opp 32) with (-32). lra. }
  assert (Qfloor s < hi) as Hfl.
  { rewrite Zlt_Qlt. apply (Qle_lt_trans _ s); [apply Qfloor_le|].
    rewrite pow2_m32 in Hs. lra. }
  assert (0 <= s)%Q as Hs0%Qfloor_resp_le by (subst s; apply rnd_nonneg).
  change 0%Q with (inject_Z 0) in Hs0. rewrite Qfloor_Z in Hs0.
  rewrite u32_id; [done|]. unfold is_u32. lia.
Qed.
End probe.

(** ** The loop *)

(** The variables of the loop: the interval is proper, its bounds are the
    UIDs at its ends, and it contains the UID that is looked for. *)
Record search_inv (uids : list Z) (uid lo hi a b : Z) : Prop := {
  inv_idx : 0 ≤ lo < hi;
  inv_lo : index uids lo = Ok a;
  inv_hi : index uids hi = Ok b;
  inv_uid : a ≤ uid ≤ b;
}.

Definition interval (st : search) : Z :=
  match st with Found _ => 0 | Next lo hi _ _ => hi - lo end.

Section loop.
Context (uids : list Z) (uid : Z).
Hypothesis Hok : uids_ok uids.

Lemma index_range i x : index uids i = Ok x → 0 ≤ i < 2 ^ 32 ∧ is_u64 x.
Proof.
  destruct Hok as (_ & Hu & Hl). intros [Hi Hx]%index_lookup.
  split; [|by eapply Forall_lookup_1 in Hu].
  apply lookup_lt_Some in Hx. unfold Len in Hl. lia.
Qed.

Lemma search_inv_lt lo hi a b : search_inv uids uid lo hi a b → a < b.
Proof. intros [? Ha Hb _]. destruct Hok as (Hs & _). apply (usorted_lt uids lo hi); [done..|lia]. Qed.

(** A step never panics; it returns the reference, or keeps the
    invariant without widening the interval. *)
Lemma search_step_ok lo hi a b :
  search_inv uids uid lo hi a b →
  ∃ st, search_step uids uid lo hi a b = Ok st ∧
    match st with
    | Found n => n = u32 (seqno_spec uids uid)
    | Next lo' hi' a' b' => search_inv uids uid lo' hi' a' b' ∧ uid < b' ∧ hi' - lo' ≤ hi - lo ∧
        (∀ c, checkIndex uid lo hi a b = Some c → c < hi → hi' - lo' < hi - lo)
    end.
Proof.
  intros Hinv. pose proof (search_inv_lt _ _ _ _ Hinv) as Hlt.
  destruct Hinv as [Hidx Ha Hb Huid].
  destruct (index_range _ _ Ha) as [_ Ha64]. destruct (index_range _ _ Hb) as [Hhi Hb64].
  destruct (checkIndex_in_range uid lo hi a b) as (c & Hc & Hcr); [first [done|lia]..|].
  assert (uid = b → c = hi) as Hlast.
  { intros Heq. rewrite checkIndex_last in Hc; [congruence|first [done|lia]..]. }
  destruct Hok as (Hs & _ & _).
  destruct (index_total uids c) as [x Hx].
  { apply index_lookup in Hb as [_ Hb]. apply lookup_lt_Some in Hb. unfold Len. lia. }
  unfold search_step. rewrite Hc. cbn. rewrite Hx. cbn.
  destruct (Z.eqb_spec x uid) as [Heq|Hne].
  { eexists; split; [done|]. cbn. rewrite Heq in Hx. by rewrite (seqno_spec_found _ _ c Hs Hx). }
  destruct (Z.gtb_spec x uid) as [Hgt|Hle].
  { eexists; split; [done|]. cbn.
    pose proof (usorted_lt_inv uids lo c a x Hs Ha Hx ltac:(lia)).
    split; [constructor; [lia|done|done|lia]|]. repeat split; [lia|lia|].
    intros c' Hc' ?. simplify_eq. lia. }
  pose proof (usorted_lt_inv uids c hi x b Hs Hx Hb ltac:(lia)) as Hchi.
  rewrite (u32_id (c + 1)) by (unfold is_u32; lia).
  destruct (index_total uids (c + 1)) as [y Hy].
  { apply index_lookup in Hb as [_ Hb]. apply lookup_lt_Some in Hb. unfold Len. lia. }
  rewrite Hy. cbn. destruct (Z.gtb_spec y uid) as [Hgt|Hle'].
  { eexists; split; [done|]. cbn. rewrite (seqno_spec_between _ _ c x y Hs Hx Hy) by lia. f_equal; lia. }
  assert (uid < b) by (destruct (decide (uid = b)); [lia|lia]).
  eexists; split; [done|]. cbn.
  pose proof (usorted_lt_inv uids (c + 1) hi y b Hs Hy Hb ltac:(lia)).
  split; [constructor; [lia|done|done|lia]|]. repeat split; lia.
Qed.

(** Whatever the UIDs, a result is the reference and nothing panics. *)
Lemma search_loop_safe fuel lo hi a b :
  search_inv uids uid lo hi a b →
  search_loop fuel uids uid lo hi a b = Hang ∨
  search_loop fuel uids uid lo hi a b = Ok (u32 (seqno_spec uids uid)).
Proof.
  revert lo hi a b; induction fuel as [|fuel IH]; intros lo hi a b Hinv; [by left|].
  destruct (search_step_ok _ _ _ _ Hinv) as ([n|lo' hi' a' b'] & Hst & Hres);
    cbn; rewrite Hst; cbn.
  - right. by rewrite Hres.
  - apply IH, Hres.
Qed.

(** With UIDs below [2^32] and at most [2^21] messages every step shrinks
    the interval, so the loop ends. *)
Hypothesis Hcount : Len uids ≤ 2 ^ 21.
Hypothesis Hwidth : Forall (λ x, x < 2 ^ 32) uids.

Lemma search_progress lo hi a b :
  search_inv uids uid lo hi a b → uid < b →
  ∃ c, checkIndex uid lo hi a b = Some c ∧ c < hi.
Proof.
  intros Hinv Hbelow. pose proof (search_inv_lt _ _ _ _ Hinv).
  destruct Hinv as [Hidx Ha Hb Huid].
  destruct (index_range _ _ Ha) as [? Ha64]. destruct (index_range _ _ Hb) as [? Hb64].
  apply index_lookup in Ha as [_ Ha], Hb as [_ Hb].
  pose proof (Forall_lookup_1 _ _ _ _ Hwidth Hb) as Hb32. cbn in Hb32.
  apply lookup_lt_Some in Hb. unfold Len in Hcount.
  destruct (checkIndex_below uid lo hi a b) as (c & Hc & ?);
    [first [done|unfold is_u64 in *; lia]..|].
  exists c. split; [done|lia].
Qed.

Lemma search_loop_total fuel lo hi a b :
  search_inv uids uid lo hi a b → uid < b → hi - lo < Z.of_nat fuel →
  search_loop fuel uids uid lo hi a b = Ok (u32 (seqno_spec uids uid)).
Proof.
  revert lo hi a b; induction fuel as [|fuel IH]; intros lo hi a b Hinv Hlt Hf.
  { destruct Hinv. lia. }
  destruct (search_progress _ _ _ _ Hinv Hlt) as (c & Hc & Hchi).
  destruct (search_step_ok _ _ _ _ Hinv) as ([n|lo' hi' a' b'] & Hst & Hres);
    cbn; rewrite Hst; cbn.
  - by rewrite Hres.
  - destruct Hres as (Hinv' & Hlt' & _ & Hdec). apply IH; [done..|].
    specialize (Hdec c Hc Hchi). lia.
Qed.
End loop.

(** *** From the entry of the function to its loop *)

Lemma enter_search fuel uids uid :
  uids_ok uids →
  GetSequenceNumber_fuel fuel uids uid = Ok (u32 (seqno_spec uids uid)) ∨
  ∃ a b, search_inv uids uid 0 (Len uids - 1) a b ∧
    GetSequenceNumber_fuel fuel uids uid = search_loop fuel uids uid 0 (Len uids - 1) a b.
Proof.
  intros Hok. pose proof Hok as (Hs & Hu & Hl). unfold GetSequenceNumber_fuel.
  destruct (Z.eqb_spec (Len uids) 0) as [Hz|Hnz].
  { left. destruct uids; [done|]. unfold Len in Hz. simpl in Hz. lia. }
  assert (0 < Len uids) as Hpos by (unfold Len in *; lia).
  destruct (index_total uids 0) as [a Ha]; [lia|]. rewrite Ha. cbn.
  destruct (Z.ltb_spec uid a) as [Hlt|Hge].
  { left. rewrite (seqno_spec_split uids uid 0); [done|done|lia| |]; [intros i x Hi [? _]%index_lookup; lia|].
    intros i x Hi Hx. pose proof (usorted_le uids 0 i a x Hs Ha Hx Hi). lia. }
  destruct (index_total uids (Len uids - 1)) as [b Hb]; [lia|]. rewrite Hb. cbn.
  destruct (Z.gtb_spec uid b) as [Hgt|Hle].
  { left. rewrite (seqno_spec_split uids uid (Len uids)); [done|done|lia| |].
    - intros i x Hi Hx. pose proof (usorted_le uids i (Len uids - 1) x b Hs Hx Hb). lia.
    - intros i x Hi [? Hx]%index_lookup. apply lookup_lt_Some in Hx. unfold Len in Hi. lia. }
  destruct (Z.eqb_spec (Len uids) 1) as [H1|Hn1].
  { left. replace (Len uids - 1) with 0 in Hb by lia. rewrite Ha in Hb. simplify_eq.
    rewrite (seqno_spec_found uids uid 0); [done|done|]. rewrite Ha. f_equal. lia. }
  right. exists a, b. rewrite u32_id by (unfold is_u32; lia). rewrite Hb. cbn.
  split; [|done]. constructor; [lia|done|done|lia].
Qed.

(** The search terminates and is correct; used by the mailbox. *)
Lemma GetSequenceNumber_ok uids uid :
  uids_ok uids → Len uids ≤ 2 ^ 21 → Forall (λ x, x < 2 ^ 32) uids →
  GetSequenceNumber uids uid = Ok (seqno_spec uids uid).
Proof.
  intros Hok Hcount Hwidth.
  assert (u32 (seqno_spec uids uid) = seqno_spec uids uid) as Hid.
  { apply u32_id. unfold is_u32, seqno_spec.
    pose proof (length_filter (λ x, x < uid) uids). unfold Len in Hcount. lia. }
  unfold GetSequenceNumber. rewrite <-Hid.
  destruct (enter_search (length uids) uids uid Hok) as [Heq|(a & b & Hinv & ->)]; [done|].
  pose proof (search_inv_lt _ _ Hok _ _ _ _ Hinv) as Hab.
  destruct (decide (uid < b)) as [Hlt|Hge].
  - apply search_loop_total; [done..|]. unfold Len. lia.
  - pose proof Hinv as [Hidx Ha Hb Huid].
    destruct (index_range _ Hok _ _ Ha) as [_ Ha64]. destruct (index_range _ Hok _ _ Hb) as [Hhi Hb64].
    assert (length uids ≠ 0)%nat by (unfold Len in *; lia).
    destruct (length uids) as [|n] eqn:Hn; [done|]. cbn [search_loop]. unfold search_step.
    rewrite checkIndex_last by first [done|lia]. cbn. rewrite Hb. cbn.
    replace uid with b by lia. rewrite Z.eqb_refl. cbn. f_equal.
    by rewrite (seqno_spec_found uids b (Len uids - 1) (proj1 Hok) Hb).
Qed.

(** ** Properties *)

(** C28: [GetSequenceNumber] terminates and returns the lowest sequence
    number whose UID is at or above the given one (one more than the number
    of smaller UIDs), for every strictly increasing list of at most [2^21]
    UIDs below [2^32] and every 64-bit UID, in and out of the list: the
    rounding of the [float64] interpolation never makes the search miss,
    leave its interval, panic or stop shrinking it. *)
Theorem GetSequenceNumber_correct uids uid :
  usorted uids → Forall (λ x, 0 ≤ x < 2 ^ 32) uids → Len uids ≤ 2 ^ 21 →
  GetSequenceNumber uids uid = Ok (seqno_spec uids uid).
Proof.
  intros Hs Hr Hc. apply GetSequenceNumber_ok; [|done|].
  - repeat split; [done| |lia]. eapply Forall_impl; [exact Hr|]. unfold is_u64. simpl. lia.
  - eapply Forall_impl; [exact Hr|]. simpl. lia.
Qed.

(** For every strictly increasing list of 64-bit UIDs the search is
    safe: run for any number of iterations it has either not finished or
    has returned the reference; it never panics, never indexes out of range,
    never divides zero by zero and never returns a wrong number. *)
Theorem GetSequenceNumber_safe fuel uids uid :
  uids_ok uids →
  GetSequenceNumber_fuel fuel uids uid = Hang ∨
  GetSequenceNumber_fuel fuel uids uid = Ok (u32 (seqno_spec uids uid)).
Proof.
  intros Hok. destruct (enter_search fuel uids uid Hok) as [?|(a & b & Hinv & ->)]; [by right|].
  by apply search_loop_safe.
Qed.

(** C40: the bound on the UIDs in [GetSequenceNumber_correct] is needed: for UIDs above [2^53] two
    neighbouring differences can round to the same [float64], the probe stays
    on the last UID, and the search never ends. *)
Theorem GetSequenceNumber_diverges fuel :
  GetSequenceNumber_fuel fuel [1; 2 ^ 60; 2 ^ 60 + 2] (2 ^ 60 + 1) = Hang.
Proof.
  change (search_loop fuel [1; 2 ^ 60; 2 ^ 60 + 2] (2 ^ 60 + 1) 0 2 1 (2 ^ 60 + 2) = Hang).
  induction fuel as [|fuel IH]; [done|]. cbn [search_loop].
  replace (search_step _ _ _ _ _ _) with (@Ok search (Next 0 2 1 (2 ^ 60 + 2)))
    by (vm_compute; reflexivity).
  exact IH.
Qed.

Lemma GetSequenceNumber_correct_witness :
  GetSequenceNumber [7; 9; 20; 4000000000] 3999999999 = Ok 4.
Proof.
  rewrite GetSequenceNumber_correct.
  - reflexivity.
  - repeat constructor; unfold id; lia.
  - repeat constructor; lia.
  - unfold Len; simpl; lia.
Defined.

Lemma GetSequenceNumber_safe_witness :
  GetSequenceNumber_fuel 2 [7; 9; 2 ^ 63] (2 ^ 62) = Hang ∨
  GetSequenceNumber_fuel 2 [7; 9; 2 ^ 63] (2 ^ 62) = Ok 3.
Proof.
  apply (GetSequenceNumber_safe 2 [7; 9; 2 ^ 63] (2 ^ 62)).
  split; [repeat constructor; unfold id; lia|].
  split; [repeat constructor; unfold is_u64; lia|unfold Len; simpl; lia].
Defined.
