(* ===== verification/FolderSpec.v ===== *)
(** * The contract of a message folder ([data.Folder])

    [store/data/folder.go] declares the interface through which the IMAP
    mailboxes reach their storage, and documents it.  This file states it:
    the operations as a class, the documented behaviour as executable
    functions on an abstract folder (a map from identifiers to suffixes and
    payloads, and the next identifier), and what it means for an
    implementation to refine them.  [MemFolder] and [BoltFolder] discharge
    it; [Mailbox] is proved against it. *)

From S2P Require Import Prelude.

(** ** Operations *)

(** A [nil] message is [None].  [ForEachMessage] runs a callback in the
    caller's state and stops at its first error. *)
Class Folder (F : Type) := {
  InsertNewMessage : option string → Z → M F Z;
  InsertMessage : Z → option string → Z → M F unit;
  GetMessage : Z → F → res (Z * string);
  DeleteMessage : Z → M F unit;
  ForEachMessage : ∀ {S : Type}, Z → Z → Z → (Z → Z → string → M S unit) → F → M S unit;
  NextID : F → Z;
  LastID : F → res (Z * gmap Z Z);
}.

(** ** The abstract folder *)

Record fstate := FState {
  fs_next : Z;                       (** the next identifier *)
  fs_msgs : gmap Z (Z * string);     (** identifier to suffix and payload *)
}.

Definition entry : Type := Z * (Z * string).

(** Messages in increasing order of identifier. *)
Definition entries (m : gmap Z (Z * string)) : list entry := sort_by fst (map_to_list m).

(** "messages that have IDs between lowID and highID with the given
    suffix"; a zero bound or suffix does not constrain. *)
Definition selected (low high sfx : Z) (e : entry) : Prop :=
  low ≤ e.1 ∧ (high = 0 ∨ e.1 ≤ high) ∧ (sfx = 0 ∨ e.2.1 = sfx).
#[export] Instance selected_dec low high sfx e : Decision (selected low high sfx e).
Proof. unfold selected. apply _. Defined.

Definition msg_nil : error := ErrNew "Nil message inserted.".
Definition msg_range : error := ErrNew "Nice try, son. But lowID cannot be greater than highID.".

Definition spec_InsertNewMessage (msg : option string) (sfx : Z) : M fstate Z := λ s,
  match msg with
  | None => (Err msg_nil, s)
  | Some m => (Ok (fs_next s), FState (fs_next s + 1) (<[fs_next s := (sfx, m)]> (fs_msgs s)))
  end.

Definition spec_InsertMessage (id : Z) (msg : option string) (sfx : Z) : M fstate unit := λ s,
  if bool_decide (id = 0 ∨ fs_next s ≤ id) then (Err ErrInvalidID, s)
  else match msg with
  | None => (Err msg_nil, s)
  | Some m =>
      match fs_msgs s !! id with
      | Some _ => (Err ErrDuplicateID, s)
      | None => (Ok tt, FState (fs_next s) (<[id := (sfx, m)]> (fs_msgs s)))
      end
  end.

Definition spec_GetMessage (id : Z) (s : fstate) : res (Z * string) :=
  match fs_msgs s !! id with Some e => Ok e | None => Err ErrNotFound end.

Definition spec_DeleteMessage (id : Z) : M fstate unit := λ s,
  if bool_decide (id = 0 ∨ fs_next s ≤ id) then (Err ErrInvalidID, s)
  else match fs_msgs s !! id with
  | None => (Err ErrNotFound, s)
  | Some _ => (Ok tt, FState (fs_next s) (delete id (fs_msgs s)))
  end.

Definition visit {S} (fn : Z → Z → string → M S unit) (e : entry) : M S unit :=
  fn e.1 e.2.1 e.2.2.

Definition spec_ForEachMessage {S} (low high sfx : Z) (fn : Z → Z → string → M S unit)
    (s : fstate) : M S unit :=
  if bool_decide (high ≠ 0 ∧ high < low) then fail msg_range
  else mfor (filter (selected low high sfx) (entries (fs_msgs s))) (visit fn).

(** "the highest index value in the mailbox, followed by a map containing
    the last indices for each suffix". *)
Definition last_by_suffix (l : list entry) : gmap Z Z :=
  foldl (λ acc e, <[e.2.1 := e.1]> acc) ∅ l.
Definition spec_LastID (s : fstate) : res (Z * gmap Z Z) :=
  Ok (default 0 (fst <$> last (entries (fs_msgs s))), last_by_suffix (entries (fs_msgs s))).

#[export] Instance fstate_Folder : Folder fstate := {
  InsertNewMessage := spec_InsertNewMessage;
  InsertMessage := spec_InsertMessage;
  GetMessage := spec_GetMessage;
  DeleteMessage := spec_DeleteMessage;
  ForEachMessage := @spec_ForEachMessage;
  NextID := fs_next;
  LastID := spec_LastID;
}.

(** Identifiers are below the next one and never zero; everything fits in
    64 bits. *)
Definition fwf (s : fstate) : Prop :=
  1 ≤ fs_next s < 2 ^ 64 ∧
  ∀ id sfx m, fs_msgs s !! id = Some (sfx, m) → 1 ≤ id < fs_next s ∧ is_u64 sfx.

(** Payloads the storage accepts: at most [2^30] bytes. *)
Definition payload_ok (msg : option string) : Prop :=
  match msg with Some m => Z.of_nat (String.length m) ≤ 2 ^ 30 | None => True end.

(** ** Refinement *)

Definition sim {F A} (rep : F → fstate → Prop) (x : res A * F) (y : res A * fstate) : Prop :=
  x.1 = y.1 ∧ rep x.2 y.2.

Class FolderRefines (F : Type) `{Folder F} (rep : F → fstate → Prop) : Prop := {
  rep_wf f s : rep f s → fwf s;
  rep_NextID f s : rep f s → NextID f = fs_next s;
  rep_InsertNew f s msg sfx : rep f s → fs_next s + 1 < 2 ^ 64 → is_u64 sfx → payload_ok msg →
    sim rep (InsertNewMessage msg sfx f) (spec_InsertNewMessage msg sfx s);
  rep_Insert f s id msg sfx : rep f s → is_u64 id → is_u64 sfx → payload_ok msg →
    sim rep (InsertMessage id msg sfx f) (spec_InsertMessage id msg sfx s);
  rep_Get f s id : rep f s → is_u64 id → GetMessage id f = spec_GetMessage id s;
  rep_Delete f s id : rep f s → is_u64 id →
    sim rep (DeleteMessage id f) (spec_DeleteMessage id s);
}.

(** Iteration in increasing order of identifier. *)
Class FolderIterates (F : Type) `{Folder F} (rep : F → fstate → Prop) : Prop :=
  rep_ForEach f s low high sfx : rep f s → is_u64 low → is_u64 high → is_u64 sfx →
    ∀ {S : Type} (fn : Z → Z → string → M S unit) (st : S),
      ForEachMessage low high sfx fn f st = spec_ForEachMessage low high sfx fn s st.

(** ** Lemmas on the abstract folder *)

Lemma elem_of_entries m id e : (id, e) ∈ entries m ↔ m !! id = Some e.
Proof. unfold entries. by rewrite elem_of_sort_by, elem_of_map_to_list. Qed.

Lemma entries_ksorted m : ksorted fst (entries m).
Proof. apply sort_by_ksorted. apply NoDup_fst_map_to_list. Qed.

(** A list sorted by identifier with the members of the map is [entries]. *)
Lemma entries_unique m l :
  ksorted fst l → (∀ id e, (id, e) ∈ l ↔ m !! id = Some e) → l = entries m.
Proof.
  intros Hs Hel. apply (ksorted_unique fst); [done|apply entries_ksorted|].
  intros [id e]. by rewrite Hel, elem_of_entries.
Qed.

Lemma fwf_InsertNew s msg sfx :
  fwf s → fs_next s + 1 < 2 ^ 64 → is_u64 sfx → fwf (spec_InsertNewMessage msg sfx s).2.
Proof.
  intros [Hn Hm] Hlt Hsfx. destruct msg as [m|]; [|done]. split; [simpl; lia|].
  intros id sfx' m'. simpl. rewrite lookup_insert. case_decide as Hd.
  - intros [= <- <-]. split; [lia|done].
  - intros [? ?]%Hm. split; [lia|done].
Qed.

Lemma fwf_Insert s id msg sfx :
  fwf s → is_u64 id → is_u64 sfx → fwf (spec_InsertMessage id msg sfx s).2.
Proof.
  intros [Hn Hm] Hid Hsfx. unfold spec_InsertMessage. case_bool_decide as Hb; [done|].
  destruct msg as [m|]; [|done]. destruct (fs_msgs s !! id) eqn:E; [done|]. split; [done|].
  intros id' sfx' m'. simpl. rewrite lookup_insert. case_decide as Hd; [|by intros H%Hm].
  intros [= <- <-]. subst id'. unfold is_u64 in *. lia.
Qed.

Lemma fwf_Delete s id : fwf s → fwf (spec_DeleteMessage id s).2.
Proof.
  intros [Hn Hm]. unfold spec_DeleteMessage. case_bool_decide; [done|].
  destruct (fs_msgs s !! id) eqn:E; [|done]. split; [done|].
  intros id' sfx' m'. simpl. intros [_ H']%lookup_delete_Some. by apply Hm in H'.
Qed.

(** The abstract folder refines itself. *)
#[export] Instance fstate_refines : FolderRefines fstate (λ f s, f = s ∧ fwf s).
Proof.
  split.
  - by intros ?? [-> ?].
  - by intros ?? [-> ?].
  - intros ???? [-> ?] ???. split; [done|]. split; [done|]. by apply fwf_InsertNew.
  - intros ????? [-> ?] ???. split; [done|]. split; [done|]. by apply fwf_Insert.
  - by intros ??? [-> ?].
  - intros ??? [-> ?] ?. split; [done|]. split; [done|]. by apply fwf_Delete.
Qed.

#[export] Instance fstate_iterates : FolderIterates fstate (λ f s, f = s ∧ fwf s).
Proof. by intros ????? [-> ?]. Qed.

(** ** Runs of operations

    What a client observes of a folder is the sequence of results of the
    operations it calls.  An implementation that refines the contract gives
    the same results as the abstract folder on every run. *)

Inductive folder_op :=
  | OpInsertNew (msg : option string) (sfx : Z)
  | OpInsert (id : Z) (msg : option string) (sfx : Z)
  | OpGet (id : Z)
  | OpDelete (id : Z)
  | OpNextID.

Inductive folder_out :=
  | OutID (r : res Z)
  | OutUnit (r : res unit)
  | OutMsg (r : res (Z * string)).

#[export] Instance folder_out_eq_dec : EqDecision folder_out.
Proof. solve_decision. Defined.

Definition run_op {F} `{Folder F} (op : folder_op) (f : F) : folder_out * F :=
  match op with
  | OpInsertNew msg sfx => let '(r, f) := InsertNewMessage msg sfx f in (OutID r, f)
  | OpInsert id msg sfx => let '(r, f) := InsertMessage id msg sfx f in (OutUnit r, f)
  | OpGet id => (OutMsg (GetMessage id f), f)
  | OpDelete id => let '(r, f) := DeleteMessage id f in (OutUnit r, f)
  | OpNextID => (OutID (Ok (NextID f)), f)
  end.

Fixpoint run_ops {F} `{Folder F} (ops : list folder_op) (f : F) : list folder_out * F :=
  match ops with
  | [] => ([], f)
  | op :: ops =>
      let '(o, f) := run_op op f in
      let '(os, f) := run_ops ops f in (o :: os, f)
  end.

(** Arguments of type [uint64], and payloads the storage accepts. *)
Definition op_ok (op : folder_op) : Prop :=
  match op with
  | OpInsertNew msg sfx => is_u64 sfx ∧ payload_ok msg
  | OpInsert id msg sfx => is_u64 id ∧ is_u64 sfx ∧ payload_ok msg
  | OpGet id | OpDelete id => is_u64 id
  | OpNextID => True
  end.

(** Discharge the bounds of a concrete run. *)
Ltac solve_ops_ok :=
  repeat first [apply Forall_nil_2 | apply Forall_cons_2 | exact I
    | progress unfold op_ok, is_u64, payload_ok | split | simpl; lia].

Lemma fs_next_run_op op s : fs_next (run_op op s).2 ≤ fs_next s + 1.
Proof.
  destruct op; simpl; try lia.
  - destruct msg; simpl; lia.
  - unfold spec_InsertMessage. repeat case_match; simplify_eq; simpl; lia.
  - unfold spec_DeleteMessage. repeat case_match; simplify_eq; simpl; lia.
Qed.

Lemma fs_next_run_ops ops s : fs_next (run_ops ops s).2 ≤ fs_next s + Z.of_nat (length ops).
Proof.
  revert s; induction ops as [|op ops IH]; intros s; [simpl; lia|]. cbn [run_ops].
  pose proof (fs_next_run_op op s). destruct (run_op op s) as [o s']. specialize (IH s').
  destruct (run_ops ops s'). simpl in *. lia.
Qed.

Section runs.
Context {F : Type} `{Folder F} (rep : F → fstate → Prop) `{!FolderRefines F rep}.

Lemma run_op_sim op f s :
  rep f s → op_ok op → fs_next s + 1 < 2 ^ 64 →
  (run_op op f).1 = (run_op op s).1 ∧ rep (run_op op f).2 (run_op op s).2.
Proof.
  intros Hr Hok Hlt. destruct op; simpl in *.
  - destruct Hok as [Hsfx Hp].
    pose proof (rep_InsertNew f s msg sfx Hr Hlt Hsfx Hp) as [H1 H2].
    destruct (InsertNewMessage msg sfx f), (spec_InsertNewMessage msg sfx s). simpl in *. by subst.
  - destruct Hok as (Hid & Hsfx & Hp).
    pose proof (rep_Insert f s id msg sfx Hr Hid Hsfx Hp) as [H1 H2].
    destruct (InsertMessage id msg sfx f), (spec_InsertMessage id msg sfx s). simpl in *. by subst.
  - split; [|done]. f_equal. by apply rep_Get.
  - pose proof (rep_Delete f s id Hr Hok) as [H1 H2].
    destruct (DeleteMessage id f), (spec_DeleteMessage id s). simpl in *. by subst.
  - split; [|done]. do 2 f_equal. by apply rep_NextID.
Qed.

Lemma run_ops_sim ops f s :
  rep f s → Forall op_ok ops → fs_next s + Z.of_nat (length ops) < 2 ^ 64 →
  (run_ops ops f).1 = (run_ops ops s).1 ∧ rep (run_ops ops f).2 (run_ops ops s).2.
Proof.
  revert f s; induction ops as [|op ops IH]; intros f s Hr Hok Hlt; [done|].
  apply Forall_cons in Hok as [Hop Hops]. simpl in Hlt. cbn [run_ops].
  destruct (run_op_sim op f s) as [H1 H2]; [done|done|lia|].
  pose proof (fs_next_run_op op s) as Hn.
  destruct (run_op op f) as [o f'], (run_op op s) as [o' s']. simpl in *. subst.
  destruct (IH f' s') as [H3 H4]; [done|done|lia|].
  destruct (run_ops ops f'), (run_ops ops s'). simpl in *. by subst.
Qed.
End runs.

(** *** The last identifiers *)

Lemma last_by_suffix_snoc l e : last_by_suffix (l ++ [e]) = <[e.2.1 := e.1]> (last_by_suffix l).
Proof. unfold last_by_suffix. by rewrite foldl_app. Qed.

Lemma ksorted_snoc (l : list entry) e :
  ksorted fst (l ++ [e]) → ksorted fst l ∧ ∀ x, x ∈ l → x.1 < e.1.
Proof.
  induction l as [|x l IH]; [by split; [constructor|intros x ?%not_elem_of_nil]|].
  rewrite <-app_comm_cons. intros [Hs F]%ksorted_cons. destruct (IH Hs) as [Hl Hlt].
  rewrite Forall_app, !Forall_forall in F. destruct F as [F1 F2]. split.
  - apply ksorted_cons. split; [done|]. by rewrite Forall_forall.
  - intros y [->|Hy]%elem_of_cons; [|by apply Hlt]. apply F2. by apply list_elem_of_singleton.
Qed.

(** For a list in increasing order the last insertion of a suffix is its
    greatest identifier. *)
Lemma last_by_suffix_spec (l : list entry) sfx :
  ksorted fst l →
  match last_by_suffix l !! sfx with
  | None => ∀ e, e ∈ l → e.2.1 ≠ sfx
  | Some i => (∃ m, (i, (sfx, m)) ∈ l) ∧ ∀ e, e ∈ l → e.2.1 = sfx → e.1 ≤ i
  end.
Proof.
  induction l as [|e l IH] using rev_ind; intros Hs.
  { change (last_by_suffix []) with (∅ : gmap Z Z). rewrite lookup_empty.
    by intros e ?%not_elem_of_nil. }
  destruct (ksorted_snoc l e Hs) as [Hl Hlt]. specialize (IH Hl).
  rewrite last_by_suffix_snoc. destruct (decide (e.2.1 = sfx)) as [Heq|Hne].
  - rewrite Heq, lookup_insert_eq. split.
    + exists e.2.2. apply elem_of_app; right. apply list_elem_of_singleton.
      destruct e as [i [s m]]; simpl in *. by subst.
    + intros x [Hx| ->%list_elem_of_singleton]%elem_of_app _; [|done].
      specialize (Hlt x Hx). lia.
  - rewrite lookup_insert_ne by done. destruct (last_by_suffix l !! sfx) as [i|].
    + destruct IH as [(m & Hm) Hmax]. split; [exists m; apply elem_of_app; by left|].
      intros x [Hx| ->%list_elem_of_singleton]%elem_of_app Hxs; [by apply Hmax|done].
    + intros x [Hx| ->%list_elem_of_singleton]%elem_of_app; [by apply IH|done].
Qed.

Lemma last_entry_spec (l : list entry) :
  ksorted fst l →
  match last l with
  | None => l = []
  | Some e => e ∈ l ∧ ∀ x, x ∈ l → x.1 ≤ e.1
  end.
Proof.
  destruct l as [|e l _] using rev_ind; [done|]. intros Hs.
  destruct (ksorted_snoc l e Hs) as [_ Hlt]. rewrite last_snoc.
  split; [apply elem_of_app; right; by apply list_elem_of_singleton|].
  intros x [Hx| ->%list_elem_of_singleton]%elem_of_app; [|done]. specialize (Hlt x Hx). lia.
Qed.
