(* ===== verification/MemFolder.v ===== *)
(** * The in-memory folder ([store/data/folder.go])

    [memFolder] keeps its messages in a map together with two caches, the
    highest identifier and the highest identifier of each suffix, which
    [DeleteMessage] repairs by walking down from the deleted message.
    [memFolders] is a map of names to pointers to such folders.

    Proved: the folder refines the contract of [FolderSpec], caches
    included ([LastID] is exact).  Not true of the code: [ForEachMessage]
    ignores the suffix, and [Rename] leaves the old name. *)

From S2P Require Import Prelude FolderSpec.

Record message := Message { payload : string; suffix : Z }.

Record memFolder := MemFolder {
  lastIndex : Z;
  nextIndex : Z;
  lastIndexBySuffix : gmap Z Z;
  messages : gmap Z message;
}.

Definition newMemFolder : memFolder := MemFolder 0 1 ∅ ∅.

Definition mem_NextID (f : memFolder) : Z := nextIndex f.
Definition mem_LastID (f : memFolder) : Z * gmap Z Z := (lastIndex f, lastIndexBySuffix f).

Definition updateLast (id suffix : Z) (f : memFolder) : memFolder :=
  if lastIndex f <? id then
    MemFolder id (nextIndex f) (<[suffix := id]> (lastIndexBySuffix f)) (messages f)
  else if zlookup (lastIndexBySuffix f) suffix <? id then
    MemFolder (lastIndex f) (nextIndex f) (<[suffix := id]> (lastIndexBySuffix f)) (messages f)
  else f.

Definition set_message (id : Z) (m : message) (f : memFolder) : memFolder :=
  MemFolder (lastIndex f) (nextIndex f) (lastIndexBySuffix f) (<[id := m]> (messages f)).

(** The deferred call runs after the returned identifier is evaluated. *)
Definition mem_InsertNewMessage (msg : option string) (suffix : Z) : M memFolder Z := λ f,
  match msg with
  | None => (Err (ErrNew "Nil message inserted."), f)
  | Some m =>
      let f := set_message (nextIndex f) (Message m suffix) f in
      let id := nextIndex f in
      let f := updateLast (nextIndex f) suffix f in
      (Ok id, MemFolder (lastIndex f) (u64 (nextIndex f + 1)) (lastIndexBySuffix f) (messages f))
  end.

Definition mem_InsertMessage (id : Z) (msg : option string) (suffix : Z) : M memFolder unit := λ f,
  if bool_decide (id = 0 ∨ nextIndex f ≤ id) then (Err ErrInvalidID, f)
  else match msg with
  | None => (Err (ErrNew "Nil message inserted."), f)
  | Some m =>
      match messages f !! id with
      | Some _ => (Err ErrDuplicateID, f)
      | None => (Ok tt, set_message id (Message m suffix) (updateLast id suffix f))
      end
  end.

Definition mem_GetMessage (id : Z) (f : memFolder) : res (Z * string) :=
  if bool_decide (id = 0 ∨ nextIndex f ≤ id) then Err ErrNotFound
  else match messages f !! id with
  | None => Err ErrNotFound
  | Some m => Ok (suffix m, payload m)
  end.

(** [for k := id - 1; k > 0; k--], with [k] counted down; the boolean tells
    whether the loop has returned. *)
Fixpoint repair_last (k : nat) (id sfx : Z) (f : memFolder) : memFolder * bool :=
  match k with
  | O => (f, false)
  | S k' =>
      let k := Z.of_nat (S k') in
      match messages f !! k with
      | Some m =>
          let f := if id =? lastIndex f
                   then MemFolder k (nextIndex f) (lastIndexBySuffix f) (messages f) else f in
          if suffix m =? sfx then
            (MemFolder (lastIndex f) (nextIndex f) (<[sfx := k]> (lastIndexBySuffix f)) (messages f), true)
          else repair_last k' id sfx f
      | None => repair_last k' id sfx f
      end
  end.

Definition mem_DeleteMessage (id : Z) : M memFolder unit := λ f,
  if bool_decide (id = 0 ∨ nextIndex f ≤ id) then (Err ErrInvalidID, f)
  else match messages f !! id with
  | None => (Err ErrNotFound, f)
  | Some m =>
      let sfx := suffix m in
      let f := MemFolder (lastIndex f) (nextIndex f) (lastIndexBySuffix f) (delete id (messages f)) in
      if negb (zlookup (lastIndexBySuffix f) sfx =? id) then (Ok tt, f)
      else
        let '(f, returned) := repair_last (Z.to_nat (id - 1)) id sfx f in
        if returned then (Ok tt, f)
        else
          (Ok tt, MemFolder (if id =? lastIndex f then 0 else lastIndex f) (nextIndex f)
                    (delete sfx (lastIndexBySuffix f)) (messages f))
  end.

(** [range] over a Go map visits the entries in an order the language does
    not fix: it is an argument. *)
Definition mem_ForEachMessage (order : gmap Z message → list (Z * message)) {S : Type}
    (lowID highID suffix_ : Z) (fn : Z → Z → string → M S unit) (f : memFolder) : M S unit :=
  mfor (order (messages f)) (λ '(id, m),
    if bool_decide ((highID < id ∧ highID ≠ 0) ∨ id < lowID) then mret tt
    else fn id (suffix m) (payload m)).

Definition any_order (m : gmap Z message) : list (Z * message) := map_to_list m.

#[export] Instance memFolder_Folder : Folder memFolder := {
  InsertNewMessage := mem_InsertNewMessage;
  InsertMessage := mem_InsertMessage;
  GetMessage := mem_GetMessage;
  DeleteMessage := mem_DeleteMessage;
  ForEachMessage := @mem_ForEachMessage any_order;
  NextID := mem_NextID;
  LastID := λ f, Ok (mem_LastID f);
}.

(** ** Named folders: a map of pointers into a heap of folders *)

Record memFolders := MemFolders {
  folders_heap : gmap nat memFolder;
  folders : gmap string nat;
}.

Definition NewMemFolders : memFolders := MemFolders ∅ ∅.

Definition mfs_New (name : string) : M memFolders nat := λ mf,
  match folders mf !! name with
  | Some _ => (Err ErrDuplicateID, mf)
  | None =>
      let f := fresh (dom (folders_heap mf)) in
      (Ok f, MemFolders (<[f := newMemFolder]> (folders_heap mf)) (<[name := f]> (folders mf)))
  end.

Definition mfs_Get (name : string) (mf : memFolders) : res nat :=
  match folders mf !! name with Some f => Ok f | None => Err ErrNotFound end.

Definition mfs_Rename (name newname : string) : M memFolders unit := λ mf,
  match folders mf !! name with
  | None => (Err ErrNotFound, mf)
  | Some f => (Ok tt, MemFolders (folders_heap mf) (<[newname := f]> (folders mf)))
  end.

Definition mfs_Delete (name : string) : M memFolders unit := λ mf,
  match folders mf !! name with
  | None => (Err ErrNotFound, mf)
  | Some _ => (Ok tt, MemFolders (folders_heap mf) (delete name (folders mf)))
  end.

Definition mfs_Names (mf : memFolders) : list string := (map_to_list (folders mf)).*1.

(** ** Greatest elements *)

Definition is_top (P : Z → Prop) (o : option Z) : Prop :=
  match o with
  | None => ∀ j, ¬ P j
  | Some i => P i ∧ ∀ j, P j → j ≤ i
  end.

Lemma is_top_unique P o1 o2 : is_top P o1 → is_top P o2 → o1 = o2.
Proof.
  destruct o1 as [i|], o2 as [j|]; simpl.
  - intros [Hi Hi'] [Hj Hj']. f_equal. apply Z.le_antisymm; auto.
  - intros [Hi _] Hn. by apply Hn in Hi.
  - intros Hn [Hj _]. by apply Hn in Hj.
  - done.
Qed.

Lemma is_top_ext P Q o : (∀ j, P j ↔ Q j) → is_top P o → is_top Q o.
Proof.
  intros HPQ. destruct o as [i|]; simpl.
  - intros [Hi Hm]. split; [by apply HPQ|]. intros j Hj%HPQ. auto.
  - intros H j Hj%HPQ. by eapply H.
Qed.

Lemma is_top_add P o id :
  is_top P o → is_top (λ j, j = id ∨ P j) (Some (match o with None => id | Some i => Z.max i id end)).
Proof.
  destruct o as [i|]; simpl.
  - intros [Hi Hm]. split.
    + destruct (Z.max_spec i id) as [[_ ->]|[_ ->]]; auto.
    + intros j [->|Hj%Hm]; lia.
  - intros H. split; [by left|]. intros j [->|Hj]; [done|]. by apply H in Hj.
Qed.

Definition present (m : gmap Z message) (i : Z) : Prop := is_Some (m !! i).
Definition present_sfx (m : gmap Z message) (sfx i : Z) : Prop :=
  ∃ x, m !! i = Some x ∧ suffix x = sfx.

Lemma present_insert m id x j : present (<[id := x]> m) j ↔ j = id ∨ present m j.
Proof.
  unfold present. rewrite lookup_insert_is_Some'. split; intros [->|]; auto.
Qed.

Lemma present_sfx_insert m id x sfx j : m !! id = None →
  present_sfx (<[id := x]> m) sfx j ↔ (j = id ∧ suffix x = sfx) ∨ present_sfx m sfx j.
Proof.
  intros Hid. unfold present_sfx. split.
  - intros (y & [[<- <-]|[? ?]]%lookup_insert_Some & Hs); eauto.
  - intros [[-> Hs]|(y & Hy & Hs)].
    + exists x. by rewrite lookup_insert_eq.
    + exists y. rewrite lookup_insert_ne; [done|]. congruence.
Qed.

(** ** The representation *)

Definition to_entry (m : message) : Z * string := (suffix m, payload m).

Record mem_caches (f : memFolder) : Prop := {
  cache_last : ∃ o, is_top (present (messages f)) o ∧ lastIndex f = default 0 o;
  cache_suffix : ∀ sfx, is_top (present_sfx (messages f) sfx) (lastIndexBySuffix f !! sfx);
}.

Record mem_rep (f : memFolder) (s : fstate) : Prop := {
  mem_rep_wf : fwf s;
  mem_rep_next : nextIndex f = fs_next s;
  mem_rep_msgs : to_entry <$> messages f = fs_msgs s;
  mem_rep_caches : mem_caches f;
}.

Lemma mem_rep_lookup f s id : mem_rep f s → fs_msgs s !! id = to_entry <$> messages f !! id.
Proof. intros H. rewrite <-(mem_rep_msgs _ _ H). apply lookup_fmap. Qed.

Lemma mem_rep_positive f s i : mem_rep f s → present (messages f) i → 1 ≤ i < nextIndex f.
Proof.
  intros H [x Hx]. rewrite (mem_rep_next _ _ H). destruct (mem_rep_wf _ _ H) as [_ Hm].
  apply (Hm i (suffix x) (payload x)). by rewrite (mem_rep_lookup f), Hx.
Qed.

Lemma newMemFolder_rep : mem_rep newMemFolder (FState 1 ∅).
Proof.
  split; [split; [simpl; lia|done]|done|done|]. split; simpl.
  - exists None. split; [|done]. by intros j [x Hx].
  - intros sfx. rewrite lookup_empty. by intros j (x & Hx & _).
Qed.

(** ** Insertion *)

Lemma updateLast_messages id sfx f : messages (updateLast id sfx f) = messages f.
Proof. unfold updateLast. by repeat case_match. Qed.

Lemma updateLast_next id sfx f : nextIndex (updateLast id sfx f) = nextIndex f.
Proof. unfold updateLast. by repeat case_match. Qed.

Lemma updateLast_set_message id sfx i x f :
  updateLast id sfx (set_message i x f) = set_message i x (updateLast id sfx f).
Proof. unfold updateLast. simpl. by repeat case_match. Qed.

(** The two caches after [updateLast]. *)
Lemma updateLast_last id sfx f : lastIndex (updateLast id sfx f) = Z.max (lastIndex f) id.
Proof.
  unfold updateLast. destruct (Z.ltb_spec (lastIndex f) id); simpl; [lia|].
  case_match; simpl; lia.
Qed.

Lemma updateLast_suffix id sfx f :
  mem_caches f → 1 ≤ id →
  lastIndexBySuffix (updateLast id sfx f) !! sfx =
    Some (match lastIndexBySuffix f !! sfx with None => id | Some i => Z.max i id end) ∧
  ∀ sfx', sfx' ≠ sfx → lastIndexBySuffix (updateLast id sfx f) !! sfx' = lastIndexBySuffix f !! sfx'.
Proof.
  intros [(o & Ho & Hlast) Hsfx] Hid. unfold updateLast, zlookup.
  specialize (Hsfx sfx). destruct (Z.ltb_spec (lastIndex f) id) as [Hlt|Hge]; simpl.
  { split; [|intros; by rewrite lookup_insert_ne]. rewrite lookup_insert_eq.
    destruct (lastIndexBySuffix f !! sfx) as [i|]; [|done].
    destruct Hsfx as [(x & Hx & _) _]. f_equal. rewrite Hlast in Hlt.
    destruct o as [l|]; simpl in *.
    - destruct Ho as [_ Hm]. specialize (Hm i). assert (i ≤ l) by (apply Hm; by exists x). lia.
    - exfalso. apply (Ho i). by exists x. }
  destruct (lastIndexBySuffix f !! sfx) as [i|] eqn:E; simpl.
  - destruct (Z.ltb_spec i id); simpl; (split; [|intros; by rewrite ?lookup_insert_ne]).
    + rewrite lookup_insert_eq. f_equal. lia.
    + rewrite E. f_equal. lia.
  - destruct (Z.ltb_spec 0 id); [|lia]. simpl.
    split; [by rewrite lookup_insert_eq|intros; by rewrite lookup_insert_ne].
Qed.

Lemma insert_caches f id x :
  mem_caches f → messages f !! id = None → 1 ≤ id →
  mem_caches (set_message id x (updateLast id (suffix x) f)).
Proof.
  intros Hc Hid Hpos. pose proof (updateLast_suffix id (suffix x) f Hc Hpos) as [Hs Hs'].
  destruct Hc as [(o & Ho & Hlast) Hsfx]. split; simpl; rewrite updateLast_messages.
  - exists (Some (match o with None => id | Some i => Z.max i id end)). split.
    + eapply is_top_ext; [|by apply is_top_add]. intros j. symmetry. apply present_insert.
    + rewrite updateLast_last, Hlast. destruct o; simpl; lia.
  - intros sfx. destruct (decide (sfx = suffix x)) as [->|Hne].
    + rewrite Hs. eapply is_top_ext; [|by apply is_top_add, Hsfx].
      intros j. simpl. rewrite present_sfx_insert by done. simpl. tauto.
    + rewrite Hs' by done. eapply is_top_ext; [|apply Hsfx].
      intros j. rewrite present_sfx_insert by done. intuition congruence.
Qed.

Lemma mem_InsertNew_sim f s msg sfx :
  mem_rep f s → fs_next s + 1 < 2 ^ 64 → is_u64 sfx →
  sim mem_rep (mem_InsertNewMessage msg sfx f) (spec_InsertNewMessage msg sfx s).
Proof.
  intros Hr Hlt Hsfx. destruct msg as [m|]; [|done].
  pose proof (mem_rep_wf _ _ Hr) as Hwf. pose proof Hwf as [Hn Hm].
  pose proof (mem_rep_next _ _ Hr) as Hnext.
  assert (messages f !! fs_next s = None) as Hnone.
  { destruct (messages f !! fs_next s) as [x|] eqn:E; [|done].
    assert (present (messages f) (fs_next s)) as Hp by (by exists x).
    apply (mem_rep_positive f s) in Hp; [lia|done]. }
  pose proof (insert_caches f (fs_next s) (Message m sfx) (mem_rep_caches _ _ Hr) Hnone ltac:(lia)) as Hc.
  unfold mem_InsertNewMessage. cbv zeta. rewrite updateLast_set_message. simpl.
  rewrite updateLast_next, Hnext, u64_id by (unfold is_u64; lia).
  split; [done|]. simpl. split; simpl.
  - by apply (fwf_InsertNew s (Some m) sfx).
  - done.
  - rewrite updateLast_messages, fmap_insert. by rewrite (mem_rep_msgs _ _ Hr).
  - destruct Hc as [Hc1 Hc2]. split; [exact Hc1|exact Hc2].
Qed.

Lemma mem_Insert_sim f s id msg sfx :
  mem_rep f s → is_u64 id → is_u64 sfx →
  sim mem_rep (mem_InsertMessage id msg sfx f) (spec_InsertMessage id msg sfx s).
Proof.
  intros Hr Hid Hsfx. pose proof (fwf_Insert s id msg sfx (mem_rep_wf _ _ Hr) Hid Hsfx) as Hwf.
  unfold mem_InsertMessage, spec_InsertMessage in *.
  rewrite (mem_rep_next _ _ Hr). case_bool_decide as Hb; [done|].
  destruct msg as [m|]; [|done]. rewrite (mem_rep_lookup f) in * by done.
  destruct (messages f !! id) as [x|] eqn:E; [done|]. split; [done|]. simpl in *.
  pose proof (insert_caches f id (Message m sfx) (mem_rep_caches _ _ Hr) E) as Hc. split; simpl.
  - done.
  - rewrite updateLast_next. apply (mem_rep_next _ _ Hr).
  - rewrite updateLast_messages, fmap_insert. by rewrite (mem_rep_msgs _ _ Hr).
  - apply Hc. unfold is_u64 in *. lia.
Qed.

Lemma mem_Get_ok f s id : mem_rep f s → is_u64 id → mem_GetMessage id f = spec_GetMessage id s.
Proof.
  intros Hr Hid. unfold mem_GetMessage, spec_GetMessage.
  rewrite (mem_rep_lookup f) by done. case_bool_decide as Hb; [|by destruct (messages f !! id)].
  destruct (messages f !! id) as [x|] eqn:E; [|done].
  assert (present (messages f) id) as Hp by (by exists x).
  apply (mem_rep_positive f s) in Hp; [lia|done].
Qed.

(** ** Deletion *)

(** What the walk has left to do: every message of the suffix is at or
    below [k], and so is every message when the last one was deleted. *)
Record repairing (msgs : gmap Z message) (k id sfx : Z) (f : memFolder) : Prop := {
  rp_msgs : messages f = msgs;
  rp_id : ¬ present msgs id ∧ 1 ≤ id;
  rp_k : k < id;
  rp_sfx : ∀ j, present_sfx msgs sfx j → j ≤ k;
  rp_last : (lastIndex f = id ∧ ∀ j, present msgs j → j ≤ k) ∨
    (lastIndex f ≠ id ∧ is_top (present msgs) (Some (lastIndex f)));
  rp_other : ∀ sfx', sfx' ≠ sfx → is_top (present_sfx msgs sfx') (lastIndexBySuffix f !! sfx');
}.

Definition finish_repair (id sfx : Z) (p : memFolder * bool) : memFolder :=
  let '(f, returned) := p in
  if returned then f
  else MemFolder (if id =? lastIndex f then 0 else lastIndex f) (nextIndex f)
         (delete sfx (lastIndexBySuffix f)) (messages f).

Lemma repair_last_ok msgs k id sfx f :
  (∀ j, present msgs j → 1 ≤ j) →
  repairing msgs (Z.of_nat k) id sfx f →
  let f' := finish_repair id sfx (repair_last k id sfx f) in
  mem_caches f' ∧ messages f' = msgs ∧ nextIndex f' = nextIndex f.
Proof.
  intros Hpos. revert f; induction k as [|k IH]; intros f [Hm [Hid Hid1] Hk Hsfx Hlast Hother].
  - cbn. split; [|done]. rewrite Hm. split; simpl.
    + destruct Hlast as [[-> Hall]|[Hne Htop]].
      * rewrite Z.eqb_refl. exists None. split; [|done]. intros j Hj.
        specialize (Hall j Hj). specialize (Hpos j Hj). simpl in Hall. lia.
      * exists (Some (lastIndex f)). rewrite (proj2 (Z.eqb_neq _ _)) by lia. done.
    + intros sfx'. destruct (decide (sfx' = sfx)) as [->|Hne].
      * rewrite lookup_delete_eq. intros j Hj. assert (present msgs j) as Hp by (destruct Hj as (x & ? & _); by exists x).
        specialize (Hsfx j Hj). specialize (Hpos j Hp). simpl in Hsfx. lia.
      * rewrite lookup_delete_ne by done. by apply Hother.
  - cbn [repair_last]. rewrite Hm. set (k' := Z.of_nat (S k)) in *.
    destruct (msgs !! k') as [x|] eqn:E.
    2:{ assert (∀ j, j ≤ k' → present msgs j → j ≤ Z.of_nat k) as Hdown.
        { intros j Hj [y Hy]. assert (j ≠ k') by congruence. lia. }
        apply IH. split; [done|done|lia| | |done].
        - intros j Hj. apply Hdown; [by apply Hsfx|]. destruct Hj as (y & Hy & _). by exists y.
        - destruct Hlast as [[? Hall]|?]; [left|by right]. split; [done|]. intros j Hj. apply Hdown; auto. }
    set (f0 := if id =? lastIndex f then _ else f).
    assert (messages f0 = msgs ∧ lastIndexBySuffix f0 = lastIndexBySuffix f ∧ nextIndex f0 = nextIndex f
      ∧ lastIndex f0 ≠ id ∧ is_top (present msgs) (Some (lastIndex f0))) as (Hm0 & Hs0 & Hn0 & Hl0 & Ht0).
    { subst f0. destruct Hlast as [[Hl Hall]|[Hne Htop]].
      - rewrite Hl, Z.eqb_refl. simpl. repeat split; [lia|by exists x|done].
      - rewrite (proj2 (Z.eqb_neq _ _)) by lia. repeat split; try done; apply Htop. }
    destruct (Z.eqb_spec (suffix x) sfx) as [Hx|Hx]; cbn.
    + rewrite Hm0, Hn0, Hs0. split; [|done]. split; simpl.
      * by exists (Some (lastIndex f0)).
      * intros sfx'. destruct (decide (sfx' = sfx)) as [->|Hne].
        -- rewrite lookup_insert_eq. split; [by exists x|done].
        -- rewrite lookup_insert_ne by done. by apply Hother.
    + rewrite <-Hn0. apply IH. split; [done|done|lia| |by right|by rewrite Hs0].
      intros j Hj. assert (j ≠ k').
      { intros ->. destruct Hj as (y & Hy & Hys). congruence. }
      specialize (Hsfx j Hj). lia.
Qed.

(** The loop is entered only when the deleted message was the last one of
    its suffix; otherwise no cache mentions it. *)
Lemma delete_repairing f id x :
  mem_caches f → messages f !! id = Some x → 1 ≤ id →
  zlookup (lastIndexBySuffix f) (suffix x) = id →
  repairing (delete id (messages f)) (id - 1) id (suffix x)
    (MemFolder (lastIndex f) (nextIndex f) (lastIndexBySuffix f) (delete id (messages f))).
Proof.
  intros [(o & Ho & Hlast) Hsfx] Hx Hid Hz.
  assert (∀ j, present (delete id (messages f)) j ↔ j ≠ id ∧ present (messages f) j) as Hp.
  { intros j. unfold present. rewrite lookup_delete_is_Some. intuition congruence. }
  assert (∀ sfx j, present_sfx (delete id (messages f)) sfx j ↔ j ≠ id ∧ present_sfx (messages f) sfx j) as Hps.
  { intros sfx j. unfold present_sfx. setoid_rewrite lookup_delete_Some. split.
    - intros (y & [? ?] & ?). split; [congruence|]. by exists y.
    - intros (? & y & ? & ?). exists y. split; [|done]. split; [congruence|done]. }
  split; simpl; [done| |lia| | |].
  - rewrite Hp. tauto.
  - intros j [Hne Hj]%Hps. specialize (Hsfx (suffix x)). unfold zlookup in Hz.
    destruct (lastIndexBySuffix f !! suffix x) as [i|]; simpl in *; [|lia].
    destruct Hsfx as [_ Hmax]. specialize (Hmax j Hj). lia.
  - rewrite Hlast. assert (present (messages f) id) as Hpid by (by exists x).
    destruct o as [l|]; [|by apply Ho in Hpid]. simpl. destruct Ho as [Hl Hmax].
    destruct (decide (l = id)) as [->|Hne]; [left|right]; (split; [done|]).
    + intros j [? Hj]%Hp. specialize (Hmax j Hj). lia.
    + split; [by apply Hp|]. by intros j [? Hj%Hmax]%Hp.
  - intros sfx' Hne. eapply is_top_ext; [|apply Hsfx]. intros j. rewrite Hps.
    split; [|tauto]. intros Hj. split; [|done]. intros ->.
    destruct Hj as (y & Hy & Hys). congruence.
Qed.

Lemma delete_other_caches f id x :
  mem_caches f → messages f !! id = Some x → 1 ≤ id →
  zlookup (lastIndexBySuffix f) (suffix x) ≠ id →
  mem_caches (MemFolder (lastIndex f) (nextIndex f) (lastIndexBySuffix f) (delete id (messages f))).
Proof.
  intros [(o & Ho & Hlast) Hsfx] Hx Hid Hz.
  assert (∃ i, id < i ∧ present_sfx (messages f) (suffix x) i) as (i & Hi & Hpi).
  { pose proof (Hsfx (suffix x)) as Htop. unfold zlookup in Hz.
    assert (present_sfx (messages f) (suffix x) id) as Hpid by (by exists x).
    destruct (lastIndexBySuffix f !! suffix x) as [i|]; simpl in *; [|by apply Htop in Hpid].
    destruct Htop as [Hpi Hmax]. exists i. split; [|done]. specialize (Hmax id Hpid). lia. }
  assert (∀ P Q : Z → Prop, ∀ o, (∀ j, Q j ↔ j ≠ id ∧ P j) → (∀ l, o = Some l → l ≠ id) →
    is_top P o → is_top Q o) as Hshrink.
  { intros P Q [l|] HPQ Hl; simpl.
    - intros [HP Hm]. split; [apply HPQ; split; [by apply Hl|done]|]. by intros j [_ ?%Hm]%HPQ.
    - intros Hn j [_ ?]%HPQ. by eapply Hn. }
  split; simpl.
  - exists o. split; [|done]. eapply Hshrink; [|  |exact Ho].
    + intros j. unfold present. rewrite lookup_delete_is_Some. intuition congruence.
    + intros l -> ->. destruct Ho as [_ Hmax]. destruct Hpi as (y & Hy & _).
      assert (i ≤ id) by (apply Hmax; by exists y). lia.
  - intros sfx. eapply Hshrink; [| |apply Hsfx].
    + intros j. unfold present_sfx. setoid_rewrite lookup_delete_Some. split.
      * intros (y & [? ?] & ?). split; [congruence|]. by exists y.
      * intros (? & y & ? & ?). exists y. split; [|done]. split; [congruence|done].
    + intros l Hl ->. pose proof (Hsfx sfx) as Htop. rewrite Hl in Htop. destruct Htop as [(y & Hy & Hys) _].
      apply Hz. unfold zlookup. assert (suffix x = sfx) as -> by congruence. by rewrite Hl.
Qed.

Lemma mem_Delete_sim f s id :
  mem_rep f s → is_u64 id → sim mem_rep (mem_DeleteMessage id f) (spec_DeleteMessage id s).
Proof.
  intros Hr Hid. pose proof (fwf_Delete s id (mem_rep_wf _ _ Hr)) as Hwf.
  unfold mem_DeleteMessage, spec_DeleteMessage in *. rewrite <-(mem_rep_next _ _ Hr) in *.
  case_bool_decide as Hb; [done|]. rewrite (mem_rep_lookup f) in * by done.
  destruct (messages f !! id) as [x|] eqn:E; [|done]. simpl in *.
  assert (1 ≤ id) as Hpos by (unfold is_u64 in *; lia).
  pose proof (mem_rep_caches _ _ Hr) as Hc.
  assert (∀ f', messages f' = delete id (messages f) → nextIndex f' = nextIndex f → mem_caches f' →
    mem_rep f' (FState (nextIndex f) (delete id (fs_msgs s)))) as Hfin.
  { intros f' H1 H2 H3. split; [done| | |done]; simpl.
    - done.
    - rewrite H1, fmap_delete. by rewrite (mem_rep_msgs _ _ Hr). }
  destruct (Z.eqb_spec (zlookup (lastIndexBySuffix f) (suffix x)) id) as [Hz|Hz]; cbn [negb].
  - pose proof (delete_repairing f id x Hc E Hpos Hz) as Hrp.
    replace (id - 1) with (Z.of_nat (Z.to_nat (id - 1))) in Hrp by lia.
    apply repair_last_ok in Hrp.
    2:{ intros j Hj. apply (mem_rep_positive f s); [done|].
        destruct Hj as [y [_ Hy]%lookup_delete_Some]. by exists y. }
    destruct Hrp as (Hc' & Hm' & Hn'). unfold finish_repair in *.
    destruct (repair_last _ _ _ _) as [f' []]; (split; [done|]); simpl in *; by apply Hfin.
  - split; [done|]. simpl. apply Hfin; [done|done|]. by apply (delete_other_caches f id x).
Qed.

#[export] Instance memFolder_refines : FolderRefines memFolder mem_rep.
Proof.
  split.
  - intros. by eapply mem_rep_wf.
  - intros. by apply mem_rep_next.
  - intros. by apply mem_InsertNew_sim.
  - intros. by apply mem_Insert_sim.
  - apply mem_Get_ok.
  - apply mem_Delete_sim.
Qed.

(** ** The caches are exact *)

Lemma mem_LastID_ok f s : mem_rep f s → Ok (mem_LastID f) = spec_LastID s.
Proof.
  intros Hr. unfold spec_LastID, mem_LastID.
  pose proof (entries_ksorted (fs_msgs s)) as Hs.
  destruct (mem_rep_caches _ _ Hr) as [(o & Ho & Hlast) Hsfx].
  assert (∀ i x, messages f !! i = Some x → (i, to_entry x) ∈ entries (fs_msgs s)) as Hin.
  { intros i x Hx. apply elem_of_entries. by rewrite (mem_rep_lookup f), Hx. }
  assert (∀ i e, (i, e) ∈ entries (fs_msgs s) → ∃ x, messages f !! i = Some x ∧ to_entry x = e) as Hout.
  { intros i e He%elem_of_entries. rewrite (mem_rep_lookup f) in He by done.
    destruct (messages f !! i) as [x|]; simplify_eq/=. eauto. }
  f_equal. f_equal.
  - rewrite Hlast. pose proof (last_entry_spec _ Hs) as Hl. destruct (last _) as [[i e]|]; simpl.
    + destruct Hl as [He Hmax]. assert (o = Some i) as ->; [|done].
      eapply is_top_unique; [exact Ho|]. split.
      * destruct (Hout i e He) as (x & Hx & _). by exists x.
      * intros j [x Hx]. by apply (Hmax (j, to_entry x)), Hin.
    + assert (o = None) as ->; [|done]. eapply is_top_unique; [exact Ho|].
      intros j [x Hx]. apply Hin in Hx. rewrite Hl in Hx. by apply not_elem_of_nil in Hx.
  - apply map_eq. intros sfx. eapply is_top_unique; [apply Hsfx|].
    pose proof (last_by_suffix_spec _ sfx Hs) as Hl.
    destruct (last_by_suffix _ !! sfx) as [i|]; simpl.
    + destruct Hl as [(m & He) Hmax]. split.
      * destruct (Hout _ _ He) as (x & Hx & Hxe). exists x. split; [done|]. by inversion Hxe.
      * intros j (x & Hx & <-). by apply (Hmax (j, to_entry x)), eq_refl; apply Hin.
    + intros j (x & Hx & Hxs). by apply (Hl (j, to_entry x)); [apply Hin|].
Qed.

(** ** Properties *)

(** C29: on every sequence of operations with 64-bit arguments and payloads of at
    most [2^30] bytes (fewer than [2^64 - 1] of them) a fresh in-memory folder gives exactly the results,
    errors included, of the contract of [data.Folder], and its two caches
    then equal the highest identifier and the highest identifier of each
    suffix, whatever was deleted in between. *)
Theorem memFolder_refinement ops :
  Forall op_ok ops → Z.of_nat (length ops) < 2 ^ 64 - 1 →
  let '(outs, f) := run_ops ops newMemFolder in
  let '(outs', s) := run_ops ops (FState 1 ∅) in
  outs = outs' ∧ Ok (mem_LastID f) = spec_LastID s.
Proof.
  intros Hok Hlen.
  pose proof (run_ops_sim mem_rep ops _ _ newMemFolder_rep Hok ltac:(simpl; lia)) as [H1 H2].
  destruct (run_ops ops newMemFolder) as [outs f], (run_ops ops (FState 1 ∅)) as [outs' s].
  split; [exact H1|]. by apply mem_LastID_ok.
Qed.

(** After a successful [Rename] of an in-memory folder both names reach
    the same folder object: the old name is not removed. *)
Theorem memFolders_Rename_aliases mf name newname f :
  mfs_Get name mf = Ok f →
  let '(r, mf') := mfs_Rename name newname mf in
  r = Ok tt ∧ mfs_Get name mf' = Ok f ∧ mfs_Get newname mf' = Ok f ∧
  folders_heap mf' = folders_heap mf.
Proof.
  unfold mfs_Get, mfs_Rename. destruct (folders mf !! name) as [g|] eqn:E; [|done].
  intros [= ->]. simpl. rewrite lookup_insert_eq. repeat split.
  destruct (decide (name = newname)) as [->|]; [by rewrite lookup_insert_eq|].
  by rewrite lookup_insert_ne, E.
Qed.

(** [ForEachMessage] of the in-memory folder does not select by suffix,
    as the interface documents: asked for the messages of suffix 1 in a
    folder that holds one message of suffix 1 and one of suffix 2, it visits
    two messages in whatever order the map is iterated; the contract visits
    one. *)
Theorem memFolder_ForEach_ignores_suffix order :
  (∀ m, order m ≡ₚ map_to_list m) →
  let collect := λ (id sfx : Z) (m : string) (l : list Z), (Ok tt, l ++ [id]) in
  let f := (run_ops [OpInsertNew (Some "a") 1; OpInsertNew (Some "b") 2] newMemFolder).2 in
  let s := (run_ops [OpInsertNew (Some "a") 1; OpInsertNew (Some "b") 2] (FState 1 ∅)).2 in
  mem_rep f s ∧
  length (mem_ForEachMessage order 0 0 1 collect f []).2 = 2%nat ∧
  spec_ForEachMessage 0 0 1 collect s [] = (Ok tt, [1]).
Proof.
  intros Horder collect f s. split; [|split].
  - subst f s. apply (run_ops_sim mem_rep _ _ _ newMemFolder_rep); [|simpl; lia].
    solve_ops_ok.
  - unfold mem_ForEachMessage.
    assert (Hperm : length (order (messages f)) = 2%nat).
    { rewrite Horder. vm_compute. reflexivity. }
    assert (Forall (λ e : Z * message, 0 ≤ e.1) (order (messages f))) as Hpos.
    { rewrite Horder. by apply (bool_decide_eq_true_1 _); vm_compute. }
    destruct (order (messages f)) as [|[i x] [|[j y] [|? ?]]]; try discriminate Hperm.
    apply Forall_cons in Hpos as [Hi Hpos]. apply Forall_cons in Hpos as [Hj _]. simpl in Hi, Hj.
    cbn. rewrite !bool_decide_eq_false_2 by lia. done.
  - vm_compute. reflexivity.
Qed.

Lemma memFolder_refinement_witness :
  (run_ops [OpInsertNew (Some "a") 1; OpInsertNew (Some "b") 2; OpDelete 2; OpGet 1; OpGet 2;
            OpInsert 2 (Some "c") 1; OpInsert 2 None 1; OpInsert 9 None 1] newMemFolder).1 =
  [OutID (Ok 1); OutID (Ok 2); OutUnit (Ok tt); OutMsg (Ok (1, "a")); OutMsg (Err ErrNotFound);
   OutUnit (Ok tt); OutUnit (Err msg_nil); OutUnit (Err ErrInvalidID)].
Proof.
  pose proof (memFolder_refinement
    [OpInsertNew (Some "a") 1; OpInsertNew (Some "b") 2; OpDelete 2; OpGet 1; OpGet 2;
     OpInsert 2 (Some "c") 1; OpInsert 2 None 1; OpInsert 9 None 1]) as H.
  destruct (run_ops _ newMemFolder) as [outs f] eqn:E.
  destruct H as [-> _]; [solve_ops_ok|simpl; lia|].
  vm_compute. reflexivity.
Defined.

Lemma memFolders_Rename_aliases_witness :
  let mf := (mfs_New "a" NewMemFolders).2 in
  mfs_Get "a" mf = Ok 0%nat ∧ mfs_Get "a" (mfs_Rename "a" "b" mf).2 = Ok 0%nat.
Proof.
  split; [vm_compute; reflexivity|].
  pose proof (memFolders_Rename_aliases (mfs_New "a" NewMemFolders).2 "a" "b" 0%nat) as H.
  destruct (mfs_Rename "a" "b" _) as [r mf']. apply H. vm_compute. reflexivity.
Defined.

Lemma memFolder_ForEach_ignores_suffix_witness :
  let collect := λ (id sfx : Z) (m : string) (l : list Z), (Ok tt, l ++ [id]) in
  length (mem_ForEachMessage any_order 0 0 1 collect
    (run_ops [OpInsertNew (Some "a") 1; OpInsertNew (Some "b") 2] newMemFolder).2 []).2 = 2%nat.
Proof. apply (memFolder_ForEach_ignores_suffix any_order). intros m. done. Defined.
