(* ===== verification/Bolt.v ===== *)
(** * The database under the store (BoltDB)

    [store] keeps its data in BoltDB, whose code is not part of the
    repository: the database is a parameter.  [Bolt] lists the operations
    the store calls, on the contents of a database seen by a transaction;
    a bucket handle is the path of names that leads to it.  [BoltLaws]
    states the documented behaviour the store relies on.  [BoltModel] gives
    one concrete database that satisfies it, used by the witnesses.

    Transactions ([db.Update], [db.View]) are in [StoreEnv]. *)

From S2P Require Import Prelude Bytes.
Local Open Scope Z_scope.
Local Open Scope list_scope.

Abbreviation path := (list string) (only parsing).

Class Bolt := {
  Tx : Type;
  tx_new : Tx;
  tx_Bucket : Tx → path → bool;
  tx_Get : Tx → path → string → option string;
  tx_Put : path → string → string → M Tx unit;
  tx_Delete : path → string → M Tx unit;
  tx_CreateBucket : path → string → M Tx unit;
  tx_DeleteBucket : path → string → M Tx unit;
  (** the pairs a cursor visits, nested buckets with a [nil] value *)
  tx_Cursor : Tx → path → list (string * option string);
}.

(** [MaxKeySize] and [MaxValueSize]. *)
Definition key_ok (k : string) : Prop := k ≠ EmptyString ∧ Z.of_nat (String.length k) ≤ 32768.
Definition value_ok (v : string) : Prop := Z.of_nat (String.length v) ≤ 2147483646.

(** The call returns, with or without an error. *)
Definition returns {A} (r : res A) : Prop :=
  match r with Ok _ | Err _ => True | Panic | Hang => False end.

Class BoltLaws `{!Bolt} : Prop := {
  new_Bucket p : tx_Bucket tx_new p = true ↔ p = [];
  new_Get p k : tx_Get tx_new p k = None;
  parent_Bucket t p k : tx_Bucket t (p ++ [k]) = true → tx_Bucket t p = true;
  Get_Bucket t p k v : tx_Get t p k = Some v →
    tx_Bucket t p = true ∧ tx_Bucket t (p ++ [k]) = false;
  Put_ok t p k v : tx_Bucket t p = true → key_ok k → value_ok v →
    tx_Bucket t (p ++ [k]) = false →
    ∃ t', tx_Put p k v t = (Ok tt, t') ∧
      (∀ p' k', tx_Get t' p' k' = if decide (p' = p ∧ k' = k) then Some v else tx_Get t p' k') ∧
      (∀ p', tx_Bucket t' p' = tx_Bucket t p');
  Delete_ok t p k : tx_Bucket t p = true → tx_Bucket t (p ++ [k]) = false →
    ∃ t', tx_Delete p k t = (Ok tt, t') ∧
      (∀ p' k', tx_Get t' p' k' = if decide (p' = p ∧ k' = k) then None else tx_Get t p' k') ∧
      (∀ p', tx_Bucket t' p' = tx_Bucket t p');
  CreateBucket_ok t p k : tx_Bucket t p = true → key_ok k →
    tx_Bucket t (p ++ [k]) = false → tx_Get t p k = None →
    ∃ t', tx_CreateBucket p k t = (Ok tt, t') ∧
      (∀ p' k', tx_Get t' p' k' = tx_Get t p' k') ∧
      (∀ p' : path, tx_Bucket t' p' = true ↔ p' = p ++ [k] ∨ tx_Bucket t p' = true);
  CreateBucket_blank t p : ∃ e, tx_CreateBucket p EmptyString t = (Err e, t);
  CreateBucket_exists t p k : tx_Bucket t (p ++ [k]) = true →
    ∃ e, tx_CreateBucket p k t = (Err e, t);
  CreateBucket_pair t p k v : tx_Get t p k = Some v →
    ∃ e, tx_CreateBucket p k t = (Err e, t);
  DeleteBucket_ok t p k : tx_Bucket t (p ++ [k]) = true →
    ∃ t', tx_DeleteBucket p k t = (Ok tt, t') ∧
      (∀ p' k', tx_Get t' p' k' = if decide ((p ++ [k]) `prefix_of` p') then None else tx_Get t p' k') ∧
      (∀ p', tx_Bucket t' p' = true ↔ ¬ (p ++ [k]) `prefix_of` p' ∧ tx_Bucket t p' = true);
  DeleteBucket_missing t p k : tx_Bucket t (p ++ [k]) = false →
    ∃ e, tx_DeleteBucket p k t = (Err e, t);
  calls_return t p k v :
    returns (tx_Put p k v t).1 ∧
    returns (tx_Delete p k t).1 ∧
    returns (tx_CreateBucket p k t).1 ∧
    returns (tx_DeleteBucket p k t).1;
  Cursor_sorted t p : StronglySorted (λ x y, blt x.1 y.1) (tx_Cursor t p);
  Cursor_value t p k v : (k, Some v) ∈ tx_Cursor t p ↔ tx_Get t p k = Some v;
  Cursor_bucket t p k : (k, None) ∈ tx_Cursor t p ↔ tx_Bucket t (p ++ [k]) = true;
}.

(** ** The calls as the store makes them *)

Section calls.
Context {BT : Bolt}.

(** A method called on the bucket at [p]: a nil bucket panics. *)
Definition on_bucket {A} (p : path) (m : M Tx A) : M Tx A := λ t,
  if tx_Bucket t p then m t else (Panic, t).
(** [b.Bucket(k)]: whether the result is not nil. *)
Definition bucket_Bucket (p : path) (k : string) : M Tx bool :=
  on_bucket p (λ t, (Ok (tx_Bucket t (p ++ [k])), t)).
Definition bucket_Get (p : path) (k : string) : M Tx (option string) :=
  on_bucket p (λ t, (Ok (tx_Get t p k), t)).
Definition bucket_Put (p : path) (k v : string) : M Tx unit := on_bucket p (tx_Put p k v).
Definition bucket_Delete (p : path) (k : string) : M Tx unit := on_bucket p (tx_Delete p k).
Definition bucket_CreateBucket (p : path) (k : string) : M Tx unit :=
  on_bucket p (tx_CreateBucket p k).
Definition bucket_CreateBucketIfNotExists (p : path) (k : string) : M Tx unit :=
  on_bucket p (λ t, if tx_Bucket t (p ++ [k]) then (Ok tt, t) else tx_CreateBucket p k t).
Definition bucket_DeleteBucket (p : path) (k : string) : M Tx unit :=
  on_bucket p (tx_DeleteBucket p k).
(** [bucket.Cursor()], or [bucket.ForEach]: the pairs in key order. *)
Definition bucket_Cursor (p : path) : M Tx (list (string * option string)) :=
  on_bucket p (λ t, (Ok (tx_Cursor t p), t)).

End calls.

(** [cursor.Seek(key)]: what remains of the cursor from the first key at or
    after [key]. *)
Fixpoint seek {V} (key : string) (l : list (string * V)) : list (string * V) :=
  match l with
  | [] => []
  | (k, v) :: l' => if bleb key k then l else seek key l'
  end.

(** ** Cursor lemmas *)

Lemma seek_suffix {V} key (l : list (string * V)) e : e ∈ seek key l → e ∈ l.
Proof.
  induction l as [|[k v] l IH]; simpl; [done|]. destruct (bleb key k); [done|].
  intros H%IH. by apply list_elem_of_further.
Qed.

Lemma elem_of_seek {V} key (l : list (string * V)) e :
  StronglySorted (λ x y, blt x.1 y.1) l → e ∈ seek key l ↔ e ∈ l ∧ ble key e.1.
Proof.
  induction l as [|[k v] l IH]; simpl; intros Hs.
  { split; [intros ?%not_elem_of_nil|intros [?%not_elem_of_nil _]]; done. }
  apply StronglySorted_cons in Hs as [F Hs]. rewrite Forall_forall in F.
  destruct (bleb_spec key k) as [Hle|Hle].
  - split; [|tauto]. intros He. split; [done|].
    apply elem_of_cons in He as [->|He]; [done|]. etrans; [exact Hle|].
    apply ble_blt. left. by apply F.
  - rewrite IH, elem_of_cons by done. split; [tauto|]. intros [[->|?] ?]; [done|auto].
Qed.

Lemma seek_sorted {V} key (l : list (string * V)) :
  StronglySorted (λ x y, blt x.1 y.1) l → StronglySorted (λ x y, blt x.1 y.1) (seek key l).
Proof.
  induction l as [|[k v] l IH]; simpl; [done|]. intros Hs.
  destruct (bleb key k); [done|]. apply StronglySorted_cons in Hs as [_ Hs]. by apply IH.
Qed.

(** In a sorted list the head is below the rest. *)
Lemma sorted_head_least {V} (l : list (string * V)) e x :
  StronglySorted (λ x y, blt x.1 y.1) (e :: l) → x ∈ e :: l → x = e ∨ blt e.1 x.1.
Proof.
  intros [F _]%StronglySorted_cons [->|Hx]%elem_of_cons; [by left|]. right.
  rewrite Forall_forall in F. by apply F.
Qed.

(** If some key has the prefix sought, the cursor lands on such a key; the
    prefix is what the code compares. *)
Lemma seek_prefix_hit {V} p (l : list (string * V)) e :
  StronglySorted (λ x y, blt x.1 y.1) l → e ∈ l → sprefix p e.1 = true →
  ∃ x rest, seek p l = x :: rest ∧ x ∈ l ∧ sprefix p x.1 = true.
Proof.
  intros Hs He Hp. apply sprefix_spec in Hp as [r Hr].
  assert (e ∈ seek p l) as Hin.
  { apply elem_of_seek; [done|]. split; [done|]. rewrite Hr. apply ble_app_l. }
  pose proof (seek_sorted p l Hs) as Hss.
  destruct (seek p l) as [|x rest] eqn:E; [by apply not_elem_of_nil in Hin|].
  exists x, rest. split; [done|].
  assert (x ∈ seek p l) as Hx by (rewrite E; apply list_elem_of_here).
  apply elem_of_seek in Hx as [Hxl Hxp]; [|done]. split; [done|].
  destruct (sprefix p x.1) eqn:Epx; [done|]. exfalso.
  apply (blt_app_r p x.1 r Epx) in Hxp. rewrite <-Hr in Hxp.
  destruct (sorted_head_least _ _ _ Hss Hin) as [->|Hlt].
  - by apply blt_irrefl in Hxp.
  - by eapply blt_irrefl, blt_trans.
Qed.

Section laws.
Context {BT : Bolt} {BL : BoltLaws}.

Lemma Cursor_elem t p k o :
  (k, o) ∈ tx_Cursor t p ↔
  match o with Some v => tx_Get t p k = Some v | None => tx_Bucket t (p ++ [k]) = true end.
Proof. destruct o; [apply Cursor_value|apply Cursor_bucket]. Qed.

Lemma root_Bucket t p : tx_Bucket t p = true → tx_Bucket t [] = true.
Proof.
  induction p as [|k p IH] using rev_ind; [done|]. intros Hb. by apply IH, (parent_Bucket _ _ k).
Qed.

Lemma Get_missing t p k : tx_Bucket t p = false → tx_Get t p k = None.
Proof.
  intros Hb. destruct (tx_Get t p k) eqn:E; [|done]. apply Get_Bucket in E as [? _]. congruence.
Qed.
End laws.
