(* ===== verification/BoltModel.v ===== *)
(** * A database that satisfies the laws of [Bolt]

    The set of bucket paths and the map of their pairs.  It shows that
    [BoltLaws] can hold, and gives the witnesses of the store's theorems a
    database to run on. *)

From S2P Require Import Prelude Bytes Bolt.
Local Open Scope Z_scope.
Local Open Scope list_scope.

Module Model.

Record btx := BTx { buckets : gset (list string); pairs : gmap (list string * string) string }.

(** Every prefix of the path is a bucket. *)
Fixpoint reach (t : btx) (acc rest : list string) : bool :=
  match rest with
  | [] => true
  | k :: rest => bool_decide (acc ++ [k] ∈ buckets t) && reach t (acc ++ [k]) rest
  end.
Definition has (t : btx) (p : list string) : bool := reach t [] p.

Definition lookup_pair (t : btx) (p : list string) (k : string) : option string :=
  if has t p && negb (has t (p ++ [k])) then pairs t !! (p, k) else None.

Definition outside (q : list string) (t : btx) : btx :=
  BTx (filter (λ p, ¬ q `prefix_of` p) (buckets t))
      (filter (λ e, ¬ q `prefix_of` (e.1.1 ++ [e.1.2])) (pairs t)).

Definition put_pair (p : list string) (k v : string) : M btx unit := λ t,
  if bool_decide (k = EmptyString) then (Err (ErrNew "key required"), t)
  else if bool_decide (32768 < Z.of_nat (String.length k)) then (Err (ErrNew "key too large"), t)
  else if bool_decide (2147483646 < Z.of_nat (String.length v)) then
    (Err (ErrNew "value too large"), t)
  else if has t (p ++ [k]) then (Err (ErrNew "incompatible value"), t)
  else (Ok tt, BTx (buckets t) (<[(p, k) := v]> (pairs t))).

Definition delete_pair (p : list string) (k : string) : M btx unit := λ t,
  if has t (p ++ [k]) then (Err (ErrNew "incompatible value"), t)
  else (Ok tt, BTx (buckets t) (delete (p, k) (pairs t))).

Definition create (p : list string) (k : string) : M btx unit := λ t,
  if bool_decide (k = EmptyString) then (Err (ErrNew "bucket name required"), t)
  else if has t (p ++ [k]) then (Err (ErrNew "bucket already exists"), t)
  else if lookup_pair t p k is Some _ then (Err (ErrNew "incompatible value"), t)
  else
    let t' := outside (p ++ [k]) t in
    (Ok tt, BTx ({[p ++ [k]]} ∪ buckets t') (pairs t')).

Definition remove (p : list string) (k : string) : M btx unit := λ t,
  if has t (p ++ [k]) then (Ok tt, outside (p ++ [k]) t)
  else (Err (ErrNew "bucket not found"), t).

Definition pair_at (t : btx) (p : list string) (e : (list string * string) * string)
    : option (string * option string) :=
  if bool_decide (e.1.1 = p ∧ lookup_pair t p e.1.2 = Some e.2) then Some (e.1.2, Some e.2) else None.
Definition bucket_at (t : btx) (p q : list string) : option (string * option string) :=
  match last q with
  | Some k => if bool_decide (q = p ++ [k] ∧ has t q = true) then Some (k, None) else None
  | None => None
  end.
Definition contents (t : btx) (p : list string) : list (string * option string) :=
  omap (pair_at t p) (map_to_list (pairs t)) ++ omap (bucket_at t p) (elements (buckets t)).

Definition cursor (t : btx) (p : list string) : list (string * option string) :=
  @merge_sort (string * option string) (λ x y, ble x.1 y.1) (λ x y, ble_dec x.1 y.1) (contents t p).

#[export] Instance model : Bolt := {
  Tx := btx;
  tx_new := BTx ∅ ∅;
  tx_Bucket := has;
  tx_Get := lookup_pair;
  tx_Put := put_pair;
  tx_Delete := delete_pair;
  tx_CreateBucket := create;
  tx_DeleteBucket := remove;
  tx_Cursor := cursor;
}.

(** ** Laws *)

Lemma reach_spec t acc rest :
  reach t acc rest = true ↔
  ∀ q, q `prefix_of` rest → q ≠ [] → acc ++ q ∈ buckets t.
Proof.
  revert acc; induction rest as [|k rest IH]; intros acc; simpl.
  { split; [|done]. intros _ q [r Hr] Hq. by destruct q. }
  rewrite andb_true_iff, bool_decide_eq_true, IH. split.
  - intros [Hk Hr] [|k' q] Hp Hq; [done|]. apply prefix_cons_inv_1 in Hp as Hk'. subst k'.
    apply prefix_cons_inv_2 in Hp. destruct (decide (q = [])) as [->|Hne]; [done|].
    specialize (Hr q Hp Hne). by rewrite <-app_assoc in Hr.
  - intros H. split.
    + apply H; [|done]. apply prefix_cons, prefix_nil.
    + intros q Hp Hq. rewrite <-app_assoc. simpl. apply H; [by apply prefix_cons|done].
Qed.

Lemma has_spec t p : has t p = true ↔ ∀ q, q `prefix_of` p → q ≠ [] → q ∈ buckets t.
Proof. apply reach_spec. Qed.

Lemma not_has t p : p ≠ [] → p ∉ buckets t → has t p = false.
Proof.
  intros Hp Hn. destruct (has t p) eqn:E; [|done]. exfalso. apply Hn.
  by apply (proj1 (has_spec t p) E).
Qed.

Lemma has_mono t p q : q `prefix_of` p → has t p = true → has t q = true.
Proof. rewrite !has_spec. intros Hq H r Hr. apply H. by etrans. Qed.

Lemma has_outside q t p : q ≠ [] →
  has (outside q t) p = true ↔ ¬ q `prefix_of` p ∧ has t p = true.
Proof.
  intros Hq. rewrite !has_spec. simpl. setoid_rewrite elem_of_filter. split.
  - intros H. split; [|intros r Hr Hne; by apply H].
    intros Hp. destruct (H q Hp Hq) as [Hn _]. by apply Hn.
  - intros [Hn H] r Hr Hne. split; [|by apply H]. intros Hqr. apply Hn. by etrans.
Qed.

Lemma pairs_outside q t p k :
  pairs (outside q t) !! (p, k) =
  if decide (q `prefix_of` (p ++ [k])) then None else pairs t !! (p, k).
Proof.
  simpl. case_decide as Hd.
  - apply map_lookup_filter_None. right. intros ? _ Hn. by apply Hn.
  - destruct (pairs t !! (p, k)) as [v|] eqn:E.
    + by apply map_lookup_filter_Some.
    + apply map_lookup_filter_None. by left.
Qed.

Lemma has_false t p : has t p = false ↔ ¬ has t p = true.
Proof. destruct (has t p); intuition congruence. Qed.

Lemma bool_ext (b c : bool) : (b = true ↔ c = true) → b = c.
Proof. destruct b, c; intuition congruence. Qed.

Lemma lookup_ext t t' p k :
  has t' p = has t p → has t' (p ++ [k]) = has t (p ++ [k]) →
  pairs t' !! (p, k) = pairs t !! (p, k) → lookup_pair t' p k = lookup_pair t p k.
Proof. unfold lookup_pair. by intros -> -> ->. Qed.

Lemma lookup_has t p k : has t (p ++ [k]) = true → lookup_pair t p k = None.
Proof. unfold lookup_pair. intros ->. by rewrite andb_false_r. Qed.

Lemma lookup_no t p k : has t p = false → lookup_pair t p k = None.
Proof. unfold lookup_pair. by intros ->. Qed.

Lemma lookup_Some t p k v : lookup_pair t p k = Some v ↔
  has t p = true ∧ has t (p ++ [k]) = false ∧ pairs t !! (p, k) = Some v.
Proof.
  unfold lookup_pair. destruct (has t p), (has t (p ++ [k])); simpl; intuition congruence.
Qed.

Lemma prefix_snoc_inv (q p : list string) k :
  q `prefix_of` (p ++ [k]) → q = p ++ [k] ∨ q `prefix_of` p.
Proof.
  intros [r Hr]. destruct r as [|x r _] using rev_ind.
  - left. by rewrite app_nil_r in Hr.
  - right. rewrite app_assoc in Hr. apply app_inj_tail in Hr as [-> _]. by exists r.
Qed.

(** Below a path [q] whose own pair is hidden, only what is under [q]
    changes. *)
Lemma lookup_outside q t t' p k :
  (∀ p k, q = p ++ [k] → lookup_pair t p k = None) →
  (∀ r, ¬ q `prefix_of` r → has t' r = has t r) →
  pairs t' = pairs (outside q t) →
  ¬ q `prefix_of` p → lookup_pair t' p k = lookup_pair t p k.
Proof.
  intros Hq Hh Hp Hn. destruct (decide (q `prefix_of` (p ++ [k]))) as [Hk|Hk].
  - destruct (prefix_snoc_inv _ _ _ Hk) as [->|]; [|done]. rewrite (Hq p k) by done.
    unfold lookup_pair. rewrite Hp, pairs_outside, decide_True by done. by case_match.
  - apply lookup_ext; [by apply Hh..|]. by rewrite Hp, pairs_outside, decide_False.
Qed.

Lemma snoc_ne (p : list string) k : p ++ [k] ≠ [].
Proof. by destruct p. Qed.

Lemma not_prefix_snoc (p : list string) k : ¬ (p ++ [k]) `prefix_of` p.
Proof. intros H%prefix_length. rewrite length_app in H. simpl in H. lia. Qed.

Lemma remove_ok t p k : has t (p ++ [k]) = true →
  ∃ t', remove p k t = (Ok tt, t') ∧
    (∀ p' k', lookup_pair t' p' k' =
       if decide ((p ++ [k]) `prefix_of` p') then None else lookup_pair t p' k') ∧
    (∀ p', has t' p' = true ↔ ¬ (p ++ [k]) `prefix_of` p' ∧ has t p' = true).
Proof.
  intros Hb. unfold remove. rewrite Hb. exists (outside (p ++ [k]) t). split; [done|].
  assert (∀ p', has (outside (p ++ [k]) t) p' = true ↔ ¬ (p ++ [k]) `prefix_of` p' ∧ has t p' = true)
    as Hh by (intros; apply has_outside, snoc_ne).
  split; [|done]. intros p' k'. case_decide as Hd.
  - apply lookup_no, has_false. rewrite Hh. tauto.
  - apply (lookup_outside (p ++ [k]) t); [|  |done|done].
    + intros p1 k1 [-> ->]%app_inj_tail. by apply lookup_has.
    + intros r Hr. apply bool_ext. rewrite Hh. tauto.
Qed.

Lemma has_create t p k q : has t p = true → has t (p ++ [k]) = false →
  has (BTx ({[p ++ [k]]} ∪ buckets (outside (p ++ [k]) t)) (pairs (outside (p ++ [k]) t))) q = true
  ↔ q = p ++ [k] ∨ has t q = true.
Proof.
  intros Hp Hk. rewrite !has_spec. simpl. setoid_rewrite elem_of_union.
  setoid_rewrite elem_of_singleton. setoid_rewrite elem_of_filter. split.
  - intros H. destruct (decide (q = p ++ [k])) as [->|Hne]; [by left|]. right.
    intros r Hr Hrn. destruct (H r Hr Hrn) as [->|[_ ?]]; [|done]. exfalso.
    destruct (H q) as [->|[Hn _]]; [done| |done|by apply Hn].
    intros ->. apply prefix_nil_inv in Hr. by apply snoc_ne in Hr.
  - rewrite has_spec in Hp. intros [->|H] r Hr Hrn.
    + destruct (prefix_snoc_inv _ _ _ Hr) as [->|Hrp]; [by left|]. right. split; [|by apply Hp].
      intros Hc. apply (not_prefix_snoc p k). by etrans.
    + right. split; [|by apply H]. intros Hc. apply has_false in Hk. apply Hk, has_spec.
      intros s Hs Hsn. apply H; [|done]. etrans; [exact Hs|]. by etrans.
Qed.

Lemma create_ok t p k : has t p = true → key_ok k → has t (p ++ [k]) = false →
  lookup_pair t p k = None →
  ∃ t', create p k t = (Ok tt, t') ∧
    (∀ p' k', lookup_pair t' p' k' = lookup_pair t p' k') ∧
    (∀ p', has t' p' = true ↔ p' = p ++ [k] ∨ has t p' = true).
Proof.
  intros Hp [Hne _] Hk Hl. unfold create. rewrite bool_decide_eq_false_2, Hk, Hl by done.
  eexists. split; [reflexivity|]. split; [|by intros; apply has_create].
  intros p' k'. destruct (decide ((p ++ [k]) `prefix_of` p')) as [Hd|Hd].
  - rewrite (lookup_no t).
    2:{ apply has_false. intros H. apply has_false in Hk. apply Hk. by eapply has_mono. }
    unfold lookup_pair. cbn [pairs]. rewrite pairs_outside, decide_True; [by case_match|].
    by apply prefix_app_r.
  - apply (lookup_outside (p ++ [k])); [| |done|done].
    + by intros p1 k1 [-> ->]%app_inj_tail.
    + intros r Hr. apply bool_ext. rewrite has_create by done.
      split; [intros [->|?]; [by exfalso; apply Hr|done]|by auto].
Qed.

Lemma pair_step_ok (t : btx) (m : gmap (list string * string) string) p k o :
  has t p = true → has t (p ++ [k]) = false →
  (∀ e, m !! e = if decide (e = (p, k)) then o else pairs t !! e) →
  (∀ p' k', lookup_pair (BTx (buckets t) m) p' k' =
     if decide (p' = p ∧ k' = k) then o else lookup_pair t p' k') ∧
  (∀ p', has (BTx (buckets t) m) p' = has t p').
Proof.
  intros Hp Hk Hm.
  assert (∀ p', has (BTx (buckets t) m) p' = has t p') as Hh.
  { intros. apply bool_ext. by rewrite !has_spec. }
  split; [|done]. intros p' k'. unfold lookup_pair. rewrite !Hh. cbn [pairs]. rewrite Hm.
  destruct (decide (p' = p ∧ k' = k)) as [[-> ->]|Hd].
  - by rewrite decide_True, Hp, Hk.
  - rewrite decide_False; [done|]. intros [= -> ->]. by apply Hd.
Qed.

(** ** The cursor *)

Lemma elem_of_contents t p k o : (k, o) ∈ contents t p ↔
  match o with Some v => lookup_pair t p k = Some v | None => has t (p ++ [k]) = true end.
Proof.
  unfold contents. rewrite elem_of_app, !list_elem_of_omap. split.
  - intros [([[q k'] v] & _ & H)|(q & _ & H)].
    + unfold pair_at in H. case_bool_decide as Hb; [|done]. destruct Hb as [Hq Hl]. by simplify_eq/=.
    + unfold bucket_at in H. destruct (last q) as [k'|]; [|done].
      case_bool_decide as Hb; [|done]. destruct Hb as [-> Hh]. by simplify_eq/=.
  - destruct o as [v|]; intros H.
    + left. exists ((p, k), v). split.
      * apply elem_of_map_to_list. apply lookup_Some in H. tauto.
      * unfold pair_at. simpl. by rewrite bool_decide_eq_true_2.
    + right. exists (p ++ [k]). split.
      * apply elem_of_elements. by apply (proj1 (has_spec _ _) H); [|apply snoc_ne].
      * unfold bucket_at. by rewrite last_snoc, bool_decide_eq_true_2.
Qed.

Lemma omap_keys_NoDup {A} (f : A → option (string * option string)) (l : list A) :
  NoDup l → (∀ a b x y, a ∈ l → b ∈ l → f a = Some x → f b = Some y → x.1 = y.1 → a = b) →
  NoDup (omap f l).*1.
Proof.
  induction 1 as [|a l Ha Hl IH]; intros Hf; [constructor|]. simpl.
  assert (NoDup (omap f l).*1) as Hnd.
  { apply IH. intros. eapply Hf; eauto using list_elem_of_further. }
  destruct (f a) as [x|] eqn:E; [|done]. simpl. constructor; [|done].
  intros (y & Hy & (b & Hb & Hfb)%list_elem_of_omap)%list_elem_of_fmap.
  assert (a = b) as ->; [|done].
  eapply Hf; eauto using list_elem_of_here, list_elem_of_further.
Qed.

Lemma contents_NoDup t p : NoDup (contents t p).*1.
Proof.
  unfold contents. rewrite fmap_app. apply NoDup_app. split; [|split].
  - apply omap_keys_NoDup; [apply NoDup_map_to_list|].
    intros [[q k] v] [[q' k'] v'] x y _ _. unfold pair_at. simpl.
    case_bool_decide as Ha; [|done]. case_bool_decide as Hb; [|done].
    destruct Ha as [-> Ha], Hb as [-> Hb]. intros Hx Hy Hxy. simplify_eq/=. congruence.
  - intros k ([k1 o1] & -> & H1)%list_elem_of_fmap ([k2 o2] & Hk & H2)%list_elem_of_fmap. simpl in *. subst.
    assert ((k2, o1) ∈ contents t p) as Ha by (apply elem_of_app; by left).
    assert ((k2, o2) ∈ contents t p) as Hb by (apply elem_of_app; by right).
    apply elem_of_contents in Ha, Hb.
    apply list_elem_of_omap in H1 as ([[q k] v] & _ & H1). unfold pair_at in H1.
    apply list_elem_of_omap in H2 as (q' & _ & H2). unfold bucket_at in H2.
    repeat case_match; simplify_eq/=. apply lookup_Some in Ha. intuition congruence.
  - apply omap_keys_NoDup; [apply NoDup_elements|].
    intros q q' x y _ _. unfold bucket_at.
    destruct (last q) as [k|], (last q') as [k'|]; try done.
    case_bool_decide as Ha; [|done]. case_bool_decide as Hb; [|done].
    destruct Ha as [-> _], Hb as [-> _]. intros Hx Hy Hxy. simplify_eq/=. congruence.
Qed.

Lemma strict_sorted (l : list (string * option string)) :
  NoDup l.*1 → StronglySorted (λ x y, ble x.1 y.1) l → StronglySorted (λ x y, blt x.1 y.1) l.
Proof.
  induction l as [|x l IH]; intros Hnd Hs; [constructor|]. simpl in Hnd.
  apply StronglySorted_cons in Hs as [F Hs]. apply NoDup_cons in Hnd as [Hx Hnd].
  constructor; [by apply IH|]. rewrite List.Forall_forall. rewrite Forall_forall in F.
  intros y Hy%list_elem_of_In. specialize (F y Hy). apply ble_blt in F as [F|F]; [done|].
  exfalso. apply Hx. rewrite F. by apply list_elem_of_fmap_2.
Qed.

#[local] Instance key_total : Total (λ x y : string * option string, ble x.1 y.1).
Proof. intros x y. apply (total ble). Qed.
#[local] Instance key_trans : Transitive (λ x y : string * option string, ble x.1 y.1).
Proof. intros x y z. apply (transitivity (R := ble)). Qed.

Lemma cursor_Permutation t p : cursor t p ≡ₚ contents t p.
Proof. apply merge_sort_Permutation. Qed.

Lemma cursor_sorted t p : StronglySorted (λ x y, blt x.1 y.1) (cursor t p).
Proof.
  apply strict_sorted.
  - rewrite cursor_Permutation. apply contents_NoDup.
  - apply StronglySorted_merge_sort; apply _.
Qed.

#[export] Instance model_laws : BoltLaws.
Proof.
  split; simpl.
  - intros p. rewrite has_spec. simpl. split; [|by intros -> q ->%prefix_nil_inv].
    intros H. destruct (decide (p = [])) as [|Hne]; [done|]. by apply (H p) in Hne.
  - intros p k. unfold lookup_pair. by destruct (has _ p && _).
  - intros t p k. apply has_mono. by exists [k].
  - intros t p k v H. apply lookup_Some in H. tauto.
  - intros t p k v Hp [Hk Hlen] Hv Hb. unfold value_ok in Hv. unfold put_pair.
    rewrite !bool_decide_eq_false_2, Hb by (done || lia). eexists. split; [reflexivity|].
    apply pair_step_ok; [done..|]. intros e. rewrite lookup_insert.
    by repeat case_decide; subst.
  - intros t p k Hp Hb. unfold delete_pair. rewrite Hb. eexists. split; [reflexivity|].
    apply pair_step_ok; [done..|]. intros e. rewrite lookup_delete.
    by repeat case_decide; subst.
  - intros. by apply create_ok.
  - intros t p. unfold create. rewrite bool_decide_eq_true_2 by done. by eexists.
  - intros t p k Hb. unfold create. case_bool_decide; [by eexists|]. rewrite Hb. by eexists.
  - intros t p k v Hl. unfold create. case_bool_decide; [by eexists|].
    destruct (has t (p ++ [k])); [by eexists|]. rewrite Hl. by eexists.
  - intros. by apply remove_ok.
  - intros t p k Hb. unfold remove. rewrite Hb. by eexists.
  - intros t p k v. unfold put_pair, delete_pair, create, remove. repeat split; by repeat case_match.
  - apply cursor_sorted.
  - intros. by rewrite cursor_Permutation, elem_of_contents.
  - intros. by rewrite cursor_Permutation, elem_of_contents.
Qed.

End Model.
