(* ===== verification/StoreEnv.v ===== *)
(** * What the store runs in: transactions, randomness, clock, ciphers

    [crypto/rand], the clock, PBKDF2 and NaCl's secretbox are code outside
    the repository: parameters of the model ([Env]), with the facts the
    store relies on in [EnvLaws].  The state of a running store is a
    [world]: the database, whether it is open and locked for writing, and
    how much randomness and how many clock readings were consumed.

    [encrypt], [decrypt], [encryptKey] and [deriveKey] are those of
    [store/db.go]. *)

From S2P Require Import Prelude Bytes Bolt.
Local Open Scope Z_scope.

Definition nonceSize : nat := 24.
Definition saltLength : nat := 32.
Definition keySize : nat := 32.
Definition Overhead : nat := 16.   (** [secretbox.Overhead] *)

Class Env := {
  rand_Read : nat → nat → string;          (** the [n]-th read, of a given size *)
  Time : Type;
  Time_eq_dec :: EqDecision Time;
  time_Now : nat → Time;                   (** the [n]-th reading of the clock *)
  MarshalBinary : Time → string;
  UnmarshalBinary : string → res Time;
  Time_zero : Time;                        (** [time.Time{}] *)
  Time_Format : Time → string;             (** in the layout [email.DateFormat] *)
  Time_Parse : string → res Time;
  Time_seconds : Time → Time;              (** without the fraction of a second *)
  pbkdf2_Key : string → string → string;   (** password and salt, [keySize] bytes *)
  secretbox_Seal : string → string → string → string;          (** message, nonce, key *)
  secretbox_Open : string → string → string → option string;   (** box, nonce, key *)
}.

Class EnvLaws `{!Env} : Prop := {
  rand_Read_length i n : String.length (rand_Read i n) = n;
  time_length i : Z.of_nat (String.length (MarshalBinary i)) ≤ 64;
  Unmarshal_Marshal i : UnmarshalBinary (MarshalBinary i) = Ok i;
  Parse_Format t : Time_Parse (Time_Format t) = Ok (Time_seconds t);
  Format_nonempty t : Time_Format t ≠ EmptyString;
  Parse_returns s : match Time_Parse s with Panic | Hang => False | _ => True end;
  Seal_length m n k : String.length (secretbox_Seal m n k) = (String.length m + Overhead)%nat;
  Open_Seal m n k : secretbox_Open (secretbox_Seal m n k) n k = Some m;
}.

(** ** The state of the process *)

Record world `{!Bolt} := World {
  db : Tx;
  db_open : bool;
  writing : bool;       (** a read-write transaction is open: there is at most one *)
  reads : nat;          (** reads of [crypto/rand] so far *)
  ticks : nat;          (** readings of the clock so far *)
}.
Arguments World {_} _ _ _ _ _.
Arguments db {_} _.
Arguments db_open {_} _.
Arguments writing {_} _.
Arguments reads {_} _.
Arguments ticks {_} _.

Definition ErrDatabaseNotOpen : error := ErrNew "database not open".

Section world.
Context {BT : Bolt} {EV : Env}.

Definition set_db (t : Tx) (w : world) : world :=
  World t (db_open w) (writing w) (reads w) (ticks w).
Definition set_writing (b : bool) (w : world) : world :=
  World (db w) (db_open w) b (reads w) (ticks w).

(** A call on the transaction at hand. *)
Definition tx {A} (m : M Tx A) : M world A := zoom db set_db m.

Definition db_Close : M world unit := λ w,
  (Ok tt, World (db w) false (writing w) (reads w) (ticks w)).

(** [db.Update(f)]: [f] runs while no other read-write transaction does (a
    nested one waits for ever); its writes are kept when it returns a nil
    error and undone otherwise. *)
Definition Update {A} (f : M world A) : M world A := λ w,
  if negb (db_open w) then (Err ErrDatabaseNotOpen, w)
  else if writing w then (Hang, w)
  else
    match f (set_writing true w) with
    | (Ok a, w') => (Ok a, set_writing false w')
    | (Hang, w') => (Hang, w')
    | (r, w') => (r, set_writing false (set_db (db w) w'))
    end.

(** [db.View(f)]: [f] reads the committed state. *)
Definition View {A} (f : Tx → res A) (w : world) : res A :=
  if negb (db_open w) then Err ErrDatabaseNotOpen else f (db w).

Definition read_rand (n : nat) : M world string := λ w,
  (Ok (rand_Read (reads w) n), World (db w) (db_open w) (writing w) (S (reads w)) (ticks w)).
Definition read_now : M world Time := λ w,
  (Ok (time_Now (ticks w)),
   World (db w) (db_open w) (writing w) (reads w) (S (ticks w))).

(** ** Encryption *)

Definition deriveKey (pass salt : string) : string := pbkdf2_Key pass salt.

Definition encryptKey (masterKey pass : string) : M world (string * string) :=
  nonce ← read_rand nonceSize;
  salt ← read_rand saltLength;
  let key := deriveKey pass salt in
  mret (salt, (nonce ++ secretbox_Seal masterKey nonce key)%string).

Definition encrypt (masterKey : option string) (data : string) : M world string :=
  match masterKey with
  | None => mret data
  | Some key =>
      nonce ← read_rand nonceSize;
      mret (nonce ++ secretbox_Seal data nonce key)%string
  end.

(** [None]: the box does not open.  Data shorter than a nonce panics. *)
Definition decrypt (masterKey : option string) (data : string) : res (option string) :=
  match masterKey with
  | None => Ok (Some data)
  | Some key =>
      nonce ← slice_to nonceSize data;
      box ← slice_from nonceSize data;
      Ok (secretbox_Open box nonce key)
  end.

(** ** Lemmas *)

Lemma set_db_same w : set_db (db w) w = w.
Proof. by destruct w. Qed.

Lemma tx_same {A} (m : M Tx A) w r : m (db w) = (r, db w) → tx m w = (r, w).
Proof. intros H. unfold tx, zoom. by rewrite H, set_db_same. Qed.

Lemma tx_Ok {A} (m : M Tx A) w a t : m (db w) = (Ok a, t) → tx m w = (Ok a, set_db t w).
Proof. intros H. unfold tx, zoom. by rewrite H. Qed.
Lemma tx_Err {A} (m : M Tx A) w e t : m (db w) = (Err e, t) → tx m w = (Err e, set_db t w).
Proof. intros H. unfold tx, zoom. by rewrite H. Qed.

Lemma bucket_Get_ok p k t : tx_Bucket t p = true → bucket_Get p k t = (Ok (tx_Get t p k), t).
Proof. unfold bucket_Get, on_bucket. by intros ->. Qed.

Context {EL : EnvLaws}.

Lemma slice_app (a b : string) n : String.length a = n →
  slice_to n (a ++ b) = Ok a ∧ slice_from n (a ++ b) = Ok b.
Proof.
  intros Ha. unfold slice_to, slice_from. rewrite slength_app, (proj2 (Nat.leb_le _ _)) by lia.
  by rewrite (stake_app a b n), (sdrop_app a b n).
Qed.

(** Encryption succeeds, touches only the randomness, and [decrypt] undoes it. *)
Lemma encrypt_ok mk m w :
  ∃ enc n, encrypt mk m w = (Ok enc, World (db w) (db_open w) (writing w) n (ticks w)) ∧
    decrypt mk enc = Ok (Some m) ∧
    (String.length enc ≤ String.length m + nonceSize + Overhead)%nat.
Proof.
  destruct mk as [key|].
  - exists (rand_Read (reads w) nonceSize ++ secretbox_Seal m (rand_Read (reads w) nonceSize) key)%string.
    exists (S (reads w)). split; [done|].
    pose proof (rand_Read_length (reads w) nonceSize) as Hl.
    destruct (slice_app _ (secretbox_Seal m (rand_Read (reads w) nonceSize) key) _ Hl) as [Hs1 Hs2].
    split.
    + unfold decrypt. rewrite Hs1. mrun. rewrite Hs2. by rewrite Open_Seal.
    + rewrite slength_app, Seal_length, Hl. lia.
  - exists m, (reads w). split; [by destruct w|]. split; [done|lia].
Qed.
End world.

(** ** A concrete environment

    Bytes that count the reads of randomness and a cipher that prepends a tag depending on
    nonce and key. *)

Module EnvModel.

Fixpoint zeros (n : nat) : string :=
  match n with O => EmptyString | S n => String (byte_of_Z 0) (zeros n) end.
Definition fit (n : nat) (s : string) : string := stake n (s ++ zeros n).
Definition tag (n k : string) : string := fit Overhead (stake 1 k ++ n).

#[export] Instance model : Env := {
  rand_Read i n := fit n (String (byte_of_Z (Z.of_nat i)) EmptyString);
  Time := Ascii.ascii;
  time_Now i := byte_of_Z (Z.of_nat i);
  MarshalBinary t := String t EmptyString;
  UnmarshalBinary s :=
    match s with String t _ => Ok t | _ => Err (ErrNew "Time.UnmarshalBinary: no data") end;
  Time_zero := byte_of_Z 0;
  Time_Format t := String t EmptyString;
  Time_Parse s :=
    match s with String t EmptyString => Ok t | _ => Err (ErrNew "parsing time") end;
  Time_seconds t := t;
  pbkdf2_Key pass salt := fit keySize (pass ++ salt);
  secretbox_Seal m n k := (tag n k ++ m)%string;
  secretbox_Open b n k :=
    if bool_decide (stake Overhead b = tag n k) then Some (sdrop Overhead b) else None;
}.

Lemma zeros_length n : String.length (zeros n) = n.
Proof. induction n; simpl; congruence. Qed.

Lemma fit_length n s : String.length (fit n s) = n.
Proof. apply stake_length. rewrite slength_app, zeros_length. lia. Qed.

#[export] Instance model_laws : EnvLaws.
Proof.
  split; simpl.
  - intros. apply fit_length.
  - intros. lia.
  - done.
  - done.
  - done.
  - intros s. by repeat case_match.
  - intros. rewrite slength_app. unfold tag. rewrite fit_length. lia.
  - intros m n k. rewrite (stake_app (tag n k) m), (sdrop_app (tag n k) m) by apply fit_length.
    by rewrite bool_decide_eq_true_2.
Qed.

End EnvModel.
