(* ===== verification/BoltFolder.v ===== *)
(** * The persistent folder ([store/folder.go], type [folder])

    A folder is the bucket [user / "folders" / name]: one pair per message,
    with the identifier and the suffix as key and the encrypted payload as
    value, and a nested bucket ["data"] that holds the next identifier.

    Proved: every operation refines the contract of [FolderSpec], iteration
    in increasing order included, whatever database satisfies [BoltLaws];
    a folder opened again has the state it was left in; folders do not
    disturb each other.  Not true of the code: [LastID]. *)

From S2P Require Import Prelude Bytes Bolt BoltModel StoreEnv FolderSpec.
Local Open Scope Z_scope.
Local Open Scope list_scope.

Definition miscBucket : string := "misc".
Definition foldersBucket : string := "folders".
Definition folderDataBucket : string := "data".
Definition folderNextIDKey : string := "folderNextID".
Definition folderCreatedOnKey : string := "createdOn".
Definition userPrefix : string := "user:".

(** The database handle of the code is the [world] the operations run in. *)
Record folder := MkFolder {
  masterKey : option string;
  userID : string;
  nextID : Z;
  name : string;
}.

Definition folder_path (f : folder) : path := [userID f; foldersBucket; name f].
Definition data_path (p : path) : path := p ++ [folderDataBucket].
Definition set_nextID (n : Z) (f : folder) : folder := MkFolder (masterKey f) (userID f) n (name f).
Definition set_name (nm : string) (f : folder) : folder :=
  MkFolder (masterKey f) (userID f) (nextID f) nm.

Definition message_key (id suffix : Z) : string := (be64 id ++ be64 suffix)%string.
Arguments message_key : simpl never.

Section folder.
Context {BT : Bolt} {EV : Env}.

(** A folder object and the world it lives in. *)
Record bfolder := BF { this : folder; wld : world }.

Definition onw {A} (m : M world A) : M bfolder A := zoom wld (λ w f, BF (this f) w) m.

(** ** Opening *)

(** The closure of [initialize]: the next identifier of the folder. *)
Definition initialize_tx (f : folder) (nm : string) : M world Z :=
  found ← tx (bucket_Bucket [userID f; foldersBucket] nm);
  let p := [userID f; foldersBucket; nm] in
  if found then
    v ← tx (bucket_Get (data_path p) folderNextIDKey);
    lift (Uint64 (default EmptyString v))
  else
    _ ← tx (bucket_CreateBucketIfNotExists [userID f] foldersBucket);
    _ ← tx (bucket_CreateBucket [userID f; foldersBucket] nm);
    _ ← tx (bucket_CreateBucket p folderDataBucket);
    now ← read_now;
    _ ← tx (bucket_Put (data_path p) folderCreatedOnKey (MarshalBinary now));
    _ ← tx (try (bucket_Put (data_path p) folderNextIDKey (be64 1)));
    mret (nextID f).

(** [fmt.Errorf] wraps the cause; only its first part is kept. *)
Definition initialize (f : folder) (nm : string) : M world folder :=
  r ← try (Update (initialize_tx f nm));
  match r with
  | inl n => mret (set_nextID n f)
  | inr _ => fail (ErrNew ("Failed to create/load mailbox " ++ nm)%string)
  end.

Definition newFolder (mk : option string) (username nm : string) : M world folder :=
  if bool_decide (nm = EmptyString) then fail (ErrNew "Folder name cannot be empty.")
  else initialize (MkFolder mk (userPrefix ++ username)%string 1 nm) nm.

(** ** Operations *)

Definition folder_NextID (f : bfolder) : Z := nextID (this f).

(** One step of the loop of [LastID]. *)
Definition LastID_step (acc : Z * gmap Z Z) (e : string * option string) : res (Z * gmap Z Z) :=
  let '(lastID, m) := acc in
  let k := e.1 in
  if negb (String.length k =? 16)%nat then Ok acc
  else
    sb ← slice_from 8 k;
    suffix ← Uint64 sb;
    if match m !! suffix with Some v => suffix <? v | None => false end then Ok acc
    else
      ib ← slice_to 8 k;
      id ← Uint64 ib;
      let m := <[suffix := id]> m in
      if id <? lastID then Ok (lastID, m) else Ok (id, m).

Fixpoint LastID_loop (l : list (string * option string)) (acc : Z * gmap Z Z) : res (Z * gmap Z Z) :=
  match l with
  | [] => Ok acc
  | e :: l => acc ← LastID_step acc e; LastID_loop l acc
  end.

(** The error of the transaction is discarded. *)
Definition folder_LastID (f : bfolder) : res (Z * gmap Z Z) :=
  match (Update (l ← tx (bucket_Cursor (folder_path (this f))); lift (LastID_loop l (0, ∅))) (wld f)).1 with
  | Err _ => Ok (0, ∅)
  | r => r
  end.

(** The check for a message with the identifier [idB] before inserting. *)
Definition seek_hit (idB : string) (l : list (string * option string)) : bool :=
  match seek idB l with
  | [] => false
  | (kk, _) :: _ => (8 <=? String.length kk)%nat && bool_decide (stake 8 kk = idB)
  end.

Definition put_message (p : path) (id suffix : Z) (enc : string) : M Tx unit :=
  l ← bucket_Cursor p;
  if seek_hit (be64 id) l then fail ErrDuplicateID
  else bucket_Put p (message_key id suffix) enc.

Definition folder_InsertNewMessage (msg : option string) (suffix : Z) : M bfolder Z :=
  match msg with
  | None => fail (ErrNew "Nil message inserted.")
  | Some msg =>
      f ← gets this;
      enc ← onw (encrypt (masterKey f) msg);
      _ ← onw (Update (tx (
        user ← bucket_Bucket [] (userID f);
        if negb user then fail ErrNotFound
        else
          _ ← bucket_Put (data_path (folder_path f)) folderNextIDKey (be64 (u64 (nextID f + 1)));
          put_message (folder_path f) (nextID f) suffix enc)));
      _ ← modify (λ s, BF (set_nextID (u64 (nextID f + 1)) (this s)) (wld s));
      mret (nextID f)
  end.

Definition folder_InsertMessage (id : Z) (msg : option string) (suffix : Z) : M bfolder unit :=
  f ← gets this;
  if bool_decide (id = 0 ∨ nextID f ≤ id) then fail ErrInvalidID
  else match msg with
  | None => fail (ErrNew "Nil message inserted.")
  | Some msg =>
      enc ← onw (encrypt (masterKey f) msg);
      onw (Update (tx (
        user ← bucket_Bucket [] (userID f);
        if negb user then fail ErrNotFound
        else put_message (folder_path f) id suffix enc)))
  end.

(** What the cursor finds at [idB]: nothing, a nested bucket, another
    message or the message. *)
Definition seek_message (idB : string) (l : list (string * option string)) : res (string * string) :=
  match seek idB l with
  | [] => Err ErrNotFound
  | (k, None) :: _ => Err ErrNotFound
  | (k, Some v) :: _ =>
      p ← slice_to 8 k;
      if bool_decide (p = idB) then Ok (k, v) else Err ErrNotFound
  end.

Definition GetMessage_tx (f : folder) (id : Z) (t : Tx) : res (Z * string) :=
  if negb (tx_Bucket t [userID f]) then Err ErrNotFound
  else if negb (tx_Bucket t [userID f; foldersBucket]) then Err ErrNotFound
  else
    l ← (bucket_Cursor (folder_path f) t).1;
    kv ← seek_message (be64 id) l;
    sb ← slice_from 8 kv.1;
    suffix ← Uint64 sb;
    msg ← decrypt (masterKey f) kv.2;
    match msg with
    | None => Err ErrDecryptionFailed
    | Some m => Ok (suffix, m)
    end.
Definition folder_GetMessage (id : Z) (f : bfolder) : res (Z * string) :=
  View (GetMessage_tx (this f) id) (wld f).

(** The loop of [ForEachMessage] from the cursor's position on. *)
Fixpoint ForEach_loop {S} (mk : option string) (highID suffix : Z)
    (fn : Z → Z → string → M S unit) (l : list (string * option string)) : M S unit :=
  match l with
  | [] => mret tt
  | (k, None) :: l => ForEach_loop mk highID suffix fn l
  | (k, Some v) :: l =>
      ib ← lift (slice_to 8 k);
      id ← lift (Uint64 ib);
      sb ← lift (slice_from 8 k);
      sfx ← lift (Uint64 sb);
      if bool_decide (highID ≠ 0 ∧ highID < id) then mret tt
      else if bool_decide (suffix ≠ 0 ∧ sfx ≠ suffix) then ForEach_loop mk highID suffix fn l
      else
        msg ← lift (decrypt mk v);
        match msg with
        | None => fail ErrDecryptionFailed
        | Some m => _ ← fn id sfx m; ForEach_loop mk highID suffix fn l
        end
  end.

Definition folder_ForEachMessage {S} (lowID highID suffix : Z) (fn : Z → Z → string → M S unit)
    (f : bfolder) : M S unit :=
  if bool_decide (highID ≠ 0 ∧ highID < lowID) then
    fail (ErrNew "Nice try, son. But lowID cannot be greater than highID.")
  else if negb (db_open (wld f)) then fail ErrDatabaseNotOpen
  else
    let t := db (wld f) in
    if negb (tx_Bucket t [userID (this f)]) then fail ErrNotFound
    else
      l ← lift (bucket_Cursor (folder_path (this f)) t).1;
      ForEach_loop (masterKey (this f)) highID suffix fn (seek (be64 lowID) l).

Definition folder_DeleteMessage (id : Z) : M bfolder unit :=
  f ← gets this;
  if bool_decide (id = 0 ∨ nextID f ≤ id) then fail ErrInvalidID
  else
    onw (Update (tx (
      user ← bucket_Bucket [] (userID f);
      if negb user then fail ErrNotFound
      else
        l ← bucket_Cursor (folder_path f);
        kv ← lift (seek_message (be64 id) l);
        bucket_Delete (folder_path f) kv.1))).

(** Copy of the pairs and of the nested buckets; the error is discarded. *)
Definition copy_bucket (old new : path) : M Tx unit :=
  l ← bucket_Cursor old;
  mfor l (λ '(k, v),
    match v with
    | None =>
        _ ← bucket_CreateBucket new k;
        l1 ← bucket_Cursor (old ++ [k]);
        mfor l1 (λ '(k1, v1), bucket_Put (new ++ [k]) k1 (default EmptyString v1))
    | Some v => bucket_Put new k v
    end).

Definition setName (nm : string) : M bfolder unit :=
  if bool_decide (nm = EmptyString) then fail (ErrNew "Name cannot be empty.")
  else
    f ← gets this;
    let dir := [userID f; foldersBucket] in
    _ ← onw (Update (tx (
      l ← bucket_Cursor dir;
      if existsb (λ e, bool_decide (e.1 = nm)) l then fail ErrDuplicateMailbox
      else
        _ ← bucket_CreateBucket dir nm;
        _ ← try (copy_bucket (folder_path f) (dir ++ [nm]));
        bucket_DeleteBucket dir (name f))));
    modify (λ s, BF (set_name nm (this s)) (wld s)).

#[export] Instance bfolder_Folder : Folder bfolder := {
  InsertNewMessage := folder_InsertNewMessage;
  InsertMessage := folder_InsertMessage;
  GetMessage := folder_GetMessage;
  DeleteMessage := folder_DeleteMessage;
  ForEachMessage := @folder_ForEachMessage;
  NextID := folder_NextID;
  LastID := folder_LastID;
}.
End folder.

(** ** What a bucket represents *)

Section rep.
Context {BT : Bolt} {EV : Env} {BL : BoltLaws} {EL : EnvLaws}.
Implicit Types (t : Tx) (p q : path) (m : gmap Z (Z * string)) (s : fstate).

Record msgs_rep t p (mk : option string) m : Prop := {
  mr_bucket : tx_Bucket t p = true;
  mr_data : tx_Bucket t (data_path p) = true;
  mr_sub k : tx_Bucket t (p ++ [k]) = true → k = folderDataBucket;
  mr_get k v : tx_Get t p k = Some v → ∃ id sfx x,
    m !! id = Some (sfx, x) ∧ k = message_key id sfx ∧ decrypt mk v = Ok (Some x);
  mr_msg id sfx x : m !! id = Some (sfx, x) → ∃ v, tx_Get t p (message_key id sfx) = Some v;
}.

Record db_rep t p (mk : option string) s : Prop := {
  dr_wf : fwf s;
  dr_next : tx_Get t (data_path p) folderNextIDKey = Some (be64 (fs_next s));
  dr_msgs : msgs_rep t p mk (fs_msgs s);
}.

Record folder_rep (f : bfolder) (s : fstate) : Prop := {
  fr_open : db_open (wld f) = true;
  fr_idle : writing (wld f) = false;
  fr_next : nextID (this f) = fs_next s;
  fr_db : db_rep (db (wld f)) (folder_path (this f)) (masterKey (this f)) s;
}.

(** Nothing outside the bucket [p] differs. *)
Definition frame p t t' : Prop := ∀ q, ¬ p `prefix_of` q →
  (∀ k, tx_Get t' q k = tx_Get t q k) ∧ tx_Bucket t' q = tx_Bucket t q.

(** *** Keys *)

Lemma message_key_length id sfx : String.length (message_key id sfx) = 16%nat.
Proof. unfold message_key. by rewrite slength_app, !be_length_64. Qed.

Lemma message_key_to id sfx : slice_to 8 (message_key id sfx) = Ok (be64 id).
Proof. apply slice_app, be_length_64. Qed.
Lemma message_key_from id sfx : slice_from 8 (message_key id sfx) = Ok (be64 sfx).
Proof. apply slice_app, be_length_64. Qed.
Lemma message_key_stake id sfx : stake 8 (message_key id sfx) = be64 id.
Proof. apply stake_app, be_length_64. Qed.

Lemma message_key_inj id sfx id' sfx' :
  is_u64 id → is_u64 sfx → is_u64 id' → is_u64 sfx' →
  message_key id sfx = message_key id' sfx' → id = id' ∧ sfx = sfx'.
Proof.
  intros ???? H. apply sapp_inj in H as [?%be64_inj ?%be64_inj]; [auto..|].
  by rewrite !be_length_64.
Qed.

Lemma message_key_ok id sfx : key_ok (message_key id sfx).
Proof.
  split; [|rewrite message_key_length; lia]. intros H.
  by pose proof (message_key_length id sfx) as Hl; rewrite H in Hl.
Qed.

Lemma message_key_data id sfx : message_key id sfx ≠ folderDataBucket.
Proof. intros H. by pose proof (message_key_length id sfx) as Hl; rewrite H in Hl. Qed.

Definition u64_msgs m : Prop := ∀ id sfx x, m !! id = Some (sfx, x) → is_u64 id ∧ is_u64 sfx.

Lemma fwf_u64 s : fwf s → u64_msgs (fs_msgs s).
Proof. intros [? H] id sfx x Hm. apply H in Hm. unfold is_u64 in *. lia. Qed.

(** *** The cursor of a represented bucket *)

Lemma cursor_cases t p mk m k o : msgs_rep t p mk m → (k, o) ∈ tx_Cursor t p →
  match o with
  | None => k = folderDataBucket
  | Some v => ∃ id sfx x, m !! id = Some (sfx, x) ∧ k = message_key id sfx ∧
      decrypt mk v = Ok (Some x)
  end.
Proof.
  intros Hr H. apply Cursor_elem in H. destruct o; [by apply (mr_get _ _ _ _ Hr)|].
  by apply (mr_sub _ _ _ _ Hr).
Qed.

(** Where [cursor.Seek] of an identifier lands. *)
Lemma seek_id t p mk m id : msgs_rep t p mk m → u64_msgs m → is_u64 id →
  match m !! id with
  | Some (sfx, x) => ∃ v rest, seek (be64 id) (tx_Cursor t p) = (message_key id sfx, Some v) :: rest
      ∧ decrypt mk v = Ok (Some x)
  | None => ∀ k o rest, seek (be64 id) (tx_Cursor t p) = (k, o) :: rest →
      (o = None ∧ k = folderDataBucket) ∨
      (∃ id' sfx v, id' ≠ id ∧ is_u64 id' ∧ k = message_key id' sfx ∧ o = Some v)
  end.
Proof.
  intros Hr Hwf Hid. destruct (m !! id) as [[sfx x]|] eqn:E.
  - destruct (mr_msg _ _ _ _ Hr _ _ _ E) as [v Hv].
    destruct (seek_prefix_hit (be64 id) (tx_Cursor t p) (message_key id sfx, Some v))
      as ([k o] & rest & Hs & Hin & Hp).
    { apply Cursor_sorted. } { by apply Cursor_value. }
    { apply sprefix_spec. by exists (be64 sfx). }
    pose proof (cursor_cases _ _ _ _ _ _ Hr Hin) as Hc. destruct o as [v'|].
    + destruct Hc as (id' & sfx' & x' & Hm' & -> & Hd). destruct (Hwf _ _ _ Hm') as [??].
      apply sprefix_same_length in Hp; [|by rewrite !be_length_64].
      apply be64_inj in Hp as <-; [|done..]. rewrite E in Hm'. simplify_eq. eauto.
    + cbn [fst] in Hp. rewrite Hc in Hp. apply sprefix_spec in Hp as [r Hr'].
      apply (f_equal String.length) in Hr'. rewrite slength_app, be_length_64 in Hr'. discriminate.
  - intros k o rest Hs. assert ((k, o) ∈ tx_Cursor t p) as Hin.
    { eapply seek_suffix. rewrite Hs. apply list_elem_of_here. }
    pose proof (cursor_cases _ _ _ _ _ _ Hr Hin) as Hc. destruct o as [v|]; [|by left].
    right. destruct Hc as (id' & sfx & x & Hm & -> & _). destruct (Hwf _ _ _ Hm) as [??].
    exists id', sfx, v. split; [|done]. intros ->. congruence.
Qed.

Lemma seek_hit_ok t p mk m id : msgs_rep t p mk m → u64_msgs m → is_u64 id →
  seek_hit (be64 id) (tx_Cursor t p) = bool_decide (is_Some (m !! id)).
Proof.
  intros Hr Hwf Hid. pose proof (seek_id _ _ _ _ _ Hr Hwf Hid) as H. unfold seek_hit.
  destruct (m !! id) as [[sfx x]|].
  - destruct H as (v & rest & -> & _).
    by rewrite message_key_length, message_key_stake, !bool_decide_eq_true_2.
  - rewrite (bool_decide_eq_false_2 (is_Some None)) by (by intros []).
    destruct (seek (be64 id) (tx_Cursor t p)) as [|[k o] rest]; [done|].
    destruct (H _ _ _ eq_refl) as [[-> ->]|(id' & sfx & v & Hne & Hid' & -> & ->)]; [done|].
    rewrite message_key_length, message_key_stake. apply bool_decide_eq_false_2.
    by intros ?%be64_inj.
Qed.

Lemma seek_message_ok t p mk m id : msgs_rep t p mk m → u64_msgs m → is_u64 id →
  match m !! id with
  | Some (sfx, x) => ∃ v, seek_message (be64 id) (tx_Cursor t p) = Ok (message_key id sfx, v)
      ∧ decrypt mk v = Ok (Some x)
  | None => seek_message (be64 id) (tx_Cursor t p) = Err ErrNotFound
  end.
Proof.
  intros Hr Hwf Hid. pose proof (seek_id _ _ _ _ _ Hr Hwf Hid) as H. unfold seek_message.
  destruct (m !! id) as [[sfx x]|].
  - destruct H as (v & rest & -> & Hd). exists v. split; [|done].
    rewrite message_key_to. mrun. by rewrite bool_decide_eq_true_2.
  - destruct (seek (be64 id) (tx_Cursor t p)) as [|[k o] rest]; [done|].
    destruct (H _ _ _ eq_refl) as [[-> ->]|(id' & sfx & v & Hne & Hid' & -> & ->)]; [done|].
    rewrite message_key_to. mrun. rewrite bool_decide_eq_false_2; [done|]. by intros ?%be64_inj.
Qed.

(** *** Frames *)

Lemma frame_refl p t : frame p t t.
Proof. done. Qed.

Lemma frame_trans p t1 t2 t3 : frame p t1 t2 → frame p t2 t3 → frame p t1 t3.
Proof.
  intros H1 H2 q Hq. destruct (H1 q Hq) as [Hg Hb], (H2 q Hq) as [Hg' Hb'].
  split; [|by rewrite Hb']. intros k. by rewrite Hg'.
Qed.

Lemma frame_Get p q t t' :
  p `prefix_of` q →
  (∀ q' k, q' ≠ q → tx_Get t' q' k = tx_Get t q' k) →
  (∀ q', tx_Bucket t' q' = tx_Bucket t q') → frame p t t'.
Proof. intros Hp Hg Hb q' Hq'. split; [|done]. intros k. apply Hg. by intros ->. Qed.

(** A represented bucket is not disturbed by what happens in another one. *)
Lemma db_rep_frame t t' p q mk s :
  db_rep t q mk s → frame p t t' → length p = length q → p ≠ q → db_rep t' q mk s.
Proof.
  intros [Hwf Hn [Hb Hd Hs Hg Hm]] Hf Hlen Hne.
  assert (∀ r, length r ≤ 1 → ¬ p `prefix_of` (q ++ r))%nat as Hpre.
  { intros r Hr [u Hu]. apply Hne. apply (f_equal (take (length p))) in Hu.
    rewrite take_app_length in Hu. by rewrite Hlen, take_app_length in Hu. }
  pose proof (Hf q) as [Hgq Hbq].
  { specialize (Hpre []). rewrite app_nil_r in Hpre. apply Hpre. simpl. lia. }
  pose proof (Hf (data_path q) (Hpre [folderDataBucket] ltac:(simpl; lia))) as [Hgd Hbd].
  split; [done|by rewrite Hgd|]. split.
  - by rewrite Hbq.
  - by rewrite Hbd.
  - intros k. destruct (Hf (q ++ [k]) (Hpre [k] ltac:(simpl; lia))) as [_ ->]. apply Hs.
  - intros k v. rewrite Hgq. apply Hg.
  - intros id sfx x H. rewrite Hgq. by apply Hm in H.
Qed.

(** *** Steps of a transaction *)

Lemma on_bucket_ok {A} p (f : M Tx A) t : tx_Bucket t p = true → on_bucket p f t = f t.
Proof. unfold on_bucket. by intros ->. Qed.

Lemma not_sub t p mk m k : msgs_rep t p mk m → k ≠ folderDataBucket → tx_Bucket t (p ++ [k]) = false.
Proof.
  intros Hr Hk. destruct (tx_Bucket t (p ++ [k])) eqn:E; [|done].
  by apply (mr_sub _ _ _ _ Hr) in E.
Qed.

Lemma data_path_ne p : data_path p ≠ p.
Proof.
  unfold data_path. intros H%(f_equal length). rewrite length_app in H. simpl in H. lia.
Qed.

Lemma msgs_rep_pairs t t' p mk m m' :
  msgs_rep t p mk m → (∀ q, tx_Bucket t' q = tx_Bucket t q) →
  (∀ k v, tx_Get t' p k = Some v → ∃ id sfx x,
    m' !! id = Some (sfx, x) ∧ k = message_key id sfx ∧ decrypt mk v = Ok (Some x)) →
  (∀ id sfx x, m' !! id = Some (sfx, x) → ∃ v, tx_Get t' p (message_key id sfx) = Some v) →
  msgs_rep t' p mk m'.
Proof.
  intros [Hb Hd Hs _ _] Hbt Hg Hm. split; [by rewrite Hbt|by rewrite Hbt| |done|done].
  intros k. rewrite Hbt. apply Hs.
Qed.

Lemma put_message_ok t p mk m id sfx x enc :
  msgs_rep t p mk m → u64_msgs m → is_u64 id → is_u64 sfx →
  decrypt mk enc = Ok (Some x) → value_ok enc → m !! id = None →
  ∃ t', put_message p id sfx enc t = (Ok tt, t') ∧
    msgs_rep t' p mk (<[id := (sfx, x)]> m) ∧
    (∀ q k, q ≠ p → tx_Get t' q k = tx_Get t q k) ∧ (∀ q, tx_Bucket t' q = tx_Bucket t q).
Proof.
  intros Hr Hwf Hid Hsfx Hdec Hv Hnone. pose proof (mr_bucket _ _ _ _ Hr) as Hb.
  pose proof (not_sub _ _ _ _ _ Hr (message_key_data id sfx)) as Hns.
  destruct (Put_ok t p (message_key id sfx) enc Hb (message_key_ok id sfx) Hv Hns)
    as (t' & Hput & Hget & Hbt).
  exists t'. split.
  { unfold put_message, bucket_Cursor, bucket_Put. mrun. rewrite on_bucket_ok by done.
    rewrite (seek_hit_ok _ _ _ _ _ Hr) by done. rewrite Hnone, bool_decide_eq_false_2 by (by intros []).
    by rewrite on_bucket_ok. }
  split; [|split; [|done]].
  2:{ intros q k Hq. rewrite Hget, decide_False; [done|]. by intros []. }
  apply (msgs_rep_pairs t t' p mk m); [done..| |].
  - intros k v. rewrite Hget. case_decide as Hd.
    + destruct Hd as [_ ->]. intros [= <-]. exists id, sfx, x. by rewrite lookup_insert_eq.
    + intros (id' & sfx' & x' & Hm & -> & Hd')%(mr_get _ _ _ _ Hr). exists id', sfx', x'.
      rewrite lookup_insert_ne; [done|]. intros ->. congruence.
  - intros id' sfx' x' [[<- [= <- <-]]|[Hne Hm]]%lookup_insert_Some.
    + exists enc. by rewrite Hget, decide_True.
    + destruct (mr_msg _ _ _ _ Hr _ _ _ Hm) as [v Hv']. exists v.
      rewrite Hget, decide_False; [done|]. intros [_ Hk].
      destruct (Hwf _ _ _ Hm). apply message_key_inj in Hk as [-> _]; done.
Qed.

Lemma put_message_dup t p mk m id sfx enc :
  msgs_rep t p mk m → u64_msgs m → is_u64 id → is_Some (m !! id) →
  put_message p id sfx enc t = (Err ErrDuplicateID, t).
Proof.
  intros Hr Hwf Hid Hs. unfold put_message, bucket_Cursor. mrun.
  rewrite on_bucket_ok by apply (mr_bucket _ _ _ _ Hr).
  by rewrite (seek_hit_ok _ _ _ _ _ Hr), bool_decide_eq_true_2.
Qed.

Lemma delete_message_ok t p mk m id sfx x :
  msgs_rep t p mk m → u64_msgs m → m !! id = Some (sfx, x) →
  ∃ t', bucket_Delete p (message_key id sfx) t = (Ok tt, t') ∧
    msgs_rep t' p mk (delete id m) ∧
    (∀ q k, q ≠ p → tx_Get t' q k = tx_Get t q k) ∧ (∀ q, tx_Bucket t' q = tx_Bucket t q).
Proof.
  intros Hr Hwf Hm. pose proof (mr_bucket _ _ _ _ Hr) as Hb.
  pose proof (not_sub _ _ _ _ _ Hr (message_key_data id sfx)) as Hns.
  destruct (Delete_ok t p (message_key id sfx) Hb Hns) as (t' & Hdel & Hget & Hbt).
  destruct (Hwf _ _ _ Hm) as [Hid Hsfx].
  exists t'. split; [unfold bucket_Delete; by rewrite on_bucket_ok|]. split; [|split; [|done]].
  2:{ intros q k Hq. rewrite Hget, decide_False; [done|]. by intros []. }
  apply (msgs_rep_pairs t t' p mk m); [done..| |].
  - intros k v. rewrite Hget. case_decide as Hd; [done|].
    intros (id' & sfx' & x' & Hm' & -> & Hd')%(mr_get _ _ _ _ Hr). exists id', sfx', x'.
    split; [|done]. rewrite lookup_delete_ne; [done|]. intros ->. rewrite Hm in Hm'. simplify_eq.
    by apply Hd.
  - intros id' sfx' x' [Hne Hm']%lookup_delete_Some.
    destruct (mr_msg _ _ _ _ Hr _ _ _ Hm') as [v Hv]. exists v. rewrite Hget, decide_False; [done|].
    intros [_ Hk]. destruct (Hwf _ _ _ Hm'). apply message_key_inj in Hk as [-> _]; done.
Qed.

(** The next identifier in the nested bucket. *)
Lemma put_next_ok t p mk m n :
  msgs_rep t p mk m → tx_Bucket t (data_path p ++ [folderNextIDKey]) = false →
  ∃ t', bucket_Put (data_path p) folderNextIDKey (be64 n) t = (Ok tt, t') ∧
    msgs_rep t' p mk m ∧ tx_Get t' (data_path p) folderNextIDKey = Some (be64 n) ∧
    (∀ q k, q ≠ data_path p → tx_Get t' q k = tx_Get t q k) ∧
    (∀ q, tx_Bucket t' q = tx_Bucket t q).
Proof.
  intros Hr Hb.
  assert (key_ok folderNextIDKey) as Hk by (split; [done|vm_compute; discriminate]).
  assert (value_ok (be64 n)) as Hv by (unfold value_ok; rewrite be_length_64; lia).
  destruct (Put_ok t (data_path p) folderNextIDKey (be64 n) (mr_data _ _ _ _ Hr) Hk Hv Hb)
    as (t' & Hput & Hget & Hbt).
  exists t'. split; [unfold bucket_Put; rewrite on_bucket_ok; [done|apply (mr_data _ _ _ _ Hr)]|].
  assert (∀ q k, q ≠ data_path p → tx_Get t' q k = tx_Get t q k) as Hother.
  { intros q k Hq. rewrite Hget, decide_False; [done|]. by intros []. }
  split; [|split; [by rewrite Hget, decide_True|done]].
  apply (msgs_rep_pairs t t' p mk m); [done..| |].
  - intros k v. rewrite Hother by (by apply not_eq_sym, data_path_ne). apply (mr_get _ _ _ _ Hr).
  - intros id sfx x Hm. rewrite Hother by (by apply not_eq_sym, data_path_ne).
    by apply (mr_msg _ _ _ _ Hr) in Hm.
Qed.

Lemma dr_next_bucket t p mk s : db_rep t p mk s →
  tx_Bucket t (data_path p ++ [folderNextIDKey]) = false.
Proof. intros Hr. by apply dr_next, Get_Bucket in Hr as []. Qed.

(** *** Transactions *)

Lemma Update_tx {A} (m : M Tx A) w : db_open w = true → writing w = false →
  Update (tx m) w =
  match m (db w) with
  | (Ok a, t) => (Ok a, set_db t w)
  | (Hang, t) => (Hang, set_writing true (set_db t w))
  | (r, _) => (r, w)
  end.
Proof.
  intros Ho Hw. unfold Update, tx, zoom. rewrite Ho, Hw. simpl.
  destruct (m (db w)) as [[] t]; simpl; destruct w; simpl in *; by subst.
Qed.
End rep.

(** ** Refinement of the contract *)

Section refinement.
Context {BT : Bolt} {EV : Env} {BL : BoltLaws} {EL : EnvLaws}.
Implicit Types (s : fstate).

(** The results agree, and nothing outside the folder's bucket changes. *)
Definition step_ok {A} (f : bfolder) (x : res A * bfolder) (y : res A * fstate) : Prop :=
  sim folder_rep x y ∧ frame (folder_path (this f)) (db (wld f)) (db (wld x.2)) ∧
  folder_path (this x.2) = folder_path (this f) ∧ masterKey (this x.2) = masterKey (this f).

Lemma step_ok_refl {A} f s (r : res A) : folder_rep f s → step_ok f (r, f) (r, s).
Proof. intros H. by split; [split|split; [apply frame_refl|]]. Qed.

(** A folder whose world has moved to [t]. *)
Lemma folder_rep_move f s w n t s' :
  folder_rep f s → db_open w = true → writing w = false → n = fs_next s' →
  db_rep t (folder_path (this f)) (masterKey (this f)) s' →
  folder_rep (BF (set_nextID n (this f)) (set_db t w)) s'.
Proof. intros Hr Ho Hw -> Hd. by split. Qed.

Lemma user_Bucket (f : folder) t : tx_Bucket t (folder_path f) = true → tx_Bucket t [userID f] = true.
Proof.
  intros H. apply (parent_Bucket t [userID f] foldersBucket).
  by apply (parent_Bucket t [userID f; foldersBucket] (name f)).
Qed.

Lemma folders_Bucket (f : folder) t :
  tx_Bucket t (folder_path f) = true → tx_Bucket t [userID f; foldersBucket] = true.
Proof. apply (parent_Bucket t [userID f; foldersBucket] (name f)). Qed.

Lemma bucket_Bucket_ok p k t : tx_Bucket t p = true →
  bucket_Bucket p k t = (Ok (tx_Bucket t (p ++ [k])), t).
Proof. intros. unfold bucket_Bucket. by rewrite on_bucket_ok. Qed.

Lemma user_check (f : folder) t : tx_Bucket t (folder_path f) = true →
  bucket_Bucket [] (userID f) t = (Ok true, t).
Proof.
  intros H. rewrite bucket_Bucket_ok by by apply root_Bucket in H.
  by rewrite (user_Bucket f) by done.
Qed.

(** A payload of the contract, encrypted, fits in the database. *)
Lemma enc_value_ok (msg enc : string) :
  payload_ok (Some msg) → (String.length enc ≤ String.length msg + nonceSize + Overhead)%nat →
  value_ok enc.
Proof. unfold payload_ok, value_ok, nonceSize, Overhead. lia. Qed.

Lemma fs_next_fresh s : fwf s → fs_msgs s !! fs_next s = None.
Proof.
  intros [? Hm]. destruct (fs_msgs s !! fs_next s) as [[sfx x]|] eqn:E; [|done].
  apply Hm in E. lia.
Qed.

Lemma InsertNew_step f s msg sfx :
  folder_rep f s → fs_next s + 1 < 2 ^ 64 → is_u64 sfx → payload_ok msg →
  step_ok f (folder_InsertNewMessage msg sfx f) (spec_InsertNewMessage msg sfx s).
Proof.
  intros Hr Hlt Hsfx Hp. destruct msg as [msg|]; [|by apply step_ok_refl].
  destruct f as [f w]. destruct (Hr) as [Ho Hw Hn [Hwf Hnx Hms]]. simpl in *.
  destruct (encrypt_ok (masterKey f) msg w) as (enc & n & Henc & Hdec & Hlen).
  set (w1 := World (db w) (db_open w) (writing w) n (ticks w)) in *.
  destruct (put_next_ok (db w) _ _ _ (fs_next s + 1) Hms) as (t1 & Hput1 & Hms1 & Hnx1 & Hg1 & Hb1).
  { by apply Get_Bucket in Hnx as []. }
  pose proof (fs_next_fresh s Hwf) as Hfresh. pose proof (proj1 Hwf) as Hnr.
  destruct (put_message_ok t1 _ _ _ (fs_next s) sfx msg enc Hms1) as (t2 & Hput2 & Hms2 & Hg2 & Hb2);
    [by apply fwf_u64|unfold is_u64; lia|done|done|by eapply enc_value_ok|done|].
  unfold folder_InsertNewMessage, spec_InsertNewMessage. munfold. unfold onw, zoom. simpl.
  rewrite Henc. simpl. rewrite Update_tx by done. simpl.
  rewrite (user_check f) by apply (mr_bucket _ _ _ _ Hms). simpl.
  rewrite Hn, u64_id by (unfold is_u64; lia). rewrite Hput1, Hput2. simpl.
  split; [split|]; simpl; [done| |].
  - split; simpl; [done|done|done|]. split; simpl.
    + by apply (fwf_InsertNew s (Some msg) sfx).
    + rewrite Hg2 by apply data_path_ne. done.
    + done.
  - split; [|done]. eapply (frame_trans _ _ t1).
    + eapply frame_Get; [|exact Hg1|exact Hb1]. by exists [folderDataBucket].
    + by eapply frame_Get.
Qed.

Lemma Insert_step f s id msg sfx :
  folder_rep f s → is_u64 id → is_u64 sfx → payload_ok msg →
  step_ok f (folder_InsertMessage id msg sfx f) (spec_InsertMessage id msg sfx s).
Proof.
  intros Hr Hid Hsfx Hp. pose proof (fwf_Insert s id msg sfx (dr_wf _ _ _ _ (fr_db _ _ Hr)) Hid Hsfx) as Hwf'.
  destruct f as [f w]. destruct (Hr) as [Ho Hw Hn [Hwf Hnx Hms]]. simpl in *.
  unfold folder_InsertMessage, spec_InsertMessage in *. munfold. simpl. rewrite Hn.
  case_bool_decide; [by apply step_ok_refl|]. destruct msg as [msg|]; [|by apply step_ok_refl].
  destruct (encrypt_ok (masterKey f) msg w) as (enc & n & Henc & Hdec & Hlen).
  set (w1 := World (db w) (db_open w) (writing w) n (ticks w)) in *.
  unfold onw, zoom. simpl. rewrite Henc. simpl. rewrite Update_tx by done. simpl.
  rewrite (user_check f) by apply (mr_bucket _ _ _ _ Hms). simpl.
  destruct (fs_msgs s !! id) as [e|] eqn:E.
  - rewrite (put_message_dup _ _ _ _ _ _ _ Hms); [|by apply fwf_u64|done|by rewrite E]. simpl.
    split; [split|]; simpl; [done| |by split; [apply frame_refl|]]. by split.
  - destruct (put_message_ok (db w) _ _ _ id sfx msg enc Hms) as (t2 & Hput2 & Hms2 & Hg2 & Hb2);
      [by apply fwf_u64|done|done|done|by eapply enc_value_ok|done|].
    rewrite Hput2. simpl. split; [split|]; simpl; [done| |].
    + split; simpl; [done|done|done|]. split; simpl; [done| |done].
      by rewrite Hg2 by apply data_path_ne.
    + split; [|done]. by eapply frame_Get.
Qed.

Lemma Get_ok f s id : folder_rep f s → is_u64 id → folder_GetMessage id f = spec_GetMessage id s.
Proof.
  intros Hr Hid. destruct f as [f w]. destruct Hr as [Ho Hw Hn [Hwf Hnx Hms]]. simpl in *.
  unfold folder_GetMessage, spec_GetMessage, View, GetMessage_tx, bucket_Cursor. simpl. rewrite Ho. simpl.
  pose proof (mr_bucket _ _ _ _ Hms) as Hb.
  rewrite (user_Bucket f), (folders_Bucket f), on_bucket_ok by done. mrun.
  pose proof (seek_message_ok _ _ _ _ id Hms (fwf_u64 s Hwf) Hid) as Hs.
  destruct (fs_msgs s !! id) as [[sfx x]|] eqn:E; [|by rewrite Hs].
  destruct Hs as (v & -> & Hd). cbn [fst snd]. rewrite message_key_from.
  apply (fwf_u64 s Hwf) in E as [_ Hsfx]. rewrite Uint64_be64 by done. by rewrite Hd.
Qed.

Lemma Delete_step f s id : folder_rep f s → is_u64 id →
  step_ok f (folder_DeleteMessage id f) (spec_DeleteMessage id s).
Proof.
  intros Hr Hid. pose proof (fwf_Delete s id (dr_wf _ _ _ _ (fr_db _ _ Hr))) as Hwf'.
  destruct f as [f w]. destruct (Hr) as [Ho Hw Hn [Hwf Hnx Hms]]. simpl in *.
  unfold folder_DeleteMessage, spec_DeleteMessage in *. munfold. simpl. rewrite Hn.
  case_bool_decide; [by apply step_ok_refl|]. unfold onw, zoom. simpl.
  rewrite Update_tx by done. simpl. pose proof (mr_bucket _ _ _ _ Hms) as Hb.
  rewrite (user_check f) by done. unfold bucket_Cursor. simpl. rewrite on_bucket_ok by done.
  pose proof (seek_message_ok _ _ _ _ id Hms (fwf_u64 s Hwf) Hid) as Hs.
  destruct (fs_msgs s !! id) as [[sfx x]|] eqn:E.
  - destruct Hs as (v & -> & Hd). simpl.
    destruct (delete_message_ok _ _ _ _ _ _ _ Hms (fwf_u64 s Hwf) E) as (t2 & Hdel & Hms2 & Hg2 & Hb2).
    rewrite Hdel. simpl. split; [split|]; simpl; [done| |].
    + split; simpl; [done|done|done|]. split; simpl; [done| |done].
      by rewrite Hg2 by apply data_path_ne.
    + split; [|done]. by eapply frame_Get.
  - rewrite Hs. simpl. by apply step_ok_refl.
Qed.

#[export] Instance bfolder_refines : FolderRefines bfolder folder_rep.
Proof.
  split.
  - intros f s Hr. apply (dr_wf _ _ _ _ (fr_db _ _ Hr)).
  - intros f s Hr. apply (fr_next _ _ Hr).
  - intros. by apply InsertNew_step.
  - intros. by apply Insert_step.
  - apply Get_ok.
  - intros. by apply Delete_step.
Qed.

(** *** Iteration *)

Definition decode (mk : option string) (e : string * option string) : option entry :=
  match e.2 with
  | None => None
  | Some v =>
      match decrypt mk v with
      | Ok (Some x) => Some (of_be (stake 8 e.1), (of_be (sdrop 8 e.1), x))
      | _ => None
      end
  end.

(** A pair of the bucket: the nested bucket, or a message of [m]. *)
Definition stored mk (m : gmap Z (Z * string)) (e : string * option string) : Prop :=
  match e.2 with
  | None => True
  | Some v => ∃ id sfx x, m !! id = Some (sfx, x) ∧ e.1 = message_key id sfx ∧
      decrypt mk v = Ok (Some x)
  end.

Lemma cursor_stored t p mk m : msgs_rep t p mk m → Forall (stored mk m) (tx_Cursor t p).
Proof.
  intros Hr. apply Forall_forall. intros [k o] He. unfold stored. simpl.
  apply (cursor_cases _ _ _ _ _ _ Hr) in He. by destruct o.
Qed.

Lemma decode_stored mk m k v id sfx x : u64_msgs m → m !! id = Some (sfx, x) →
  k = message_key id sfx → decrypt mk v = Ok (Some x) → decode mk (k, Some v) = Some (id, (sfx, x)).
Proof.
  intros Hwf Hm -> Hd. destruct (Hwf _ _ _ Hm). unfold decode. simpl. rewrite Hd.
  rewrite message_key_stake. unfold message_key. rewrite (sdrop_app (be64 id)) by apply be_length_64.
  by rewrite !of_be_be64.
Qed.

Lemma stored_decode mk m k o e : u64_msgs m → stored mk m (k, o) → decode mk (k, o) = Some e →
  m !! e.1 = Some e.2 ∧ k = message_key e.1 e.2.1.
Proof.
  intros Hwf Hs Hd. destruct o as [v|]; [|done]. destruct Hs as (id & sfx & x & Hm & Hk & Hx).
  rewrite (decode_stored mk m k v id sfx x) in Hd by done. by simplify_eq.
Qed.

(** Keys in byte order have increasing identifiers. *)
Lemma blt_key_lt m id sfx x id' sfx' x' : u64_msgs m →
  m !! id = Some (sfx, x) → m !! id' = Some (sfx', x') →
  blt (message_key id sfx) (message_key id' sfx') → id < id'.
Proof.
  intros Hwf Hm Hm' Hlt. destruct (Hwf _ _ _ Hm), (Hwf _ _ _ Hm').
  destruct (Z.lt_trichotomy id id') as [?|[->|Hgt]]; [done| |].
  - rewrite Hm in Hm'. simplify_eq. by apply blt_irrefl in Hlt.
  - exfalso. eapply blt_irrefl, (blt_trans _ _ _ Hlt). by apply blt_be64.
Qed.

Lemma decode_ksorted mk m l : u64_msgs m → Forall (stored mk m) l →
  StronglySorted (λ x y, blt x.1 y.1) l → ksorted fst (omap (decode mk) l).
Proof.
  intros Hwf. induction l as [|[k o] l IH]; intros Hst Hs; [constructor|].
  apply Forall_cons in Hst as [He Hst]. apply StronglySorted_cons in Hs as [F Hs]. simpl.
  specialize (IH Hst Hs). destruct (decode mk (k, o)) as [[i [sf x]]|] eqn:Ed; [|done].
  apply ksorted_cons. split; [done|]. apply (stored_decode _ _ _ _ _ Hwf He) in Ed as [Hm ->].
  rewrite Forall_forall in F. rewrite Forall_forall in Hst. apply Forall_forall.
  intros [i' [sf' x']] ([k' o'] & Hin & Hd')%list_elem_of_omap. simpl in *.
  pose proof (F _ Hin) as Hlt. apply (stored_decode _ _ _ _ _ Hwf (Hst _ Hin)) in Hd' as [Hm' ->].
  by eapply blt_key_lt.
Qed.

(** The pairs of the bucket, decoded, are the messages in order. *)
Lemma decode_cursor t p mk m : msgs_rep t p mk m → u64_msgs m →
  omap (decode mk) (tx_Cursor t p) = entries m.
Proof.
  intros Hr Hwf. apply entries_unique.
  - eapply decode_ksorted; [done|by apply cursor_stored|apply Cursor_sorted].
  - intros id [sfx x]. rewrite list_elem_of_omap. split.
    + intros ([k o] & He & Hd).
      pose proof (cursor_stored _ _ _ _ Hr) as Hst. rewrite Forall_forall in Hst.
      by apply (stored_decode _ _ _ _ _ Hwf (Hst _ He)) in Hd as [? _].
    + intros Hm. destruct (mr_msg _ _ _ _ Hr _ _ _ Hm) as [v Hv].
      exists (message_key id sfx, Some v). split; [by apply Cursor_value|].
      destruct (mr_get _ _ _ _ Hr _ _ Hv) as (id' & sfx' & x' & Hm' & Hk & Hd).
      destruct (Hwf _ _ _ Hm), (Hwf _ _ _ Hm'). pose proof Hk as Hk'.
      apply message_key_inj in Hk as [<- <-]; [|done..]. rewrite Hm in Hm'. simplify_eq.
      by eapply decode_stored.
Qed.

(** What the cursor is moved past is below the lower bound. *)
Lemma seek_selected mk m low high sfx l : u64_msgs m → is_u64 low → Forall (stored mk m) l →
  StronglySorted (λ x y, blt x.1 y.1) l →
  filter (selected low high sfx) (omap (decode mk) (seek (be64 low) l)) =
  filter (selected low high sfx) (omap (decode mk) l).
Proof.
  intros Hwf Hlow. induction l as [|[k o] l IH]; intros Hst Hs; [done|]. simpl.
  apply Forall_cons in Hst as [He Hst]. apply StronglySorted_cons in Hs as [F Hs].
  destruct (bleb_spec (be64 low) k) as [Hle|Hle]; [done|]. rewrite IH by done.
  destruct (decode mk (k, o)) as [[i [sf x]]|] eqn:Ed; [|done].
  rewrite filter_cons_False; [done|]. unfold selected; simpl. intros [Hi _].
  apply (stored_decode _ _ _ _ _ Hwf He) in Ed as [Hm ->]. destruct (Hwf _ _ _ Hm).
  cbn [fst snd] in *. apply Hle. destruct (decide (low = i)) as [->|Hne]; [apply ble_app_l|].
  apply ble_blt. left. rewrite <-(sapp_nil_r (be64 low)). apply blt_be64; [done..|lia].
Qed.

Lemma ForEach_loop_ok {S} mk m low high sfx (fn : Z → Z → string → M S unit) l st :
  u64_msgs m → Forall (stored mk m) l → StronglySorted (λ x y, blt x.1 y.1) l →
  Forall (λ e, low ≤ e.1) (omap (decode mk) l) →
  ForEach_loop mk high sfx fn l st =
  mfor (filter (selected low high sfx) (omap (decode mk) l)) (visit fn) st.
Proof.
  intros Hwf. revert st. induction l as [|[k o] l IH]; intros st Hst Hs Hlow; [done|].
  pose proof (decode_ksorted _ _ _ Hwf Hst Hs) as Hks.
  apply Forall_cons in Hst as [He Hst]. apply StronglySorted_cons in Hs as [_ Hs].
  destruct o as [v|]; [|by apply IH]. cbn [ForEach_loop omap list_omap] in *.
  destruct He as (id & sf & x & Hm & Hk & Hd). simpl in Hk. subst k.
  rewrite (decode_stored mk m _ v id sf x) in * by done. destruct (Hwf _ _ _ Hm).
  apply Forall_cons in Hlow as [Hid Hlow]. apply ksorted_cons in Hks as [_ Hks]. simpl in Hid.
  rewrite message_key_to, message_key_from. munfold. rewrite !Uint64_be64 by done.
  case_bool_decide as Hh.
  { rewrite filter_none; [done|]. apply Forall_cons. unfold selected; simpl. split; [lia|].
    eapply Forall_impl; [exact Hks|]. intros e Hlt ?. simpl in *. lia. }
  case_bool_decide as Hsf.
  { rewrite filter_cons_False by (unfold selected; simpl; intuition lia). by apply IH. }
  rewrite filter_cons_True by (unfold selected; simpl; lia). rewrite Hd. cbn. munfold.
  unfold visit at 1. simpl. destruct (fn id sf x st) as [[] st']; [|done..]. by apply IH.
Qed.

Lemma seek_low mk m low l : u64_msgs m → is_u64 low → Forall (stored mk m) l →
  StronglySorted (λ x y, blt x.1 y.1) l →
  Forall (λ e, low ≤ e.1) (omap (decode mk) (seek (be64 low) l)).
Proof.
  intros Hwf Hlow Hst Hs. rewrite Forall_forall in Hst. apply Forall_forall.
  intros e ([k o] & Hin & Hd)%list_elem_of_omap.
  apply elem_of_seek in Hin as [Hin Hle]; [|done].
  apply (stored_decode _ _ _ _ _ Hwf (Hst _ Hin)) in Hd as [Hm ->]. simpl in Hle.
  destruct e as [i [sf x]]. destruct (Hwf _ _ _ Hm). simpl in *.
  destruct (Z.le_gt_cases low i) as [?|Hgt]; [done|]. exfalso.
  apply not_ble in Hle; [done|]. rewrite <-(sapp_nil_r (be64 low)). by apply blt_be64; [| |lia].
Qed.

#[export] Instance bfolder_iterates : FolderIterates bfolder folder_rep.
Proof.
  intros [f w] s low high sfx Hr Hlow Hhigh Hsfx S fn st.
  destruct Hr as [Ho Hw Hn [Hwf Hnx Hms]]. simpl in *.
  unfold folder_ForEachMessage, spec_ForEachMessage, bucket_Cursor. simpl.
  case_bool_decide; [done|]. rewrite Ho. simpl. pose proof (mr_bucket _ _ _ _ Hms) as Hb.
  rewrite (user_Bucket f), on_bucket_ok by done. simpl. munfold.
  pose proof (fwf_u64 s Hwf) as Hu. pose proof (cursor_stored _ _ _ _ Hms) as Hst.
  pose proof (Cursor_sorted (db w) (folder_path f)) as Hcs.
  rewrite (ForEach_loop_ok _ (fs_msgs s) low); [|done| | |by eapply seek_low].
  - rewrite (seek_selected _ (fs_msgs s)) by done. by rewrite (decode_cursor _ _ _ _ Hms).
  - rewrite Forall_forall in Hst. apply Forall_forall. intros e He%seek_suffix. by apply Hst.
  - by apply seek_sorted.
Qed.

End refinement.

(** ** Opening a folder *)

Section opening.
Context {BT : Bolt} {EV : Env} {BL : BoltLaws} {EL : EnvLaws}.

(** A world between transactions. *)
Definition idle (w : world) : Prop := db_open w = true ∧ writing w = false.

Definition user_folder_path (username nm : string) : path :=
  [(userPrefix ++ username)%string; foldersBucket; nm].

(** The folder's name is free in the folders bucket of its user. *)
Record vacant (w : world) (username nm : string) : Prop := {
  vac_idle : idle w;
  vac_key : key_ok nm;
  vac_user : tx_Bucket (db w) [(userPrefix ++ username)%string; foldersBucket] = true;
  vac_free : tx_Bucket (db w) (user_folder_path username nm) = false;
  vac_pair : tx_Get (db w) [(userPrefix ++ username)%string; foldersBucket] nm = None;
}.

Lemma tx_run {A} (m : M Tx A) w : tx m w = let '(r, t) := m (db w) in (r, set_db t w).
Proof. done. Qed.

Lemma create_nested t p k t' : tx_Bucket t (p ++ [k]) = false →
  (∀ q, tx_Bucket t' q = true ↔ q = p ++ [k] ∨ tx_Bucket t q = true) →
  ∀ k', tx_Bucket t' ((p ++ [k]) ++ [k']) = false.
Proof.
  intros Hk Hb k'. destruct (tx_Bucket t' ((p ++ [k]) ++ [k'])) eqn:E; [|done]. exfalso.
  apply Hb in E as [E|E].
  - apply (f_equal length) in E. rewrite length_app in E. simpl in E. lia.
  - apply parent_Bucket in E. congruence.
Qed.

(** The three buckets and the two pairs of a new folder. *)
Lemma initialize_new mk username nm w :
  vacant w username nm →
  ∃ w', newFolder mk username nm w = (Ok (MkFolder mk (userPrefix ++ username)%string 1 nm), w') ∧
    idle w' ∧ db_rep (db w') (user_folder_path username nm) mk (FState 1 ∅) ∧
    frame (user_folder_path username nm) (db w) (db w') ∧ ticks w' = S (ticks w).
Proof.
  intros [[Ho Hw] Hk Hu Hfree Hpair]. set (u := (userPrefix ++ username)%string) in *.
  set (P := user_folder_path username nm) in *. change ([u; foldersBucket] ++ [nm]) with P in *.
  destruct (CreateBucket_ok (db w) [u; foldersBucket] nm Hu Hk Hfree Hpair) as (t1 & E1 & Hg1 & Hb1).
  change ([u; foldersBucket] ++ [nm]) with P in *.
  assert (key_ok folderDataBucket) as Hkd by (split; [done|vm_compute; discriminate]).
  assert (key_ok folderCreatedOnKey) as Hkc by (split; [done|vm_compute; discriminate]).
  assert (key_ok folderNextIDKey) as Hkn by (split; [done|vm_compute; discriminate]).
  assert (tx_Bucket t1 P = true) as HP1 by (apply Hb1; by left).
  pose proof (create_nested (db w) [u; foldersBucket] nm t1 Hfree Hb1) as Hn1.
  change ([u; foldersBucket] ++ [nm]) with P in *.
  assert (∀ k, tx_Get (db w) P k = None) as Hempty by (intros; by apply Get_missing).
  destruct (CreateBucket_ok t1 P folderDataBucket HP1 Hkd (Hn1 _)) as (t2 & E2 & Hg2 & Hb2).
  { by rewrite Hg1. }
  pose proof (create_nested t1 P folderDataBucket t2 (Hn1 _) Hb2) as Hn2.
  assert (tx_Bucket t2 (data_path P) = true) as HD2 by (apply Hb2; by left).
  destruct (Put_ok t2 (data_path P) folderCreatedOnKey (MarshalBinary (time_Now (ticks w))) HD2 Hkc)
    as (t3 & E3 & Hg3 & Hb3); [|by apply Hn2|].
  { unfold value_ok. pose proof (time_length (time_Now (ticks w))). lia. }
  assert (tx_Bucket t3 (data_path P) = true) as HD3 by by rewrite Hb3.
  destruct (Put_ok t3 (data_path P) folderNextIDKey (be64 1) HD3 Hkn) as (t4 & E4 & Hg4 & Hb4).
  { unfold value_ok. rewrite be_length_64. lia. } { rewrite Hb3. by apply Hn2. }
  assert (tx_Bucket (db w) [u] = true) as Hu1 by by apply (parent_Bucket _ [u] foldersBucket).
  exists (World t4 true false (reads w) (S (ticks w))). split; [|split; [done|split; [|split; [|done]]]].
  - unfold newFolder. rewrite bool_decide_eq_false_2 by apply Hk.
    unfold initialize, Update. munfold. rewrite Ho, Hw. simpl. unfold initialize_tx.
    munfold. unfold tx, zoom, bucket_Bucket, bucket_CreateBucketIfNotExists, bucket_CreateBucket,
      bucket_Put. cbn [userID db set_db set_writing].
    fold u. rewrite on_bucket_ok by done. simpl. change [u; foldersBucket; nm] with P.
    rewrite Hfree. simpl. rewrite on_bucket_ok by done. simpl. rewrite Hu. simpl.
    rewrite on_bucket_ok, E1 by done. simpl. rewrite on_bucket_ok, E2 by done. simpl.
    rewrite on_bucket_ok, E3 by done. simpl. rewrite on_bucket_ok, E4 by done.
    unfold set_writing, set_db. simpl. by rewrite Ho.
  - simpl. split; simpl.
    + split; [simpl; lia|]. simpl. intros ???. by rewrite lookup_empty.
    + by rewrite Hg4, decide_True.
    + split.
      * rewrite Hb4, Hb3. apply Hb2. by right.
      * by rewrite Hb4, Hb3.
      * intros k. rewrite Hb4, Hb3. intros [Hk'%(app_inj_tail P P)|Hc]%Hb2; [by destruct Hk'|].
        by rewrite Hn1 in Hc.
      * intros k v. rewrite Hg4, Hg3, !decide_False by (intros [H _]; by apply (data_path_ne P)).
        by rewrite Hg2, Hg1, Hempty.
      * intros ???. by rewrite lookup_empty.
  - intros q Hq. assert (q ≠ P) as Hq1 by (by intros ->). assert (q ≠ data_path P) as Hq2.
    { intros ->. apply Hq. by exists [folderDataBucket]. }
    split.
    + intros k. simpl. rewrite Hg4, Hg3, !decide_False by (by intros []). by rewrite Hg2, Hg1.
    + simpl. rewrite Hb4, Hb3. apply eq_true_iff_eq. rewrite Hb2, Hb1. intuition.
Qed.

(** Opening a folder that exists reads its next identifier. *)
Lemma initialize_existing mk username nm w s :
  idle w → nm ≠ EmptyString → db_rep (db w) (user_folder_path username nm) mk s →
  newFolder mk username nm w = (Ok (MkFolder mk (userPrefix ++ username)%string (fs_next s) nm), w).
Proof.
  intros [Ho Hw] Hnm [Hwf Hn Hms]. set (u := (userPrefix ++ username)%string).
  pose proof (mr_bucket _ _ _ _ Hms) as Hb. pose proof (mr_data _ _ _ _ Hms) as Hd.
  assert (tx_Bucket (db w) [u; foldersBucket] = true) as Hu
    by exact (parent_Bucket (db w) [u; foldersBucket] nm Hb).
  unfold newFolder. rewrite bool_decide_eq_false_2 by done.
  unfold initialize, Update. munfold. rewrite Ho, Hw. simpl. unfold initialize_tx. munfold.
  unfold tx, zoom, bucket_Bucket, bucket_Get. cbn [userID db set_db set_writing].
  fold u. rewrite on_bucket_ok by done. cbn [app].
  change [u; foldersBucket; nm] with (user_folder_path username nm). rewrite Hb. rewrite on_bucket_ok by done.
  change (db (set_db (db w) (set_writing true w))) with (db w). rewrite Hn.
  change (default EmptyString (Some (be64 (fs_next s)))) with (be64 (fs_next s)).
  rewrite Uint64_be64 by (destruct Hwf; unfold is_u64; lia). simpl.
  unfold set_nextID, set_writing, set_db. simpl. destruct w; simpl in *; by subst.
Qed.

Lemma newFolder_rep mk username nm w :
  vacant w username nm → ∃ f w', newFolder mk username nm w = (Ok f, w') ∧
    folder_rep (BF f w') (FState 1 ∅) ∧ userID f = (userPrefix ++ username)%string ∧
    name f = nm ∧ masterKey f = mk.
Proof.
  intros Hv. destruct (initialize_new mk username nm w Hv) as (w' & Hf & [Ho Hw] & Hr & _).
  eexists _, w'. split; [exact Hf|]. by split; [split|].
Qed.
End opening.

(** ** Runs of operations *)

Section runs.
Context {BT : Bolt} {EV : Env} {BL : BoltLaws} {EL : EnvLaws}.

Lemma run_op_step op f s :
  folder_rep f s → op_ok op → fs_next s + 1 < 2 ^ 64 →
  let '(o, f') := run_op op f in let '(o', s') := run_op op s in
  o = o' ∧ folder_rep f' s' ∧ frame (folder_path (this f)) (db (wld f)) (db (wld f')) ∧
  folder_path (this f') = folder_path (this f) ∧ masterKey (this f') = masterKey (this f).
Proof.
  intros Hr Hok Hlt. destruct op as [msg sfx|id msg sfx|id|id|]; simpl in *.
  - destruct Hok. destruct (InsertNew_step f s msg sfx) as [[Hs1 Hs2] Hs3]; [done..|].
    destruct (folder_InsertNewMessage msg sfx f), (spec_InsertNewMessage msg sfx s). simpl in *. by subst.
  - destruct Hok as (? & ? & ?). destruct (Insert_step f s id msg sfx) as [[Hs1 Hs2] Hs3]; [done..|].
    destruct (folder_InsertMessage id msg sfx f), (spec_InsertMessage id msg sfx s). simpl in *. by subst.
  - split; [by rewrite (Get_ok f s)|]. by split; [|split; [apply frame_refl|]].
  - destruct (Delete_step f s id) as [[Hs1 Hs2] Hs3]; [done..|].
    destruct (folder_DeleteMessage id f), (spec_DeleteMessage id s). simpl in *. by subst.
  - split; [by rewrite <-(fr_next _ _ Hr)|]. by split; [|split; [apply frame_refl|]].
Qed.

(** *** The clock

    Only the creation of a folder reads the clock. *)

Lemma keeps_onw {A} (m : M world A) : keeps ticks m → keeps (λ f, ticks (wld f)) (onw m).
Proof.
  intros Hm f r f'. unfold onw, zoom. destruct (m (wld f)) as [r0 w'] eqn:E. intros [= _ <-].
  by apply (Hm _ _ _ E).
Qed.

Lemma keeps_tx {A} (m : M Tx A) : keeps ticks (tx m).
Proof. by apply keeps_zoom. Qed.

Lemma keeps_Update {A} (m : M world A) : keeps ticks m → keeps ticks (Update m).
Proof.
  intros Hm w r w'. unfold Update. destruct (db_open w); [|by intros [= _ <-]]. cbn [negb].
  destruct (writing w); [by intros [= _ <-]|]. destruct (m (set_writing true w)) as [r0 w1] eqn:E.
  apply Hm in E. by destruct r0; intros [= _ <-].
Qed.

Lemma keeps_encrypt mk msg : keeps ticks (encrypt mk msg).
Proof. intros w r w'. unfold encrypt, read_rand. munfold. destruct mk; by intros [= _ <-]. Qed.
#[local] Hint Resolve keeps_onw keeps_tx keeps_Update keeps_encrypt : keeps.

Lemma keeps_set_this f : keeps (λ b, ticks (wld b)) (modify (λ s : bfolder, BF (f (this s)) (wld s))).
Proof. by intros s r s' [= _ <-]. Qed.
#[local] Hint Resolve keeps_set_this : keeps.

Lemma run_op_ticks op f : ticks (wld (run_op op f).2) = ticks (wld f).
Proof.
  assert (∀ A (m : M bfolder A) o, keeps (λ b, ticks (wld b)) m →
    ticks (wld (let '(r, f) := m f in (o r : folder_out, f)).2) = ticks (wld f)) as H.
  { intros A m o Hm. destruct (m f) as [r f'] eqn:E. by apply Hm in E. }
  destruct op as [msg sfx|id msg sfx|id|id|]; [| |done| |done]; apply H.
  - simpl. unfold folder_InsertNewMessage. keeps.
  - simpl. unfold folder_InsertMessage. keeps.
  - simpl. unfold folder_DeleteMessage. keeps.
Qed.

Lemma run_ops_step ops f s :
  folder_rep f s → Forall op_ok ops → fs_next s + Z.of_nat (length ops) < 2 ^ 64 →
  let '(o, f') := run_ops ops f in let '(o', s') := run_ops ops s in
  o = o' ∧ folder_rep f' s' ∧ folder_path (this f') = folder_path (this f) ∧
  masterKey (this f') = masterKey (this f).
Proof.
  revert f s; induction ops as [|op ops IH]; intros f s Hr Hok Hlt; [done|].
  apply Forall_cons in Hok as [Hop Hops]. simpl in Hlt. cbn [run_ops].
  pose proof (run_op_step op f s Hr Hop ltac:(lia)) as H. pose proof (fs_next_run_op op s) as Hn.
  destruct (run_op op f) as [o f'], (run_op op s) as [o' s'].
  destruct H as (-> & Hr' & _ & Hp & Hk). simpl in Hn. specialize (IH f' s' Hr' Hops ltac:(lia)).
  destruct (run_ops ops f') as [os f''], (run_ops ops s') as [os' s''].
  destruct IH as (-> & Hr'' & Hp' & Hk'). by rewrite Hp', Hk'.
Qed.

(** Two open folders over one database; each operation is on one of them. *)
Fixpoint run_two {F} `{Folder F} {W} (view : W → bool → F) (upd : W → bool → F → W)
    (ops : list (bool * folder_op)) (w : W) : list folder_out * W :=
  match ops with
  | [] => ([], w)
  | (i, op) :: ops =>
      let '(o, x) := run_op op (view w i) in
      let '(os, w) := run_two view upd ops (upd w i x) in (o :: os, w)
  end.

(** Folder objects that share a world. *)
Definition two_folders : Type := folder * folder * world.
Definition view_folders (x : two_folders) (i : bool) : bfolder :=
  let '(f, g, w) := x in BF (if i then f else g) w.
Definition upd_folders (x : two_folders) (i : bool) (b : bfolder) : two_folders :=
  let '(f, g, w) := x in if i then (this b, g, wld b) else (f, this b, wld b).
(** Two abstract folders that share nothing. *)
Definition view_states (x : fstate * fstate) (i : bool) : fstate := if i then x.1 else x.2.
Definition upd_states (x : fstate * fstate) (i : bool) (s : fstate) : fstate * fstate :=
  if i then (s, x.2) else (x.1, s).

Lemma run_two_step ops f g w s1 s2 :
  folder_rep (BF f w) s1 → folder_rep (BF g w) s2 → folder_path f ≠ folder_path g →
  Forall (λ e, op_ok e.2) ops →
  fs_next s1 + Z.of_nat (length ops) < 2 ^ 64 → fs_next s2 + Z.of_nat (length ops) < 2 ^ 64 →
  (run_two view_folders upd_folders ops (f, g, w)).1 = (run_two view_states upd_states ops (s1, s2)).1.
Proof.
  revert f g w s1 s2; induction ops as [|[i op] ops IH]; intros f g w s1 s2 H1 H2 Hne Hok Hl1 Hl2; [done|].
  apply Forall_cons in Hok as [Hop Hops]. cbn [length snd] in *. cbn [run_two].
  assert (∀ (h h' : folder) s' w', folder_rep (BF h' w) s' →
    frame (folder_path h) (db w) (db w') → folder_path h ≠ folder_path h' →
    db_open w' = true → writing w' = false → folder_rep (BF h' w') s') as Hkeep.
  { intros h h' s' w' [Ho Hw Hn Hd] Hf Hp Ho' Hw'. split; [done..|]. simpl in *.
    by eapply db_rep_frame. }
  destruct i; simpl.
  - pose proof (run_op_step op _ _ H1 Hop ltac:(lia)) as H. pose proof (fs_next_run_op op s1) as Hn.
    destruct (run_op op (BF f w)) as [o [f' w']], (run_op op s1) as [o' s']. simpl in *.
    destruct H as (-> & [Ho Hw Hnx Hd] & Hf & Hp & Hk). simpl in *.
    specialize (IH f' g w' s' s2).
    destruct (run_two view_folders upd_folders ops (f', g, w')), (run_two view_states upd_states ops (s', s2)). simpl in *.
    rewrite IH; [done|by split| |by rewrite Hp|done|lia|lia]. by eapply (Hkeep f g).
  - pose proof (run_op_step op _ _ H2 Hop ltac:(lia)) as H. pose proof (fs_next_run_op op s2) as Hn.
    destruct (run_op op (BF g w)) as [o [g' w']], (run_op op s2) as [o' s']. simpl in *.
    destruct H as (-> & [Ho Hw Hnx Hd] & Hf & Hp & Hk). simpl in *.
    specialize (IH f g' w' s1 s').
    destruct (run_two view_folders upd_folders ops (f, g', w')), (run_two view_states upd_states ops (s1, s')). simpl in *.
    rewrite IH; [done| |by split|by rewrite Hp|done|lia|lia]. apply (Hkeep g f); [done|done|by apply not_eq_sym|done|done].
Qed.

(** *** [LastID] *)

(** What the loop computes on the messages in order. *)
Definition LastID_entry (acc : Z * gmap Z Z) (e : entry) : Z * gmap Z Z :=
  let '(lastID, m) := acc in
  if match m !! e.2.1 with Some v => e.2.1 <? v | None => false end then acc
  else (if e.1 <? lastID then lastID else e.1, <[e.2.1 := e.1]> m).

Lemma LastID_loop_ok mk m l acc : u64_msgs m → Forall (stored mk m) l →
  Forall (λ e, e.2 = None → String.length e.1 ≠ 16%nat) l →
  LastID_loop l acc = Ok (foldl LastID_entry acc (omap (decode mk) l)).
Proof.
  intros Hwf. revert acc; induction l as [|[k o] l IH]; intros acc Hst Hb; [done|].
  apply Forall_cons in Hst as [He Hst]. apply Forall_cons in Hb as [Hk Hb].
  cbn [LastID_loop]. munfold. destruct acc as [lastID lm]. unfold LastID_step. cbn [fst snd] in *.
  destruct o as [v|].
  - destruct He as (id & sfx & x & Hm & Hkey & Hd). simpl in Hkey. subst k.
    cbn [omap list_omap]. rewrite (decode_stored mk m _ v id sfx x) by done.
    destruct (Hwf _ _ _ Hm). rewrite message_key_length, message_key_from, message_key_to.
    cbn [Nat.eqb negb]. munfold. rewrite !Uint64_be64 by done. cbn [foldl LastID_entry fst snd].
    destruct (match lm !! sfx with Some _ => _ | None => _ end); [by apply IH|].
    by destruct (id <? lastID); apply IH.
  - cbn [omap list_omap]. unfold decode at 1. simpl. rewrite (proj2 (Nat.eqb_neq _ _)) by by apply Hk.
    by apply IH.
Qed.

Lemma folder_LastID_entries f s : folder_rep f s →
  folder_LastID f = Ok (foldl LastID_entry (0, ∅) (entries (fs_msgs s))).
Proof.
  intros Hr. destruct f as [f w]. destruct Hr as [Ho Hw Hn [Hwf Hnx Hms]]. simpl in *.
  pose proof (fwf_u64 s Hwf) as Hu. pose proof (mr_bucket _ _ _ _ Hms) as Hb.
  unfold folder_LastID, Update, bucket_Cursor. munfold. unfold tx, zoom. simpl. rewrite Ho, Hw. simpl.
  rewrite on_bucket_ok by done. simpl.
  rewrite (LastID_loop_ok (masterKey f) (fs_msgs s)); [|done|by apply cursor_stored|].
  - simpl. by rewrite (decode_cursor _ _ _ _ Hms).
  - apply Forall_forall. intros [k o] He Hnone. simpl in *. subst o.
    apply (cursor_cases _ _ _ _ _ _ Hms) in He. simpl in He. by rewrite He.
Qed.
End runs.

(** ** Properties *)

Section properties.
Context {BT : Bolt} {EV : Env} {BL : BoltLaws} {EL : EnvLaws}.

(** C1: a folder created in a database behaves as the contract of
    [data.Folder] documents, whatever the database and the master key: on
    every sequence of operations it gives the results of the abstract
    folder, errors included, and iterating over any range and suffix with
    any callback then visits exactly the messages selected, decrypted, in
    increasing order of identifier, stopping at the first error. *)
Theorem folder_refinement mk username nm w ops :
  vacant w username nm → Forall op_ok ops → Z.of_nat (length ops) < 2 ^ 64 - 1 →
  ∃ f w', newFolder mk username nm w = (Ok f, w') ∧
    let '(outs, b) := run_ops ops (BF f w') in
    let '(outs', s) := run_ops ops (FState 1 ∅) in
    outs = outs' ∧
    ∀ low high sfx, is_u64 low → is_u64 high → is_u64 sfx →
      ∀ S (fn : Z → Z → string → M S unit) st,
        folder_ForEachMessage low high sfx fn b st = spec_ForEachMessage low high sfx fn s st.
Proof.
  intros Hv Hok Hlen. destruct (newFolder_rep mk username nm w Hv) as (f & w' & Hf & Hr & _).
  exists f, w'. split; [exact Hf|].
  pose proof (run_ops_step ops _ _ Hr Hok ltac:(simpl; lia)) as H.
  destruct (run_ops ops (BF f w')) as [outs b], (run_ops ops (FState 1 ∅)) as [outs' s].
  destruct H as (-> & Hr' & _). split; [done|]. intros. by apply bfolder_iterates.
Qed.

(** C2: what a folder holds survives the process: after any sequence of
    operations, opening the folder again in the same database succeeds
    without writing, gives back the folder object that was lost, and every
    further sequence of operations behaves as if the folder had never been
    closed. *)
Theorem folder_reopen mk username nm w ops1 ops2 :
  vacant w username nm → Forall op_ok ops1 → Forall op_ok ops2 →
  Z.of_nat (length ops1 + length ops2) < 2 ^ 64 - 1 →
  ∃ f w1, newFolder mk username nm w = (Ok f, w1) ∧
    let b := (run_ops ops1 (BF f w1)).2 in
    newFolder mk username nm (wld b) = (Ok (this b), wld b) ∧
    (run_ops ops2 b).1 = (run_ops ops2 (run_ops ops1 (FState 1 ∅)).2).1.
Proof.
  intros Hv Hok1 Hok2 Hlen.
  destruct (newFolder_rep mk username nm w Hv) as (f & w1 & Hf & Hr & Hu & Hnm & Hk).
  exists f, w1. split; [exact Hf|].
  pose proof (run_ops_step ops1 _ _ Hr Hok1 ltac:(simpl; lia)) as H.
  pose proof (fs_next_run_ops ops1 (FState 1 ∅)) as Hn. rewrite Nat2Z.inj_add in Hlen.
  destruct (run_ops ops1 (BF f w1)) as [o [f' w']], (run_ops ops1 (FState 1 ∅)) as [o' s'].
  destruct H as (_ & Hr' & Hp' & Hk'). simpl in *.
  split.
  - destruct Hr' as [Ho Hw Hn' Hd]. simpl in *. destruct f', f. unfold folder_path in *. simpl in *.
    simplify_eq. by apply initialize_existing; [|apply Hv|].
  - pose proof (run_ops_step ops2 _ _ Hr' Hok2 ltac:(lia)) as H.
    destruct (run_ops ops2 (BF f' w')), (run_ops ops2 s'). by destruct H as [-> _].
Qed.

(** Folders do not interfere: two folders of different users or names,
    open at once over one database, give under any interleaving of their
    operations the results of two abstract folders that share nothing. *)
Theorem folders_independent mk mk' username username' nm nm' w ops :
  vacant w username nm → vacant w username' nm' →
  user_folder_path username nm ≠ user_folder_path username' nm' →
  Forall (λ e, op_ok e.2) ops → Z.of_nat (length ops) < 2 ^ 64 - 1 →
  ∃ f w1 g w2, newFolder mk username nm w = (Ok f, w1) ∧ newFolder mk' username' nm' w1 = (Ok g, w2) ∧
    (run_two view_folders upd_folders ops (f, g, w2)).1 =
    (run_two view_states upd_states ops (FState 1 ∅, FState 1 ∅)).1.
Proof.
  intros Hv Hv' Hne Hok Hlen. set (P := user_folder_path username nm) in *.
  destruct (initialize_new mk username nm w Hv) as (w1 & Hf & Hi1 & Hr1 & Hfr1 & _). fold P in Hr1, Hfr1.
  assert (vacant w1 username' nm') as Hv1.
  { destruct Hv' as [_ Hk Hu Hfree Hpair].
    destruct (Hfr1 [(userPrefix ++ username')%string; foldersBucket]) as [Hg1 Hb1].
    { intros H%prefix_length. simpl in H. lia. }
    destruct (Hfr1 (user_folder_path username' nm')) as [_ Hb2].
    { intros [[|? ?] H]; [|done]. rewrite app_nil_r in H. by apply Hne. }
    split; [done|done|by rewrite Hb1|by rewrite Hb2|by rewrite Hg1]. }
  destruct (initialize_new mk' username' nm' w1 Hv1) as (w2 & Hg & Hi2 & Hr2 & Hfr2 & _).
  eexists _, w1, _, w2. split; [exact Hf|]. split; [exact Hg|].
  apply run_two_step; [| |done|done|simpl; lia..].
  - destruct Hi2. split; [done..|]. simpl.
    by apply (db_rep_frame (db w1) (db w2) (user_folder_path username' nm')); [| | |apply not_eq_sym].
  - by destruct Hi2.
Qed.

(** [LastID] does not return the highest identifiers: the loop skips a
    message when the last identifier recorded for its suffix exceeds the
    {i suffix} instead of the message's own identifier.  For a folder that
    holds messages 1 to 4 of suffix 2 it returns 3; the contract asks for 4. *)
Theorem folder_LastID_wrong f s a b c d :
  folder_rep f s → fs_msgs s = <[1:=(2, a)]> (<[2:=(2, b)]> (<[3:=(2, c)]> {[4:=(2, d)]})) →
  folder_LastID f = Ok (3, {[2 := 3]}) ∧ spec_LastID s = Ok (4, {[2 := 4]}).
Proof.
  intros Hr Hm. rewrite (folder_LastID_entries f s Hr). unfold spec_LastID. rewrite Hm.
  rewrite <-(entries_unique _ [(1, (2, a)); (2, (2, b)); (3, (2, c)); (4, (2, d))]).
  - split; [vm_compute; reflexivity|reflexivity].
  - repeat constructor.
  - intros id e. rewrite !lookup_insert_Some, lookup_singleton_Some, !elem_of_cons.
    split.
    + intros [[= -> ->]|[[= -> ->]|[[= -> ->]|[[= -> ->]|H%not_elem_of_nil]]]]; [..|done];
        intuition lia.
    + intuition congruence.
Qed.
End properties.

(** ** Witnesses: alice's folders in the model database *)

Import Model EnvModel.

Definition alice : world :=
  World (BTx {[ ["user:alice"]; ["user:alice"; "folders"] ]} ∅) true false 0 0.

Lemma alice_vacant nm : key_ok nm → vacant alice "alice" nm.
Proof.
  intros Hk. split; [done|done|reflexivity| |].
  - change ((bool_decide (["user:alice"; "folders"; nm] ∈ buckets (db alice)) && true) = false).
    rewrite bool_decide_eq_false_2; [done|]. simpl. set_solver.
  - change (lookup_pair (db alice) ["user:alice"; "folders"] nm = None).
    unfold lookup_pair. case_match; [apply lookup_empty|done].
Qed.

Definition key : option string := Some "0123456789abcdef0123456789abcdef"%string.

Definition session : list folder_op :=
  [OpInsertNew (Some "a") 1; OpInsertNew (Some "b") 2; OpDelete 1; OpGet 2; OpGet 1;
   OpInsert 1 (Some "c") 3; OpInsert 1 (Some "d") 3; OpInsert 7 None 1; OpDelete 9].

Lemma folder_refinement_witness :
  ∃ f w', newFolder key "alice" "Inbox" alice = (Ok f, w') ∧
  (run_ops session (BF f w')).1 =
  [OutID (Ok 1); OutID (Ok 2); OutUnit (Ok tt); OutMsg (Ok (2, "b")); OutMsg (Err ErrNotFound);
   OutUnit (Ok tt); OutUnit (Err ErrDuplicateID); OutUnit (Err ErrInvalidID); OutUnit (Err ErrInvalidID)].
Proof.
  destruct (folder_refinement key "alice" "Inbox" alice session) as (f & w' & Hf & H).
  - apply alice_vacant. split; [done|vm_compute; discriminate].
  - unfold session. solve_ops_ok.
  - simpl. lia.
  - exists f, w'. split; [exact Hf|]. destruct (run_ops session (BF f w')) as [outs b].
    destruct (run_ops session (FState 1 ∅)) as [outs' s] eqn:E. destruct H as [-> _].
    vm_compute in E. injection E as <- _. reflexivity.
Defined.

Lemma folder_reopen_witness :
  ∃ f w1, newFolder key "alice" "Inbox" alice = (Ok f, w1) ∧
  (run_ops [OpGet 2; OpNextID] (run_ops session (BF f w1)).2).1 = [OutMsg (Ok (2, "b")); OutID (Ok 3)].
Proof.
  destruct (folder_reopen key "alice" "Inbox" alice session [OpGet 2; OpNextID])
    as (f & w1 & Hf & _ & H).
  - apply alice_vacant. split; [done|vm_compute; discriminate].
  - unfold session. solve_ops_ok.
  - solve_ops_ok.
  - simpl. lia.
  - exists f, w1. split; [exact Hf|]. rewrite H. vm_compute. reflexivity.
Defined.

Lemma folders_independent_witness :
  ∃ f w1 g w2, newFolder key "alice" "Inbox" alice = (Ok f, w1) ∧
    newFolder None "alice" "Outbox" w1 = (Ok g, w2) ∧
  (run_two view_folders upd_folders
    [(true, OpInsertNew (Some "a") 1); (false, OpGet 1); (false, OpInsertNew (Some "b") 2);
     (false, OpDelete 1); (true, OpGet 1)] (f, g, w2)).1 =
  [OutID (Ok 1); OutMsg (Err ErrNotFound); OutID (Ok 1); OutUnit (Ok tt); OutMsg (Ok (1, "a"))].
Proof.
  destruct (folders_independent key None "alice" "alice" "Inbox" "Outbox" alice
    [(true, OpInsertNew (Some "a") 1); (false, OpGet 1); (false, OpInsertNew (Some "b") 2);
     (false, OpDelete 1); (true, OpGet 1)]) as (f & w1 & g & w2 & Hf & Hg & H).
  - apply alice_vacant. split; [done|vm_compute; discriminate].
  - apply alice_vacant. split; [done|vm_compute; discriminate].
  - done.
  - solve_ops_ok.
  - simpl. lia.
  - exists f, w1, g, w2. split; [exact Hf|]. split; [exact Hg|]. rewrite H. vm_compute. reflexivity.
Defined.

Lemma folder_LastID_wrong_witness :
  ∃ f s, folder_rep f s ∧ folder_LastID f = Ok (3, {[2 := 3]}) ∧ spec_LastID s = Ok (4, {[2 := 4]}).
Proof.
  destruct (newFolder_rep key "alice" "Inbox" alice) as (f & w & _ & Hr & _).
  { apply alice_vacant. split; [done|vm_compute; discriminate]. }
  set (ops := [OpInsertNew (Some "a") 2; OpInsertNew (Some "b") 2; OpInsertNew (Some "c") 2;
    OpInsertNew (Some "d") 2]).
  assert (folder_rep (run_ops ops (BF f w)).2 (run_ops ops (FState 1 ∅)).2) as H.
  { apply (run_ops_sim folder_rep); [exact Hr|unfold ops; solve_ops_ok|simpl; lia]. }
  exists (run_ops ops (BF f w)).2, (run_ops ops (FState 1 ∅)).2. split; [exact H|].
  apply (folder_LastID_wrong _ _ "a" "b" "c" "d" H). reflexivity.
Defined.
