(* ===== verification/Folders.v ===== *)
(** * A user's folders ([store/folder.go], type [folders]; [store/db.go])

    The folders of a user are the nested buckets of [user / "folders"]; the
    [folders] object keeps a map from their names to the folder objects
    opened so far ([nil] before the first [Get]).

    Proved: any run of creations, deletions and operations on folders gives
    the results of an abstract store, a map from names to abstract folders;
    [newFolders] finds exactly the folders that are there.  Not true of the
    code: [Rename] can never succeed. *)

From S2P Require Import Prelude Bytes Bolt BoltModel StoreEnv FolderSpec BoltFolder.
Local Open Scope Z_scope.
Local Open Scope list_scope.

Definition usersBucket : string := "users".
Definition usersLatestIDKey : string := "usersLatestIDKey".

Section folders.
Context {BT : Bolt} {EV : Env}.

(** Folder objects are shared by reference: they live in a heap. *)
Record userFolders := UserFolders {
  uf_masterKey : option string;
  uf_username : string;
  uf_bucketID : string;
  uf_folders : gmap string (option nat);
  uf_heap : gmap nat folder;
  uf_world : world;
}.

Definition uf_set_world (w : world) (st : userFolders) : userFolders :=
  UserFolders (uf_masterKey st) (uf_username st) (uf_bucketID st) (uf_folders st) (uf_heap st) w.
Definition uf_set_folders (m : gmap string (option nat)) (st : userFolders) : userFolders :=
  UserFolders (uf_masterKey st) (uf_username st) (uf_bucketID st) m (uf_heap st) (uf_world st).
Definition uf_set_heap (h : gmap nat folder) (st : userFolders) : userFolders :=
  UserFolders (uf_masterKey st) (uf_username st) (uf_bucketID st) (uf_folders st) h (uf_world st).

Definition inw {A} (m : M world A) : M userFolders A := zoom uf_world uf_set_world m.

(** ** Loading the names *)

(** A new user is given the next index. *)
Definition record_user (username bucketID : string) : M world unit :=
  _ ← tx (bucket_CreateBucket [] bucketID);
  _ ← tx (bucket_CreateBucketIfNotExists [] usersBucket);
  _ ← tx (bucket_CreateBucketIfNotExists [] miscBucket);
  v ← tx (bucket_Get [miscBucket] usersLatestIDKey);
  latest ← lift (Uint64 (default EmptyString v));
  let k := be64 (u64 (latest + 1)) in
  _ ← tx (try (bucket_Put [usersBucket] username k));
  _ ← tx (try (bucket_Put [miscBucket] usersLatestIDKey k));
  mret tt.

Definition user_buckets (bucketID : string) (newUser : bool) : M world unit :=
  _ ← tx (bucket_CreateBucketIfNotExists [bucketID] miscBucket);
  _ ← tx (bucket_CreateBucketIfNotExists [bucketID] foldersBucket);
  if newUser then tx (bucket_Put [bucketID; miscBucket] folderNextIDKey (be64 0))
  else mret tt.

Definition initializeFolders_tx (username bucketID : string) : M world unit :=
  user ← tx (bucket_Bucket [] bucketID);
  _ ← (if user then mret tt else record_user username bucketID);
  user_buckets bucketID (negb user).

(** [db.View(func(tx) { return bucket.ForEach(...) })] collecting the keys. *)
Definition bucket_keys (p : path) (w : world) : res (list string) :=
  View (λ t, l ← (bucket_Cursor p t).1; Ok l.*1) w.

(** The database is closed when either transaction fails. *)
Definition initializeFolders (username bucketID : string) : M world (list string) :=
  r ← try (Update (initializeFolders_tx username bucketID));
  match r with
  | inr e => _ ← db_Close; fail e
  | inl _ =>
      r ← try (λ w, (bucket_keys [bucketID; foldersBucket] w, w));
      match r with
      | inr e => _ ← db_Close; fail e
      | inl names => mret names
      end
  end.

Definition newFolders (mk : option string) (username bucketID : string) : M world userFolders :=
  folderNames ← initializeFolders username bucketID;
  λ w, (Ok (UserFolders mk username bucketID
    (foldl (λ m name, <[name := None]> m) ∅ folderNames) ∅ w), w).

(** ** Operations *)

(** Keep a folder object that was just opened. *)
Definition save_folder (nm : string) (f : folder) : M userFolders nat := λ st,
  let l := fresh (dom (uf_heap st)) in
  (Ok l, uf_set_folders (<[nm := Some l]> (uf_folders st)) (uf_set_heap (<[l := f]> (uf_heap st)) st)).

Definition folders_New (nm : string) : M userFolders nat :=
  st ← get;
  match uf_folders st !! nm with
  | Some _ => fail ErrDuplicateMailbox
  | None =>
      f ← inw (newFolder (uf_masterKey st) (uf_username st) nm);
      save_folder nm f
  end.

Definition folders_Get (nm : string) : M userFolders nat :=
  st ← get;
  match uf_folders st !! nm with
  | None => fail ErrNotFound
  | Some (Some flr) => mret flr
  | Some None =>
      f ← inw (newFolder (uf_masterKey st) (uf_username st) nm);
      save_folder nm f
  end.

Definition folders_Names (st : userFolders) : list string := (map_to_list (uf_folders st)).*1.

Definition folders_Delete (nm : string) : M userFolders unit :=
  st ← get;
  _ ← inw (Update (tx (
    user ← bucket_Bucket [] (uf_bucketID st);
    if negb user then fail ErrNotFound
    else bucket_DeleteBucket [uf_bucketID st; foldersBucket] nm)));
  modify (λ st, uf_set_folders (delete nm (uf_folders st)) st).

Definition folders_Rename (nm newname : string) : M userFolders unit :=
  st ← get;
  let bucketID := uf_bucketID st in
  _ ← inw (Update (
    user ← tx (bucket_Bucket [] bucketID);
    if negb user then fail ErrNotFound
    else
      oldBucket ← tx (bucket_Bucket [bucketID; foldersBucket] nm);
      if negb oldBucket then fail ErrNotFound
      else
        new ← tx (bucket_Bucket [bucketID] newname);
        if (new : bool) then fail ErrDuplicateID
        else
          _ ← newFolder (uf_masterKey st) (uf_username st) newname;
          l ← tx (bucket_Cursor [bucketID; foldersBucket; nm]);
          _ ← tx (mfor l (λ '(k, v),
                _ ← try (bucket_Put [bucketID; newname] k (default EmptyString v)); mret tt));
          tx (bucket_DeleteBucket [bucketID; foldersBucket] nm)));
  modify (λ st, uf_set_folders (delete nm (uf_folders st)) st).

(** A call on a folder object. *)
Definition with_folder {A} (l : nat) (m : M bfolder A) : M userFolders A := λ st,
  match uf_heap st !! l with
  | None => (Panic, st)
  | Some f =>
      let '(r, b) := m (BF f (uf_world st)) in
      (r, uf_set_world (wld b) (uf_set_heap (<[l := this b]> (uf_heap st)) st))
  end.
End folders.

(** ** The abstract store: names to abstract folders *)

Inductive folders_op :=
  | FoNew (nm : string)
  | FoDelete (nm : string)
  | FoDo (nm : string) (op : folder_op).

Inductive folders_out :=
  | OutNew (r : res unit)
  | OutDelete (success : bool)
  | OutDo (r : res folder_out).

Abbreviation afolders := (gmap string fstate) (only parsing).

Definition spec_folders (op : folders_op) (a : afolders) : folders_out * afolders :=
  match op with
  | FoNew nm =>
      match a !! nm with
      | Some _ => (OutNew (Err ErrDuplicateMailbox), a)
      | None =>
          if bool_decide (nm = EmptyString)
          then (OutNew (Err (ErrNew "Folder name cannot be empty.")), a)
          else (OutNew (Ok tt), <[nm := FState 1 ∅]> a)
      end
  | FoDelete nm => (OutDelete (bool_decide (is_Some (a !! nm))), delete nm a)
  | FoDo nm op =>
      match a !! nm with
      | None => (OutDo (Err ErrNotFound), a)
      | Some s => let '(o, s) := run_op op s in (OutDo (Ok o), <[nm := s]> a)
      end
  end.

Definition folders_op_ok (op : folders_op) : Prop :=
  match op with
  | FoNew nm => Z.of_nat (String.length nm) ≤ 32768
  | FoDelete _ => True
  | FoDo _ op => op_ok op
  end.

Fixpoint run_seq {Op Out St} (step : Op → St → Out * St) (ops : list Op) (st : St) : list Out * St :=
  match ops with
  | [] => ([], st)
  | op :: ops =>
      let '(o, st) := step op st in
      let '(os, st) := run_seq step ops st in (o :: os, st)
  end.

Section folders_refinement.
Context {BT : Bolt} {EV : Env} {BL : BoltLaws} {EL : EnvLaws}.

Definition do_folders (op : folders_op) (st : userFolders) : folders_out * userFolders :=
  match op with
  | FoNew nm => let '(r, st) := folders_New nm st in (OutNew (res_map (λ _, tt) r), st)
  | FoDelete nm => let '(r, st) := folders_Delete nm st in (OutDelete (is_Ok r), st)
  | FoDo nm op =>
      let '(r, st) := (l ← folders_Get nm; with_folder l (λ b, let '(o, b) := run_op op b in (Ok o, b))) st
      in (OutDo r, st)
  end.

Record folders_rep (st : userFolders) (a : afolders) : Prop := {
  fo_idle : idle (uf_world st);
  fo_id : uf_bucketID st = (userPrefix ++ uf_username st)%string;
  fo_bucket : tx_Bucket (db (uf_world st)) [uf_bucketID st; foldersBucket] = true;
  fo_misc : tx_Bucket (db (uf_world st)) [uf_bucketID st; miscBucket] = true;
  fo_pairs nm : tx_Get (db (uf_world st)) [uf_bucketID st; foldersBucket] nm = None;
  fo_dom nm : is_Some (uf_folders st !! nm) ↔ is_Some (a !! nm);
  fo_buckets nm : tx_Bucket (db (uf_world st)) [uf_bucketID st; foldersBucket; nm] = true → is_Some (a !! nm);
  fo_rep nm s : a !! nm = Some s → nm ≠ EmptyString ∧
    db_rep (db (uf_world st)) (user_folder_path (uf_username st) nm) (uf_masterKey st) s;
  fo_loaded nm l : uf_folders st !! nm = Some (Some l) → ∃ s, a !! nm = Some s ∧
    uf_heap st !! l = Some (MkFolder (uf_masterKey st) (uf_bucketID st) (fs_next s) nm);
}.

(** What else an operation may change: nothing outside the buckets of the
    user; it reads the clock once when it creates a folder. *)
Definition folders_reads (o : folders_out) : nat := match o with OutNew (Ok _) => 1 | _ => 0 end.
Definition others_kept (st st' : userFolders) (o : folders_out) : Prop :=
  frame [uf_bucketID st] (db (uf_world st)) (db (uf_world st')) ∧
  ticks (uf_world st') = (folders_reads o + ticks (uf_world st))%nat.

Lemma others_kept_refl st o : folders_reads o = 0%nat → others_kept st st o.
Proof. intros H. split; [apply frame_refl|]. by rewrite H. Qed.

(** A change inside one folder is inside the user's bucket. *)
Lemma frame_user u nm t t' : frame (user_folder_path u nm) t t' → frame [(userPrefix ++ u)%string] t t'.
Proof. intros Hf q Hq. apply Hf. intros Hp. apply Hq. etrans; [|exact Hp]. by exists [foldersBucket; nm]. Qed.

Lemma fo_not_bucket st a nm : folders_rep st a → a !! nm = None →
  tx_Bucket (db (uf_world st)) [uf_bucketID st; foldersBucket; nm] = false.
Proof.
  intros Hr Ha. destruct (tx_Bucket _ _) eqn:E; [|done].
  apply (fo_buckets _ _ Hr) in E as [? ?]. congruence.
Qed.

Lemma fo_none st a nm : folders_rep st a → a !! nm = None → uf_folders st !! nm = None.
Proof.
  intros Hr Ha. destruct (uf_folders st !! nm) as [o|] eqn:E; [|done].
  destruct (proj1 (fo_dom _ _ Hr nm)) as [? ?]; [by rewrite E|congruence].
Qed.

Lemma path_not_prefix u nm nm' : nm ≠ nm' →
  ¬ user_folder_path u nm `prefix_of` user_folder_path u nm'.
Proof.
  intros Hne [r Hr]. unfold user_folder_path in Hr. simpl in Hr.
  injection Hr as Hn _. by apply Hne.
Qed.

Lemma dir_not_prefix u nm d : ¬ user_folder_path u nm `prefix_of` [(userPrefix ++ u)%string; d].
Proof. intros H%prefix_length. simpl in H. lia. Qed.

(** What [save_folder] needs: the object is that of the folder. *)
Lemma save_folder_rep st a nm s : folders_rep st a → a !! nm = Some s →
  let f := MkFolder (uf_masterKey st) (uf_bucketID st) (fs_next s) nm in
  ∃ l st', save_folder nm f st = (Ok l, st') ∧ folders_rep st' a ∧ uf_heap st' !! l = Some f ∧
    uf_folders st' !! nm = Some (Some l) ∧ uf_world st' = uf_world st ∧ uf_username st' = uf_username st ∧
    uf_masterKey st' = uf_masterKey st ∧ uf_bucketID st' = uf_bucketID st.
Proof.
  intros Hr Ha f. eexists _, _. split; [reflexivity|].
  pose proof (is_fresh (dom (uf_heap st))) as Hfresh. apply not_elem_of_dom in Hfresh.
  set (l := fresh (dom (uf_heap st))) in *. split; [|by simpl; rewrite !lookup_insert_eq].
  destruct Hr as [Hi Hid Hb Hmi Hp Hd Hbs Hrp Hl]. split; simpl; try done.
  - intros nm'. rewrite lookup_insert_is_Some', Hd. split; [intros [<-|?]; eauto|tauto].
  - intros nm' l'. rewrite lookup_insert_Some. intros [[<- [= <-]]|[Hne Hl']].
    + exists s. by rewrite lookup_insert_eq.
    + destruct (Hl _ _ Hl') as (s' & Ha' & Hh). exists s'. split; [done|].
      rewrite lookup_insert_ne; [done|]. intros ->. congruence.
Qed.

(** The rest of the directory, after the world changed inside the folder [nm]. *)
Lemma folders_rep_frame st a nm w' :
  folders_rep st a → frame (user_folder_path (uf_username st) nm) (db (uf_world st)) (db w') →
  (∀ nm' s', nm' ≠ nm → a !! nm' = Some s' →
    db_rep (db w') (user_folder_path (uf_username st) nm') (uf_masterKey st) s') ∧
  tx_Bucket (db w') [uf_bucketID st; foldersBucket] = true ∧
  tx_Bucket (db w') [uf_bucketID st; miscBucket] = true ∧
  (∀ k, tx_Get (db w') [uf_bucketID st; foldersBucket] k = None) ∧
  (∀ nm', nm' ≠ nm → tx_Bucket (db w') [uf_bucketID st; foldersBucket; nm'] = true → is_Some (a !! nm')).
Proof.
  intros [Hi Hid Hb Hmi Hp Hd Hbs Hrp Hl] Hf.
  destruct (Hf _ (dir_not_prefix (uf_username st) nm foldersBucket)) as [Hg Hb'].
  destruct (Hf _ (dir_not_prefix (uf_username st) nm miscBucket)) as [_ Hmi'].
  rewrite <-Hid in Hg, Hb', Hmi'. split; [|split; [|split; [|split]]].
  - intros nm' s' Hn Ha. destruct (Hrp _ _ Ha) as [_ Hs'].
    apply (db_rep_frame _ _ _ _ _ _ Hs' Hf); [done|]. intros [= E]. by apply Hn.
  - by rewrite Hb'.
  - by rewrite Hmi'.
  - intros k. by rewrite Hg.
  - intros nm' Hn. destruct (Hf (user_folder_path (uf_username st) nm')) as [_ Hb''];
      [by apply path_not_prefix, not_eq_sym|].
    unfold user_folder_path in Hb''. rewrite <-Hid in Hb''. rewrite Hb''. apply Hbs.
Qed.

(** A folder object [f] for [nm] in the world [w'], the rest unchanged. *)
Lemma folders_rep_update st a nm s w' :
  folders_rep st a → idle w' → nm ≠ EmptyString →
  frame (user_folder_path (uf_username st) nm) (db (uf_world st)) (db w') →
  db_rep (db w') (user_folder_path (uf_username st) nm) (uf_masterKey st) s →
  ∀ fs heap, (∀ nm', is_Some (fs !! nm') ↔ nm' = nm ∨ is_Some (uf_folders st !! nm')) →
  (∀ nm' l, fs !! nm' = Some (Some l) → ∃ s', <[nm := s]> a !! nm' = Some s' ∧
     heap !! l = Some (MkFolder (uf_masterKey st) (uf_bucketID st) (fs_next s') nm')) →
  folders_rep (UserFolders (uf_masterKey st) (uf_username st) (uf_bucketID st) fs heap w') (<[nm := s]> a).
Proof.
  intros Hr Hi' Hne Hf Hs fs heap Hfs Hh.
  destruct (folders_rep_frame st a nm w' Hr Hf) as (H1 & H2 & Hm2 & H3 & H4).
  destruct Hr as [Hi Hid Hb Hmi Hp Hd Hbs Hrp Hl]. split; simpl; try done.
  - intros nm'. rewrite Hfs, lookup_insert_is_Some', Hd. intuition congruence.
  - intros nm' Hb'. rewrite lookup_insert_is_Some'. destruct (decide (nm = nm')); [by left|right].
    by apply H4.
  - intros nm' s'. rewrite lookup_insert_Some. intros [[<- <-]|[Hn Ha]]; [done|].
    split; [by eapply Hrp|]. by apply H1.
Qed.

(** *** One step *)

Lemma New_step st a nm :
  folders_rep st a → Z.of_nat (String.length nm) ≤ 32768 →
  let '(o, st') := do_folders (FoNew nm) st in let '(o', a') := spec_folders (FoNew nm) a in
  o = o' ∧ folders_rep st' a' ∧ others_kept st st' o.
Proof.
  intros Hr Hlen. unfold do_folders, spec_folders, folders_New. munfold.
  destruct (a !! nm) as [s|] eqn:Ha.
  { destruct (proj2 (fo_dom _ _ Hr nm)) as [o Ho]; [by rewrite Ha|]. rewrite Ho. split; [done|]. split; [done|by apply others_kept_refl]. }
  rewrite (fo_none _ _ _ Hr Ha). unfold inw, zoom. case_bool_decide as Hnm.
  { unfold newFolder. rewrite bool_decide_eq_true_2 by done. simpl. destruct st. split; [done|]. split; [done|by apply others_kept_refl]. }
  assert (vacant (uf_world st) (uf_username st) nm) as Hv.
  { split; rewrite <-?(fo_id _ _ Hr); [apply Hr|by split|apply Hr| |apply Hr].
    unfold user_folder_path. rewrite <-(fo_id _ _ Hr). by eapply fo_not_bucket. }
  destruct (initialize_new (uf_masterKey st) _ _ _ Hv) as (w' & Hnew & Hi' & Hs & Hf & Ht).
  rewrite Hnew. simpl. split; [done|].
  split; [|split; [rewrite (fo_id _ _ Hr); by eapply frame_user|by simpl]].
  apply (folders_rep_update st a nm (FState 1 ∅) w'); [done..| |].
  - intros nm'. rewrite lookup_insert_is_Some'. intuition.
  - pose proof (is_fresh (dom (uf_heap st))) as Hfr. apply not_elem_of_dom in Hfr.
    intros nm' l. rewrite lookup_insert_Some. intros [[<- [= <-]]|[Hn Hl]].
    + exists (FState 1 ∅). split; [apply lookup_insert_eq|]. simpl.
      rewrite lookup_insert_eq. by rewrite (fo_id _ _ Hr).
    + destruct (fo_loaded _ _ Hr _ _ Hl) as (s' & Ha' & Hh). exists s'.
      split; [by rewrite lookup_insert_ne|]. simpl.
      rewrite lookup_insert_ne; [done|]. intros <-. congruence.
Qed.

(** [Get] gives an object of the folder and changes nothing else. *)
Lemma Get_step st a nm s :
  folders_rep st a → a !! nm = Some s →
  ∃ l st', folders_Get nm st = (Ok l, st') ∧ folders_rep st' a ∧
    uf_heap st' !! l = Some (MkFolder (uf_masterKey st') (uf_bucketID st') (fs_next s) nm) ∧
    uf_folders st' !! nm = Some (Some l) ∧ uf_world st' = uf_world st ∧ uf_bucketID st' = uf_bucketID st.
Proof.
  intros Hr Ha. unfold folders_Get. munfold.
  destruct (proj2 (fo_dom _ _ Hr nm)) as [[l|] Ho]; [by rewrite Ha| |]; rewrite Ho.
  - exists l, st. split; [done|]. split; [done|]. split; [|by split].
    destruct (fo_loaded _ _ Hr _ _ Ho) as (s' & Ha' & Hh). congruence.
  - destruct (fo_rep _ _ Hr _ _ Ha) as [Hne Hs]. unfold inw, zoom.
    rewrite (initialize_existing _ _ _ _ s) by (done || apply Hr).
    replace (uf_set_world (uf_world st) st) with st by (by destruct st).
    rewrite <-(fo_id _ _ Hr).
    destruct (save_folder_rep st a nm s Hr Ha) as (l & st' & Hsv & Hr' & Hh & Hf & Hw & _ & Hk & Hb).
    exists l, st'. by rewrite Hk, Hb, Hw.
Qed.

Lemma Do_step st a nm op :
  folders_rep st a → op_ok op → (∀ s, a !! nm = Some s → fs_next s + 1 < 2 ^ 64) →
  let '(o, st') := do_folders (FoDo nm op) st in let '(o', a') := spec_folders (FoDo nm op) a in
  o = o' ∧ folders_rep st' a' ∧ others_kept st st' o.
Proof.
  intros Hr Hok Hlt. unfold do_folders, spec_folders. munfold. destruct (a !! nm) as [s|] eqn:Ha.
  2:{ unfold folders_Get. munfold. rewrite (fo_none _ _ _ Hr Ha). split; [done|]. split; [done|by apply others_kept_refl]. }
  destruct (Get_step st a nm s Hr Ha) as (l & st1 & -> & Hr1 & Hh & Hf & Hw1 & Hb1).
  unfold others_kept. rewrite <-Hw1, <-Hb1. clear Hr Hw1 Hb1 st.
  unfold with_folder. rewrite Hh. set (f := MkFolder _ _ _ _).
  destruct (fo_rep _ _ Hr1 _ _ Ha) as [Hne Hs].
  assert (folder_path f = user_folder_path (uf_username st1) nm) as Hp.
  { unfold f, folder_path, user_folder_path. simpl. by rewrite (fo_id _ _ Hr1). }
  assert (folder_rep (BF f (uf_world st1)) s) as Hfr.
  { destruct (fo_idle _ _ Hr1). split; [done..|]. simpl. by rewrite Hp. }
  pose proof (run_op_step op _ _ Hfr Hok (Hlt s eq_refl)) as H.
  pose proof (run_op_ticks op (BF f (uf_world st1))) as Hticks.
  destruct (run_op op (BF f (uf_world st1))) as [o [f' w']], (run_op op s) as [o' s'].
  destruct H as (-> & [Ho' Hw' Hn' Hd'] & Hframe & Hp' & Hk'). simpl in *.
  rewrite Hp', Hk', Hp in *. split; [done|].
  split; [|split; [rewrite (fo_id _ _ Hr1); by eapply frame_user|done]].
  apply (folders_rep_update st1 a nm s' w'); [done..| |].
  - intros nm'. simpl. split; [tauto|]. intros [->|?]; [by rewrite Hf|done].
  - simpl. intros nm' l' Hl'. destruct (fo_loaded _ _ Hr1 _ _ Hl') as (s1 & Ha1 & Hh1).
    destruct (decide (nm' = nm)) as [->|Hn].
    + assert (l' = l) as -> by congruence. exists s'. rewrite !lookup_insert_eq. split; [done|].
      destruct f'. unfold folder_path, user_folder_path in Hp'. simpl in *. rewrite (fo_id _ _ Hr1). by simplify_eq.
    + exists s1. rewrite lookup_insert_ne by done. split; [done|].
      rewrite lookup_insert_ne; [done|]. intros <-. rewrite Hh in Hh1. by simplify_eq.
Qed.

Lemma Delete_folder_step st a nm :
  folders_rep st a →
  let '(o, st') := do_folders (FoDelete nm) st in let '(o', a') := spec_folders (FoDelete nm) a in
  o = o' ∧ folders_rep st' a' ∧ others_kept st st' o.
Proof.
  intros Hr. unfold do_folders, spec_folders, folders_Delete. munfold. unfold inw, zoom.
  destruct (fo_idle _ _ Hr) as [Ho Hw]. rewrite Update_tx by done. simpl.
  pose proof (fo_bucket _ _ Hr) as Hb.
  assert (tx_Bucket (db (uf_world st)) [uf_bucketID st] = true) as Hu
    by exact (parent_Bucket _ [uf_bucketID st] foldersBucket Hb).
  rewrite bucket_Bucket_ok by (by apply root_Bucket in Hb). simpl. rewrite Hu. simpl.
  unfold bucket_DeleteBucket. rewrite on_bucket_ok by done.
  destruct (a !! nm) as [s|] eqn:Ha.
  - destruct (fo_rep _ _ Hr _ _ Ha) as [Hne [_ _ Hms]]. pose proof (mr_bucket _ _ _ _ Hms) as Hbn.
    unfold user_folder_path in Hbn. rewrite <-(fo_id _ _ Hr) in Hbn.
    destruct (DeleteBucket_ok (db (uf_world st)) [uf_bucketID st; foldersBucket] nm Hbn)
      as (t' & -> & Hg & Hbk). simpl. split; [done|].
    change ([uf_bucketID st; foldersBucket; nm]) with ([uf_bucketID st; foldersBucket] ++ [nm]) in *.
    set (P := [uf_bucketID st; foldersBucket] ++ [nm]) in *.
    assert (P = user_folder_path (uf_username st) nm) as HP.
    { unfold P, user_folder_path. by rewrite (fo_id _ _ Hr). }
    assert (frame (user_folder_path (uf_username st) nm) (db (uf_world st)) t') as Hf.
    { rewrite <-HP. intros q Hq. split.
      - intros k. by rewrite Hg, decide_False.
      - apply eq_true_iff_eq. rewrite Hbk. tauto. }
    destruct (folders_rep_frame st a nm (set_db t' (uf_world st)) Hr Hf) as (H1 & H2 & Hm2 & H3 & H4).
    split; [|split; [rewrite (fo_id _ _ Hr); by eapply frame_user|done]].
    split; simpl; try done.
    + apply Hr.
    + intros nm'. rewrite !lookup_delete_is_Some. by rewrite (fo_dom _ _ Hr).
    + intros nm' Hb'. rewrite lookup_delete_is_Some. assert (nm ≠ nm') as Hn.
      { intros <-. apply Hbk in Hb' as [Hb' _]. by apply Hb'. }
      split; [done|]. apply H4; [by apply not_eq_sym|done].
    + intros nm' s' [Hn Ha']%lookup_delete_Some. split; [by apply (fo_rep _ _ Hr) in Ha' as []|].
      apply H1; [by apply not_eq_sym|done].
    + intros nm' l [Hn Hl]%lookup_delete_Some. destruct (fo_loaded _ _ Hr _ _ Hl) as (s' & Ha' & Hh).
      exists s'. by rewrite lookup_delete_ne.
  - destruct (DeleteBucket_missing (db (uf_world st)) [uf_bucketID st; foldersBucket] nm)
      as [e ->]; [by eapply fo_not_bucket|]. simpl.
    split; [done|].
    split; [|split; [apply frame_refl|done]]. rewrite delete_id by done. by destruct st.
Qed.

(** *** Runs *)

Lemma do_folders_step op st a n :
  folders_rep st a → folders_op_ok op → 0 < n →
  (∀ nm s, a !! nm = Some s → fs_next s + n < 2 ^ 64) → 1 + n < 2 ^ 64 →
  let '(o, st') := do_folders op st in let '(o', a') := spec_folders op a in
  o = o' ∧ (folders_rep st' a' ∧ others_kept st st' o) ∧ ∀ nm s, a' !! nm = Some s → fs_next s + (n - 1) < 2 ^ 64.
Proof.
  intros Hr Hok Hn Hlt Hn1.
  assert (∀ a' : afolders, (∀ nm s, a' !! nm = Some s → fs_next s ≤ 2 ∨
     ∃ s0, a !! nm = Some s0 ∧ fs_next s ≤ fs_next s0 + 1) →
    ∀ nm s, a' !! nm = Some s → fs_next s + (n - 1) < 2 ^ 64) as Hb.
  { intros a' H nm s Hs. destruct (H nm s Hs) as [?|(s0 & Hs0 & ?)]; [lia|].
    specialize (Hlt _ _ Hs0). lia. }
  destruct op as [nm|nm|nm op].
  - pose proof (New_step st a nm Hr Hok) as H. destruct (do_folders (FoNew nm) st) as [o st'].
    assert (∀ nm' s, (spec_folders (FoNew nm) a).2 !! nm' = Some s → fs_next s ≤ 2 ∨
      ∃ s0, a !! nm' = Some s0 ∧ fs_next s ≤ fs_next s0 + 1) as Hx.
    { intros nm' s. simpl. destruct (a !! nm); [right; exists s; split; [done|lia]|].
      case_bool_decide; [right; exists s; split; [done|lia]|]. simpl. rewrite lookup_insert_Some.
      intros [[_ <-]|[_ ?]]; [by left|right; exists s; split; [done|lia]]. }
    destruct (spec_folders (FoNew nm) a) as [o' a']. destruct H. eauto.
  - pose proof (Delete_folder_step st a nm Hr) as H. destruct (do_folders (FoDelete nm) st) as [o st'].
    simpl in *. destruct H as (? & ? & ?). split; [done|]. split; [done|]. apply Hb.
    intros nm' s [_ ?]%lookup_delete_Some. right. exists s. split; [done|lia].
  - pose proof (Do_step st a nm op Hr Hok) as H. destruct (do_folders (FoDo nm op) st) as [o st'].
    assert (∀ nm' s, (spec_folders (FoDo nm op) a).2 !! nm' = Some s → fs_next s ≤ 2 ∨
      ∃ s0, a !! nm' = Some s0 ∧ fs_next s ≤ fs_next s0 + 1) as Hx.
    { intros nm' s. simpl. destruct (a !! nm) as [s0|] eqn:Ha; [|right; exists s; split; [done|lia]].
      pose proof (fs_next_run_op op s0) as Hr0. destruct (run_op op s0) as [o0 s1]. simpl in *.
      rewrite lookup_insert_Some. intros [[<- <-]|[_ ?]]; right; eauto with lia. }
    destruct (spec_folders (FoDo nm op) a) as [o' a']. destruct H; [|by eauto].
    intros s Hs. specialize (Hlt _ _ Hs). lia.
Qed.

Lemma do_folders_run ops st a m :
  folders_rep st a → Forall folders_op_ok ops → 0 ≤ m → 1 + Z.of_nat (length ops) + m < 2 ^ 64 →
  (∀ nm s, a !! nm = Some s → fs_next s + (Z.of_nat (length ops) + m) < 2 ^ 64) →
  let '(os, st') := run_seq do_folders ops st in let '(os', a') := run_seq spec_folders ops a in
  os = os' ∧ folders_rep st' a' ∧ ∀ nm s, a' !! nm = Some s → fs_next s + m < 2 ^ 64.
Proof.
  revert st a; induction ops as [|op ops IH]; intros st a Hr Hok Hm Hlen Hlt; [done|].
  apply Forall_cons in Hok as [Hop Hops]. cbn [run_seq length] in *.
  pose proof (do_folders_step op st a (Z.of_nat (S (length ops)) + m) Hr Hop ltac:(lia) Hlt ltac:(lia)) as H.
  destruct (do_folders op st) as [o st'], (spec_folders op a) as [o' a'].
  destruct H as (-> & [Hr' _] & Hlt'). specialize (IH st' a' Hr' Hops Hm ltac:(lia)).
  destruct (run_seq do_folders ops st'), (run_seq spec_folders ops a').
  destruct IH as (-> & ? & ?); [|done]. intros nm s Hs. specialize (Hlt' _ _ Hs). lia.
Qed.

(** The user of a [folders] object does not change. *)
Definition same_user (st st' : userFolders) : Prop :=
  uf_masterKey st' = uf_masterKey st ∧ uf_username st' = uf_username st ∧ uf_bucketID st' = uf_bucketID st.

Lemma do_folders_user op st : same_user st (do_folders op st).2.
Proof.
  destruct op as [nm|nm|nm op]; simpl; unfold folders_New, folders_Get, folders_Delete, with_folder,
    save_folder, inw; munfold; repeat (case_match; simplify_eq/=; try done).
Qed.

Lemma run_folders_user ops st : same_user st (run_seq do_folders ops st).2.
Proof.
  revert st; induction ops as [|op ops IH]; intros st; [done|]. cbn [run_seq].
  pose proof (do_folders_user op st) as (H1 & H2 & H3). destruct (do_folders op st) as [o st'].
  specialize (IH st') as (H4 & H5 & H6). destruct (run_seq do_folders ops st'). unfold same_user in *.
  simpl in *. split; [|split]; congruence.
Qed.
End folders_refinement.

(** ** Loading *)

Section loading.
Context {BT : Bolt} {EV : Env} {BL : BoltLaws} {EL : EnvLaws}.

Lemma elem_of_names (l : list string) nm :
  is_Some (foldl (λ (m : gmap string (option nat)) name, <[name := None]> m) ∅ l !! nm) ↔ nm ∈ l.
Proof.
  induction l as [|x l IH] using rev_ind.
  - simpl. rewrite lookup_empty. split; [by intros []|by intros ?%not_elem_of_nil].
  - rewrite foldl_app. simpl. rewrite lookup_insert_is_Some', IH, elem_of_app, list_elem_of_singleton.
    intuition congruence.
Qed.

Lemma names_None (l : list string) nm o :
  foldl (λ (m : gmap string (option nat)) name, <[name := None]> m) ∅ l !! nm = Some o → o = None.
Proof.
  induction l as [|x l IH] using rev_ind; [simpl; by rewrite lookup_empty|].
  rewrite foldl_app. simpl. rewrite lookup_insert_Some. intros [[_ <-]|[_ ?]]; auto.
Qed.

(** A user's buckets and what they hold, as the process that opens them
    finds them. *)
Record user_db (w : world) mk username (a : afolders) : Prop := {
  ud_rep : folders_rep (UserFolders mk username (userPrefix ++ username)%string
    ((λ _, None) <$> a) ∅ w) a;
}.

Lemma folders_rep_user_db st a :
  folders_rep st a → user_db (uf_world st) (uf_masterKey st) (uf_username st) a.
Proof.
  intros [Hi Hid Hb Hmi Hp Hd Hbs Hrp Hl]. split. rewrite <-Hid. split; simpl; try done.
  - intros nm. by rewrite lookup_fmap, fmap_is_Some.
  - intros nm l. rewrite lookup_fmap. by destruct (a !! nm).
Qed.

Lemma user_db_names w mk username a nm o : user_db w mk username a →
  (nm, o) ∈ tx_Cursor (db w) [(userPrefix ++ username)%string; foldersBucket] →
  o = None ∧ is_Some (a !! nm).
Proof.
  intros [Hr] He. apply Cursor_elem in He. destruct o as [v|].
  - pose proof (fo_pairs _ _ Hr nm) as Hp. simpl in Hp. congruence.
  - split; [done|]. by apply (fo_buckets _ _ Hr).
Qed.

(** Opening the folders of a user that exists finds all of them. *)
Lemma newFolders_existing w mk username a :
  user_db w mk username a →
  ∃ st, newFolders mk username (userPrefix ++ username)%string w = (Ok st, w) ∧
    folders_rep st a ∧ (∀ nm, is_Some (uf_folders st !! nm) ↔ is_Some (a !! nm)).
Proof.
  intros Hud. pose proof (ud_rep _ _ _ _ Hud) as Hr. set (u := (userPrefix ++ username)%string) in *.
  destruct (fo_idle _ _ Hr) as [Ho Hw]. pose proof (fo_bucket _ _ Hr) as Hb. pose proof (fo_misc _ _ Hr) as Hm.
  simpl in Ho, Hw, Hb, Hm.
  assert (tx_Bucket (db w) [u] = true) as Hu by exact (parent_Bucket _ [u] foldersBucket Hb).
  assert (set_writing false (set_writing true w) = w) as Hsw by (destruct w; simpl in *; by subst).
  assert (initializeFolders username u w =
    (Ok (tx_Cursor (db w) [u; foldersBucket]).*1, w)) as Hinit.
  { unfold initializeFolders, Update. munfold. rewrite Ho, Hw. cbn [negb].
    unfold initializeFolders_tx, user_buckets. munfold. unfold tx, zoom.
    change (db (set_writing true w)) with (db w).
    rewrite bucket_Bucket_ok by (by apply root_Bucket in Hb). cbn [app]. rewrite Hu.
    change (db (set_db (db w) (set_writing true w))) with (db w).
    unfold bucket_CreateBucketIfNotExists. rewrite on_bucket_ok by done. cbn [app]. rewrite Hm. simpl.
    rewrite on_bucket_ok by done. cbn [app]. rewrite Hb. simpl.
    unfold bucket_keys, View, bucket_Cursor. simpl. rewrite Ho. simpl. rewrite on_bucket_ok by done. simpl.
    unfold set_writing, set_db. simpl. destruct w; simpl in *; by subst. }
  eexists. split; [unfold newFolders; munfold; by rewrite Hinit|].
  assert (∀ nm, nm ∈ (tx_Cursor (db w) [u; foldersBucket]).*1 ↔ is_Some (a !! nm)) as Hnames.
  { intros nm. rewrite list_elem_of_fmap. split.
    - intros ([nm' o] & -> & He). by apply (user_db_names w mk username a nm' o Hud) in He as [_ ?].
    - intros [s Ha]. exists (nm, None). split; [done|]. apply Cursor_bucket.
      destruct (fo_rep _ _ Hr _ _ Ha) as [_ [_ _ Hms]]. apply (mr_bucket _ _ _ _ Hms). }
  split; simpl; [|intros nm; by rewrite elem_of_names].
  destruct Hr as [Hi Hid Hb' Hmi Hp Hd Hbs Hrp Hl]. split; simpl; try done.
  - intros nm. by rewrite elem_of_names.
  - intros nm l H. by apply names_None in H.
Qed.

(** The object made is that of the user it was asked for. *)
Lemma newFolders_shape mk username bucketID w st w' :
  newFolders mk username bucketID w = (Ok st, w') →
  uf_masterKey st = mk ∧ uf_username st = username ∧ uf_bucketID st = bucketID ∧ uf_world st = w'.
Proof.
  unfold newFolders. munfold. destruct (initializeFolders username bucketID w) as [[]]; [|done..].
  by intros [= <- <-].
Qed.

(** A store that does not know the user yet. *)
Record fresh_user (w : world) (username : string) (n : Z) : Prop := {
  fu_idle : idle w;
  fu_id : is_u64 n;
  fu_key : key_ok username ∧ key_ok (userPrefix ++ username)%string;
  fu_latest : tx_Get (db w) [miscBucket] usersLatestIDKey = Some (be64 n);
  fu_users : tx_Bucket (db w) [usersBucket] = true;
  fu_user : tx_Bucket (db w) [usersBucket; username] = false;
  fu_free : tx_Bucket (db w) [(userPrefix ++ username)%string] = false;
  fu_pair : tx_Get (db w) [] (userPrefix ++ username)%string = None;
}.

(** Outside the buckets of the user, only its index is written. *)
Definition user_created (username : string) (t t' : Tx) : Prop :=
  ∀ q, ¬ [(userPrefix ++ username)%string] `prefix_of` q →
    tx_Bucket t' q = tx_Bucket t q ∧
    ∀ k, q ≠ [usersBucket] → (q, k) ≠ ([miscBucket], usersLatestIDKey) → tx_Get t' q k = tx_Get t q k.

Lemma record_user_ok w username n :
  fresh_user w username n → let u := (userPrefix ++ username)%string in let v := be64 (u64 (n + 1)) in
  ∀ w', db w' = db w →
  ∃ t, record_user username u w' = (Ok tt, set_db t w') ∧ tx_Bucket t [u] = true ∧
    (∀ k, tx_Bucket t [u; k] = false) ∧ (∀ k, tx_Get t [u] k = None) ∧
    tx_Get t [usersBucket] username = Some v ∧ tx_Get t [miscBucket] usersLatestIDKey = Some v ∧
    user_created username (db w) t.
Proof.
  intros [_ Hn [Hkn Hku] Hl Hus Hunm Hfree Hpair] u v w' Hw'. fold u in Hku, Hfree, Hpair.
  pose proof (root_Bucket _ _ Hus) as Hroot. destruct (Get_Bucket _ _ _ _ Hl) as [Hm Hml].
  destruct (CreateBucket_ok (db w) [] u Hroot Hku Hfree Hpair) as (t1 & E1 & Hg1 & Hb1).
  pose proof (create_nested (db w) [] u t1 Hfree Hb1) as Hn1. simpl in Hb1, Hn1, Hml.
  assert (∀ q, tx_Bucket (db w) q = true → tx_Bucket t1 q = true) as Hmono by (intros; apply Hb1; by right).
  assert (∀ q, length q = 2%nat → tx_Bucket (db w) q = false → tx_Bucket t1 q = false) as Hnew.
  { intros q Hq Hf. apply not_true_iff_false. rewrite Hb1. intros [->|?]; [done|congruence]. }
  assert (key_ok usersLatestIDKey) as Hkl by (split; [done|vm_compute; discriminate]).
  assert (value_ok v) as Hv by (unfold value_ok, v; rewrite be_length_64; lia).
  destruct (Put_ok t1 [usersBucket] username v (Hmono _ Hus) Hkn Hv) as (t2 & E2 & Hg2 & Hb2); [by apply Hnew|].
  assert (tx_Bucket t2 [miscBucket] = true) as Hm2 by (rewrite Hb2; auto).
  destruct (Put_ok t2 [miscBucket] usersLatestIDKey v Hm2 Hkl Hv) as (t3 & E3 & Hg3 & Hb3);
    [by rewrite Hb2; apply Hnew|].
  exists t3. split; [|split; [|split; [|split; [|split; [|split]]]]].
  - unfold record_user. run_step ltac:(apply tx_Ok; unfold bucket_CreateBucket; by rewrite Hw', on_bucket_ok, E1).
    unfold bucket_CreateBucketIfNotExists, bucket_Get, bucket_Put. munfold. unfold tx, zoom. cbn [db set_db].
    rewrite on_bucket_ok by auto. cbn [app]. rewrite (Hmono _ Hus). cbn [db set_db].
    rewrite on_bucket_ok by auto. cbn [app]. rewrite (Hmono _ Hm). cbn [db set_db].
    rewrite on_bucket_ok, Hg1, Hl by auto. change (default EmptyString (Some (be64 n))) with (be64 n).
    rewrite Uint64_be64 by done. fold v. cbn [db set_db]. rewrite on_bucket_ok, E2 by auto. cbn [db set_db].
    by rewrite on_bucket_ok, E3.
  - rewrite Hb3, Hb2. apply Hb1. by left.
  - intros k. rewrite Hb3, Hb2. apply Hn1.
  - intros k. rewrite Hg3, decide_False, Hg2, decide_False, Hg1; [by apply Get_missing| |];
      unfold u; intros [? _]; discriminate.
  - by rewrite Hg3, decide_False, Hg2, decide_True by (done || by intros []).
  - by rewrite Hg3, decide_True.
  - intros q Hq. split.
    + apply eq_true_iff_eq. rewrite Hb3, Hb2, Hb1. split; [intros [->|?]; [by destruct Hq|done]|by right].
    + intros k Hk1 Hk2. rewrite Hg3, decide_False by (by intros [-> ->]).
      by rewrite Hg2, decide_False, Hg1 by (by intros [-> _]).
Qed.

Lemma user_buckets_ok w u :
  tx_Bucket (db w) [u] = true → (∀ k, tx_Bucket (db w) [u; k] = false) → (∀ k, tx_Get (db w) [u] k = None) →
  ∃ t, user_buckets u true w = (Ok tt, set_db t w) ∧ tx_Bucket t [u; foldersBucket] = true ∧
    tx_Bucket t [u; miscBucket] = true ∧ (∀ k, tx_Bucket t [u; foldersBucket; k] = false) ∧
    (∀ k, tx_Get t [u; foldersBucket] k = None) ∧ frame [u] (db w) t.
Proof.
  intros Hu Hn Hg.
  assert (key_ok miscBucket) as Hkm by (split; [done|vm_compute; discriminate]).
  assert (key_ok foldersBucket) as Hkf by (split; [done|vm_compute; discriminate]).
  assert (key_ok folderNextIDKey) as Hkx by (split; [done|vm_compute; discriminate]).
  destruct (CreateBucket_ok (db w) [u] miscBucket Hu Hkm (Hn _) (Hg _)) as (t4 & E4 & Hg4 & Hb4).
  pose proof (create_nested _ [u] miscBucket t4 (Hn _) Hb4) as Hn4. simpl in Hb4, Hn4.
  assert (tx_Bucket t4 [u] = true) as Hu4 by (apply Hb4; by right).
  assert (tx_Bucket t4 [u; foldersBucket] = false) as Hf4.
  { apply not_true_iff_false. rewrite Hb4, Hn. intros [?|?]; discriminate. }
  destruct (CreateBucket_ok t4 [u] foldersBucket Hu4 Hkf Hf4) as (t5 & E5 & Hg5 & Hb5); [by rewrite Hg4|].
  pose proof (create_nested t4 [u] foldersBucket t5 Hf4 Hb5) as Hn5. simpl in Hb5, Hn5.
  assert (tx_Bucket t5 [u; miscBucket] = true) as Hm5 by (apply Hb5; right; apply Hb4; by left).
  destruct (Put_ok t5 [u; miscBucket] folderNextIDKey (be64 0) Hm5 Hkx) as (t6 & E6 & Hg6 & Hb6).
  { unfold value_ok. rewrite be_length_64. lia. }
  { simpl. apply not_true_iff_false. rewrite Hb5, Hn4. intros [?|?]; discriminate. }
  exists t6. split; [|split; [|split; [|split; [|split]]]].
  - unfold user_buckets, bucket_CreateBucketIfNotExists, bucket_Put. munfold. unfold tx, zoom.
    rewrite on_bucket_ok by done. cbn [app]. rewrite Hn, E4. cbn [db set_db]. rewrite on_bucket_ok by done.
    cbn [app]. rewrite Hf4, E5. cbn [db set_db]. by rewrite on_bucket_ok, E6.
  - rewrite Hb6. apply Hb5. by left.
  - by rewrite Hb6.
  - intros k. rewrite Hb6. apply Hn5.
  - intros k. rewrite Hg6, decide_False by (by intros []). rewrite Hg5, Hg4. apply Get_missing, Hn.
  - intros q Hq. assert (∀ l, q ≠ u :: l) as Hne by (intros l ->; apply Hq; by exists l). split.
    + intros k. rewrite Hg6, decide_False by (intros [-> _]; by eapply Hne). by rewrite Hg5, Hg4.
    + apply eq_true_iff_eq. rewrite Hb6, Hb5, Hb4. simpl.
      pose proof (Hne [foldersBucket]). pose proof (Hne [miscBucket]). tauto.
Qed.

(** Creating the buckets of a user writes the next index under its name. *)
Lemma initializeFolders_tx_new w username n :
  fresh_user w username n → let u := (userPrefix ++ username)%string in
  ∀ w', db w' = db w →
  ∃ t, initializeFolders_tx username u w' = (Ok tt, set_db t w') ∧
    tx_Bucket t [u; foldersBucket] = true ∧ tx_Bucket t [u; miscBucket] = true ∧
    (∀ k, tx_Bucket t [u; foldersBucket; k] = false) ∧ (∀ k, tx_Get t [u; foldersBucket] k = None) ∧
    tx_Get t [usersBucket] username = Some (be64 (u64 (n + 1))) ∧
    tx_Get t [miscBucket] usersLatestIDKey = Some (be64 (u64 (n + 1))) ∧
    user_created username (db w) t.
Proof.
  intros Hfu u w' Hw'. destruct (record_user_ok w username n Hfu w' Hw') as (t1 & E1 & Hu & Hn & Hg & H1 & H2 & Hc).
  destruct (user_buckets_ok (set_db t1 w') u Hu Hn Hg) as (t2 & E2 & Hf & Hm & Hk & Hgf & Hfr). cbn [db set_db] in Hfr.
  assert (¬ [u] `prefix_of` [usersBucket] ∧ ¬ [u] `prefix_of` [miscBucket]) as [Hp1 Hp2]
    by (split; intros H%prefix_cons_inv_1; discriminate).
  exists t2. repeat split; try done.
  - unfold initializeFolders_tx. pose proof (fu_users _ _ _ Hfu) as Hus.
    run_step ltac:(apply tx_same, bucket_Bucket_ok; rewrite Hw'; by eapply root_Bucket). cbn [app].
    pose proof (fu_free _ _ _ Hfu) as Hfree. fold u in Hfree. rewrite Hw', Hfree. run_step ltac:(exact E1). exact E2.
  - by rewrite (proj1 (Hfr _ Hp1)).
  - by rewrite (proj1 (Hfr _ Hp2)).
  - rewrite (proj2 (Hfr _ H)). by apply Hc.
  - intros k Hk1 Hk2. rewrite (proj1 (Hfr _ H)). by apply Hc.
Qed.

Lemma newFolders_new w mk username n :
  fresh_user w username n →
  ∃ st, newFolders mk username (userPrefix ++ username)%string w = (Ok st, uf_world st) ∧
    folders_rep st ∅ ∧ tx_Get (db (uf_world st)) [usersBucket] username = Some (be64 (u64 (n + 1))) ∧
    tx_Get (db (uf_world st)) [miscBucket] usersLatestIDKey = Some (be64 (u64 (n + 1))) ∧
    user_created username (db w) (db (uf_world st)) ∧ ticks (uf_world st) = ticks w.
Proof.
  intros Hfu. destruct (initializeFolders_tx_new w username n Hfu (set_writing true w) eq_refl) as (t & Ht & Hf & Hm & Hk & Hg & H1 & H2 & H3).
  destruct (fu_idle _ _ _ Hfu) as [Ho Hw]. set (u := (userPrefix ++ username)%string) in *.
  assert (tx_Cursor t [u; foldersBucket] = []) as Hc.
  { destruct (tx_Cursor t [u; foldersBucket]) as [|[k o] l] eqn:E; [done|].
    assert ((k, o) ∈ tx_Cursor t [u; foldersBucket]) as He by (rewrite E; apply list_elem_of_here).
    apply Cursor_elem in He. destruct o; [by rewrite Hg in He|]. simpl in He. by rewrite Hk in He. }
  exists (UserFolders mk username u ∅ ∅ (set_db t w)). split.
  - unfold newFolders. munfold. unfold initializeFolders, Update. munfold. rewrite Ho, Hw. cbn [negb].
    rewrite Ht. unfold bucket_keys, View, bucket_Cursor. cbn [set_db set_writing db_open]. rewrite Ho.
    cbn [negb]. rewrite on_bucket_ok by done. cbn. rewrite Hc. cbn.
    unfold set_db, set_writing. cbn. by rewrite Hw.
  - split; [|done]. split; simpl; try done.
    + intros nm. rewrite !lookup_empty. done.
    + intros nm H. by rewrite Hk in H.
Qed.
End loading.

(** ** Calls that cannot succeed inside a transaction *)

Section never.
Context {BT : Bolt} {EV : Env}.

Definition never {A} (m : M world A) : Prop := ∀ w, writing w = true → is_Ok (m w).1 = false.

Lemma never_fail {A} e : never (fail e : M world A).
Proof. done. Qed.

Lemma never_bind {A B} (m : M world A) (k : A → M world B) : never m → never (bind m k).
Proof.
  intros Hm w Hw. specialize (Hm w Hw). munfold. by destruct (m w) as [[] ?].
Qed.

Lemma never_tx {A B} (m : M Tx A) (k : A → M world B) : (∀ a, never (k a)) → never (bind (tx m) k).
Proof.
  intros Hk w Hw. munfold. unfold tx, zoom. destruct (m (db w)) as [[a| | |] t]; [|done..].
  by apply Hk.
Qed.

(** A transaction that cannot succeed fails, and so does what follows. *)
Lemma Update_never {A} (m : M world A) w : never m → is_Ok (Update m w).1 = false.
Proof.
  intros Hm. unfold Update. destruct (db_open w); [|done]. cbn [negb].
  destruct (writing w); [done|]. specialize (Hm (set_writing true w) eq_refl).
  by destruct (m (set_writing true w)) as [[] ?].
Qed.

Lemma inw_never {A B} (m : M world A) (k : A → M userFolders B) st :
  is_Ok (m (uf_world st)).1 = false → is_Ok (bind (inw m) k st).1 = false.
Proof. intros Hm. munfold. unfold inw, zoom. by destruct (m (uf_world st)) as [[] ?]. Qed.

(** A nested transaction waits for the one it is in. *)
Lemma newFolder_never mk username nm : never (newFolder mk username nm).
Proof.
  intros w Hw. unfold newFolder. case_bool_decide; [done|]. unfold initialize, Update.
  munfold. destruct (db_open w); [|done]. simpl. by rewrite Hw.
Qed.
End never.

(** ** Properties *)

Section properties.
Context {BT : Bolt} {EV : Env} {BL : BoltLaws} {EL : EnvLaws}.

(** C3: for a user the store does not know, opening its folders records the
    user under the next index; then any sequence of creations, deletions and
    operations on folders by name gives the results of a plain map from
    names to abstract folders (a duplicate name, an unknown folder and an
    empty name give the documented errors), and opening the folders again,
    as the next run of the program does, finds all of them with their
    contents: the following operations go on as on that map. *)
Theorem folders_refinement mk username n w ops1 ops2 :
  fresh_user w username n → Forall folders_op_ok ops1 → Forall folders_op_ok ops2 →
  1 + Z.of_nat (length ops1 + length ops2) < 2 ^ 64 →
  let bucketID := (userPrefix ++ username)%string in
  ∃ st, newFolders mk username bucketID w = (Ok st, uf_world st) ∧
    tx_Get (db (uf_world st)) [usersBucket] username = Some (be64 (u64 (n + 1))) ∧
    let '(out1, st1) := run_seq do_folders ops1 st in
    let '(out1', a1) := run_seq spec_folders ops1 ∅ in
    out1 = out1' ∧
    ∃ st', newFolders mk username bucketID (uf_world st1) = (Ok st', uf_world st1) ∧
      (∀ nm, is_Some (uf_folders st' !! nm) ↔ is_Some (a1 !! nm)) ∧
      (run_seq do_folders ops2 st').1 = (run_seq spec_folders ops2 a1).1.
Proof.
  intros Hfu Hok1 Hok2 Hlen bucketID. rewrite Nat2Z.inj_add in Hlen.
  destruct (newFolders_new w mk username n Hfu) as (st & Hnew & Hr & Hidx & _).
  exists st. split; [exact Hnew|]. split; [exact Hidx|].
  destruct (newFolders_shape _ _ _ _ _ _ Hnew) as (K1 & U1 & B1 & _).
  pose proof (do_folders_run ops1 st ∅ (Z.of_nat (length ops2)) Hr Hok1 ltac:(lia) ltac:(lia)) as H.
  pose proof (run_folders_user ops1 st) as Hus1.
  destruct (run_seq do_folders ops1 st) as [out1 st1], (run_seq spec_folders ops1 ∅) as [out1' a1].
  destruct H as (-> & Hr1 & Hlt1); [by intros ??; rewrite lookup_empty|]. split; [done|].
  destruct Hus1 as (K2 & U2 & B2). simpl in *.
  pose proof (folders_rep_user_db st1 a1 Hr1) as Hud. rewrite K2, K1, U2, U1 in Hud.
  destruct (newFolders_existing _ _ _ _ Hud) as (st' & Hnew' & Hr' & Hnames).
  exists st'. split; [exact Hnew'|]. split; [exact Hnames|].
  pose proof (do_folders_run ops2 st' a1 0 Hr' Hok2 ltac:(lia) ltac:(lia)) as H.
  destruct (run_seq do_folders ops2 st'), (run_seq spec_folders ops2 a1). destruct H as [-> _]; [|done].
  intros nm s Hs. specialize (Hlt1 _ _ Hs). lia.
Qed.
(** [Rename] never succeeds.  Asked for a folder that exists and a new
    name, it starts the transaction that creates the new folder inside its
    own transaction, and waits for itself for ever (holding the lock of the
    folders and the write lock of the database). *)
Theorem folders_Rename_never st nm newname :
  is_Ok (folders_Rename nm newname st).1 = false ∧
  (idle (uf_world st) → tx_Bucket (db (uf_world st)) [uf_bucketID st; foldersBucket; nm] = true →
   newname ≠ EmptyString → tx_Bucket (db (uf_world st)) [uf_bucketID st; newname] = false →
   (folders_Rename nm newname st).1 = Hang).
Proof.
  split.
  - unfold folders_Rename. cbn [bind mbind M_bind mbind' get].
    apply inw_never, Update_never, never_tx. intros []; [|apply never_fail]. cbn [negb].
    apply never_tx. intros []; [|apply never_fail]. cbn [negb].
    apply never_tx. intros []; [apply never_fail|]. apply never_bind, newFolder_never.
  - intros [Ho Hw] Hb Hne Hfree. unfold folders_Rename. munfold. unfold inw, zoom, Update.
    rewrite Ho, Hw. cbn [negb]. unfold tx, zoom.
    change (db (set_writing true (uf_world st))) with (db (uf_world st)).
    pose proof (root_Bucket _ _ Hb) as Hr.
    pose proof (parent_Bucket _ [uf_bucketID st; foldersBucket] nm Hb) as Hd.
    assert (tx_Bucket (db (uf_world st)) [uf_bucketID st] = true) as Hu
      by exact (parent_Bucket _ [uf_bucketID st] foldersBucket Hd).
    rewrite bucket_Bucket_ok by done. cbn [app]. rewrite Hu. cbn [negb db set_db].
    rewrite bucket_Bucket_ok by done. cbn [app]. rewrite Hb. cbn [negb db set_db].
    rewrite bucket_Bucket_ok by done. cbn [app]. rewrite Hfree.
    unfold newFolder. rewrite bool_decide_eq_false_2 by done.
    unfold initialize, Update. munfold. cbn [db_open set_db set_writing writing]. by rewrite Ho.
Qed.
End properties.

(** ** Witnesses: a store without users *)

Import Model EnvModel.

Definition empty_store : world :=
  World (BTx {[ ["misc"]; ["users"] ]} {[ (["misc"], usersLatestIDKey) := be64 4 ]}) true false 0 0.

Lemma empty_store_fresh : fresh_user empty_store "alice" 4.
Proof.
  split; try (vm_compute; reflexivity).
  - by split.
  - done.
  - split; (split; [done|vm_compute; discriminate]).
Qed.

Lemma folders_refinement_witness :
  ∃ st, newFolders None "alice" "user:alice" empty_store = (Ok st, uf_world st) ∧
    tx_Get (db (uf_world st)) [usersBucket] "alice" = Some (be64 5) ∧
    (run_seq do_folders [FoNew "Inbox"; FoNew "Inbox"; FoNew ""; FoDo "Inbox" (OpInsertNew (Some "a") 1);
       FoNew "Trash"; FoDelete "Trash"; FoDelete "Trash"; FoDo "Trash" (OpGet 1)] st).1 =
    [OutNew (Ok tt); OutNew (Err ErrDuplicateMailbox); OutNew (Err (ErrNew "Folder name cannot be empty."));
     OutDo (Ok (OutID (Ok 1))); OutNew (Ok tt); OutDelete true; OutDelete false; OutDo (Err ErrNotFound)].
Proof.
  destruct (folders_refinement None "alice" 4 empty_store
    [FoNew "Inbox"; FoNew "Inbox"; FoNew ""; FoDo "Inbox" (OpInsertNew (Some "a") 1);
     FoNew "Trash"; FoDelete "Trash"; FoDelete "Trash"; FoDo "Trash" (OpGet 1)] [] empty_store_fresh)
    as (st & Hnew & Hidx & H).
  - repeat first [apply Forall_nil_2 | apply Forall_cons_2]; cbn [folders_op_ok];
      first [exact I | solve_ops_ok].
  - apply Forall_nil_2.
  - simpl. lia.
  - exists st. split; [exact Hnew|]. split; [rewrite Hidx; reflexivity|].
    destruct (run_seq do_folders _ st) as [out1 st1].
    destruct (run_seq spec_folders _ ∅) as [out1' a1] eqn:E. destruct H as [-> _].
    vm_compute in E. by injection E as <- _.
Defined.

Definition alice_folders : userFolders :=
  match newFolders None "alice" "user:alice" empty_store with
  | (Ok st, _) => (run_seq do_folders [FoNew "Inbox"] st).2
  | (_, w) => UserFolders None "" "" ∅ ∅ w
  end.

Lemma folders_Rename_never_witness : (folders_Rename "Inbox" "Mail" alice_folders).1 = Hang.
Proof.
  apply (folders_Rename_never alice_folders "Inbox" "Mail").
  - split; vm_compute; reflexivity.
  - vm_compute. reflexivity.
  - discriminate.
  - vm_compute. reflexivity.
Defined.
