(* ===== verification/Bmutil.v ===== *)
(** * Bitmessage addresses (package [bmutil])

    Decoding of addresses is third-party code: a parameter, with the round
    trip its documentation states. *)

From S2P Require Import Prelude Bytes Text.
From Stdlib Require Import Ascii.
Local Open Scope Z_scope.

Class Bmutil := {
  Address : Type;
  Address_eq_dec :: EqDecision Address;
  DecodeAddress : string → res Address;
  Address_String : Address → string;
  Address_Version : Address → Z;
  RipeHash : Address → string;
}.

Class BmutilLaws `{!Bmutil} : Prop := {
  Decode_String a : DecodeAddress (Address_String a) = Ok a;
  Decode_returns s : match DecodeAddress s with Panic | Hang => False | _ => True end;
}.

(** A concrete instance: ["BM-"] and the payload, in which the bytes that are
    not characters of ASCII are written with a percent sign. *)
Module BmutilModel.

Definition plain (c : ascii) : bool := is_ascii c && negb (is_char 37 c).
Definition nibble (z : Z) : ascii := byte_of_Z (65 + z).
Definition escape_char (c : ascii) (r : string) : string :=
  if plain c then String c r
  else String "%" (String (nibble (Z_of_byte c / 16)) (String (nibble (Z_of_byte c `mod` 16)) r)).
Fixpoint escape (s : string) : string :=
  match s with EmptyString => EmptyString | String c s => escape_char c (escape s) end.
Fixpoint unescape (s : string) : string :=
  match s with
  | String c r =>
      if is_char 37 c then
        match r with
        | String h (String l r) =>
            String (byte_of_Z ((Z_of_byte h - 65) * 16 + (Z_of_byte l - 65))) (unescape r)
        | _ => s
        end
      else String c (unescape r)
  | EmptyString => EmptyString
  end.
Lemma unescape_char c r : unescape (escape_char c r) = String c (unescape r).
Proof. by destruct c as [[] [] [] [] [] [] [] []]. Qed.
Lemma escape_char_ascii c r : all_chars is_ascii (escape_char c r) = all_chars is_ascii r.
Proof. by destruct c as [[] [] [] [] [] [] [] []]. Qed.
Lemma unescape_escape s : unescape (escape s) = s.
Proof. induction s as [|c s IH]; [done|]. cbn [escape]. by rewrite unescape_char, IH. Qed.
Lemma escape_ascii s : all_chars is_ascii (escape s) = true.
Proof. induction s as [|c s IH]; [done|]. cbn [escape]. by rewrite escape_char_ascii. Qed.

#[export] Instance model : Bmutil := {
  Address := string;
  DecodeAddress s :=
    if sprefix "BM-" s then Ok (unescape (sdrop 3 s)) else Err (ErrNew "unknown address type");
  Address_String r := ("BM-" ++ escape r)%string;
  Address_Version _ := 4;
  RipeHash r := r;
}.

#[export] Instance model_laws : BmutilLaws.
Proof.
  split.
  - intros a. simpl. by rewrite (sdrop_app "BM-" (escape a)), unescape_escape by done.
  - intros s. simpl. by destruct (match s with String _ _ => _ | _ => _ end).
Qed.

End BmutilModel.
