(* ===== verification/Store.v ===== *)
(** * The data store ([store/db.go], [user.go], [broadcasts.go], [pkrequests.go])

    Opening the database with a passphrase ([Loader.Construct]), its users,
    the change of passphrase, the counters, the watch list of public key
    requests and the broadcast addresses of a user.

    Proved: a database opens again with the passphrase it was created with
    and gives back the same master key, and only answers with the
    documented errors otherwise; changing the passphrase keeps the master
    key; counters and public key requests behave as maps.  Not true of the
    code: removing a broadcast address panics. *)

From S2P Require Import Prelude Bytes Bolt BoltModel StoreEnv Bmutil FolderSpec BoltFolder Folders.
Local Open Scope Z_scope.
Local Open Scope list_scope.

Definition pkRequestsBucket : string := "pubkeyRequests".
Definition countersBucket : string := "counters".
Definition broadcastAddressesBucket : string := "broadcastAddresses".
Definition dbMasterKeyEnc : string := "dbMasterKeyEnc".
Definition saltKey : string := "salt".
Definition versionKey : string := "version".
Definition powQueueLatestIDKey : string := "powQueueLatestID".
Definition latestStoreVersion : Z := 1.

Section store.
Context {BT : Bolt} {EV : Env} {BM : Bmutil}.

(** ** Broadcast addresses of a user *)

(** An object and the world it lives in. *)
Record BroadcastAddresses := MkBroadcastAddresses {
  ba_username : string;
  ba_addrs : list Address;
}.
Record bworld := BW { ba_this : BroadcastAddresses; ba_wld : world }.

Definition onbw {A} (m : M world A) : M bworld A := zoom ba_wld (λ w b, BW (ba_this b) w) m.
Definition set_addrs (l : list Address) : M bworld unit :=
  modify (λ b, BW (MkBroadcastAddresses (ba_username (ba_this b)) l) (ba_wld b)).

Fixpoint decode_all (l : list string) : res (list Address) :=
  match l with
  | [] => Ok []
  | k :: l => a ← DecodeAddress k; rest ← decode_all l; Ok (a :: rest)
  end.

Definition newBroadcastsStore (username : string) : M world BroadcastAddresses :=
  addrs ← Update (
    _ ← tx (bucket_CreateBucketIfNotExists [] username);
    _ ← tx (bucket_CreateBucketIfNotExists [username] broadcastAddressesBucket);
    l ← tx (bucket_Cursor [username; broadcastAddressesBucket]);
    lift (decode_all l.*1));
  mret (MkBroadcastAddresses username addrs).

Definition broadcasts_Add (address : string) : M bworld unit :=
  addr ← lift (DecodeAddress address);
  b ← gets ba_this;
  _ ← onbw (Update (tx (
    bucket_Put [ba_username b; broadcastAddressesBucket] address EmptyString)));
  set_addrs (ba_addrs b ++ [addr]).

Fixpoint remove_addr (addr : Address) (l : list Address) : list Address :=
  match l with
  | [] => []
  | t :: l => if bool_decide (RipeHash t = RipeHash addr) then l else t :: remove_addr addr l
  end.

Definition broadcasts_Remove (address : string) : M bworld unit :=
  addr ← lift (DecodeAddress address);
  b ← gets ba_this;
  _ ← onbw (Update (tx (
    v ← bucket_Get [ba_username b; broadcastAddressesBucket] address;
    match v with
    | None => fail ErrNotFound
    | Some _ => bucket_Delete [broadcastAddressesBucket] address
    end)));
  set_addrs (remove_addr addr (ba_addrs b)).

Definition broadcasts_ForEach {S} (b : BroadcastAddresses) (f : Address → M S unit) : M S unit :=
  mfor (ba_addrs b) f.

(** ** Users *)

Record User := MkUser {
  user_masterKey : option string;
  user_bucketID : string;
  user_username : string;
  user_broadcast : BroadcastAddresses;
}.

Definition newUser (mk : option string) (bucketID username : string) (b : BroadcastAddresses) : User :=
  MkUser mk bucketID username b.

Definition user_Folders (u : User) : M world userFolders :=
  newFolders (user_masterKey u) (user_username u) (user_bucketID u).

Record Store := MkStore {
  st_masterKey : option string;   (** [nil] is the zero value; see [Construct] *)
  st_users : gmap string User;
}.
Record sworld := SW { st_this : Store; st_wld : world }.

Definition onsw {A} (m : M world A) : M sworld A := zoom st_wld (λ w s, SW (st_this s) w) m.

Definition store_Close : M sworld unit := onsw db_Close.

Definition addUser (username : string) : M sworld User :=
  r ← try (onsw (newBroadcastsStore username));
  match r with
  | inr e => _ ← store_Close; fail e
  | inl broadcast =>
      s ← gets st_this;
      let user := newUser (st_masterKey s) (userPrefix ++ username)%string username broadcast in
      _ ← modify (λ s, SW (MkStore (st_masterKey (st_this s))
                            (<[username := user]> (st_users (st_this s)))) (st_wld s));
      mret user
  end.

Definition GetUser (name : string) (s : Store) : res User :=
  match st_users s !! name with
  | Some u => Ok u
  | None => Err (ErrNew "No such user.")
  end.

Definition NewUser (name : string) : M sworld User :=
  s ← gets st_this;
  match st_users s !! name with
  | Some _ => fail (ErrNew "Duplicate user.")
  | None => addUser name
  end.

(** ** Opening *)

Definition upgrade : M Tx unit :=
  bVersion ← bucket_Get [miscBucket] versionKey;
  match default EmptyString bVersion with
  | EmptyString => panic
  | String c _ =>
      if negb (Z_of_byte c =? latestStoreVersion) then fail (ErrNew "Unrecognized version of data store.")
      else mret tt
  end.

Definition zero_bytes (n : nat) : string := be n 0.

(** [copy(masterKey[:], mKey)] into an array of zeros. *)
Definition copy_key (s : string) : string :=
  stake keySize (s ++ zero_bytes (keySize - String.length s)).

(** The closure of [Construct]: the contents of [masterKey] after it. *)
Definition Construct_tx (pass : option string) : M world string :=
  _ ← tx (bucket_CreateBucketIfNotExists [] miscBucket);
  _ ← tx (bucket_CreateBucketIfNotExists [miscBucket] countersBucket);
  _ ← tx (bucket_CreateBucketIfNotExists [] usersBucket);
  bVersion ← tx (bucket_Get [miscBucket] versionKey);
  match bVersion with
  | None =>
      masterKey ←
        (match pass with
         | Some pass =>
             masterKey ← read_rand keySize;
             '(salt, v) ← encryptKey masterKey pass;
             _ ← tx (bucket_Put [miscBucket] saltKey salt);
             _ ← tx (bucket_Put [miscBucket] dbMasterKeyEnc v);
             mret masterKey
         | None => mret (zero_bytes keySize)
         end);
      _ ← tx (bucket_Put [miscBucket] versionKey (be 1 latestStoreVersion));
      _ ← tx (bucket_Put [miscBucket] powQueueLatestIDKey (be64 0));
      _ ← tx (bucket_Put [miscBucket] usersLatestIDKey (be64 0));
      mret masterKey
  | Some EmptyString => panic
  | Some (String c _) =>
      _ ← (if negb (Z_of_byte c =? latestStoreVersion) then tx upgrade else mret tt);
      v ← tx (bucket_Get [miscBucket] dbMasterKeyEnc);
      match v, pass with
      | None, Some _ => fail (ErrNew "Password given for unencrypted database.")
      | None, None => mret (zero_bytes keySize)
      | Some _, None => fail (ErrNew "No password supplied for encrypted database.")
      | Some v, Some pass =>
          if (String.length v <? nonceSize + keySize + Overhead)%nat then
            fail (ErrNew "Encrypted master key too short.")
          else
            nonce ← lift (slice_to nonceSize v);
            salt ← tx (bucket_Get [miscBucket] saltKey);
            let key := deriveKey pass (default EmptyString salt) in
            box ← lift (slice_from nonceSize v);
            match secretbox_Open box nonce key with
            | None => fail ErrDecryptionFailed
            | Some mKey => mret (copy_key mKey)
            end
      end
  end.

Definition initializePKRequestStore : M world unit :=
  Update (tx (bucket_CreateBucketIfNotExists [] pkRequestsBucket)).

(** [Loader]: whether its database handle is not [nil], and the world. *)
Record Loader := MkLoader { l_db : bool; l_wld : world }.

Definition onl {A} (m : M world A) : M Loader A := zoom l_wld (λ w l, MkLoader (l_db l) w) m.

Definition loader_Close : M Loader unit :=
  l ← get;
  if negb (l_db l) then mret tt
  else _ ← onl db_Close; modify (λ l, MkLoader false (l_wld l)).

(** An error closes the database. *)
Definition or_close {A} (m : M Loader A) : M Loader A :=
  r ← try m;
  match r with inl a => mret a | inr e => _ ← loader_Close; fail e end.

Definition IsEncrypted : M Loader bool :=
  l ← get;
  if negb (l_db l) then mret false
  else if negb (db_open (l_wld l)) then _ ← loader_Close; mret false
  else
    let t := db (l_wld l) in
    mret (tx_Bucket t [miscBucket] && bool_decide (is_Some (tx_Get t [miscBucket] dbMasterKeyEnc))).

(** The users found are added one by one; the errors are discarded. *)
Definition Construct (pass : option string) : M Loader Store :=
  l ← get;
  if negb (l_db l) then fail (ErrNew "Closed database.")
  else
    masterKey ← or_close (onl (Update (Construct_tx pass)));
    _ ← or_close (onl initializePKRequestStore);
    users ← or_close (onl (λ w, (bucket_keys [usersBucket] w, w)));
    let store := MkStore (Some masterKey) ∅ in
    zoom (λ l, SW store (l_wld l)) (λ s l, MkLoader (l_db l) (st_wld s))
      (_ ← mfor users (λ name, _ ← try (addUser name); mret tt);
       gets st_this).

Definition ChangePassphrase (pass : string) : M sworld unit :=
  s ← gets st_this;
  match st_masterKey s with
  | None => fail (ErrNew "Database is not encrypted.")
  | Some mk =>
      '(salt, v) ← onsw (encryptKey mk pass);
      onsw (Update (
        _ ← tx (bucket_Put [miscBucket] saltKey salt);
        tx (bucket_Put [miscBucket] dbMasterKeyEnc v)))
  end.

(** ** Counters *)

Definition GetCounter (objType : Z) (s : sworld) : res Z :=
  View (λ t,
    v ← (bucket_Get [miscBucket; countersBucket] (be32 objType) t).1;
    match v with
    | None => Ok 1
    | Some v => Uint64 v
    end) (st_wld s).

Definition SetCounter (objType counter : Z) : M sworld unit :=
  onsw (Update (tx (bucket_Put [miscBucket; countersBucket] (be32 objType) (be64 counter)))).

(** ** Public key requests *)

Definition pk_New (addr : string) : M world Z :=
  Update (
    t ← tx (bucket_Get [pkRequestsBucket] addr);
    count ← lift (match t with
      | None => Ok 1
      | Some t => b ← slice_to 4 t; n ← Uint32 b; Ok (u32 (n + 1))
      end);
    now ← read_now;
    _ ← tx (bucket_Put [pkRequestsBucket] addr (be32 count ++ MarshalBinary now)%string);
    mret count).

Definition pk_LastRequestTime (addr : string) (w : world) : res Time :=
  View (λ t,
    v ← (bucket_Get [pkRequestsBucket] addr t).1;
    match v with
    | None => Err ErrNotFound
    | Some v => b ← slice_from 4 v; UnmarshalBinary b
    end) w.

Definition pk_Remove (addr : string) : M world unit :=
  Update (tx (bucket_Delete [pkRequestsBucket] addr)).

Definition pk_ForEach {S} (f : string → Z → Time → M S unit) (w : world) : M S unit :=
  l ← lift (View (λ t, (bucket_Cursor [pkRequestsBucket] t).1) w);
  mfor l (λ '(k, v),
    let v := default EmptyString v in
    b ← lift (slice_to 4 v);
    reqCount ← lift (Uint32 b);
    tb ← lift (slice_from 4 v);
    lastReqTime ← lift (UnmarshalBinary tb);
    f k reqCount lastReqTime).
End store.

(** ** Counters *)

Section counters.
Context {BT : Bolt} {EV : Env} {BM : Bmutil} {BL : BoltLaws} {EL : EnvLaws}.

Record counters_db (s : sworld) : Prop := {
  cd_idle : idle (st_wld s);
  cd_bucket : tx_Bucket (db (st_wld s)) [miscBucket; countersBucket] = true;
  cd_flat k : tx_Bucket (db (st_wld s)) [miscBucket; countersBucket; k] = false;
}.

Lemma be32_key_ok o : key_ok (be32 o).
Proof.
  unfold key_ok, be32. rewrite be_length. split; [|simpl; lia].
  intros H. by apply (f_equal String.length) in H; rewrite be_length in H.
Qed.

Lemma be32_inj x y : is_u32 x → is_u32 y → be32 x = be32 y → x = y.
Proof.
  intros Hx Hy H. pose proof (Uint32_be32_app x EmptyString Hx) as H1.
  pose proof (Uint32_be32_app y EmptyString Hy) as H2. rewrite H in H1. congruence.
Qed.

Lemma be64_value_ok n : value_ok (be64 n).
Proof. unfold value_ok. rewrite be_length_64. lia. Qed.

Lemma SetCounter_step s o c :
  counters_db s → is_u32 o → is_u64 c →
  ∃ s', SetCounter o c s = (Ok tt, s') ∧ counters_db s' ∧
    (∀ o', is_u32 o' → GetCounter o' s' = if decide (o' = o) then Ok c else GetCounter o' s) ∧
    frame [miscBucket; countersBucket] (db (st_wld s)) (db (st_wld s')) ∧
    st_this s' = st_this s ∧ ticks (st_wld s') = ticks (st_wld s).
Proof.
  intros [[Ho Hw] Hb Hf] Hu Hc.
  destruct (Put_ok (db (st_wld s)) [miscBucket; countersBucket] (be32 o) (be64 c) Hb
    (be32_key_ok o) (be64_value_ok c) (Hf _)) as (t' & Hput & Hget & Hbk).
  exists (SW (st_this s) (set_db t' (st_wld s))). split; [|split; [|split; [|split; [|done]]]].
  - unfold SetCounter, onsw, zoom. rewrite Update_tx by done. unfold bucket_Put.
    by rewrite on_bucket_ok, Hput.
  - split; simpl; [done|by rewrite Hbk|intros k; by rewrite Hbk].
  - intros o' Hu'. unfold GetCounter, View, bucket_Get. simpl. rewrite Ho. simpl.
    rewrite !on_bucket_ok by (by rewrite ?Hbk). simpl. rewrite Hget. munfold.
    case_decide as Hd; case_decide as Hd'; [|exfalso..|done].
    + by rewrite Uint64_be64.
    + destruct Hd as [_ Hd%be32_inj]; [|done..]. by apply Hd'.
    + apply Hd. by rewrite Hd'.
  - apply (frame_Get _ [miscBucket; countersBucket]); [done| |exact Hbk].
    intros q k Hq. simpl. by rewrite Hget, decide_False by (by intros []).
Qed.
End counters.

(** ** Public key requests *)

Section pk.
Context {BT : Bolt} {EV : Env} {BL : BoltLaws} {EL : EnvLaws}.

Inductive pk_op := PkNew (addr : string) | PkLast (addr : string) | PkRemove (addr : string).
Inductive pk_out := OutCount (r : res Z) | OutTime (r : res Time) | OutRemove (r : res unit).

Definition do_pk (op : pk_op) (w : world) : pk_out * world :=
  match op with
  | PkNew a => let '(r, w) := pk_New a w in (OutCount r, w)
  | PkLast a => (OutTime (pk_LastRequestTime a w), w)
  | PkRemove a => let '(r, w) := pk_Remove a w in (OutRemove r, w)
  end.

(** The watch list: the number of requests and the time of the last one. *)
Abbreviation watchlist := (gmap string (Z * Time)) (only parsing).

Definition spec_pk (op : pk_op) (s : watchlist * nat) : pk_out * (watchlist * nat) :=
  let '(m, clock) := s in
  match op with
  | PkNew a =>
      let n := match m !! a with None => 1 | Some (n, _) => u32 (n + 1) end in
      (OutCount (Ok n), (<[a := (n, time_Now clock)]> m, S clock))
  | PkLast a =>
      (OutTime (match m !! a with None => Err ErrNotFound | Some (_, t) => Ok t end), s)
  | PkRemove a => (OutRemove (Ok tt), (delete a m, clock))
  end.

Definition pk_op_ok (op : pk_op) : Prop :=
  match op with PkNew a => key_ok a | _ => True end.

Definition pk_value (e : Z * Time) : string := (be32 e.1 ++ MarshalBinary e.2)%string.

Record pk_rep (w : world) (s : watchlist * nat) : Prop := {
  pk_idle : idle w;
  pk_bucket : tx_Bucket (db w) [pkRequestsBucket] = true;
  pk_flat k : tx_Bucket (db w) [pkRequestsBucket; k] = false;
  pk_get k : tx_Get (db w) [pkRequestsBucket] k = pk_value <$> s.1 !! k;
  pk_u32 k n t : s.1 !! k = Some (n, t) → is_u32 n;
  pk_clock : ticks w = s.2;
}.

Lemma pk_value_to e : is_u32 e.1 →
  slice_to 4 (pk_value e) = Ok (be32 e.1) ∧ slice_from 4 (pk_value e) = Ok (MarshalBinary e.2) ∧
  Uint32 (be32 e.1) = Ok e.1.
Proof.
  intros Hn. destruct (slice_app (be32 e.1) (MarshalBinary e.2) 4) as [H1 H2]; [apply be_length|].
  split; [done|]. split; [done|]. rewrite <-(sapp_nil_r (be32 e.1)). by apply Uint32_be32_app.
Qed.

Lemma pk_value_ok e : value_ok (pk_value e).
Proof.
  unfold value_ok, pk_value. rewrite slength_app. unfold be32. rewrite be_length.
  pose proof (time_length e.2). lia.
Qed.

Lemma pk_New_step w m clock a :
  pk_rep w (m, clock) → key_ok a →
  let n := match m !! a with None => 1 | Some (n, _) => u32 (n + 1) end in
  ∃ w', pk_New a w = (Ok n, w') ∧ pk_rep w' (<[a := (n, time_Now clock)]> m, S clock) ∧
    frame [pkRequestsBucket] (db w) (db w').
Proof.
  intros [[Ho Hw] Hb Hf Hg Hu Hc] Ha n. simpl in *.
  assert (is_u32 n) as Hn.
  { unfold n. destruct (m !! a) as [[x ?]|]; [apply u32_range|done]. }
  destruct (Put_ok (db w) [pkRequestsBucket] a (pk_value (n, time_Now clock)) Hb Ha
    (pk_value_ok _) (Hf a)) as (t' & Hput & Hget & Hbk).
  exists (World t' true false (reads w) (S (ticks w))). split; [|split].
  - unfold pk_New, Update. munfold. unfold tx, zoom, bucket_Get, bucket_Put. rewrite Ho, Hw. simpl.
    rewrite on_bucket_ok by done. simpl. rewrite Hg. unfold n in *.
    destruct (m !! a) as [[x tm]|] eqn:E; cbn [fmap option_fmap option_map].
    + destruct (pk_value_to (x, tm)) as (H1 & _ & H3); [by eapply Hu|]. rewrite H1. cbn [fst] in *.
      rewrite H3. simpl. rewrite on_bucket_ok by done. rewrite Hc. unfold pk_value in Hput. simpl in Hput.
      rewrite Hput. unfold set_writing, set_db. simpl. by rewrite Ho.
    + simpl. rewrite on_bucket_ok by done. rewrite Hc. unfold pk_value in Hput. simpl in Hput.
      rewrite Hput. unfold set_writing, set_db. simpl. by rewrite Ho.
  - split; simpl; [done|by rewrite Hbk|intros k; by rewrite Hbk| | |by rewrite Hc].
    + intros k. rewrite Hget. rewrite lookup_insert. repeat case_decide; try done; exfalso; intuition.
    + intros k n' t. rewrite lookup_insert_Some. intros [[<- [= <- <-]]|[_ ?]]; [done|by eapply Hu].
  - apply (frame_Get _ [pkRequestsBucket]); [done| |exact Hbk].
    intros q k Hq. simpl. by rewrite Hget, decide_False by (by intros []).
Qed.

Lemma do_pk_step op w s : pk_rep w s → pk_op_ok op →
  let '(o, w') := do_pk op w in let '(o', s') := spec_pk op s in
  o = o' ∧ pk_rep w' s' ∧ frame [pkRequestsBucket] (db w) (db w').
Proof.
  intros Hr Hok. destruct s as [m clock]. destruct op as [a|a|a]; simpl in *.
  - destruct (pk_New_step w m clock a Hr Hok) as (w' & -> & Hr'). done.
  - split; [|split; [done|apply frame_refl]]. destruct Hr as [[Ho Hw] Hb Hf Hg Hu Hc]. simpl in *. f_equal.
    unfold pk_LastRequestTime, View, bucket_Get. rewrite Ho. simpl. rewrite on_bucket_ok by done. simpl.
    munfold. rewrite Hg. destruct (m !! a) as [[n t]|] eqn:E; cbn [fmap option_fmap option_map]; [|done].
    destruct (pk_value_to (n, t)) as (_ & H2 & _); [by eapply Hu|]. rewrite H2. apply Unmarshal_Marshal.
  - destruct Hr as [[Ho Hw] Hb Hf Hg Hu Hc]. simpl in *.
    destruct (Delete_ok (db w) [pkRequestsBucket] a Hb (Hf a)) as (t' & Hdel & Hget & Hbk).
    unfold pk_Remove. rewrite Update_tx by done. unfold bucket_Delete. rewrite on_bucket_ok, Hdel by done.
    split; [done|]. split; [split; simpl; [done|by rewrite Hbk|intros k; by rewrite Hbk| | |done]|].
    + intros k. rewrite Hget, lookup_delete. repeat case_decide; try done; exfalso; intuition.
    + intros k n t [_ ?]%lookup_delete_Some. by eapply Hu.
    + apply (frame_Get _ [pkRequestsBucket]); [done| |exact Hbk].
      intros q k Hq. simpl. by rewrite Hget, decide_False by (by intros []).
Qed.

Lemma do_pk_run ops w s : pk_rep w s → Forall pk_op_ok ops →
  let '(o, w') := run_seq do_pk ops w in let '(o', s') := run_seq spec_pk ops s in
  o = o' ∧ pk_rep w' s'.
Proof.
  revert w s; induction ops as [|op ops IH]; intros w s Hr Hok; [done|].
  apply Forall_cons in Hok as [Hop Hops]. cbn [run_seq].
  pose proof (do_pk_step op w s Hr Hop) as H. destruct (do_pk op w) as [o w'], (spec_pk op s) as [o' s'].
  destruct H as (-> & Hr' & _). specialize (IH w' s' Hr' Hops).
  destruct (run_seq do_pk ops w'), (run_seq spec_pk ops s'). by destruct IH as [-> ?].
Qed.

(** The watch list in order of address. *)
Definition visit_pk {S} (f : string → Z → Time → M S unit) (e : string * (Z * Time)) : M S unit :=
  f e.1 e.2.1 e.2.2.

Lemma pk_ForEach_ok w s : pk_rep w s →
  ∃ l, StronglySorted (λ x y : string * (Z * Time), blt x.1 y.1) l ∧
    (∀ k e, (k, e) ∈ l ↔ s.1 !! k = Some e) ∧
    ∀ S (f : string → Z → Time → M S unit) st, pk_ForEach f w st = mfor l (visit_pk f) st.
Proof.
  intros [[Ho Hw] Hb Hf Hg Hu Hc].
  pose (dec := λ e : string * option string, (λ x, (e.1, x)) <$> s.1 !! e.1).
  assert (∀ k o, (k, o) ∈ tx_Cursor (db w) [pkRequestsBucket] →
    ∃ e, s.1 !! k = Some e ∧ o = Some (pk_value e)) as Hcur.
  { intros k o He. apply Cursor_elem in He. simpl in He. destruct o as [v|]; [|by rewrite Hf in He].
    rewrite Hg in He. destruct (s.1 !! k) as [e|]; [|done]. simpl in He. by simplify_eq; eauto. }
  exists (omap dec (tx_Cursor (db w) [pkRequestsBucket])). split; [|split].
  - pose proof (Cursor_sorted (db w) [pkRequestsBucket]) as Hs.
    induction (tx_Cursor (db w) [pkRequestsBucket]) as [|[k o] l IH]; [constructor|].
    apply StronglySorted_cons in Hs as [F Hs]. simpl. unfold dec at 1. simpl.
    assert (StronglySorted (λ x y : string * (Z * Time), blt x.1 y.1) (omap dec l)) as IH'.
    { apply IH; [|done]. intros. apply Hcur. by apply list_elem_of_further. }
    destruct (s.1 !! k) as [e|]; simpl; [|done]. constructor; [done|].
    apply List.Forall_forall. intros [k' e'] He%list_elem_of_In.
    apply list_elem_of_omap in He as ([k2 o2] & Hin & Hd). unfold dec in Hd. simpl in *.
    destruct (s.1 !! k2); [|done]. simpl in Hd. simplify_eq. rewrite Forall_forall in F. by apply (F _ Hin).
  - intros k e. rewrite list_elem_of_omap. split.
    + intros ([k' o] & Hin & Hd). unfold dec in Hd. simpl in Hd.
      destruct (s.1 !! k') eqn:E; [|done]. simpl in Hd. by simplify_eq.
    + intros He. exists (k, Some (pk_value e)). unfold dec. simpl. rewrite He. split; [|done].
      apply Cursor_value. by rewrite Hg, He.
  - intros S f st. unfold pk_ForEach, View, bucket_Cursor. rewrite Ho. simpl.
    rewrite on_bucket_ok by done. munfold. simpl. revert st.
    induction (tx_Cursor (db w) [pkRequestsBucket]) as [|[k o] l IH]; intros st; [done|].
    destruct (Hcur k o) as ([n t] & He & ->); [apply list_elem_of_here|]. cbn [mfor omap list_omap].
    unfold dec at 1. cbn [fst]. rewrite He. cbn [fmap option_fmap option_map mfor].
    destruct (pk_value_to (n, t)) as (H1 & H2 & H3); [by eapply Hu|].
    munfold. unfold visit_pk at 1. change (default EmptyString (Some (pk_value (n, t)))) with (pk_value (n, t)).
    rewrite H1, H2. rewrite H3. simpl. rewrite Unmarshal_Marshal.
    destruct (f k n t st) as [[] st']; [|done..]. apply IH. intros. apply Hcur. by apply list_elem_of_further.
Qed.
End pk.

(** ** Opening a database *)

Section opening.
Context {BT : Bolt} {EV : Env} {BM : Bmutil} {BL : BoltLaws} {EL : EnvLaws} {ML : BmutilLaws}.

Definition misc_keys : list string :=
  [dbMasterKeyEnc; saltKey; versionKey; powQueueLatestIDKey; usersLatestIDKey].

(** A database that [Construct] has formatted. *)
Record formatted (t : Tx) : Prop := {
  fm_misc : tx_Bucket t [miscBucket] = true;
  fm_counters : tx_Bucket t [miscBucket; countersBucket] = true;
  fm_users : tx_Bucket t [usersBucket] = true;
  fm_keys k : k ∈ misc_keys → tx_Bucket t [miscBucket; k] = false;
  fm_root k : tx_Get t [] k = None;
  fm_version : tx_Get t [miscBucket] versionKey = Some (be 1 latestStoreVersion);
}.

(** The master key [mk] is in the database under the passphrase, or the
    database is not encrypted. *)
Definition sealed_key (t : Tx) (mk : string) (pass : option string) : Prop :=
  match pass with
  | None => mk = zero_bytes keySize ∧ tx_Get t [miscBucket] dbMasterKeyEnc = None
  | Some p => ∃ salt nonce, String.length nonce = nonceSize ∧ String.length mk = keySize ∧
      tx_Get t [miscBucket] saltKey = Some salt ∧
      tx_Get t [miscBucket] dbMasterKeyEnc =
        Some (nonce ++ secretbox_Seal mk nonce (deriveKey p salt))%string
  end.

(** A file that was just created. *)
Record blank (t : Tx) : Prop := {
  bl_get p k : tx_Get t p k = None;
  bl_bucket p : tx_Bucket t p = true ↔ p = [];
}.

Lemma misc_key_ok k : k ∈ misc_keys → key_ok k.
Proof.
  intros H. assert (Forall (λ k, k ≠ EmptyString ∧ (String.length k <= 100)%nat) misc_keys) as HF
    by (by apply (bool_decide_eq_true_1 _); vm_compute).
  rewrite Forall_forall in HF. destruct (HF _ H). split; [done|lia].
Qed.

Lemma misc_Put t k v :
  k ∈ misc_keys → value_ok v → tx_Bucket t [miscBucket] = true →
  tx_Bucket t [miscBucket; k] = false →
  ∃ t', bucket_Put [miscBucket] k v t = (Ok tt, t') ∧
    (∀ p' k', tx_Get t' p' k' = if decide (p' = [miscBucket] ∧ k' = k) then Some v else tx_Get t p' k') ∧
    (∀ p, tx_Bucket t' p = tx_Bucket t p).
Proof.
  intros Hk Hv Hb Hf. destruct (Put_ok t [miscBucket] k v Hb (misc_key_ok k Hk) Hv Hf) as (t' & Hp & Hg & Hbk).
  exists t'. split; [unfold bucket_Put; by rewrite on_bucket_ok|done].
Qed.

(** [CreateBucketIfNotExists] of a name that is not a pair's. *)
Lemma ensure_bucket t p k :
  tx_Bucket t p = true → key_ok k → tx_Get t p k = None →
  ∃ t', bucket_CreateBucketIfNotExists p k t = (Ok tt, t') ∧
    (∀ p' k', tx_Get t' p' k' = tx_Get t p' k') ∧
    (∀ p' : path, tx_Bucket t' p' = true ↔ p' = p ++ [k] ∨ tx_Bucket t p' = true).
Proof.
  intros Hb Hk Hg. unfold bucket_CreateBucketIfNotExists. rewrite on_bucket_ok by done.
  destruct (tx_Bucket t (p ++ [k])) eqn:E.
  - exists t. split; [done|]. split; [done|]. intros p'. split; [by right|]. intros [->|?]; done.
  - by apply CreateBucket_ok.
Qed.

(** What [Construct] writes into a new database after the keys. *)
Lemma format_tail w mk : let t := db w in
  tx_Bucket t [miscBucket] = true → (∀ k, k ∈ misc_keys → tx_Bucket t [miscBucket; k] = false) →
  ∃ t', (_ ← tx (bucket_Put [miscBucket] versionKey (be 1 latestStoreVersion));
         _ ← tx (bucket_Put [miscBucket] powQueueLatestIDKey (be64 0));
         _ ← tx (bucket_Put [miscBucket] usersLatestIDKey (be64 0));
         mret mk : M world string) w = (Ok mk, set_db t' w) ∧
    tx_Get t' [miscBucket] versionKey = Some (be 1 latestStoreVersion) ∧
    tx_Get t' [miscBucket] usersLatestIDKey = Some (be64 0) ∧
    (∀ p k, k ∉ [versionKey; powQueueLatestIDKey; usersLatestIDKey] → tx_Get t' p k = tx_Get t p k) ∧
    (∀ p k, p ≠ [miscBucket] → tx_Get t' p k = tx_Get t p k) ∧
    (∀ p, tx_Bucket t' p = tx_Bucket t p).
Proof.
  intros t Hm Hk.
  assert (value_ok (be 1 latestStoreVersion)) as Hv1 by (vm_compute; discriminate).
  destruct (misc_Put t versionKey (be 1 latestStoreVersion)) as (t1 & E1 & G1 & B1); [solve_elem|done|done|apply Hk; solve_elem|].
  destruct (misc_Put t1 powQueueLatestIDKey (be64 0)) as (t2 & E2 & G2 & B2);
    [solve_elem|apply be64_value_ok|by rewrite B1|rewrite B1; apply Hk; solve_elem|].
  destruct (misc_Put t2 usersLatestIDKey (be64 0)) as (t3 & E3 & G3 & B3);
    [solve_elem|apply be64_value_ok|by rewrite B2, B1|rewrite B2, B1; apply Hk; solve_elem|].
  exists t3. split; [|split; [|split; [|split; [|split]]]].
  - munfold. unfold tx, zoom. fold t. rewrite E1. cbn [db set_db]. rewrite E2. cbn [db set_db]. by rewrite E3.
  - rewrite G3, decide_False by (by intros []). rewrite G2, decide_False by (by intros []).
    by rewrite G1, decide_True.
  - by rewrite G3, decide_True.
  - intros p k Hn. rewrite !not_elem_of_cons in Hn. destruct Hn as (? & ? & ? & _).
    by rewrite G3, decide_False, G2, decide_False, G1, decide_False by tauto.
  - intros p k Hn. by rewrite G3, decide_False, G2, decide_False, G1, decide_False by tauto.
  - intros p. by rewrite B3, B2, B1.
Qed.

Definition new_buckets : list path := [[]; [miscBucket]; [miscBucket; countersBucket]; [usersBucket]].

(** The buckets of a new database. *)
Lemma format_buckets w : blank (db w) →
  ∃ t, (_ ← tx (bucket_CreateBucketIfNotExists [] miscBucket);
        _ ← tx (bucket_CreateBucketIfNotExists [miscBucket] countersBucket);
        tx (bucket_CreateBucketIfNotExists [] usersBucket) : M world unit) w = (Ok tt, set_db t w) ∧
    (∀ p k, tx_Get t p k = None) ∧ (∀ p, tx_Bucket t p = true ↔ p ∈ new_buckets).
Proof.
  intros [Hg Hb]. assert (∀ k, k ∈ [miscBucket; countersBucket; usersBucket] → key_ok k) as Hk.
  { intros k H. rewrite !elem_of_cons in H. destruct H as [->|[->|[->|H%not_elem_of_nil]]]; [| | |done];
      (split; [done|vm_compute; discriminate]). }
  destruct (ensure_bucket (db w) [] miscBucket) as (t1 & E1 & G1 & B1);
    [by apply Hb|apply Hk; solve_elem|done|].
  destruct (ensure_bucket t1 [miscBucket] countersBucket) as (t2 & E2 & G2 & B2);
    [apply B1; by left|apply Hk; solve_elem|by rewrite G1|].
  destruct (ensure_bucket t2 [] usersBucket) as (t3 & E3 & G3 & B3);
    [apply B2; right; apply B1; right; by apply Hb|apply Hk; solve_elem|by rewrite G2, G1|].
  exists t3. split; [|split].
  - munfold. unfold tx, zoom. rewrite E1. cbn [db set_db]. rewrite E2. cbn [db set_db]. by rewrite E3.
  - intros p k. by rewrite G3, G2, G1.
  - intros p. rewrite B3, B2, B1, Hb. unfold new_buckets. rewrite !elem_of_cons, elem_of_nil.
    simpl. tauto.
Qed.

Lemma format_world_assoc {A} (k : M world A) w :
  (_ ← tx (bucket_CreateBucketIfNotExists [] miscBucket);
   _ ← tx (bucket_CreateBucketIfNotExists [miscBucket] countersBucket);
   _ ← tx (bucket_CreateBucketIfNotExists [] usersBucket); k) w =
  (_ ← (_ ← tx (bucket_CreateBucketIfNotExists [] miscBucket);
        _ ← tx (bucket_CreateBucketIfNotExists [miscBucket] countersBucket);
        tx (bucket_CreateBucketIfNotExists [] usersBucket) : M world unit); k) w.
Proof.
  munfold. destruct (tx _ w) as [[[]| | |] w1]; [|done..].
  destruct (tx _ w1) as [[[]| | |] w2]; [|done..]. by destruct (tx _ w2) as [[[]| | |] w3].
Qed.

Lemma Construct_tx_new w pass : blank (db w) →
  ∃ mk t n, Construct_tx pass w = (Ok mk, World t (db_open w) (writing w) n (ticks w)) ∧
    formatted t ∧ sealed_key t mk pass ∧
    tx_Get t [miscBucket] usersLatestIDKey = Some (be64 0) ∧
    (∀ p k, p ≠ [miscBucket] → tx_Get t p k = None) ∧
    (∀ p, tx_Bucket t p = true ↔ p ∈ new_buckets).
Proof.
  intros Hbl. destruct (format_buckets w Hbl) as (t0 & E0 & G0 & B0).
  unfold Construct_tx. rewrite format_world_assoc. unfold bind at 1, mbind at 1, M_bind at 1, mbind' at 1.
  rewrite E0.
  assert (tx_Bucket t0 [miscBucket] = true) as Hm by (apply B0; solve_elem).
  assert (∀ k, k ∈ misc_keys → tx_Bucket t0 [miscBucket; k] = false) as Hf.
  { intros k Hk. apply not_true_iff_false. rewrite B0.
    assert (Forall (λ k, [miscBucket; k] ∉ new_buckets) misc_keys) as HF
      by (by apply (bool_decide_eq_true_1 _); vm_compute).
    rewrite Forall_forall in HF. by apply HF. }
  assert (∀ t', (∀ p, tx_Bucket t' p = tx_Bucket t0 p) → (∀ k, tx_Get t' [] k = None) →
    tx_Get t' [miscBucket] versionKey = Some (be 1 latestStoreVersion) → formatted t') as Hfmt.
  { intros t' HB Hg Hv. split; try (rewrite HB; apply B0; solve_elem); [|done|done].
    intros k Hk. rewrite HB. by apply Hf. }
  rewrite (bind_Ok _ _ _ _ _ (tx_Ok _ (set_db t0 w) _ _ (bucket_Get_ok _ versionKey t0 Hm))), G0.
  destruct pass as [p|].
  - set (mk := rand_Read (reads w) keySize). set (nonce := rand_Read (S (reads w)) nonceSize).
    set (salt := rand_Read (S (S (reads w))) saltLength).
    set (v := (nonce ++ secretbox_Seal mk nonce (deriveKey p salt))%string).
    assert (String.length v = 72%nat) as Hlv.
    { unfold v. rewrite slength_app, Seal_length. unfold mk, nonce. by rewrite !rand_Read_length. }
    destruct (misc_Put t0 saltKey salt) as (t1 & E1 & G1 & B1);
      [solve_elem|unfold value_ok, salt; rewrite rand_Read_length; vm_compute; discriminate|done|apply Hf; solve_elem|].
    destruct (misc_Put t1 dbMasterKeyEnc v) as (t2 & E2 & G2 & B2);
      [solve_elem|unfold value_ok; rewrite Hlv; lia|by rewrite B1|rewrite B1; apply Hf; solve_elem|].
    set (w2 := World t2 (db_open w) (writing w) (S (S (S (reads w)))) (ticks w)).
    destruct (format_tail w2 mk) as (t3 & E3 & Hv3 & Hu3 & Hk3 & Hp3 & B3); [by simpl; rewrite B2, B1| |].
    { intros k Hk. simpl. rewrite B2, B1. by apply Hf. }
    exists mk, t3, (S (S (S (reads w)))). simpl in Hv3, Hu3, Hk3, Hp3, B3.
    assert (∀ k, k ∉ [versionKey; powQueueLatestIDKey; usersLatestIDKey] →
      tx_Get t3 [miscBucket] k = tx_Get t2 [miscBucket] k) as Hk3' by (intros; by apply Hk3).
    split; [|split; [|split; [|split; [done|split]]]].
    + eapply eq_trans; [eapply bind_Ok|exact E3]. run_step ltac:(reflexivity). run_step ltac:(reflexivity).
      run_step ltac:(apply tx_Ok; exact E1). run_step ltac:(apply tx_Ok; exact E2). reflexivity.
    + apply Hfmt; [intros; by rewrite B3, B2, B1| |done].
      intros k. rewrite Hp3, G2, decide_False, G1, decide_False by (done || by intros []). apply G0.
    + exists salt, nonce. split; [apply rand_Read_length|]. split; [apply rand_Read_length|].
      rewrite !Hk3' by (by apply (bool_decide_eq_true_1 _); vm_compute). split.
      * rewrite G2, decide_False, G1, decide_True by (done || by intros []). done.
      * by rewrite G2, decide_True.
    + intros q k Hq. rewrite Hp3, G2, decide_False, G1, decide_False by (done || by intros []). apply G0.
    + intros q. by rewrite B3, B2, B1, B0.
  - destruct (format_tail (set_db t0 (set_db t0 w)) (zero_bytes keySize))
      as (t3 & E3 & Hv3 & Hu3 & Hk3 & Hp3 & B3); [done|done|]. simpl in Hv3, Hu3, Hk3, Hp3, B3.
    exists (zero_bytes keySize), t3, (reads w). split; [|split; [|split; [|split; [done|split]]]].
    + run_step ltac:(reflexivity). exact E3.
    + apply Hfmt; [done| |done]. intros k. by rewrite Hp3, G0.
    + split; [done|]. rewrite Hk3 by (by apply (bool_decide_eq_true_1 _); vm_compute). apply G0.
    + intros q k Hq. by rewrite Hp3, G0.
    + intros q. by rewrite B3, B0.
Qed.

(** *** A database that exists *)

(** The master key that a passphrase opens. *)
Definition opens (t : Tx) (p : string) : option string :=
  match tx_Get t [miscBucket] dbMasterKeyEnc with
  | None => None
  | Some v => secretbox_Open (sdrop nonceSize v) (stake nonceSize v)
      (deriveKey p (default EmptyString (tx_Get t [miscBucket] saltKey)))
  end.

Lemma sealed_opens t mk p : sealed_key t mk (Some p) →
  opens t p = Some mk ∧ String.length mk = keySize.
Proof.
  intros (salt & nonce & Hn & Hmk & Hs & He). split; [|done]. unfold opens. rewrite Hs, He.
  change (default EmptyString (Some salt)) with salt. rewrite sdrop_app, stake_app by done. apply Open_Seal.
Qed.

(** What [Construct] answers, by the passphrase in use and the one given. *)
Definition open_answer (t : Tx) (pass0 pass : option string) : res string :=
  match pass0, pass with
  | None, None => Ok (zero_bytes keySize)
  | None, Some _ => Err (ErrNew "Password given for unencrypted database.")
  | Some _, None => Err (ErrNew "No password supplied for encrypted database.")
  | Some _, Some p =>
      match opens t p with Some mk => Ok (copy_key mk) | None => Err ErrDecryptionFailed end
  end.

Lemma ensure_same t p k : tx_Bucket t p = true → tx_Bucket t (p ++ [k]) = true →
  bucket_CreateBucketIfNotExists p k t = (Ok tt, t).
Proof. intros Hp Hk. unfold bucket_CreateBucketIfNotExists. by rewrite on_bucket_ok, Hk. Qed.

Lemma Construct_tx_old w mk pass0 pass :
  formatted (db w) → sealed_key (db w) mk pass0 →
  Construct_tx pass w = (open_answer (db w) pass0 pass, w).
Proof.
  intros [Hm Hc Hu Hk Hr Hv] Hs. pose proof (root_Bucket _ _ Hm) as Hroot.
  unfold Construct_tx.
  run_step ltac:(apply tx_same, ensure_same; done).
  run_step ltac:(apply tx_same, ensure_same; done).
  run_step ltac:(apply tx_same, ensure_same; done).
  run_step ltac:(apply tx_same, bucket_Get_ok; done). rewrite Hv. cbn [be latestStoreVersion].
  rewrite Z_of_byte_of_Z. cbn [negb Z.eqb].
  run_step ltac:(reflexivity).
  run_step ltac:(apply tx_same, bucket_Get_ok; done). unfold open_answer.
  destruct pass0 as [p0|].
  - destruct Hs as (salt & nonce & Hn & Hmk & Hs & He). rewrite He.
    destruct pass as [p|]; [|done].
    set (v := (nonce ++ secretbox_Seal mk nonce (deriveKey p0 salt))%string).
    assert (String.length v = 72%nat) as Hlv.
    { unfold v. by rewrite slength_app, Seal_length, Hn, Hmk. }
    rewrite Hlv. cbn [Nat.ltb Nat.leb nonceSize keySize Overhead Nat.add].
    destruct (slice_app nonce (secretbox_Seal mk nonce (deriveKey p0 salt)) nonceSize Hn) as [S1 S2].
    run_step ltac:(unfold lift, v; rewrite S1; reflexivity).
    run_step ltac:(apply tx_same, bucket_Get_ok; done).
    run_step ltac:(unfold lift, v; rewrite S2; reflexivity).
    unfold opens. rewrite He, Hs. change (default EmptyString (Some salt)) with salt.
    fold v. unfold v. rewrite sdrop_app, stake_app by done.
    by destruct (secretbox_Open _ _ _).
  - destruct Hs as [-> He]. rewrite He. by destruct pass.
Qed.

(** *** Adding the users found *)

(** Nothing but buckets of users and of their broadcast addresses is new. *)
Definition users_ext (t t' : Tx) : Prop :=
  (∀ p k, tx_Get t' p k = tx_Get t p k) ∧
  (∀ p, tx_Bucket t p = true → tx_Bucket t' p = true) ∧
  (∀ p, tx_Bucket t' p = true → tx_Bucket t p = true ∨
     ∃ n, p = [n] ∨ p = [n; broadcastAddressesBucket]).

Lemma users_ext_refl t : users_ext t t.
Proof. split; [done|]. split; [done|]. by left. Qed.

Lemma users_ext_trans t1 t2 t3 : users_ext t1 t2 → users_ext t2 t3 → users_ext t1 t3.
Proof.
  intros (G1 & B1 & C1) (G2 & B2 & C2). split; [|split].
  - intros. by rewrite G2, G1.
  - auto.
  - intros p [H|H]%C2; [by apply C1|by right].
Qed.

Lemma formatted_ext t t' : formatted t → users_ext t t' → formatted t'.
Proof.
  intros [Hm Hc Hu Hk Hr Hv] (G & B & C). split; auto; [|intros; by rewrite G|by rewrite G].
  intros k Hin. apply not_true_iff_false. intros [H|[n [H|H]]]%C; [|done|].
  - rewrite Hk in H; done.
  - injection H as _ ->. by apply (bool_decide_eq_false_1 (broadcastAddressesBucket ∈ misc_keys)) in Hin; [|vm_compute].
Qed.

Lemma sealed_ext t t' mk pass : sealed_key t mk pass → users_ext t t' → sealed_key t' mk pass.
Proof. intros H (G & _). unfold sealed_key in *. destruct pass; by setoid_rewrite G. Qed.

Lemma decode_all_returns l : returns (decode_all l).
Proof.
  induction l as [|k l IH]; [done|]. simpl. munfold. pose proof (Decode_returns k) as Hd.
  destruct (DecodeAddress k); [|done..]. by destruct (decode_all l).
Qed.

(** The closure of [newBroadcastsStore]. *)
Definition broadcasts_tx (username : string) : M world (list Address) :=
  _ ← tx (bucket_CreateBucketIfNotExists [] username);
  _ ← tx (bucket_CreateBucketIfNotExists [username] broadcastAddressesBucket);
  l ← tx (bucket_Cursor [username; broadcastAddressesBucket]);
  lift (decode_all l.*1).

Lemma broadcasts_tx_ok w n : key_ok n → tx_Bucket (db w) [] = true → tx_Get (db w) [] n = None →
  (∃ e w', broadcasts_tx n w = (Err e, w') ∧ ∃ t, w' = set_db t w) ∨
  ∃ addrs t, broadcasts_tx n w = (Ok addrs, set_db t w) ∧ users_ext (db w) t.
Proof.
  intros Hn Hroot Hg. destruct (ensure_bucket (db w) [] n Hroot Hn Hg) as (t1 & E1 & G1 & B1).
  assert (tx_Bucket t1 [n] = true) as Hb1 by (apply B1; by left).
  assert (key_ok broadcastAddressesBucket) as Hk by (split; [done|vm_compute; discriminate]).
  unfold broadcasts_tx. rewrite (bind_Ok _ _ _ _ _ (tx_Ok _ w _ _ E1)).
  destruct (tx_Get t1 [n] broadcastAddressesBucket) as [v|] eqn:Hgb.
  { left. destruct (CreateBucket_pair _ _ _ _ Hgb) as [e He]. exists e, (set_db t1 (set_db t1 w)).
    split; [|by exists t1]. apply bind_Err, tx_Err. unfold bucket_CreateBucketIfNotExists.
    cbn [db set_db]. rewrite on_bucket_ok by done. apply Get_Bucket in Hgb as [_ Hgb]. by rewrite Hgb. }
  destruct (ensure_bucket t1 [n] broadcastAddressesBucket Hb1 Hk Hgb) as (t2 & E2 & G2 & B2).
  rewrite (bind_Ok _ _ _ _ _ (tx_Ok _ (set_db t1 w) _ _ E2)).
  assert (tx_Bucket t2 [n; broadcastAddressesBucket] = true) as Hb2 by (apply B2; by left).
  assert (bucket_Cursor [n; broadcastAddressesBucket] t2 =
    (Ok (tx_Cursor t2 [n; broadcastAddressesBucket]), t2)) as E3.
  { unfold bucket_Cursor. by rewrite on_bucket_ok. }
  rewrite (bind_Ok _ _ _ _ _ (tx_Ok _ (set_db t2 (set_db t1 w)) _ _ E3)).
  pose proof (decode_all_returns (tx_Cursor t2 [n; broadcastAddressesBucket]).*1) as Hd. unfold lift.
  destruct (decode_all _) as [addrs|e| |]; [right|left|done..].
  - exists addrs, t2. split; [done|]. split; [|split].
    + intros. by rewrite G2, G1.
    + intros p Hp. apply B2; right. apply B1. by right.
    + intros p [->|[->|Hp]%B1]%B2; eauto.
  - eexists e, _. split; [reflexivity|]. by exists t2.
Qed.

Lemma newBroadcastsStore_ok w n :
  writing w = false → key_ok n → tx_Bucket (db w) [] = true → tx_Get (db w) [] n = None →
  ∃ r w', newBroadcastsStore n w = (r, w') ∧ returns r ∧ users_ext (db w) (db w') ∧ writing w' = false ∧
    db_open w' = db_open w.
Proof.
  intros Hw Hn Hroot Hg. unfold newBroadcastsStore. fold (broadcasts_tx n). munfold. unfold Update.
  destruct (db_open w) eqn:Ho; cbn [negb].
  2:{ eexists _, w. split; [reflexivity|]. split; [done|]. split; [apply users_ext_refl|done]. }
  rewrite Hw.
  destruct (broadcasts_tx_ok (set_writing true w) n Hn Hroot Hg) as [(e & w' & -> & t & ->)|(addrs & t & -> & Hx)].
  - eexists _, _. split; [reflexivity|]. split; [done|]. split; [apply users_ext_refl|done].
  - eexists _, _. split; [reflexivity|]. by split.
Qed.

Definition users_ok (t : Tx) (names : list string) : Prop :=
  tx_Bucket t [] = true ∧ (∀ k, tx_Get t [] k = None) ∧ Forall key_ok names.

Lemma addUser_ok s n : writing (st_wld s) = false → users_ok (db (st_wld s)) [n] →
  ∃ r s', addUser n s = (r, s') ∧ returns r ∧ users_ext (db (st_wld s)) (db (st_wld s')) ∧
    writing (st_wld s') = false ∧ st_masterKey (st_this s') = st_masterKey (st_this s).
Proof.
  intros Hw (Hroot & Hg & Hn). apply Forall_cons in Hn as [Hn _].
  destruct (newBroadcastsStore_ok (st_wld s) n Hw Hn Hroot (Hg n)) as (r & w' & E & Hr & Hx & Hw' & _).
  unfold addUser, onsw, store_Close. munfold. rewrite E. destruct r as [b|e| |]; [| |done..].
  - eexists _, _. split; [reflexivity|]. split; [done|]. by split.
  - unfold db_Close. eexists _, _. split; [reflexivity|]. split; [done|]. by split.
Qed.

(** The loop of [Construct] over the users. *)
Lemma addUsers_ok names s : writing (st_wld s) = false → users_ok (db (st_wld s)) names →
  ∃ s', mfor names (λ name, _ ← try (addUser name); mret tt) s = (Ok tt, s') ∧
    users_ext (db (st_wld s)) (db (st_wld s')) ∧ writing (st_wld s') = false ∧
    st_masterKey (st_this s') = st_masterKey (st_this s).
Proof.
  revert s; induction names as [|n names IH]; intros s Hw (Hroot & Hg & Hn).
  { exists s. split; [done|]. by split; [apply users_ext_refl|]. }
  apply Forall_cons in Hn as [Hn Hns].
  destruct (addUser_ok s n Hw) as (r & s1 & E & Hr & Hx & Hw1 & Hk).
  { split; [done|]. split; [done|]. by apply Forall_cons_2, Forall_nil_2. }
  destruct (IH s1 Hw1) as (s2 & E2 & Hx2 & Hw2 & Hk2).
  { destruct Hx as (G & B & _). split; [auto|]. split; [intros; by rewrite G|done]. }
  exists s2. split; [|split; [by eapply users_ext_trans|split; [done|congruence]]].
  cbn [mfor]. munfold. rewrite E. destruct r; done.
Qed.

(** *** The loader *)

(** A loader over a formatted database that can be opened. *)
Record ready (l : Loader) (mk : string) (pass : option string) : Prop := {
  rd_db : l_db l = true;
  rd_idle : idle (l_wld l);
  rd_formatted : formatted (db (l_wld l));
  rd_sealed : sealed_key (db (l_wld l)) mk pass;
  rd_users n o : (n, o) ∈ tx_Cursor (db (l_wld l)) [usersBucket] → key_ok n;
}.

Lemma or_close_Ok {A} (m : M Loader A) l a l' : m l = (Ok a, l') → or_close m l = (Ok a, l').
Proof. intros H. unfold or_close. munfold. by rewrite H. Qed.

Lemma or_close_Err {A} (m : M Loader A) l e l' : m l = (Err e, l') → l_db l' = true →
  ∃ l'', or_close m l = (Err e, l'') ∧ l_db l'' = false ∧ db (l_wld l'') = db (l_wld l').
Proof.
  intros H Hd. unfold or_close, loader_Close, onl. munfold. rewrite H. cbv beta. rewrite Hd. cbn [negb].
  eexists. split; [reflexivity|]. done.
Qed.

Lemma onl_run {A} (m : M world A) l r w : m (l_wld l) = (r, w) → onl m l = (r, MkLoader (l_db l) w).
Proof. intros H. unfold onl, zoom. by rewrite H. Qed.

(** [Construct] after the master key is known. *)
Definition Construct_rest (masterKey : string) : M Loader Store :=
  _ ← or_close (onl initializePKRequestStore);
  users ← or_close (onl (λ w, (bucket_keys [usersBucket] w, w)));
  let store := MkStore (Some masterKey) ∅ in
  zoom (λ l, SW store (l_wld l)) (λ s l, MkLoader (l_db l) (st_wld s))
    (_ ← mfor users (λ name, _ ← try (addUser name); mret tt);
     gets st_this).

Lemma Construct_unfold pass l : l_db l = true →
  Construct pass l = (masterKey ← or_close (onl (Update (Construct_tx pass))); Construct_rest masterKey) l.
Proof. intros H. unfold Construct. munfold. by rewrite H. Qed.

Lemma pk_init_ok w : idle w → tx_Bucket (db w) [] = true → tx_Get (db w) [] pkRequestsBucket = None →
  ∃ t, initializePKRequestStore w = (Ok tt, set_db t w) ∧ users_ext (db w) t ∧
    tx_Bucket t [pkRequestsBucket] = true.
Proof.
  intros [Ho Hw] Hroot Hg.
  destruct (ensure_bucket (db w) [] pkRequestsBucket Hroot) as (t & E & G & B);
    [split; [done|vm_compute; discriminate]|done|].
  exists t. unfold initializePKRequestStore. rewrite Update_tx, E by done. split; [done|]. split.
  - split; [done|]. split; [intros p Hp; apply B; by right|].
    intros p [->|?]%B; [right; exists pkRequestsBucket; by left|by left].
  - apply B. by left.
Qed.

Lemma users_cursor_ext t t' : users_ext t t' → tx_Bucket t [usersBucket] = true →
  ∀ n o, (n, o) ∈ tx_Cursor t' [usersBucket] → (n, o) ∈ tx_Cursor t [usersBucket] ∨ n = broadcastAddressesBucket.
Proof.
  intros (G & _ & C) Hb n o He. apply Cursor_elem in He. destruct o as [v|].
  - left. apply Cursor_elem. by rewrite <-G.
  - apply C in He as [He|[k [H|H]]]; [left; by apply Cursor_elem|done|right]. by injection H.
Qed.

Lemma Construct_rest_ok l mk pass : ready l mk pass →
  ∃ users l', Construct_rest mk l = (Ok (MkStore (Some mk) users), l') ∧
    l_db l' = true ∧ writing (l_wld l') = false ∧
    formatted (db (l_wld l')) ∧ sealed_key (db (l_wld l')) mk pass ∧
    ∀ n o, (n, o) ∈ tx_Cursor (db (l_wld l')) [usersBucket] → key_ok n.
Proof.
  intros [Hd Hi Hf Hs Hu]. pose proof (root_Bucket _ _ (fm_misc _ Hf)) as Hroot.
  destruct (pk_init_ok (l_wld l) Hi Hroot (fm_root _ Hf _)) as (t1 & E1 & X1 & _).
  pose proof (formatted_ext _ _ Hf X1) as Hf1. pose proof (fm_users _ Hf1) as Hu1.
  set (w1 := set_db t1 (l_wld l)) in *. destruct Hi as [Ho Hw].
  assert (bucket_keys [usersBucket] w1 = Ok (tx_Cursor t1 [usersBucket]).*1) as E2.
  { unfold bucket_keys, View, bucket_Cursor. simpl. rewrite Ho. simpl. rewrite on_bucket_ok by done. done. }
  assert (∀ t n o, users_ext (db (l_wld l)) t → (n, o) ∈ tx_Cursor t [usersBucket] → key_ok n) as Hkeys.
  { intros t n o X He. destruct (users_cursor_ext _ _ X (fm_users _ Hf) _ _ He) as [?| ->]; [by eapply Hu|].
    split; [done|vm_compute; discriminate]. }
  destruct (addUsers_ok (tx_Cursor t1 [usersBucket]).*1 (SW (MkStore (Some mk) ∅) w1)) as (s' & E3 & X3 & Hw3 & Hk3).
  { done. }
  { split; [apply root_Bucket with (p := [usersBucket]); exact Hu1|]. split; [apply (fm_root _ Hf1)|].
    apply Forall_forall. intros n ([n' o] & -> & He)%list_elem_of_fmap. by apply (Hkeys t1 n' o). }
  exists (st_users (st_this s')), (MkLoader (l_db l) (st_wld s')). split; [|split; [done|split; [done|]]].
  - unfold Construct_rest.
    run_step ltac:(apply or_close_Ok, onl_run; exact E1).
    run_step ltac:(apply or_close_Ok, onl_run; cbn [l_wld]; fold w1; rewrite E2; reflexivity).
    unfold zoom. cbn [l_wld]. munfold. rewrite E3. simpl in Hk3. rewrite <-Hk3. by destruct (st_this s').
  - simpl in X3. assert (users_ext (db (l_wld l)) (db (st_wld s'))) as X by by eapply users_ext_trans.
    split; [by eapply formatted_ext|]. split; [by eapply sealed_ext|]. intros. by eapply Hkeys.
Qed.

(** Opening a database that exists. *)
Lemma Construct_old l mk pass0 pass : ready l mk pass0 →
  match open_answer (db (l_wld l)) pass0 pass with
  | Ok mk' => mk' = mk → ∃ users l', Construct pass l = (Ok (MkStore (Some mk') users), l') ∧
      l_db l' = true ∧ writing (l_wld l') = false ∧
      formatted (db (l_wld l')) ∧ sealed_key (db (l_wld l')) mk pass0 ∧
      ∀ n o, (n, o) ∈ tx_Cursor (db (l_wld l')) [usersBucket] → key_ok n
  | Err e => ∃ l', Construct pass l = (Err e, l') ∧ l_db l' = false ∧ db (l_wld l') = db (l_wld l)
  | _ => False
  end.
Proof.
  intros Hr. pose proof Hr as [Hd Hi Hf Hs Hu]. destruct (Hi) as [Ho Hw].
  pose proof (Construct_tx_old (set_writing true (l_wld l)) mk pass0 pass Hf Hs) as E.
  change (db (set_writing true (l_wld l))) with (db (l_wld l)) in E.
  assert (set_writing false (set_writing true (l_wld l)) = l_wld l) as Hsw
    by (destruct l as [? []]; simpl in *; by subst).
  rewrite Construct_unfold by done.
  destruct (open_answer (db (l_wld l)) pass0 pass) as [mk'|e| |] eqn:Ea.
  - intros ->. destruct (Construct_rest_ok l mk pass0 Hr) as (users & l' & E' & H').
    exists users, l'. split; [|done].
    run_step ltac:(apply or_close_Ok, onl_run; unfold Update; rewrite Ho, Hw, E; cbn [negb]; rewrite Hsw; reflexivity).
    by destruct l.
  - destruct (or_close_Err (onl (Update (Construct_tx pass))) l e (MkLoader (l_db l) (l_wld l)))
      as (l' & E' & Hd' & Ht'); [|done|].
    { apply onl_run. unfold Update. rewrite Ho, Hw, E. cbn [negb].
      change (db (set_writing true (l_wld l))) with (db (l_wld l)). by destruct l as [? []]; simpl in *; subst. }
    exists l'. split; [by apply bind_Err|done].
  - unfold open_answer in Ea. by repeat case_match.
  - unfold open_answer in Ea. by repeat case_match.
Qed.

(** Opening a new file. *)
Lemma Construct_new l pass : l_db l = true → idle (l_wld l) → blank (db (l_wld l)) →
  ∃ mk users l', Construct pass l = (Ok (MkStore (Some mk) users), l') ∧
    l_db l' = true ∧ writing (l_wld l') = false ∧
    formatted (db (l_wld l')) ∧ sealed_key (db (l_wld l')) mk pass ∧
    ∀ n o, (n, o) ∈ tx_Cursor (db (l_wld l')) [usersBucket] → key_ok n.
Proof.
  intros Hd [Ho Hw] Hbl.
  destruct (Construct_tx_new (set_writing true (l_wld l)) pass Hbl) as (mk & t & n & E & Hf & Hs & _ & Hg & Hb).
  set (l1 := MkLoader (l_db l) (World t (db_open (l_wld l)) false n (ticks (l_wld l)))).
  assert (ready l1 mk pass) as Hr1.
  { split; simpl; try done. intros k o He%Cursor_elem. destruct o.
    - by rewrite Hg in He.
    - apply Hb in He. unfold new_buckets in He.
      rewrite !elem_of_cons, elem_of_nil in He. simpl in He. intuition discriminate. }
  destruct (Construct_rest_ok l1 mk pass Hr1) as (users & l' & E' & H').
  exists mk, users, l'. split; [|done]. rewrite Construct_unfold by done.
  run_step ltac:(apply or_close_Ok, onl_run; unfold Update; rewrite Ho, Hw, E; cbn [negb]; reflexivity).
  exact E'.
Qed.
End opening.

(** ** Properties *)

Section properties.
Context {BT : Bolt} {EV : Env} {BM : Bmutil} {BL : BoltLaws} {EL : EnvLaws} {ML : BmutilLaws}.

(** The next process that opens the file, with its own randomness and clock. *)
Definition later (t : Tx) (n m : nat) : Loader := MkLoader true (World t true false n m).

Lemma copy_key_id s : String.length s = keySize → copy_key s = s.
Proof.
  intros H. unfold copy_key. rewrite H. change (keySize - keySize)%nat with 0%nat.
  rewrite sapp_nil_r. unfold stake. rewrite <-H. apply substring_full.
Qed.

(** Success with the master key [mk], or the error [e] with the database as
    it was and the loader closed. *)
Definition opens_as (r : res Store * Loader) (mk : string) : Prop :=
  ∃ users l', r = (Ok (MkStore (Some mk) users), l') ∧ l_db l' = true.
Definition refused (r : res Store * Loader) (e : error) (t : Tx) : Prop :=
  ∃ l', r = (Err e, l') ∧ l_db l' = false ∧ db (l_wld l') = t.

Lemma Construct_answers l mk pass0 pass : ready l mk pass0 →
  match pass0, pass with
  | None, None => opens_as (Construct pass l) mk
  | Some p0, Some p => (p = p0 → opens_as (Construct pass l) mk) ∧
      (opens (db (l_wld l)) p = None → refused (Construct pass l) ErrDecryptionFailed (db (l_wld l)))
  | None, Some _ => refused (Construct pass l) (ErrNew "Password given for unencrypted database.") (db (l_wld l))
  | Some _, None => refused (Construct pass l) (ErrNew "No password supplied for encrypted database.") (db (l_wld l))
  end.
Proof.
  intros Hr. pose proof (Construct_old l mk pass0 pass Hr) as H. pose proof (rd_sealed _ _ _ Hr) as Hs.
  unfold open_answer, opens_as, refused in *. destruct pass0 as [p0|], pass as [p|]; [|done|done|].
  - destruct (sealed_opens _ _ _ Hs) as [Hop Hlen]. split.
    + intros ->. rewrite Hop in H. rewrite (copy_key_id mk) in H by done.
      destruct (H eq_refl) as (users & l' & E & Hd & _). eauto.
    + intros Hn. by rewrite Hn in H.
  - destruct Hs as [-> _]. destruct (H eq_refl) as (users & l' & E & Hd & _). eauto.
Qed.

(** C12: a store created in a new file opens again in any later process with
    what it was created with, and gives back the same master key; without
    its passphrase, with a passphrase it does not have, or with one that
    does not open the sealed key, opening answers the documented error,
    writes nothing and closes the database. *)
Theorem Construct_create_open l pass :
  l_db l = true → idle (l_wld l) → blank (db (l_wld l)) →
  ∃ mk users l1, Construct pass l = (Ok (MkStore (Some mk) users), l1) ∧
    let t := db (l_wld l1) in
    ∀ pass' n m, match pass, pass' with
    | None, None => opens_as (Construct pass' (later t n m)) mk
    | Some p, Some p' => (p' = p → opens_as (Construct pass' (later t n m)) mk) ∧
        (opens t p' = None → refused (Construct pass' (later t n m)) ErrDecryptionFailed t)
    | None, Some _ => refused (Construct pass' (later t n m)) (ErrNew "Password given for unencrypted database.") t
    | Some _, None => refused (Construct pass' (later t n m)) (ErrNew "No password supplied for encrypted database.") t
    end.
Proof.
  intros Hd Hi Hb. destruct (Construct_new l pass Hd Hi Hb) as (mk & users & l1 & E & _ & _ & Hf & Hs & Hu).
  exists mk, users, l1. split; [exact E|]. intros t pass' n m.
  by apply (Construct_answers (later t n m) mk pass pass').
Qed.

(** C34: changing the passphrase keeps the master key, so that everything
    encrypted before can still be read: the file then opens with the new
    passphrase and gives the same key, and is refused without one, whatever
    the passphrase was before.  (A store that was not encrypted is accepted
    too, with the zero key: [Construct] never leaves the master key [nil],
    which [ChangePassphrase] tests to refuse such a store.) *)
Theorem ChangePassphrase_opens l mk pass0 users p n m :
  ready l mk pass0 → String.length mk = keySize →
  let s := SW (MkStore (Some mk) users) (l_wld l) in
  ∃ s', ChangePassphrase p s = (Ok tt, s') ∧
    let t := db (st_wld s') in
    opens_as (Construct (Some p) (later t n m)) mk ∧
    refused (Construct None (later t n m)) (ErrNew "No password supplied for encrypted database.") t.
Proof.
  intros [Hd [Ho Hw] Hf Hs Hu] Hlen s.
  set (nonce := rand_Read (reads (l_wld l)) nonceSize). set (salt := rand_Read (S (reads (l_wld l))) saltLength).
  set (v := (nonce ++ secretbox_Seal mk nonce (deriveKey p salt))%string).
  assert (String.length v = 72%nat) as Hlv.
  { unfold v. rewrite slength_app, Seal_length, Hlen. unfold nonce. by rewrite rand_Read_length. }
  destruct (misc_Put (db (l_wld l)) saltKey salt) as (t1 & E1 & G1 & B1);
    [solve_elem|unfold value_ok, salt; rewrite rand_Read_length; vm_compute; discriminate|apply Hf|apply (fm_keys _ Hf); solve_elem|].
  destruct (misc_Put t1 dbMasterKeyEnc v) as (t2 & E2 & G2 & B2);
    [solve_elem|unfold value_ok; rewrite Hlv; lia|rewrite B1; apply Hf|rewrite B1; apply (fm_keys _ Hf); solve_elem|].
  set (w2 := World t2 true false (S (S (reads (l_wld l)))) (ticks (l_wld l))).
  exists (SW (st_this s) w2). split.
  { unfold ChangePassphrase, s. munfold. unfold onsw, zoom, Update, encryptKey, read_rand. munfold.
    cbn [st_masterKey st_this st_wld db db_open writing reads ticks]. rewrite Ho, Hw. cbn [negb].
    unfold tx, zoom. cbn [db set_writing set_db db_open writing reads ticks].
    fold nonce salt v. rewrite E1. cbn [db set_writing set_db db_open writing reads ticks]. rewrite E2.
    reflexivity. }
  intros t. assert (ready (later t n m) mk (Some p)) as Hr.
  { assert (∀ q k, q ≠ [miscBucket] → tx_Get t2 q k = tx_Get (db (l_wld l)) q k) as Hq.
    { intros q k Hq. rewrite G2, decide_False, G1, decide_False by (by intros []). done. }
    split; simpl; [done|done| | |].
    - destruct Hf as [Fm Fc Fu Fk Fr Fv]. split; try (by rewrite B2, B1).
      + intros k Hk. rewrite B2, B1. by apply Fk.
      + intros k. by rewrite Hq.
      + by rewrite G2, decide_False, G1, decide_False by (by intros []).
    - exists salt, nonce. split; [apply rand_Read_length|]. split; [done|].
      rewrite !G2, decide_False, decide_True, G1, decide_True by (done || by intros []). done.
    - intros k o He. apply (Hu k o). apply Cursor_elem. apply Cursor_elem in He.
      destruct o; [by rewrite Hq in He|by rewrite B2, B1 in He]. }
  pose proof (Construct_answers _ _ _ (Some p) Hr) as [H1 _].
  pose proof (Construct_answers _ _ _ None Hr) as H2. split; [by apply H1|exact H2].
Qed.

(** A counter reads back what was last set for its object type, 1 when
    it was never set, and setting one type leaves the others as they were. *)
Theorem counters_map s o c :
  counters_db s → is_u32 o → is_u64 c →
  ∃ s', SetCounter o c s = (Ok tt, s') ∧ counters_db s' ∧
    ∀ o', is_u32 o' → GetCounter o' s' = if decide (o' = o) then Ok c else GetCounter o' s.
Proof. intros Hs Ho Hc. destruct (SetCounter_step s o c Hs Ho Hc) as (s' & ? & ? & ? & _). by exists s'. Qed.

(** C33: the watch list of public key requests is a map from addresses to
    the number of requests made (on 32 bits) and the time of the last one:
    on any sequence of calls [New] returns the incremented count,
    [LastRequestTime] the time of the last [New] or [ErrNotFound], and
    [Remove] forgets the address; [ForEach] then runs its function once for
    each address, in order of address, and stops at its first error. *)
Theorem pk_requests_map w s ops :
  pk_rep w s → Forall pk_op_ok ops →
  let '(outs, w') := run_seq do_pk ops w in
  let '(outs', s') := run_seq spec_pk ops s in
  outs = outs' ∧
  ∃ l, StronglySorted (λ x y : string * (Z * Time), blt x.1 y.1) l ∧
    (∀ k e, (k, e) ∈ l ↔ s'.1 !! k = Some e) ∧
    ∀ S (f : string → Z → Time → M S unit) st, pk_ForEach f w' st = mfor l (visit_pk f) st.
Proof.
  intros Hr Hok. pose proof (do_pk_run ops w s Hr Hok) as H.
  destruct (run_seq do_pk ops w) as [outs w'], (run_seq spec_pk ops s) as [outs' s'].
  destruct H as [-> Hr']. split; [done|]. by apply pk_ForEach_ok.
Qed.

(** Removing a broadcast address that is there panics: the closure reads
    the address in the bucket of the user, and deletes it from a bucket
    [broadcastAddresses] at the top of the database, which is [nil]. *)
Theorem broadcasts_Remove_panics b address a v :
  idle (ba_wld b) → DecodeAddress address = Ok a →
  tx_Get (db (ba_wld b)) [ba_username (ba_this b); broadcastAddressesBucket] address = Some v →
  tx_Bucket (db (ba_wld b)) [broadcastAddressesBucket] = false →
  (broadcasts_Remove address b).1 = Panic.
Proof.
  intros [Ho Hw] Ha Hg Hb. unfold broadcasts_Remove. munfold. rewrite Ha.
  unfold onbw, zoom. rewrite Update_tx by done. simpl. destruct (Get_Bucket _ _ _ _ Hg) as [Hu _].
  unfold bucket_Get, bucket_Delete. rewrite on_bucket_ok by done. simpl. rewrite Hg.
  unfold on_bucket. by rewrite Hb.
Qed.

(** Asking for a new user with an empty name closes the whole store: the
    bucket cannot be created, and [addUser] answers any error by closing
    the database, so that every later transaction fails. *)
Theorem NewUser_empty_closes s :
  idle (st_wld s) → tx_Bucket (db (st_wld s)) [] = true → tx_Bucket (db (st_wld s)) [""%string] = false →
  st_users (st_this s) !! ""%string = None →
  let '(r, s') := NewUser "" s in
  is_Ok r = false ∧ db (st_wld s') = db (st_wld s) ∧
  ∀ A (m : M world A), Update m (st_wld s') = (Err ErrDatabaseNotOpen, st_wld s').
Proof.
  intros [Ho Hw] Hroot Hb Hu. destruct (CreateBucket_blank (db (st_wld s)) []) as [e He].
  assert (newBroadcastsStore "" (st_wld s) = (Err e, st_wld s)) as E.
  { unfold newBroadcastsStore, Update. munfold. rewrite Ho, Hw. cbn [negb]. unfold tx, zoom.
    cbn [db set_writing]. unfold bucket_CreateBucketIfNotExists. rewrite on_bucket_ok by done.
    cbn [app]. rewrite Hb, He. unfold set_db, set_writing. cbn.
    by destruct (st_wld s); simpl in *; subst. }
  unfold NewUser, addUser, store_Close, onsw, db_Close. munfold. rewrite Hu, E. simpl.
  split; [done|]. split; [done|]. intros A m. unfold Update. done.
Qed.
End properties.

(** ** Witnesses *)

Import Model EnvModel BmutilModel.

Definition new_file : Loader := MkLoader true (World tx_new true false 0 0).

Lemma new_file_blank : blank (db (l_wld new_file)).
Proof. split; [apply new_Get|apply new_Bucket]. Qed.

Lemma Construct_create_open_witness :
  ∃ mk users l1, Construct (Some "secret"%string) new_file = (Ok (MkStore (Some mk) users), l1) ∧
    opens_as (Construct (Some "secret"%string) (later (db (l_wld l1)) 7 9)) mk ∧
    refused (Construct (Some "wrong"%string) (later (db (l_wld l1)) 7 9)) ErrDecryptionFailed (db (l_wld l1)).
Proof.
  destruct (Construct_create_open new_file (Some "secret"%string)) as (mk & users & l1 & E & H);
    [done|done|apply new_file_blank|].
  exists mk, users, l1. split; [exact E|]. split.
  - by apply (H (Some "secret"%string) 7%nat 9%nat).
  - apply (H (Some "wrong"%string) 7%nat 9%nat).
    assert (db (l_wld (Construct (Some "secret"%string) new_file).2) = db (l_wld l1)) as <- by by rewrite E.
    vm_compute. reflexivity.
Defined.

Lemma new_file_ready : ∃ mk l1, String.length mk = keySize ∧ ready l1 mk None.
Proof.
  destruct (Construct_new new_file None) as (mk & users & l1 & _ & _ & _ & Hf & Hs & Hu);
    [done|done|apply new_file_blank|].
  exists mk, (later (db (l_wld l1)) 0 0). split; [|by split].
  destruct Hs as [-> _]. apply be_length.
Qed.

Lemma ChangePassphrase_opens_witness :
  ∃ mk l1 s', ChangePassphrase "new" (SW (MkStore (Some mk) ∅) (l_wld l1)) = (Ok tt, s') ∧
    opens_as (Construct (Some "new"%string) (later (db (st_wld s')) 3 4)) mk.
Proof.
  destruct new_file_ready as (mk & l1 & Hlen & Hr). exists mk, l1.
  destruct (ChangePassphrase_opens l1 mk None ∅ "new" 3 4 Hr Hlen) as (s' & E & H & _).
  exists s'. split; [exact E|exact H].
Defined.

Definition counter_store : sworld :=
  SW (MkStore None ∅) (World (BTx {[ ["misc"]; ["misc"; "counters"] ]} ∅) true false 0 0).

Lemma counters_map_witness :
  ∃ s', SetCounter 2 77 counter_store = (Ok tt, s') ∧ GetCounter 2 s' = Ok 77 ∧ GetCounter 3 s' = Ok 1.
Proof.
  destruct (counters_map counter_store 2 77) as (s' & E & _ & H).
  - split; [done|reflexivity|]. intros k. apply not_has; [done|]. simpl. set_solver.
  - done.
  - done.
  - exists s'. split; [exact E|]. split; [apply (H 2); done|].
    rewrite (H 3) by done. vm_compute. reflexivity.
Defined.

Definition pk_store : world := World (BTx {[ ["pubkeyRequests"] ]} ∅) true false 0 0.

Lemma pk_requests_map_witness :
  (run_seq do_pk [PkNew "BM-a"; PkNew "BM-a"; PkLast "BM-a"; PkRemove "BM-a"; PkLast "BM-a"] pk_store).1 =
  [OutCount (Ok 1); OutCount (Ok 2); OutTime (Ok (time_Now 1)); OutRemove (Ok tt); OutTime (Err ErrNotFound)].
Proof.
  pose proof (pk_requests_map pk_store (∅, 0%nat)
    [PkNew "BM-a"; PkNew "BM-a"; PkLast "BM-a"; PkRemove "BM-a"; PkLast "BM-a"]) as H.
  destruct (run_seq do_pk _ pk_store) as [outs w']. destruct (run_seq spec_pk _ _) as [outs' s'] eqn:E.
  destruct H as [-> _].
  - split; simpl; [done|reflexivity| | | |done].
    + intros k. apply not_has; [done|]. simpl. set_solver.
    + intros k. rewrite lookup_empty. unfold lookup_pair. by case_match.
    + intros k n t. by rewrite lookup_empty.
  - repeat first [apply Forall_nil_2 | apply Forall_cons_2]; try done; split; (done || vm_compute; discriminate).
  - vm_compute in E. by injection E as <- _.
Defined.

Definition alice_broadcasts : bworld :=
  BW (MkBroadcastAddresses "alice" (["x"%string] : list (@Address BmutilModel.model)))
    (World (BTx {[ ["alice"]; ["alice"; "broadcastAddresses"] ]}
      {[ (["alice"; "broadcastAddresses"], "BM-x"%string) := ""%string ]}) true false 0 0).

Lemma broadcasts_Remove_panics_witness : (broadcasts_Remove "BM-x" alice_broadcasts).1 = Panic.
Proof. by apply (broadcasts_Remove_panics alice_broadcasts "BM-x" "x"%string ""). Defined.

Lemma NewUser_empty_closes_witness :
  let '(r, s') := NewUser "" counter_store in
  is_Ok r = false ∧ Update (read_now) (st_wld s') = (Err ErrDatabaseNotOpen, st_wld s').
Proof.
  pose proof (NewUser_empty_closes counter_store) as H.
  destruct (NewUser "" counter_store) as [r s']. destruct H as (H1 & _ & H3); [done|reflexivity..|].
  split; [exact H1|]. apply H3.
Defined.
