(* ===== verification/Database.v ===== *)
(** * One database, many objects ([store/])

    A running store has one database, and everything kept in it shares that
    database: the folders of every user ([Folders]), the watch list of public
    key requests and the counters ([Store]).  Here they run together, over
    one world, from the file that [Construct] creates.

    Proved: any interleaving of operations gives the results of structures
    that share nothing.  It is what lets the models of the users and of the
    server ([User], [Server]) give each its own state. *)

From S2P Require Import Prelude Bytes Bolt BoltModel StoreEnv FolderSpec BoltFolder Folders Bmutil Store.
Local Open Scope Z_scope.
Local Open Scope list_scope.

(** ** The operations, on the store and on structures of their own *)

Inductive db_op :=
  | DbOpen (username : string)                     (** open the folders of a user *)
  | DbFolders (username : string) (op : folders_op)
  | DbWatch (op : pk_op)
  | DbSetCounter (objType counter : Z)
  | DbGetCounter (objType : Z).

Inductive db_out `{!Env} :=
  | OutOpen (names : res (gset string))
  | OutFolders (o : option folders_out)            (** [None]: no such user was opened *)
  | OutWatch (o : pk_out)
  | OutSet (r : res unit)
  | OutCounter (r : res Z).

Section database.
Context {BT : Bolt} {EV : Env} {BM : Bmutil}.

(** The [folders] objects of the users opened, which all use the world of
    the store. *)
Record database := Database {
  d_users : gmap string userFolders;
  d_store : sworld;
}.

Definition user_view (d : database) (st : userFolders) : userFolders := uf_set_world (st_wld (d_store d)) st.
Definition set_wld (w : world) (s : sworld) : sworld := SW (st_this s) w.

Definition do_db (op : db_op) (d : database) : db_out * database :=
  let w := st_wld (d_store d) in
  match op with
  | DbOpen u =>
      let '(r, w) := newFolders (st_masterKey (st_this (d_store d))) u (userPrefix ++ u)%string w in
      match r with
      | Ok st => (OutOpen (Ok (dom (uf_folders st))), Database (<[u := st]> (d_users d)) (set_wld w (d_store d)))
      | Err e => (OutOpen (Err e), Database (d_users d) (set_wld w (d_store d)))
      | Panic => (OutOpen Panic, Database (d_users d) (set_wld w (d_store d)))
      | Hang => (OutOpen Hang, Database (d_users d) (set_wld w (d_store d)))
      end
  | DbFolders u op =>
      match d_users d !! u with
      | None => (OutFolders None, d)
      | Some st =>
          let '(o, st) := do_folders op (user_view d st) in
          (OutFolders (Some o), Database (<[u := st]> (d_users d)) (set_wld (uf_world st) (d_store d)))
      end
  | DbWatch op => let '(o, w) := do_pk op w in (OutWatch o, Database (d_users d) (set_wld w (d_store d)))
  | DbSetCounter o c => let '(r, s) := SetCounter o c (d_store d) in (OutSet r, Database (d_users d) s)
  | DbGetCounter o => (OutCounter (GetCounter o (d_store d)), d)
  end.

Record adatabase := ADatabase {
  ad_users : gmap string (gmap string fstate);
  ad_watch : gmap string (Z * Time);
  ad_clock : nat;
  ad_counters : gmap Z Z;
}.

Definition spec_db (op : db_op) (a : adatabase) : db_out * adatabase :=
  let 'ADatabase users watch clock counters := a in
  match op with
  | DbOpen u =>
      let f := default ∅ (users !! u) in
      (OutOpen (Ok (dom f)), ADatabase (<[u := f]> users) watch clock counters)
  | DbFolders u op =>
      match users !! u with
      | None => (OutFolders None, a)
      | Some f =>
          let '(o, f) := spec_folders op f in
          (OutFolders (Some o), ADatabase (<[u := f]> users) watch (folders_reads o + clock)%nat counters)
      end
  | DbWatch op =>
      let '(o, (watch, clock)) := spec_pk op (watch, clock) in
      (OutWatch o, ADatabase users watch clock counters)
  | DbSetCounter o c => (OutSet (Ok tt), ADatabase users watch clock (<[o := c]> counters))
  | DbGetCounter o => (OutCounter (Ok (default 1 (counters !! o))), a)
  end.

Definition db_op_ok (op : db_op) : Prop :=
  match op with
  | DbOpen u => key_ok u ∧ key_ok (userPrefix ++ u)%string
  | DbFolders _ op => folders_op_ok op
  | DbWatch op => pk_op_ok op
  | DbSetCounter o c => is_u32 o ∧ is_u64 c
  | DbGetCounter o => is_u32 o
  end.
End database.

(** ** What an operation on another part of the database leaves alone *)

Section frames.
Context {BT : Bolt} {EV : Env} {BM : Bmutil} {BL : BoltLaws} {EL : EnvLaws}.

(** The buckets from [p] on are the same. *)
Definition same_at (p : list string) (t t' : Tx) : Prop := ∀ q,
  (∀ k, tx_Get t' (p ++ q) k = tx_Get t (p ++ q) k) ∧ tx_Bucket t' (p ++ q) = tx_Bucket t (p ++ q).

Lemma frame_same_at p p' t t' : frame p' t t' → ¬ p' `prefix_of` p → ¬ p `prefix_of` p' → same_at p t t'.
Proof.
  intros Hf H1 H2 q. apply Hf. intros H.
  destruct (prefix_weak_total p' p (p ++ q)) as [?|?]; [done|by exists q|done|done].
Qed.

Lemma db_rep_same p q mk s t t' : same_at p t t' → p `prefix_of` q → db_rep t q mk s → db_rep t' q mk s.
Proof.
  intros Hs [r ->] [Hwf Hn [Hb Hd Hsb Hg Hm]].
  pose proof (Hs r) as [Gr Br]. pose proof (Hs (r ++ [folderDataBucket])) as [Gd Bd].
  unfold data_path in *. rewrite !app_assoc in *. split; [done|by rewrite Gd|]. split.
  - by rewrite Br.
  - unfold data_path. by rewrite Bd.
  - intros k. rewrite <-app_assoc. destruct (Hs (r ++ [k])) as [_ ->]. rewrite app_assoc. apply Hsb.
  - intros k v. rewrite Gr. apply Hg.
  - intros id sfx x H. rewrite Gr. by apply Hm in H.
Qed.

Lemma folders_rep_same st a w : folders_rep st a → idle w →
  same_at [uf_bucketID st] (db (uf_world st)) (db w) → folders_rep (uf_set_world w st) a.
Proof.
  intros [Hi Hid Hb Hmi Hp Hd Hbs Hrp Hl] Hi' Hs.
  pose proof (Hs [foldersBucket]) as [Gf Bf]. pose proof (Hs [miscBucket]) as [_ Bm]. simpl in Gf, Bf, Bm.
  split; simpl; try done.
  - by rewrite Bf.
  - by rewrite Bm.
  - intros nm. by rewrite Gf.
  - intros nm. destruct (Hs [foldersBucket; nm]) as [_ B]. simpl in B. rewrite B. apply Hbs.
  - intros nm s H. destruct (Hrp nm s H) as [? Hr]. split; [done|].
    eapply db_rep_same; [exact Hs| |exact Hr]. rewrite Hid. by exists [foldersBucket; nm].
Qed.

Lemma pk_rep_same w s w' : pk_rep w s → idle w' → same_at [pkRequestsBucket] (db w) (db w') →
  pk_rep w' (s.1, ticks w').
Proof.
  intros [Hi Hb Hf Hg Hu Hc] Hi' Hs. pose proof (Hs []) as [G B]. simpl in G, B.
  split; simpl; try done.
  - by rewrite B.
  - intros k. destruct (Hs [k]) as [_ Bk]. simpl in Bk. by rewrite Bk.
  - intros k. by rewrite G.
Qed.

(** What the counters of a store read. *)
Record counters_rep (s : sworld) (m : gmap Z Z) : Prop := {
  cr_db : counters_db s;
  cr_get o : is_u32 o → GetCounter o s = Ok (default 1 (m !! o));
}.

Lemma counters_rep_same s s' m : counters_rep s m → idle (st_wld s') →
  same_at [miscBucket; countersBucket] (db (st_wld s)) (db (st_wld s')) → counters_rep s' m.
Proof.
  intros [[[Ho _] Hb Hf] Hg] Hi' Hs. pose proof (Hs []) as [G B]. simpl in G, B. split.
  - split; [done|by rewrite B|]. intros k. destruct (Hs [k]) as [_ Bk]. simpl in Bk. by rewrite Bk.
  - intros o Hu. rewrite <-Hg by done. unfold GetCounter, View, bucket_Get. destruct Hi' as [Ho' _].
    rewrite Ho, Ho'. cbn [negb]. rewrite !on_bucket_ok by (by rewrite ?B). cbn [fst]. by rewrite G.
Qed.
End frames.

(** ** The relation between the database and the structures *)

(** A name or a path is not in a list of others. *)
Ltac absent := unfold new_buckets; rewrite !not_elem_of_cons; repeat split; try (intros ?; simplify_eq/=; congruence);
  apply not_elem_of_nil.

Section refinement.
Context {BT : Bolt} {EV : Env} {BM : Bmutil} {BL : BoltLaws} {EL : EnvLaws}.

(** The object opened for a user. *)
Record user_rep (s : sworld) (u : string) (st : userFolders) (f : gmap string fstate) : Prop := {
  ur_key : uf_masterKey st = st_masterKey (st_this s);
  ur_name : uf_username st = u;
  ur_folders : folders_rep (uf_set_world (st_wld s) st) f;
}.

(** The directory of the users. *)
Record directory (t : Tx) (users : gmap string (gmap string fstate)) : Prop := {
  dy_bucket u : tx_Bucket t [(userPrefix ++ u)%string] = true → is_Some (users !! u);
  dy_root k : tx_Get t [] k = None;
  dy_users : tx_Bucket t [usersBucket] = true;
  dy_flat k : tx_Bucket t [usersBucket; k] = false;
  dy_latest : ∃ n, is_u64 n ∧ tx_Get t [miscBucket] usersLatestIDKey = Some (be64 n);
}.

Record db_inv (d : database) (a : adatabase) : Prop := {
  dv_idle : idle (st_wld (d_store d));
  dv_users u : option_Forall2 (user_rep (d_store d) u) (d_users d !! u) (ad_users a !! u);
  dv_directory : directory (db (st_wld (d_store d))) (ad_users a);
  dv_watch : pk_rep (st_wld (d_store d)) (ad_watch a, ad_clock a);
  dv_counters : counters_rep (d_store d) (ad_counters a);
}.

(** The parts of the database that the operations write. *)
Inductive db_part (users : gmap string (gmap string fstate)) : list string → Prop :=
  | PartUser u : is_Some (users !! u) → db_part users [(userPrefix ++ u)%string]
  | PartWatch : db_part users [pkRequestsBucket]
  | PartCounters : db_part users [miscBucket; countersBucket].

Lemma userPrefix_inj u u' : (userPrefix ++ u)%string = (userPrefix ++ u')%string → u = u'.
Proof. unfold userPrefix. simpl. by intros [=]. Qed.

(** No bucket of one part is in another. *)
Ltac apart := intros [? ?]; unfold userPrefix in *; simplify_eq/=; try congruence.

Lemma directory_frame users p t t' : db_part users p → frame p t t' → directory t users → directory t' users.
Proof.
  intros Hp Hf [Hb Hr Hu Hfl Hl].
  assert (∀ q, q ∈ ([[]; [miscBucket]; [usersBucket]] : list (list string)) ∨ (∃ k, q = [usersBucket; k]) →
    (∀ k, tx_Get t' q k = tx_Get t q k) ∧ tx_Bucket t' q = tx_Bucket t q) as Hq.
  { intros q Hin. apply Hf. rewrite !elem_of_cons, elem_of_nil in Hin.
    destruct Hp; destruct Hin as [[->|[->|[->|[]]]]|[? ->]]; apart. }
  split.
  - intros u. destruct (decide (p `prefix_of` [(userPrefix ++ u)%string])) as [Hpre|Hpre].
    + intros _. destruct Hp as [u' Hu'| |]; [|revert Hpre; by apart..].
      apply prefix_cons_inv_1, userPrefix_inj in Hpre. by subst.
    + destruct (Hf _ Hpre) as [_ ->]. apply Hb.
  - intros k. by rewrite (proj1 (Hq [] ltac:(left; solve_elem))).
  - by rewrite (proj2 (Hq [usersBucket] ltac:(left; solve_elem))).
  - intros k. rewrite (proj2 (Hq [usersBucket; k] ltac:(eauto))). apply Hfl.
  - destruct Hl as (n & Hn & Hl). exists n. by rewrite (proj1 (Hq [miscBucket] ltac:(left; solve_elem))).
Qed.

Lemma user_rep_same s s' u st f : user_rep s u st f → st_this s' = st_this s → idle (st_wld s') →
  same_at [(userPrefix ++ u)%string] (db (st_wld s)) (db (st_wld s')) → user_rep s' u st f.
Proof.
  intros [Hk Hn Hf] Ht Hi Hs. split; [by rewrite Ht|done|].
  eapply (folders_rep_same _ _ (st_wld s')) in Hf; [|done|].
  - by destruct st.
  - pose proof (fo_id _ _ Hf) as Hid. simpl in *. by rewrite Hid, Hn.
Qed.

(** The users of which an operation leaves the buckets alone. *)
Lemma users_same s s' (m : gmap string userFolders) (m' : gmap string (gmap string fstate)) u :
  option_Forall2 (user_rep s u) (m !! u) (m' !! u) →
  st_this s' = st_this s → idle (st_wld s') →
  same_at [(userPrefix ++ u)%string] (db (st_wld s)) (db (st_wld s')) →
  option_Forall2 (user_rep s' u) (m !! u) (m' !! u).
Proof. intros H Ht Hi Hs. destruct H; constructor. by eapply user_rep_same. Qed.

Lemma users_insert s' (m : gmap string userFolders) (m' : gmap string (gmap string fstate)) u st f :
  user_rep s' u st f → (∀ u', u' ≠ u → option_Forall2 (user_rep s' u') (m !! u') (m' !! u')) →
  ∀ u', option_Forall2 (user_rep s' u') (<[u := st]> m !! u') (<[u := f]> m' !! u').
Proof.
  intros Hu Hm u'. destruct (decide (u' = u)) as [->|Hne].
  - rewrite !lookup_insert_eq. by constructor.
  - rewrite !lookup_insert_ne by done. by apply Hm.
Qed.

(** An operation on one part leaves the others as they were. *)
Lemma other_user users p u t t' : db_part users p → frame p t t' → p ≠ [(userPrefix ++ u)%string] →
  same_at [(userPrefix ++ u)%string] t t'.
Proof.
  intros Hp Hf Hne. eapply frame_same_at; [exact Hf| |]; destruct Hp; apart;
    by match goal with H : String _ _ = _ |- _ => revert H; try discriminate end.
Qed.

Lemma other_watch users p t t' : db_part users p → frame p t t' → p ≠ [pkRequestsBucket] →
  same_at [pkRequestsBucket] t t'.
Proof. intros Hp Hf Hne. eapply frame_same_at; [exact Hf| |]; destruct Hp; apart. Qed.

Lemma other_counters users p t t' : db_part users p → frame p t t' → p ≠ [miscBucket; countersBucket] →
  same_at [miscBucket; countersBucket] t t'.
Proof. intros Hp Hf Hne. eapply frame_same_at; [exact Hf| |]; destruct Hp; apart. Qed.

(** Room for [n] more messages in every folder. *)
Definition room (n : Z) (a : adatabase) : Prop := ∀ u f, ad_users a !! u = Some f →
  ∀ nm s, f !! nm = Some s → fs_next s + n < 2 ^ 64.

Lemma room_less n a : room n a → room (n - 1) a.
Proof. intros H u f Hu nm s Hs. specialize (H u f Hu nm s Hs). lia. Qed.

Definition step_to (n : Z) (op : db_op) (d : database) (a : adatabase) : Prop :=
  let '(o, d') := do_db op d in let '(o', a') := spec_db op a in o = o' ∧ db_inv d' a' ∧ room (n - 1) a'.

Lemma watch_step n op d a : db_inv d a → pk_op_ok op → room n a → step_to n (DbWatch op) d a.
Proof.
  intros [Hi Hu Hd Hw Hc] Hok Hn. destruct a as [users watch clock counters]. unfold step_to.
  cbn [do_db spec_db ad_users ad_watch ad_clock ad_counters] in *.
  pose proof (do_pk_step op _ _ Hw Hok) as H. destruct (do_pk op _) as [o w'].
  destruct (spec_pk op (watch, clock)) as [o' [watch' clock']]. destruct H as (-> & Hw' & Hf).
  split; [done|]. split; [|by apply (room_less n (ADatabase users watch clock counters))].
  pose proof (PartWatch users) as Hp. pose proof (pk_idle _ _ Hw') as Hi'.
  split; simpl; try done.
  - intros u. apply (users_same (d_store d)); [apply Hu|done|done|].
    by eapply other_user.
  - by eapply directory_frame.
  - apply (counters_rep_same (d_store d)); [done|done|]. by eapply other_counters.
Qed.

Lemma set_step n o c d a : db_inv d a → is_u32 o → is_u64 c → room n a → step_to n (DbSetCounter o c) d a.
Proof.
  intros [Hi Hu Hd Hw Hc] Ho Hv Hn. destruct a as [users watch clock counters]. unfold step_to.
  cbn [do_db spec_db ad_users ad_watch ad_clock ad_counters] in *.
  destruct (SetCounter_step _ o c (cr_db _ _ Hc) Ho Hv) as (s' & -> & Hc' & Hg & Hf & Ht & Htk).
  split; [done|]. split; [|by apply (room_less n (ADatabase users watch clock counters))].
  pose proof (PartCounters users) as Hp. pose proof (cd_idle _ Hc') as Hi'.
  split; simpl; try done.
  - intros u. apply (users_same (d_store d)); [apply Hu|done|done|].
    by eapply other_user.
  - by eapply directory_frame.
  - replace clock with (ticks (st_wld s')) by (rewrite Htk; apply (pk_clock _ _ Hw)).
    apply (pk_rep_same _ _ _ Hw Hi'). by eapply other_watch.
  - split; [done|]. intros o' Ho'. rewrite Hg by done. destruct (decide (o' = o)) as [->|Hne].
    + by rewrite lookup_insert_eq.
    + rewrite lookup_insert_ne by congruence. by apply (cr_get _ _ Hc).
Qed.

Lemma folders_step n u op d a : db_inv d a → folders_op_ok op → 0 < n → 1 + n < 2 ^ 64 → room n a →
  step_to n (DbFolders u op) d a.
Proof.
  intros [Hi Hu Hd Hw Hc] Hok Hn Hn1 Hroom. destruct a as [users watch clock counters].
  unfold step_to, user_view.
  cbn [do_db spec_db ad_users ad_watch ad_clock ad_counters] in *. pose proof (Hu u) as Hu0.
  destruct (d_users d !! u) as [st|], (users !! u) as [f|] eqn:Ef; inversion Hu0 as [? ? Hr|]; subst.
  2:{ split; [done|]. split; [by split|by apply room_less]. }
  destruct Hr as [Hk Hname Hr].
  pose proof (do_folders_step op _ f n Hr Hok Hn (Hroom u f Ef) Hn1) as H.
  pose proof (do_folders_user op (uf_set_world (st_wld (d_store d)) st)) as (K & U & _).
  pose proof (fo_id _ _ Hr) as Hid.
  destruct (do_folders op _) as [o st'], (spec_folders op f) as [o' f'].
  destruct H as (-> & [Hr' [Hf Ht]] & Hroom'). simpl in *. rewrite Hid, Hname in Hf.
  split; [done|]. split.
  2:{ intros u' f1. simpl. rewrite lookup_insert_Some. intros [[_ <-]|[_ Hf1]]; [done|].
      apply (room_less n (ADatabase users watch clock counters) Hroom u' f1 Hf1). }
  assert (db_part users [(userPrefix ++ u)%string]) as Hp by (constructor; by rewrite Ef).
  pose proof (fo_idle _ _ Hr') as Hi'.
  split; simpl; [done| | | |].
  - apply users_insert.
    + split; simpl; [congruence|congruence|]. by destruct st'.
    + intros u' Hne. apply (users_same (d_store d)); [apply Hu|done|done|].
      eapply other_user; [exact Hp|done|]. intros [= E]. by apply Hne.
  - apply (directory_frame _ _ _ _ Hp Hf) in Hd. destruct Hd as [Hb ? ? ? ?]. split; try done.
    intros u' Hb'. rewrite lookup_insert_is_Some'. right. by apply Hb.
  - pose proof (pk_clock _ _ Hw) as Hck. simpl in Hck. rewrite <-Hck, <-Ht.
    apply (pk_rep_same _ _ _ Hw Hi'). by eapply other_watch.
  - apply (counters_rep_same (d_store d)); [done|done|]. by eapply other_counters.
Qed.

(** Opening the folders of a user the store knows. *)
Lemma open_known n u d a f : db_inv d a → ad_users a !! u = Some f → room n a → step_to n (DbOpen u) d a.
Proof.
  intros [Hi Hu Hd Hw Hc] Ef Hroom. destruct a as [users watch clock counters]. unfold step_to.
  cbn [do_db spec_db ad_users ad_watch ad_clock ad_counters] in *. pose proof (Hu u) as Hu0.
  rewrite Ef in Hu0. inversion Hu0 as [st ? Hr0|]; subst.
  destruct Hr0 as [Hk Hname Hr].
  apply folders_rep_user_db in Hr. simpl in Hr. rewrite Hk, Hname in Hr.
  destruct (newFolders_existing _ _ _ _ Hr) as (st' & E & Hr' & Hnames).
  destruct (newFolders_shape _ _ _ _ _ _ E) as (K & U & _ & W).
  rewrite E, Ef. cbn [default]. replace (set_wld _ (d_store d)) with (d_store d) by (by destruct (d_store d)).
  split; [|split].
  - do 2 f_equal. apply set_eq. intros nm. by rewrite !elem_of_dom.
  - rewrite (insert_id users u f) by done. split; try done. simpl.
    rewrite <-(insert_id users _ f) by done. apply users_insert; [|by intros; apply Hu].
    split; [done|done|]. rewrite <-W. by destruct st'.
  - simpl. rewrite (insert_id users u f) by done. by apply (room_less n (ADatabase users watch clock counters)).
Qed.

(** The buckets that the creation of a user leaves alone. *)
Lemma user_created_same u t t' p : user_created u t t' →
  ¬ [(userPrefix ++ u)%string] `prefix_of` p → p ≠ [] → ¬ p `prefix_of` [usersBucket] →
  ¬ p `prefix_of` [miscBucket] → same_at p t t'.
Proof.
  intros Hc H1 H0 H2 H3 q. destruct (Hc (p ++ q)) as [Hb Hg].
  { intros H. destruct p as [|x p]; [done|]. apply H1. apply prefix_cons_inv_1 in H as <-. by exists p. }
  split; [|done]. intros k. apply Hg.
  - intros E. apply H2. by exists q.
  - intros [= E _]. apply H3. by exists q.
Qed.

(** Opening those of a new user creates them. *)
Lemma open_new n u d a : db_inv d a → ad_users a !! u = None → key_ok u → key_ok (userPrefix ++ u)%string →
  1 + n < 2 ^ 64 → room n a → step_to n (DbOpen u) d a.
Proof.
  intros [Hi Hu Hd Hw Hc] Ef Hku Hku' Hn Hroom. destruct a as [users watch clock counters]. unfold step_to.
  cbn [do_db spec_db ad_users ad_watch ad_clock ad_counters] in *.
  set (w := st_wld (d_store d)) in *. destruct Hd as [Hb Hroot Hus Hfl (i & Hin & Hl)].
  assert (fresh_user w u i) as Hfu.
  { split; try done. apply not_true_iff_false. intros H. apply Hb in H as [? ?]. congruence. }
  destruct (newFolders_new w (st_masterKey (st_this (d_store d))) u i Hfu) as (st & E & Hr & Hi1 & Hi2 & Hcr & Ht).
  destruct (newFolders_shape _ _ _ _ _ _ E) as (K & U & _ & _). pose proof (fo_idle _ _ Hr) as Hidle.
  rewrite E, Ef. cbn [default]. set (w' := uf_world st) in *.
  assert (∀ k, k ∉ [(userPrefix ++ u)%string; usersBucket; miscBucket] → same_at [k] (db w) (db w')) as Hsame.
  { intros k Hk. rewrite !not_elem_of_cons in Hk. destruct Hk as (? & ? & ? & _).
    apply (user_created_same u); [done|apart|done|apart|apart]. }
  split; [|split].
  - do 2 f_equal. apply set_eq. intros nm. rewrite !elem_of_dom, (fo_dom _ _ Hr). done.
  - split; simpl; [done| | | |].
    + apply users_insert.
      * split; [done|done|]. simpl. by destruct st.
      * intros u' Hne. apply (users_same (d_store d)); [apply Hu|done|done|]. apply Hsame.
        unfold userPrefix. simpl. absent.
    + split.
      * intros u'. rewrite lookup_insert_is_Some'. destruct (decide (u = u')) as [->|Hne]; [by left|right].
        apply Hb. destruct (Hcr [(userPrefix ++ u')%string]) as [<- _]; [|done]. apart.
      * intros k. destruct (Hcr []) as [_ ->]; [apart|done|done|done].
      * destruct (Hcr [usersBucket]) as [-> _]; [apart|done].
      * intros k. destruct (Hcr [usersBucket; k]) as [-> _]; [apart|done].
      * exists (u64 (i + 1)). split; [apply u64_range|done].
    + pose proof (pk_clock _ _ Hw) as Hck. simpl in Hck. rewrite <-Hck, <-Ht.
      apply (pk_rep_same _ _ _ Hw Hidle). apply Hsame. absent.
    + apply (counters_rep_same (d_store d)); [done|done|].
      apply (user_created_same u); [done|apart|done|apart|apart].
  - intros u' f. simpl. rewrite lookup_insert_Some. intros [[_ <-]|[_ Hf]]; [by intros ??; rewrite lookup_empty|].
    intros nm s Hs. specialize (Hroom u' f Hf nm s Hs). lia.
Qed.

Lemma db_step n op d a : db_inv d a → db_op_ok op → 0 < n → 1 + n < 2 ^ 64 → room n a → step_to n op d a.
Proof.
  intros Hv Hok Hn Hn1 Hroom. destruct op as [u|u op|op|o c|o]; simpl in Hok.
  - destruct Hok. destruct (ad_users a !! u) eqn:E; [by eapply open_known|by apply open_new].
  - by apply folders_step.
  - by apply watch_step.
  - destruct Hok. by apply set_step.
  - unfold step_to. destruct a as [users watch clock counters]. simpl.
    rewrite (cr_get _ _ (dv_counters _ _ Hv)) by done.
    split; [done|]. split; [done|by apply (room_less n (ADatabase users watch clock counters))].
Qed.

Lemma db_run ops d a : db_inv d a → Forall db_op_ok ops → 1 + Z.of_nat (length ops) < 2 ^ 64 →
  room (Z.of_nat (length ops)) a → (run_seq do_db ops d).1 = (run_seq spec_db ops a).1.
Proof.
  revert d a; induction ops as [|op ops IH]; intros d a Hv Hok Hlen Hroom; [done|].
  apply Forall_cons in Hok as [Hop Hops]. cbn [run_seq length] in *.
  pose proof (db_step (Z.of_nat (S (length ops))) op d a Hv Hop ltac:(lia) Hlen Hroom) as H. unfold step_to in H.
  destruct (do_db op d) as [o d'], (spec_db op a) as [o' a']. destruct H as (-> & Hv' & Hroom').
  specialize (IH d' a' Hv' Hops ltac:(lia)).
  destruct (run_seq do_db ops d'), (run_seq spec_db ops a'). simpl in *. rewrite IH; [done|].
  intros u f Hf nm s Hs. specialize (Hroom' u f Hf nm s Hs). lia.
Qed.
End refinement.

(** ** The database that [Construct] creates *)

Section creation.
Context {BT : Bolt} {EV : Env} {BM : Bmutil} {BL : BoltLaws} {EL : EnvLaws} {ML : BmutilLaws}.

(** What a new file holds once it was formatted. *)
Record new_database (t : Tx) : Prop := {
  nd_latest : tx_Get t [miscBucket] usersLatestIDKey = Some (be64 0);
  nd_get p k : p ≠ [miscBucket] → tx_Get t p k = None;
  nd_bucket p : tx_Bucket t p = true ↔ p ∈ [pkRequestsBucket] :: new_buckets;
}.

Lemma new_database_inv s : idle (st_wld s) → new_database (db (st_wld s)) →
  db_inv (Database ∅ s) (ADatabase ∅ ∅ (ticks (st_wld s)) ∅).
Proof.
  intros Hi [Hl Hg Hb].
  assert (∀ p : list string, p ∉ [pkRequestsBucket] :: new_buckets → tx_Bucket (db (st_wld s)) p = false) as Hno.
  { intros p Hp. apply not_true_iff_false. by rewrite Hb. }
  split; simpl; [done| | | |].
  - intros u. rewrite !lookup_empty. constructor.
  - split.
    + intros u Hu. exfalso. rewrite Hno in Hu; [done|absent].
    + intros k. by apply Hg.
    + apply Hb. solve_elem.
    + intros k. apply Hno. absent.
    + by exists 0.
  - split; simpl; [done| | | | |done].
    + apply Hb. solve_elem.
    + intros k. apply Hno. absent.
    + intros k. by rewrite Hg, lookup_empty.
    + intros k n t. by rewrite lookup_empty.
  - assert (tx_Bucket (db (st_wld s)) [miscBucket; countersBucket] = true) as Hc by (apply Hb; solve_elem).
    split.
    + split; [done|done|]. intros k. apply Hno. absent.
    + intros o _. destruct Hi as [Ho _]. unfold GetCounter, View, bucket_Get. rewrite Ho. cbn [negb].
      rewrite on_bucket_ok by done. cbn [fst]. munfold. by rewrite Hg.
Qed.

Lemma Construct_database l pass : l_db l = true → idle (l_wld l) → blank (db (l_wld l)) →
  ∃ mk l', Construct pass l = (Ok (MkStore (Some mk) ∅), l') ∧ idle (l_wld l') ∧
    new_database (db (l_wld l')) ∧ ticks (l_wld l') = ticks (l_wld l).
Proof.
  intros Hd [Ho Hw] Hbl.
  destruct (Construct_tx_new (set_writing true (l_wld l)) pass Hbl) as (mk & t & n & E & Hf & _ & Hl & Hg & Hb).
  set (w1 := World t true false n (ticks (l_wld l))).
  destruct (ensure_bucket t [] pkRequestsBucket) as (t1 & E1 & G1 & B1);
    [apply Hb; solve_elem|split; [done|vm_compute; discriminate]|by apply Hg|].
  assert (new_database t1) as Hnew.
  { split; [by rewrite G1|intros; rewrite G1; by apply Hg|]. intros p. rewrite B1, elem_of_cons, Hb. done. }
  exists mk, (MkLoader (l_db l) (set_db t1 w1)). split; [|done].
  rewrite Construct_unfold by done.
  run_step ltac:(apply or_close_Ok, onl_run; unfold Update; rewrite Ho, Hw, E; cbn [negb]; reflexivity).
  unfold Construct_rest.
  run_step ltac:(apply or_close_Ok, onl_run; unfold initializePKRequestStore; rewrite Update_tx by done;
    cbn [db l_wld set_writing]; rewrite E1; reflexivity).
  assert (tx_Cursor t1 [usersBucket] = []) as Hc.
  { destruct (tx_Cursor t1 [usersBucket]) as [|[k o] c] eqn:Ec; [done|].
    assert ((k, o) ∈ tx_Cursor t1 [usersBucket]) as He by (rewrite Ec; apply list_elem_of_here).
    apply Cursor_elem in He. destruct o; [by rewrite (nd_get _ Hnew) in He|].
    apply (nd_bucket _ Hnew) in He. unfold new_buckets in He. rewrite !elem_of_cons, elem_of_nil in He.
    simpl in He. intuition discriminate. }
  run_step ltac:(apply or_close_Ok, onl_run; unfold bucket_keys, View, bucket_Cursor;
    cbn [l_wld db_open set_db set_writing db]; rewrite Ho; cbn [negb];
    rewrite on_bucket_ok by (apply (nd_bucket _ Hnew); solve_elem); cbn [fst]; rewrite Hc; reflexivity).
  reflexivity.
Qed.
End creation.

(** ** Properties *)

Section properties.
Context {BT : Bolt} {EV : Env} {BM : Bmutil} {BL : BoltLaws} {EL : EnvLaws} {ML : BmutilLaws}.

(** C5: everything a store keeps shares one database, and behaves as if it
    did not: from the file that [Construct] creates, any interleaving of
    opening users, operations on the folders of any of them, on the watch
    list and on the counters gives, errors and times included, the results of
    an abstract store with a map of folders for each user, a watch list and
    counters that share nothing but the clock. *)
Theorem database_refinement l pass ops :
  l_db l = true → idle (l_wld l) → blank (db (l_wld l)) → Forall db_op_ok ops →
  1 + Z.of_nat (length ops) < 2 ^ 64 →
  ∃ mk l', let store := MkStore (Some mk) ∅ in
    Construct pass l = (Ok store, l') ∧
    (run_seq do_db ops (Database ∅ (SW store (l_wld l')))).1 =
    (run_seq spec_db ops (ADatabase ∅ ∅ (ticks (l_wld l)) ∅)).1.
Proof.
  intros Hd Hi Hb Hok Hlen. destruct (Construct_database l pass Hd Hi Hb) as (mk & l' & E & Hi' & Hn & Ht).
  exists mk, l'. split; [exact E|]. rewrite <-Ht.
  apply (db_run ops (Database ∅ (SW _ (l_wld l')))); [by apply new_database_inv|done|done|].
  intros u f. simpl. by rewrite lookup_empty.
Qed.

(** A user named as a bucket of the store is accepted, and his broadcast
    addresses are kept in that bucket: after a user named [pubkeyRequests]
    the watch list has a nested bucket where it expects requests, and
    reading it panics. *)
Theorem NewUser_breaks_watch_list {S} s clock (f : string → Z → Time → M S unit) st :
  pk_rep (st_wld s) (∅, clock) → st_users (st_this s) !! pkRequestsBucket = None →
  let '(r, s') := NewUser pkRequestsBucket s in
  is_Ok r = true ∧ pk_ForEach f (st_wld s') st = (Panic, st).
Proof.
  intros [[Ho Hw] Hb Hf Hg _ _] Hu. simpl in *. set (w := st_wld s) in *.
  set (B := [pkRequestsBucket; broadcastAddressesBucket]).
  assert (∀ k, tx_Get (db w) [pkRequestsBucket] k = None) as Hnone by (intros k; by rewrite Hg, lookup_empty).
  destruct (ensure_bucket (db w) [pkRequestsBucket] broadcastAddressesBucket Hb) as (t & E & G & Bk);
    [split; [done|vm_compute; discriminate]|done|]. simpl in Bk. fold B in Bk.
  assert (tx_Bucket t [pkRequestsBucket] = true ∧ tx_Bucket t B = true) as [Hp HB] by (rewrite !Bk; auto).
  assert (tx_Cursor t B = []) as Hc.
  { destruct (tx_Cursor t B) as [|[k o] c] eqn:Ec; [done|].
    assert ((k, o) ∈ tx_Cursor t B) as He by (rewrite Ec; apply list_elem_of_here).
    apply Cursor_elem in He. destruct o.
    - rewrite G in He. apply Get_Bucket in He as [He _]. unfold B in He. by rewrite Hf in He.
    - by rewrite (create_nested (db w) [pkRequestsBucket] _ t (Hf _) Bk) in He. }
  assert (newBroadcastsStore pkRequestsBucket w =
    (Ok (MkBroadcastAddresses pkRequestsBucket []), set_db t w)) as Enew.
  { unfold newBroadcastsStore. fold (broadcasts_tx pkRequestsBucket). unfold Update. munfold. rewrite Ho, Hw.
    cbn [negb]. assert (broadcasts_tx pkRequestsBucket (set_writing true w) =
      (Ok [], set_db t (set_writing true w))) as ->.
    { unfold broadcasts_tx.
      run_step ltac:(apply tx_same, ensure_same; [by eapply root_Bucket|done]).
      run_step ltac:(apply tx_Ok; exact E).
      run_step ltac:(apply tx_same; unfold bucket_Cursor; rewrite on_bucket_ok by done; reflexivity).
      cbn [db set_db]. fold B. by rewrite Hc. }
    unfold set_writing, set_db. simpl. by rewrite Hw. }
  unfold NewUser, addUser, onsw. munfold. rewrite Hu. unfold try, zoom. fold w. rewrite Enew. cbn.
  split; [done|]. unfold pk_ForEach, View, bucket_Cursor. cbn [st_wld db_open set_db db].
  rewrite Ho. cbn [negb]. rewrite on_bucket_ok by done. munfold. unfold lift. cbn [fst].
  destruct (tx_Cursor t [pkRequestsBucket]) as [|[k o] c] eqn:Ec.
  { assert ((broadcastAddressesBucket, None) ∈ tx_Cursor t [pkRequestsBucket]) as He by by apply Cursor_bucket.
    rewrite Ec in He. by apply not_elem_of_nil in He. }
  assert ((k, o) ∈ tx_Cursor t [pkRequestsBucket]) as He by (rewrite Ec; apply list_elem_of_here).
  apply Cursor_elem in He. destruct o; [by rewrite G, Hnone in He|]. done.
Qed.
End properties.

(** ** Witness: a new file *)

Import Model EnvModel BmutilModel.

Definition mixed : list db_op :=
  [DbOpen "alice"; DbOpen "bob"; DbFolders "alice" (FoNew "Inbox"); DbSetCounter 2 77;
   DbFolders "bob" (FoNew "Inbox"); DbFolders "alice" (FoDo "Inbox" (OpInsertNew (Some "hello") 1));
   DbWatch (PkNew "BM-a"); DbFolders "bob" (FoDo "Inbox" (OpGet 1)); DbGetCounter 2; DbGetCounter 3;
   DbOpen "alice"; DbFolders "alice" (FoDo "Inbox" (OpGet 1)); DbWatch (PkLast "BM-a")]%string.

Lemma database_refinement_witness :
  ∃ mk l', let store := MkStore (Some mk) ∅ in
    Construct (Some "secret"%string) new_file = (Ok store, l') ∧
    (run_seq do_db mixed (Database ∅ (SW store (l_wld l')))).1 =
    [OutOpen (Ok ∅); OutOpen (Ok ∅); OutFolders (Some (OutNew (Ok tt))); OutSet (Ok tt);
     OutFolders (Some (OutNew (Ok tt))); OutFolders (Some (OutDo (Ok (OutID (Ok 1)))));
     OutWatch (OutCount (Ok 1)); OutFolders (Some (OutDo (Ok (OutMsg (Err ErrNotFound)))));
     OutCounter (Ok 77); OutCounter (Ok 1); OutOpen (Ok {["Inbox"%string]});
     OutFolders (Some (OutDo (Ok (OutMsg (Ok (1, "hello"%string))))));
     OutWatch (OutTime (Ok (time_Now 2)))].
Proof.
  destruct (database_refinement new_file (Some "secret"%string) mixed) as (mk & l' & E & H);
    [done|done|apply new_file_blank| |done|].
  - unfold mixed. repeat first [apply Forall_nil_2 | apply Forall_cons_2]; cbn [db_op_ok folders_op_ok pk_op_ok];
      try (split; first [done | split; [done|vm_compute; discriminate] | vm_compute; discriminate]);
      try first [done | solve_ops_ok].
  - exists mk, l'. split; [exact E|]. rewrite H. vm_compute. reflexivity.
Defined.

Lemma NewUser_breaks_watch_list_witness :
  let '(r, s') := NewUser pkRequestsBucket (SW (MkStore None ∅) pk_store) in
  is_Ok r = true ∧ pk_ForEach (λ _ _ _, mret tt) (st_wld s') 0 = (Panic, 0).
Proof.
  apply (NewUser_breaks_watch_list (SW (MkStore None ∅) pk_store) 0 (λ _ _ _, mret tt) 0); [|done].
  split; simpl; [done|reflexivity| | | |done].
  - intros k. apply not_has; [done|]. simpl. set_solver.
  - intros k. rewrite lookup_empty. unfold lookup_pair. by case_match.
  - intros k n t. by rewrite lookup_empty.
Defined.
