(* ===== verification/Pow.v ===== *)
(** * The proof-of-work queue ([powmgr/pow.go])

    [Pow] is a linked list with a pointer to the last [next] field, guarded
    by a mutex; an enqueue on an empty list starts a goroutine that works
    until the list is empty.  Modelled are the list, with its nodes in a
    heap, and the goroutines, as an interleaving of atomic steps (each step
    is one critical section).

    Proved: the linked list is a first-in-first-out queue and no operation
    panics; in every interleaving each order is waiting, worked on, finished
    with the nonce of its own target and object, or thrown away, exactly
    once; and orders never wait without a worker.  Not true of the code:
    every order is worked on.  A worker removes an order when it starts and
    another when it has finished, so every second order is thrown away; and
    several workers can run at once. *)

From S2P Require Import Prelude.
Local Open Scope list_scope.

Section pow.
Context {Target Nonce Done : Type}.
Context (Sha512 : string → string) (powFunc : Target → string → Nonce).

(** The completion function is kept by name, so that orders can be data. *)
Record powOrder := MkOrder { target : Target; object : string; donePowFunc : Done }.
Record powNode := MkNode { order : powOrder; next : option nat }.

(** A pointer to a node is its place in the heap; [tail] points to the
    [next] field of a node. *)
Record Pow := MkPow { nodes : gmap nat powNode; head : option nat; tail : option nat }.

Definition New : Pow := MkPow ∅ None None.

(** Whether a worker is started. *)
Definition enqueue (p : powOrder) : M Pow bool := λ q,
  let node := fresh (dom (nodes q)) in
  let heap := <[node := MkNode p None]> (nodes q) in
  match head q with
  | None => (Ok true, MkPow heap (Some node) (Some node))
  | Some _ =>
      match tail q ≫= λ t, heap !! t with
      | None => (Panic, q)
      | Some n =>
          (Ok false, MkPow (<[default 0%nat (tail q) := MkNode (order n) (Some node)]> heap) (head q) (Some node))
      end
  end.

Definition dequeue : M Pow (option powOrder) := λ q,
  match head q with
  | None => (Ok None, q)
  | Some h =>
      match nodes q !! h with
      | None => (Panic, q)
      | Some n => (Ok (Some (order n)), MkPow (nodes q) (next n) (tail q))
      end
  end.

Definition Run (t : Target) (obj : string) (d : Done) : M Pow bool := enqueue (MkOrder t obj d).

(** What is called back, with which nonce. *)
Definition result (p : powOrder) : Done * Nonce :=
  (donePowFunc p, powFunc (target p) (Sha512 (object p))).

(** The loop of a worker that is not interrupted, with the calls it makes. *)
Fixpoint work (fuel : nat) : M (Pow * list (Done * Nonce)) unit :=
  match fuel with
  | O => λ s, (Hang, s)
  | S fuel =>
      o ← zoom fst (λ q s, (q, s.2)) dequeue;
      match o with
      | None => mret tt
      | Some p =>
          let n := result p in
          _ ← zoom fst (λ q s, (q, s.2)) dequeue;
          _ ← modify (λ s, (s.1, s.2 ++ [n]));
          work fuel
      end
  end.

(** ** Goroutines *)

Inductive worker := Looping | Working (p : powOrder).
Record pstate := PState { queue : Pow; workers : list worker; called : list (Done * Nonce) }.

Inductive event :=
  | ERun (p : powOrder)
  | ETake (p : powOrder)
  | EFinish (p : powOrder) (removed : option powOrder)
  | EExit.

Inductive step : pstate → event → pstate → Prop :=
  | step_Run p q b q' ws c :
      enqueue p q = (Ok b, q') →
      step (PState q ws c) (ERun p) (PState q' (if b then ws ++ [Looping] else ws) c)
  | step_take i p q q' ws c :
      ws !! i = Some Looping → dequeue q = (Ok (Some p), q') →
      step (PState q ws c) (ETake p) (PState q' (<[i := Working p]> ws) c)
  | step_finish i p r q q' ws c :
      ws !! i = Some (Working p) → dequeue q = (Ok r, q') →
      step (PState q ws c) (EFinish p r) (PState q' (<[i := Looping]> ws) (c ++ [result p]))
  | step_exit i q q' ws c :
      ws !! i = Some Looping → dequeue q = (Ok None, q') →
      step (PState q ws c) EExit (PState q' (take i ws ++ drop (S i) ws) c).

Inductive steps : pstate → list event → pstate → Prop :=
  | steps_refl s : steps s [] s
  | steps_snoc s tr s' e s'' : steps s tr s' → step s' e s'' → steps s (tr ++ [e]) s''.

Definition init : pstate := PState New [] [].

(** ** The linked list is a list *)

(** The nodes from a pointer on, to the end. *)
Fixpoint chain (heap : gmap nat powNode) (h : option nat) (addrs : list nat) (l : list powOrder) : Prop :=
  match addrs, l with
  | [], [] => h = None
  | a :: addrs, p :: l => h = Some a ∧ ∃ n, heap !! a = Some (MkNode p n) ∧ chain heap n addrs l
  | _, _ => False
  end.

Definition represents (q : Pow) (l : list powOrder) : Prop :=
  ∃ addrs, chain (nodes q) (head q) addrs l ∧ NoDup addrs ∧ (addrs ≠ [] → tail q = last addrs).

Lemma chain_insert heap h addrs l a n :
  a ∉ addrs → chain heap h addrs l → chain (<[a := n]> heap) h addrs l.
Proof.
  revert h l; induction addrs as [|b addrs IH]; intros h [|p l] Ha; try done.
  apply not_elem_of_cons in Ha as [Hab Ha]. intros [-> (nx & Hb & Hc)]. split; [done|].
  exists nx. rewrite lookup_insert_ne by done. split; [done|]. by apply IH.
Qed.

Lemma chain_dom heap h addrs l a : chain heap h addrs l → a ∈ addrs → is_Some (heap !! a).
Proof.
  revert h l; induction addrs as [|b addrs IH]; intros h [|p l]; try done;
    [by intros _ ?%not_elem_of_nil|].
  intros [-> (nx & Hb & Hc)] [->|Ha]%elem_of_cons; [by eexists|]. by eapply IH.
Qed.

(** The last node, linked to a new one. *)
Lemma chain_snoc heap h addrs l t p a :
  chain heap h (addrs ++ [t]) l → NoDup (addrs ++ [t]) → a ∉ addrs ++ [t] →
  heap !! a = Some (MkNode p None) →
  ∃ o, heap !! t = Some (MkNode o None) ∧
    chain (<[t := MkNode o (Some a)]> heap) h (addrs ++ [t; a]) (l ++ [p]).
Proof.
  intros Hc Hnd Ha Hp. revert h l Hc; induction addrs as [|b addrs IH]; intros h [|o l] Hc; try done.
  - destruct Hc as [-> (n & Ht & Hn)]. destruct l; [|done]. simpl in Hn. subst n. exists o.
    split; [done|]. split; [done|]. exists (Some a). rewrite lookup_insert_eq. split; [done|].
    split; [done|]. exists None. rewrite lookup_insert_ne; [done|]. intros ->. apply Ha, list_elem_of_here.
  - cbn [app] in *. destruct Hc as [-> (n & Hb & Hn)]. apply NoDup_cons in Hnd as [Hnb Hnd].
    apply not_elem_of_cons in Ha as [Hab Ha]. destruct (IH Hnd Ha n l Hn) as (o' & Ht & Hc).
    exists o'. split; [done|]. split; [done|]. exists n. split; [|done].
    rewrite lookup_insert_ne; [done|]. intros ->. apply Hnb. apply elem_of_app. right. by apply list_elem_of_singleton.
Qed.

Lemma represents_New : represents New [].
Proof. exists []. split; [done|]. split; [constructor|done]. Qed.

Lemma enqueue_represents q l p : represents q l →
  ∃ q', enqueue p q = (Ok (bool_decide (l = [])), q') ∧ represents q' (l ++ [p]).
Proof.
  intros (addrs & Hc & Hnd & Ht). unfold enqueue.
  set (a := fresh (dom (nodes q))). assert (a ∉ dom (nodes q)) as Ha by apply is_fresh.
  assert (a ∉ addrs) as Haa.
  { intros Hin. apply Ha, elem_of_dom. by eapply chain_dom. }
  destruct addrs as [|b addrs0] eqn:Haddrs.
  - destruct l as [|? ?]; [|done]. simpl in Hc. rewrite Hc. eexists. split; [done|].
    exists [a]. split; [|split; [apply NoDup_singleton|done]].
    split; [done|]. exists None. cbn [nodes]. by rewrite lookup_insert_eq.
  - assert (∃ addrs' t, b :: addrs0 = addrs' ++ [t]) as (addrs' & t & Heq).
    { destruct (exists_last (l := b :: addrs0)) as (x & y & Hxy); [done|]. by exists x, y. }
    rewrite Heq in *. assert (addrs' ++ [t] ≠ []) as Hne by (intros E; by apply app_eq_nil in E as [_ E]).
    specialize (Ht Hne). rewrite last_snoc in Ht.
    destruct (chain_snoc (<[a := MkNode p None]> (nodes q)) (head q) addrs' l t p a) as (o & Hto & Hc').
    { by apply chain_insert. } { done. } { done. } { by rewrite lookup_insert_eq. }
    destruct (head q) as [h|] eqn:Hh; [|by destruct addrs', l; try done; destruct Hc].
    rewrite Ht. cbn [mbind option_bind default]. rewrite Hto.
    assert (l ≠ []) as Hl by (intros ->; by destruct addrs'; simpl in Hc).
    rewrite bool_decide_eq_false_2 by done. eexists. split; [done|].
    exists (addrs' ++ [t; a]). cbn [nodes head tail order]. split; [done|split].
    + change [t; a] with ([t] ++ [a]). rewrite app_assoc. apply NoDup_app.
      split; [done|]. split; [|apply NoDup_singleton]. intros x Hx ->%list_elem_of_singleton. done.
    + intros _. change [t; a] with ([t] ++ [a]). by rewrite app_assoc, last_snoc.
Qed.

Lemma dequeue_represents q l : represents q l →
  ∃ q', dequeue q = (Ok (hd_error l), q') ∧ represents q' (tl l).
Proof.
  intros (addrs & Hc & Hnd & Ht). unfold dequeue. destruct addrs as [|a addrs], l as [|p l]; try done.
  - simpl in Hc. rewrite Hc. eexists. split; [done|]. by exists [].
  - destruct Hc as [-> (n & Ha & Hn)]. rewrite Ha. eexists. split; [done|]. exists addrs.
    cbn [nodes head tail next]. apply NoDup_cons in Hnd as [_ Hnd]. split; [done|]. split; [done|].
    intros Hne. rewrite Ht by done. by destruct addrs.
Qed.

(** *** First in, first out *)

Inductive queue_op := Enqueue (p : powOrder) | Dequeue.
Inductive queue_out := Started (r : res bool) | Removed (r : res (option powOrder)).

Fixpoint run_queue (ops : list queue_op) (q : Pow) : list queue_out :=
  match ops with
  | [] => []
  | Enqueue p :: ops => let '(r, q) := enqueue p q in Started r :: run_queue ops q
  | Dequeue :: ops => let '(r, q) := dequeue q in Removed r :: run_queue ops q
  end.

(** The queue as a list: an enqueue starts a worker if the list is empty. *)
Fixpoint run_list (ops : list queue_op) (l : list powOrder) : list queue_out :=
  match ops with
  | [] => []
  | Enqueue p :: ops => Started (Ok (bool_decide (l = []))) :: run_list ops (l ++ [p])
  | Dequeue :: ops => Removed (Ok (hd_error l)) :: run_list ops (tl l)
  end.

Lemma run_queue_sim ops q l : represents q l → run_queue ops q = run_list ops l.
Proof.
  revert q l; induction ops as [|[p|] ops IH]; intros q l Hr; cbn [run_queue run_list]; [done| |].
  - destruct (enqueue_represents q l p Hr) as (q' & -> & Hr'). by rewrite (IH _ _ Hr').
  - destruct (dequeue_represents q l Hr) as (q' & -> & Hr'). by rewrite (IH _ _ Hr').
Qed.

(** *** A worker alone *)

(** The elements at the even places, from zero. *)
Fixpoint every_second {A} (l : list A) : list A :=
  match l with a :: _ :: l => a :: every_second l | l => l end.

Lemma zoom_dequeue q r q' c : dequeue q = (r, q') →
  zoom fst (λ q (s : Pow * list (Done * Nonce)), (q, s.2)) dequeue (q, c) = (r, (q', c)).
Proof. unfold zoom. cbn [fst snd]. by intros ->. Qed.

Lemma work_represents n l q c : (length l ≤ n)%nat → represents q l →
  ∃ q', work (S n) (q, c) = (Ok tt, (q', c ++ (result <$> every_second l))) ∧ represents q' [].
Proof.
  revert l q c. induction (lt_wf n) as [n _ IH]. intros l q c Hn Hr.
  destruct (dequeue_represents q l Hr) as (q1 & H1 & Hr1).
  cbn [work]. rewrite (bind_Ok _ _ _ _ _ (zoom_dequeue _ _ _ _ H1)).
  destruct l as [|p l]; cbn [hd_error tl] in *.
  { exists q1. split; [|done]. by rewrite app_nil_r. }
  destruct (dequeue_represents q1 l Hr1) as (q2 & H2 & Hr2).
  rewrite (bind_Ok _ _ _ _ _ (zoom_dequeue _ _ _ _ H2)).
  change (∃ q', work n (q2, c ++ [result p]) = (Ok tt, (q', c ++ (result <$> every_second (p :: l)))) ∧ represents q' []).
  destruct n as [|n]; [cbn in Hn; lia|].
  destruct (IH n ltac:(lia) (tl l) q2 (c ++ [result p])) as (q3 & H3 & Hr3).
  { destruct l; cbn in *; lia. } { done. }
  exists q3. rewrite H3. split; [|done]. rewrite <-app_assoc. destruct l; done.
Qed.

(** *** All interleavings *)

Definition runs (tr : list event) : list powOrder :=
  omap (λ e, match e with ERun p => Some p | _ => None end) tr.
Definition finished (tr : list event) : list powOrder :=
  omap (λ e, match e with EFinish p _ => Some p | _ => None end) tr.
Definition thrown_away (tr : list event) : list powOrder :=
  omap (λ e, match e with EFinish _ r => r | _ => None end) tr.
Definition working (ws : list worker) : list powOrder :=
  omap (λ w, match w with Working p => Some p | Looping => None end) ws.

Lemma omap_snoc {A B} (f : A → option B) l x :
  omap f (l ++ [x]) = omap f l ++ match f x with Some y => [y] | None => [] end.
Proof. rewrite omap_app. cbn. by destruct (f x). Qed.

Lemma working_insert ws i w w' : ws !! i = Some w →
  working (<[i := w']> ws) ++ working [w] ≡ₚ working ws ++ working [w'].
Proof.
  intros Hi. rewrite <-(take_drop_middle ws i w Hi) at 2.
  rewrite insert_take_drop by by eapply lookup_lt_Some.
  unfold working. rewrite !omap_app. destruct w, w'; cbn; rewrite ?app_nil_r; solve_Permutation.
Qed.

Lemma working_remove ws i : ws !! i = Some Looping →
  working (take i ws ++ drop (S i) ws) = working ws.
Proof.
  intros Hi. rewrite <-(take_drop_middle ws i _ Hi) at 3. unfold working. by rewrite !omap_app.
Qed.

(** What holds in every state reached by a sequence of events. *)
Definition accounted (tr : list event) (s : pstate) : Prop :=
  ∃ l, represents (queue s) l ∧
    runs tr ≡ₚ l ++ working (workers s) ++ finished tr ++ thrown_away tr ∧
    called s = result <$> finished tr ∧
    (l ≠ [] → workers s ≠ []).

Lemma step_accounted tr s e s' : accounted tr s → step s e s' → accounted (tr ++ [e]) s'.
Proof.
  intros (l & Hr & Hp & Hc & Hw) Hs. unfold accounted.
  assert (runs (tr ++ [e]) = runs tr ++ runs [e] ∧ finished (tr ++ [e]) = finished tr ++ finished [e] ∧
    thrown_away (tr ++ [e]) = thrown_away tr ++ thrown_away [e]) as (-> & -> & ->)
    by (unfold runs, finished, thrown_away; by rewrite !omap_app).
  destruct Hs as [p q b q' ws c He|i p q q' ws c Hi Hd|i p r q q' ws c Hi Hd|i q q' ws c Hi Hd];
    cbn [queue workers called] in *.
  - destruct (enqueue_represents q l p Hr) as (q1 & He1 & Hr1). rewrite He in He1. simplify_eq.
    exists (l ++ [p]). split; [done|]. cbn [runs finished thrown_away omap list_omap]. rewrite !app_nil_r.
    assert (working (if bool_decide (l = []) then ws ++ [Looping] else ws) = working ws) as ->.
    { case_bool_decide; [|done]. unfold working. rewrite omap_app. cbn. by rewrite app_nil_r. }
    split; [rewrite Hp; solve_Permutation|]. split; [done|]. intros _. case_bool_decide; [by destruct ws|auto].
  - destruct (dequeue_represents q l Hr) as (q1 & Hd1 & Hr1). rewrite Hd in Hd1. simplify_eq.
    destruct l as [|p' l]; [done|]. cbn [hd_error tl] in *. simplify_eq. exists l. split; [done|].
    cbn [runs finished thrown_away omap list_omap]. rewrite !app_nil_r.
    pose proof (working_insert ws i Looping (Working p') Hi) as Hwk. cbn in Hwk. rewrite app_nil_r in Hwk.
    split; [rewrite Hwk, Hp; solve_Permutation|]. split; [done|]. intros _ E.
    apply (f_equal length) in E. rewrite length_insert in E. destruct ws; [done|by cbn in E].
  - destruct (dequeue_represents q l Hr) as (q1 & Hd1 & Hr1). rewrite Hd in Hd1. simplify_eq.
    exists (tl l). split; [done|]. cbn [runs finished omap list_omap]. rewrite !app_nil_r.
    pose proof (working_insert ws i (Working p) Looping Hi) as Hwk. cbn in Hwk. rewrite app_nil_r in Hwk.
    split; [|split; [by rewrite fmap_app|]].
    + rewrite Hp, <-Hwk. destruct l as [|p' l]; cbn [thrown_away omap list_omap hd_error tl]; rewrite ?app_nil_r; solve_Permutation.
    + intros _ E. apply (f_equal length) in E. rewrite length_insert in E. destruct ws; [done|by cbn in E].
  - destruct (dequeue_represents q l Hr) as (q1 & Hd1 & Hr1). rewrite Hd in Hd1. simplify_eq.
    destruct l as [|p' l]; [|done]. exists []. split; [done|].
    cbn [runs finished thrown_away omap list_omap]. rewrite !app_nil_r, working_remove by done. by split.
Qed.

Lemma steps_accounted tr s : steps init tr s → accounted tr s.
Proof.
  assert (∀ s0, steps s0 tr s → accounted [] s0 → accounted tr s) as H.
  { intros s0. induction 1 as [|s0 tr s' e s'' _ IH Hs]; [done|]. intros H0.
    eapply step_accounted; [by apply IH|done]. }
  intros Hs. apply (H _ Hs). exists []. split; [apply represents_New|]. by repeat split.
Qed.

(** What is still to do: two steps for each order that waits, two for one
    worked on (finish and look again), one for a worker that looks. *)
Definition weight (ws : list worker) : nat :=
  (length (working ws) + length ws)%nat.

Lemma weight_insert ws i w w' : ws !! i = Some w →
  (weight (<[i := w']> ws) + length (working [w]) = weight ws + length (working [w']))%nat.
Proof.
  intros Hi. pose proof (Permutation_length (working_insert ws i w w' Hi)) as H.
  rewrite !length_app in H. unfold weight. rewrite length_insert. lia.
Qed.

Lemma weight_remove ws i : ws !! i = Some Looping →
  (weight (take i ws ++ drop (S i) ws) + 1 = weight ws)%nat.
Proof.
  intros Hi. unfold weight. rewrite working_remove by done.
  pose proof (lookup_lt_Some _ _ _ Hi). rewrite length_app, length_take, length_drop. lia.
Qed.

(** Every event is paid for by an order: one for its arrival, three for the
    work. *)
Definition paid (tr : list event) (s : pstate) : Prop :=
  ∃ l, represents (queue s) l ∧
    (length tr + 2 * length l + weight (workers s) ≤ 4 * length (runs tr))%nat.

Lemma step_paid tr s e s' : paid tr s → step s e s' → paid (tr ++ [e]) s'.
Proof.
  intros (l & Hr & Hp) Hs. unfold paid.
  assert (runs (tr ++ [e]) = runs tr ++ runs [e]) as -> by (unfold runs; by rewrite omap_app).
  rewrite !length_app.
  destruct Hs as [p q b q' ws c He|i p q q' ws c Hi Hd|i p r q q' ws c Hi Hd|i q q' ws c Hi Hd];
    cbn [queue workers] in *.
  - destruct (enqueue_represents q l p Hr) as (q1 & He1 & Hr1). rewrite He in He1. simplify_eq.
    exists (l ++ [p]). split; [done|]. rewrite length_app. cbn [runs omap list_omap length].
    assert (weight (if bool_decide (l = []) then ws ++ [Looping] else ws) ≤ weight ws + 1)%nat.
    { case_bool_decide; [|lia]. unfold weight, working. rewrite omap_app, !length_app. cbn. lia. }
    lia.
  - destruct (dequeue_represents q l Hr) as (q1 & Hd1 & Hr1). rewrite Hd in Hd1. simplify_eq.
    exists (tl l). split; [done|]. destruct l as [|p' l]; [done|].
    pose proof (weight_insert ws i Looping (Working p) Hi) as Hw. cbn in *. lia.
  - destruct (dequeue_represents q l Hr) as (q1 & Hd1 & Hr1). rewrite Hd in Hd1. simplify_eq.
    exists (tl l). split; [done|]. pose proof (weight_insert ws i (Working p) Looping Hi) as Hw.
    destruct l; cbn in *; lia.
  - destruct (dequeue_represents q l Hr) as (q1 & Hd1 & Hr1). rewrite Hd in Hd1. simplify_eq.
    exists (tl l). split; [done|]. pose proof (weight_remove ws i Hi).
    destruct l; cbn in *; lia.
Qed.

Lemma steps_paid tr s : steps init tr s → paid tr s.
Proof.
  assert (∀ s0, steps s0 tr s → paid [] s0 → paid tr s) as H.
  { intros s0. induction 1 as [|s0 tr s' e s'' _ IH Hs]; [done|]. intros H0.
    eapply step_paid; [by apply IH|done]. }
  intros Hs. apply (H _ Hs). exists []. split; [apply represents_New|]. done.
Qed.

(** A worker is never stuck. *)
Lemma worker_steps s l : represents (queue s) l → workers s ≠ [] →
  ∃ e s', step s e s' ∧ runs [e] = [].
Proof.
  destruct s as [q ws c]; cbn. intros Hr Hw.
  destruct (dequeue_represents q l Hr) as (q' & Hd & _).
  destruct ws as [|w ws]; [done|]. destruct w as [|p].
  - destruct l as [|p l]; cbn in Hd; eexists _, _; (split; [|shelve]).
    + by apply (step_exit 0).
    + by apply (step_take 0).
    Unshelve. all: done.
  - eexists _, _; split; [by eapply (step_finish 0)|done].
Qed.

Lemma thrown_away_le tr : (length (thrown_away tr) ≤ length (finished tr))%nat.
Proof.
  unfold thrown_away, finished. induction tr as [|e tr IH]; [done|].
  destruct e as [| |p [r|]|]; cbn [omap list_omap length] in *; lia.
Qed.

(** ** Properties *)

(** The linked list with its pointer to the last [next] field is a
    first-in-first-out queue: on every sequence of operations, none of which
    panics, it gives the results of a list, and starts a worker exactly when
    the list was empty. *)
Theorem queue_fifo ops : run_queue ops New = run_list ops [].
Proof. apply run_queue_sim, represents_New. Qed.

(** C17: in every interleaving of callers and workers, the orders that were
    given are those that wait, those worked on, those finished and those
    thrown away, each counted once; each finished order was called back
    once, in the order of finishing, with the nonce of its own target and
    object; and while an order waits there is a worker. *)
Theorem orders_accounted tr s : steps init tr s →
  ∃ l, represents (queue s) l ∧
    runs tr ≡ₚ l ++ working (workers s) ++ finished tr ++ thrown_away tr ∧
    called s = result <$> finished tr ∧
    (l ≠ [] → workers s ≠ []).
Proof. apply steps_accounted. Qed.

(** C18: the queue drains: in every history there are at most three worker
    events for each order, so without new orders every run of the workers
    ends; and when no worker can move any more there is no worker left, the
    queue is empty, every order was finished or thrown away, and at least
    half of them were finished. *)
Theorem queue_drains tr s : steps init tr s →
  (length tr ≤ 4 * length (runs tr))%nat ∧
  ((∀ e s', step s e s' → runs [e] ≠ []) →
    workers s = [] ∧ represents (queue s) [] ∧
    runs tr ≡ₚ finished tr ++ thrown_away tr ∧
    (length (runs tr) ≤ 2 * length (finished tr))%nat).
Proof.
  intros Hs. split; [destruct (steps_paid _ _ Hs) as (l & _ & H); lia|]. intros Hstuck.
  destruct (steps_accounted _ _ Hs) as (l & Hr & Hp & _ & Hl).
  assert (workers s = []) as Hw.
  { destruct (workers s) as [|w ws] eqn:E; [done|].
    destruct (worker_steps s l Hr) as (e & s' & He & Hn); [by rewrite E|]. by destruct (Hstuck e s' He). }
  assert (l = []) as -> by (destruct l; [done|by destruct Hl]).
  rewrite Hw in Hp. cbn in Hp. repeat split; [done|done|done|].
  rewrite Hp, length_app. pose proof (thrown_away_le tr). lia.
Qed.

Definition enqueue_all (l : list powOrder) : Pow := foldl (λ q p, (enqueue p q).2) New l.

Lemma enqueue_all_represents l : represents (enqueue_all l) l.
Proof.
  induction l as [|p l IH] using rev_ind; [apply represents_New|].
  unfold enqueue_all. rewrite foldl_app. cbn [foldl]. fold (enqueue_all l).
  by destruct (enqueue_represents _ _ p IH) as (q' & -> & Hr).
Qed.

(** [work] throws away every second order: of the orders that wait when
    it starts, the first, third, fifth and so on are worked on and called
    back, the others are removed and their callers never hear of them. *)
Theorem work_drops l :
  ∃ q, work (S (length l)) (enqueue_all l, []) = (Ok tt, (q, result <$> every_second l)) ∧ head q = None.
Proof.
  destruct (work_represents (length l) l (enqueue_all l) [] (le_n _) (enqueue_all_represents l)) as (q & Hw & Hr).
  exists q. split; [done|]. destruct Hr as ([|a addrs] & Hc & _); [done|done].
Qed.

(** Two workers can run at the same time: an order given while the only
    worker is busy finds the list empty and starts another. *)
Theorem two_workers p1 p2 :
  ∃ tr s, steps init tr s ∧ workers s = [Working p1; Working p2] ∧ runs tr = [p1; p2].
Proof.
  destruct (enqueue_represents New [] p1 represents_New) as (q1 & H1 & R1).
  destruct (dequeue_represents q1 _ R1) as (q2 & H2 & R2).
  destruct (enqueue_represents q2 _ p2 R2) as (q3 & H3 & R3).
  destruct (dequeue_represents q3 _ R3) as (q4 & H4 & R4).
  exists [ERun p1; ETake p1; ERun p2; ETake p2], (PState q4 [Working p1; Working p2] []).
  split; [|done].
  apply (steps_snoc _ [ERun p1; ETake p1; ERun p2] (PState q3 [Working p1; Looping] [])).
  2:{ by apply (step_take 1 p2 q3 q4 [Working p1; Looping] []). }
  apply (steps_snoc _ [ERun p1; ETake p1] (PState q2 [Working p1] [])).
  2:{ by apply (step_Run p2 q2 true q3 [Working p1] []). }
  apply (steps_snoc _ [ERun p1] (PState q1 [Looping] [])).
  2:{ by apply (step_take 0 p1 q1 q2 [Looping] []). }
  apply (steps_snoc _ [] init); [constructor|]. by apply (step_Run p1 New true q1 [] []).
Qed.
End pow.

Section witnesses.
Local Definition o1 : @powOrder Z nat := MkOrder 7 "one" 1%nat.
Local Definition o2 : @powOrder Z nat := MkOrder 8 "two" 2%nat.
Local Definition sha (s : string) : string := s.
Local Definition hashes (t : Z) (s : string) : Z := t + Z.of_nat (String.length s).

(** Two orders given before the worker starts: the second is thrown away. *)
Lemma orders_accounted_witness :
  ∃ q, steps sha hashes init [ERun o1; ERun o2; ETake o1; EFinish o1 (Some o2)] (PState q [Looping] [(1%nat, 10)]) ∧
    ∃ l, represents q l ∧ [o1; o2] ≡ₚ l ++ [] ++ [o1] ++ [o2].
Proof.
  assert (∃ q, steps sha hashes init [ERun o1; ERun o2; ETake o1; EFinish o1 (Some o2)]
    (PState q [Looping] [(1%nat, 10)])) as [q Hq].
  { exists (dequeue (dequeue (enqueue_all [o1; o2])).2).2.
    apply (steps_snoc _ _ _ [ERun o1; ERun o2; ETake o1] (PState (dequeue (enqueue_all [o1; o2])).2 [Working o1] [])).
    2:{ exact (step_finish sha hashes 0 o1 (Some o2) (dequeue (enqueue_all [o1; o2])).2 _ [Working o1] [] eq_refl eq_refl). }
    apply (steps_snoc _ _ _ [ERun o1; ERun o2] (PState (enqueue_all [o1; o2]) [Looping] [])).
    2:{ exact (step_take sha hashes 0 o1 (enqueue_all [o1; o2]) _ [Looping] [] eq_refl eq_refl). }
    apply (steps_snoc _ _ _ [ERun o1] (PState (enqueue_all [o1]) [Looping] [])).
    2:{ exact (step_Run sha hashes o2 (enqueue_all [o1]) false _ [Looping] [] eq_refl). }
    apply (steps_snoc _ _ _ [] init); [constructor|]. exact (step_Run sha hashes o1 New true _ [] [] eq_refl). }
  exists q. split; [exact Hq|]. destruct (orders_accounted sha hashes _ _ Hq) as (l & Hl & Hp & _).
  exists l. split; [exact Hl|exact Hp].
Defined.

Lemma queue_drains_witness :
  ∃ q, steps sha hashes init [ERun o1; ETake o1; EFinish o1 None; EExit] (PState q [] [(1%nat, 10)]) ∧
    (4 ≤ 4 * 1)%nat ∧ represents q [] ∧ (1 ≤ 2 * 1)%nat.
Proof.
  assert (∃ q, steps sha hashes init [ERun o1; ETake o1; EFinish o1 None; EExit] (PState q [] [(1%nat, 10)]))
    as [q Hq].
  { exists (dequeue (enqueue_all [o1])).2.
    apply (steps_snoc _ _ _ [ERun o1; ETake o1; EFinish o1 None]
      (PState (dequeue (enqueue_all [o1])).2 [Looping] [(1%nat, 10)])).
    2:{ exact (step_exit sha hashes 0 (dequeue (enqueue_all [o1])).2 _ [Looping] _ eq_refl eq_refl). }
    apply (steps_snoc _ _ _ [ERun o1; ETake o1] (PState (dequeue (enqueue_all [o1])).2 [Working o1] [])).
    2:{ exact (step_finish sha hashes 0 o1 None (dequeue (enqueue_all [o1])).2 _ [Working o1] [] eq_refl eq_refl). }
    apply (steps_snoc _ _ _ [ERun o1] (PState (enqueue_all [o1]) [Looping] [])).
    2:{ exact (step_take sha hashes 0 o1 (enqueue_all [o1]) _ [Looping] [] eq_refl eq_refl). }
    apply (steps_snoc _ _ _ [] init); [constructor|]. exact (step_Run sha hashes o1 New true _ [] [] eq_refl). }
  exists q. split; [exact Hq|]. destruct (queue_drains sha hashes _ _ Hq) as [Hl Hd].
  split; [exact Hl|]. destruct Hd as (_ & Hr & _ & Hh).
  - intros e s' He. inversion He; subst; try done; by cbn.
  - split; [exact Hr|exact Hh].
Defined.
End witnesses.
