(* ===== verification/Keys.v ===== *)
(** * Private identities ([idmgr/keys/keys.go])

    A private identity is one of the identity library with the flags and the
    name the agent keeps for it.  Its JSON form is modelled on trees; the
    text of a tree is that of [encoding/json], which replaces what is not
    UTF-8.

    Proved: an identity read back from its JSON form is the same identity,
    and what is written of one is that of the identity with its name so
    replaced. *)

From S2P Require Import Prelude Bytes Text Bmutil.
From Stdlib Require Import Ascii.
Local Open Scope Z_scope.

(** ** JSON trees *)

Inductive json :=
  | JNull
  | JBool (b : bool)
  | JNum (n : Z)
  | JStr (s : string)
  | JObj (l : list (string * json)).

(** A key of a structure is found whatever its case; the last one counts. *)
Definition json_field (name : string) (j : json) : option json :=
  match j with
  | JObj l => snd <$> last (filter (λ p, ToLower p.1 = ToLower name) l)
  | _ => None
  end.

(** What is read back of a tree that was written: bytes of its texts that are
    not UTF-8 have been replaced. *)
Fixpoint json_replaced (j : json) : json :=
  match j with
  | JStr s => JStr (utf8_replaced s)
  | JObj l => JObj (map (λ p, (utf8_replaced p.1, json_replaced p.2)) l)
  | j => j
  end.

Definition json_type : error := ErrNew "json: cannot unmarshal value into Go value".

(** Reading a field; [null] and a missing field leave the zero value. *)
Definition read_str (name : string) (j : json) : res string :=
  match json_field name j with
  | Some (JStr s) => Ok s | None | Some JNull => Ok EmptyString | _ => Err json_type end.
Definition read_bool (name : string) (j : json) : res bool :=
  match json_field name j with
  | Some (JBool b) => Ok b | None | Some JNull => Ok false | _ => Err json_type end.
(** Integers of a given range. *)
Definition read_num (lo hi : Z) (name : string) (j : json) : res Z :=
  match json_field name j with
  | Some (JNum n) => if (lo <=? n) && (n <? hi) then Ok n else Err json_type
  | None | Some JNull => Ok 0
  | _ => Err json_type
  end.

(** ** The identity library *)

Class Identity `{!Bmutil} := {
  ExtendedKey : Type;
  NewMaster : string → res ExtendedKey;
  ExtendedKey_String : ExtendedKey → string;
  NewKeyFromString : string → res ExtendedKey;
  HDKey : Type;                                  (** [identity.PrivateKey] *)
  NewHD : ExtendedKey → Z → Z → res HDKey;       (** index, stream *)
  PrivateAddress : Type;
  NewPrivateAddress : HDKey → Z → Z → PrivateAddress;           (** version, stream *)
  ImportWIF : string → string → string → res PrivateAddress;    (** address, keys *)
  IdPrivateID : Type;                            (** [identity.PrivateID] *)
  NewPrivateID : PrivateAddress → Z → option (Z * Z) → IdPrivateID;  (** behavior, pow *)
  id_Address : IdPrivateID → Address;
  id_Behavior : IdPrivateID → Z;
  id_Pow : IdPrivateID → option (Z * Z);         (** trials per byte and extra bytes; can be [nil] *)
  id_SigningWIF : IdPrivateID → string;
  id_EncryptionWIF : IdPrivateID → string;
  DefaultNonceTrialsPerByte : Z;
  DefaultExtraBytes : Z;
  DefaultAddressVersion : Z;
}.

(** Public identities ([identity.Public]), and that of a private one. *)
Class Publics `{!Bmutil} `{!Identity} := {
  IdPublic : Type;
  pub_Address : IdPublic → Address;
  pub_Behavior : IdPublic → Z;
  pub_Pow : IdPublic → option (Z * Z);
  id_Public : IdPrivateID → IdPublic;
}.

Class IdentityLaws `{!Bmutil} `{!Identity} : Prop := {
  KeyFromString_String k : NewKeyFromString (ExtendedKey_String k) = Ok k;
  ImportWIF_id p : ∃ pa,
    ImportWIF (Address_String (id_Address p)) (id_SigningWIF p) (id_EncryptionWIF p) = Ok pa ∧
    ∀ d, id_Pow p = Some d → NewPrivateID pa (id_Behavior p) (Some d) = p;
  (** keys and addresses are written in base 58 *)
  KeyString_ascii k : all_chars is_ascii (ExtendedKey_String k) = true;
  Address_ascii p : all_chars is_ascii (Address_String (id_Address p)) = true;
  WIF_ascii p : all_chars is_ascii (id_SigningWIF p) = true ∧ all_chars is_ascii (id_EncryptionWIF p) = true;
}.

Section keys.
Context {BM : Bmutil} {ID : Identity}.

Record PrivateID := MkPrivateID {
  Private : option IdPrivateID;   (** can be [nil] *)
  IsChan : bool;
  Disabled : bool;
  Imported : bool;
  id_Name : string;
}.

Definition PrivateID_Address (p : PrivateID) : res Address :=
  q ← deref (Private p); Ok (id_Address q).

(** [Public] returns [p.Public()]: it calls itself. *)
Fixpoint Public (fuel : nat) (p : PrivateID) : res PrivateID :=
  match fuel with O => Hang | S fuel => Public fuel p end.

Definition MasterKey_MarshalJSON (k : ExtendedKey) : json := JStr (ExtendedKey_String k).
Definition MasterKey_UnmarshalJSON (j : json) : res ExtendedKey :=
  match j with
  | JStr s => NewKeyFromString s
  | JNull => NewKeyFromString EmptyString
  | _ => Err json_type
  end.

Definition PrivateID_MarshalJSON (p : PrivateID) : res json :=
  match Private p with
  | None => Err ErrInvalidPrivateID
  | Some q =>
      pow ← deref (id_Pow q);
      Ok (JObj [
        ("address", JStr (Address_String (id_Address q)));
        ("behavior", JNum (id_Behavior q));
        ("disabled", JBool (Disabled p));
        ("encryptionKey", JStr (id_EncryptionWIF q));
        ("extraBytes", JNum pow.2);
        ("imported", JBool (Imported p));
        ("isChan", JBool (IsChan p));
        ("name", JStr (id_Name p));
        ("nonceTrialsPerByte", JNum pow.1);
        ("signingKey", JStr (id_SigningWIF q))])%string
  end.

Record privateIDStore := MkPrivateIDStore {
  st_Address : string;
  st_NonceTrialsPerByte : Z;
  st_ExtraBytes : Z;
  st_SigningKey : string;
  st_EncryptionKey : string;
  st_IsChan : bool;
  st_Disabled : bool;
  st_Imported : bool;
  st_Name : string;
  st_Behavior : Z;
}.

Definition read_store (j : json) : res privateIDStore :=
  match j with
  | JObj _ | JNull =>
      address ← read_str "address" j;
      trials ← read_num 0 (2 ^ 64) "nonceTrialsPerByte" j;
      extra ← read_num 0 (2 ^ 64) "extraBytes" j;
      signing ← read_str "signingKey" j;
      encryption ← read_str "encryptionKey" j;
      isChan ← read_bool "isChan" j;
      disabled ← read_bool "disabled" j;
      imported ← read_bool "imported" j;
      name ← read_str "name" j;
      behavior ← read_num 0 (2 ^ 32) "behavior" j;
      Ok (MkPrivateIDStore address trials extra signing encryption isChan disabled imported name behavior)
  | _ => Err json_type
  end.

Definition PrivateID_UnmarshalJSON (j : json) : res PrivateID :=
  stored ← read_store j;
  pa ← ImportWIF (st_Address stored) (st_SigningKey stored) (st_EncryptionKey stored);
  Ok (MkPrivateID
        (Some (NewPrivateID pa (st_Behavior stored)
          (Some (st_NonceTrialsPerByte stored, st_ExtraBytes stored))))
        (st_IsChan stored) (st_Disabled stored) (st_Imported stored) (st_Name stored)).

(** An identity that can be written: it has keys and difficulty parameters,
    and its numbers fit their types. *)
Definition writable (p : PrivateID) : Prop :=
  ∃ q d, Private p = Some q ∧ id_Pow q = Some d ∧ is_u64 d.1 ∧ is_u64 d.2 ∧ is_u32 (id_Behavior q).

Context {IL : IdentityLaws}.

Lemma read_store_eq a bh dis enc ex imp ch nm tr sg : is_u32 bh → is_u64 ex → is_u64 tr →
  read_store (JObj [("address", JStr a); ("behavior", JNum bh); ("disabled", JBool dis);
    ("encryptionKey", JStr enc); ("extraBytes", JNum ex); ("imported", JBool imp); ("isChan", JBool ch);
    ("name", JStr nm); ("nonceTrialsPerByte", JNum tr); ("signingKey", JStr sg)])%string =
  Ok (MkPrivateIDStore a tr ex sg enc ch dis imp nm bh).
Proof.
  intros H1 H2 H3. unfold read_store, read_str, read_bool, read_num.
  repeat match goal with
  | |- context [json_field ?n ?l] =>
      let v := eval vm_compute in (json_field n l) in
      replace (json_field n l) with v by (vm_compute; reflexivity)
  end.
  munfold. assert (∀ n hi, 0 ≤ n < hi → ((0 <=? n) && (n <? hi)) = true) as Hr.
  { intros n hi Hb. apply andb_true_intro. split; [apply Z.leb_le|apply Z.ltb_lt]; lia. }
  unfold is_u64, is_u32 in *. by rewrite !Hr by lia.
Qed.

Lemma PrivateID_json p : writable p →
  ∃ j, PrivateID_MarshalJSON p = Ok j ∧ PrivateID_UnmarshalJSON j = Ok p.
Proof.
  intros (q & [trials extra] & Hq & Hp & H1 & H2 & H3). cbn [fst snd] in *.
  unfold PrivateID_MarshalJSON. rewrite Hq. munfold. rewrite Hp. cbn [deref fst snd].
  eexists. split; [done|]. destruct (ImportWIF_id q) as (pa & Hi & Hn). unfold PrivateID_UnmarshalJSON.
  rewrite read_store_eq by done. munfold. cbn [st_Address st_SigningKey st_EncryptionKey].
  rewrite Hi. cbn. rewrite (Hn _ Hp). destruct p; simpl in *. by subst.
Qed.

(** What is read back of an identity: its name as it was written. *)
Definition name_replaced (p : PrivateID) : PrivateID :=
  MkPrivateID (Private p) (IsChan p) (Disabled p) (Imported p) (utf8_replaced (id_Name p)).
Lemma name_replaced_writable p : writable p → writable (name_replaced p).
Proof. done. Qed.
Lemma name_replaced_id p : name_replaced p = p ↔ utf8_valid (id_Name p) = true.
Proof.
  rewrite <- utf8_replaced_valid. destruct p as [q c d i n]. unfold name_replaced. cbn.
  split; [by intros [= ->]|by intros ->].
Qed.
Lemma MarshalJSON_replaced p j : PrivateID_MarshalJSON p = Ok j →
  PrivateID_MarshalJSON (name_replaced p) = Ok (json_replaced j).
Proof.
  unfold PrivateID_MarshalJSON, name_replaced. cbn [Private Disabled Imported IsChan id_Name].
  destruct (Private p) as [q|]; [|done]. munfold. destruct (id_Pow q) as [d|]; [|done]. intros [= <-].
  destruct (WIF_ascii q) as [Hs He]. cbn [json_replaced map fst snd].
  rewrite (ascii_replaced _ Hs), (ascii_replaced _ He), (ascii_replaced _ (Address_ascii q)). reflexivity.
Qed.
End keys.

(** ** A concrete identity library: keys are strings *)

Module IdentityModel.
Import BmutilModel.
#[export] Instance model : Identity := {
  ExtendedKey := string;
  NewMaster s := if bool_decide (s = EmptyString) then Err (ErrNew "invalid seed") else Ok s;
  ExtendedKey_String k := escape k;
  NewKeyFromString s := Ok (unescape s);
  HDKey := string;
  NewHD k i stream :=
    if bool_decide (i = 1) then Err (ErrNew "unusable seed") else Ok (k ++ be32 i)%string;
  PrivateAddress := string;
  NewPrivateAddress k version stream := k;
  ImportWIF a s e := if sprefix "BM-" a then Ok (unescape (sdrop 3 a)) else Err (ErrNew "invalid address");
  IdPrivateID := string * Z * option (Z * Z);
  NewPrivateID pa b pow := (pa, b, Some (default (1000, 1000) pow));
  id_Address p := p.1.1;
  id_Behavior p := p.1.2;
  id_Pow p := p.2;
  id_SigningWIF p := EmptyString;
  id_EncryptionWIF p := EmptyString;
  DefaultNonceTrialsPerByte := 1000;
  DefaultExtraBytes := 1000;
  DefaultAddressVersion := 4;
}.
#[export] Instance model_laws : IdentityLaws.
Proof.
  split.
  - intros k. simpl. by rewrite unescape_escape.
  - intros [[a b] d]. exists a. split; [|by intros ? [= ->]].
    simpl. by rewrite (sdrop_app "BM-" (escape a)), unescape_escape by done.
  - intros k. apply escape_ascii.
  - intros [[a b] d]. exact (escape_ascii a).
  - done.
Qed.
#[export] Instance publics : Publics := {
  IdPublic := string * Z * option (Z * Z);
  pub_Address p := p.1.1;
  pub_Behavior p := p.1.2;
  pub_Pow p := p.2;
  id_Public p := p;
}.
End IdentityModel.
