(* ===== verification/Email.v ===== *)
(** * E-mails and bitmessages ([user/email])

    [bmail.go], [email.go], [content.go]: the message type of the agent, its
    conversion from and to e-mails, the extraction of Bitmessage addresses
    and the body of an SMTP message.  The regular expressions of the code
    are written as the recognisers they denote; [net/mail], the MIME parser
    and the flags of the IMAP library are parameters. *)

From S2P Require Import Prelude Bytes Text Bolt StoreEnv Bmutil.
From Stdlib Require Import Ascii.
Local Open Scope Z_scope.
Local Open Scope list_scope.

(** ** Text *)

(** [strings.Split(s, "@")[0]], and what follows the first ["@"]. *)
Fixpoint split_at_sign (s : string) : string * option string :=
  match s with
  | EmptyString => (EmptyString, None)
  | String c s =>
      if is_char 64 c then (EmptyString, Some s)
      else let '(a, r) := split_at_sign s in (String c a, r)
  end.

(** ["[123456789abcdefghijkmnopqrstuvwxyzABCDEFGHJKLMNPQRSTUVWXYZ]"] *)
Definition base58_char (c : ascii) : bool :=
  between 49 57 c || (between 97 122 c && negb (is_char 108 c)) ||
  (between 65 90 c && negb (is_char 73 c) && negb (is_char 79 c)).

(** [bmAddrPattern], anchored: [BitmessageRegex]. *)
Definition BitmessageRegex (s : string) : bool :=
  match s with
  | String b (String m (String d (String c r))) =>
      is_char 66 b && is_char 77 m && is_char 45 d && all_chars base58_char (String c r)
  | _ => false
  end.

(** ["^" bmAddrPattern "@bm\.addr$"]: no character of the pattern is an
    at-sign. *)
Definition emailRegex (s : string) : bool :=
  match split_at_sign s with
  | (a, Some d) => BitmessageRegex a && bool_decide (d = "bm.addr")
  | (_, None) => false
  end.

(** ["^[a-z]+@bm\.agent$"] *)
Definition CommandRegex (s : string) : bool :=
  match split_at_sign s with
  | (String c a, Some d) => all_chars (between 97 122) (String c a) && bool_decide (d = "bm.agent")
  | _ => false
  end.

(** ** Parameters *)

(** The content of an e-mail ([data.Content]). *)
Record Content := MkContent {
  Headers : gmap string (list string);
  Body : string;
  Size : Z;
}.

Class MailLibs := {
  mail_ParseAddress : string → res string;       (** the [Address] of the result *)
  ParseMIMEBody : Content → list Content;        (** the parts of a multipart body *)
  FlagSeen : Z; FlagDeleted : Z; FlagRecent : Z;  (** [types.Flags], 8 bits *)
  HasFlags : Z → Z → bool;
  SetFlags : Z → Z → Z;
  ResetFlags : Z → Z → Z;
}.

Class MailLaws `{!MailLibs} : Prop := {
  (** an address without display name, comments or quotes is itself *)
  ParseAddress_plain s : emailRegex s = true ∨ CommandRegex s = true → mail_ParseAddress s = Ok s;
  ParseAddress_returns s : match mail_ParseAddress s with Panic | Hang => False | _ => True end;
  HasFlags_spec f g : HasFlags f g = (Z.land f g =? g);
  SetFlags_spec f g : SetFlags f g = Z.lor f g;
  ResetFlags_spec f g : ResetFlags f g = Z.land f (Z.lnot g);
}.

(** ** Messages *)

(** [format.Encoding]: the two encodings the program constructs. *)
Inductive Encoding :=
  | Encoding1 (body : string)
  | Encoding2 (subject body : string).
#[export] Instance Encoding_eq_dec : EqDecision Encoding.
Proof. solve_decision. Defined.

Definition Encoding_Encoding (e : Encoding) : Z :=
  match e with Encoding1 _ => 1 | Encoding2 _ _ => 2 end.

Section email.
Context {EV : Env} {BM : Bmutil} {ML : MailLibs}.

(** The mailbox a message belongs to is the one that returned it. *)
Record ImapData := MkImapData {
  UID : Z;
  SequenceNumber : Z;
  Flags : Z;
  TimeReceived : Time;
}.

Record MessageState := MkMessageState {
  PubkeyRequestOutstanding : bool;
  SendTries : Z;
  LastSend : Time;
  AckExpected : bool;
  AckReceived : bool;
  Received : bool;
}.

Record Bmail := MkBmail {
  From : string;
  To : string;
  OfChannel : bool;
  Expiration : Time;
  Ack : option string;
  Bmail_Content : option Encoding;
  Bmail_ImapData : option ImapData;
  State : option MessageState;
}.

Record IMAPEmail := MkIMAPEmail {
  ImapSequenceNumber : Z;
  ImapUID : Z;
  ImapFlags : Z;
  Date : Time;
  IMAPEmail_Content : Content;
}.

#[export] Instance ImapData_eq_dec : EqDecision ImapData.
Proof. solve_decision. Defined.
#[export] Instance MessageState_eq_dec : EqDecision MessageState.
Proof. solve_decision. Defined.
#[export] Instance Bmail_eq_dec : EqDecision Bmail.
Proof. solve_decision. Defined.

Definition new_MessageState : MessageState := MkMessageState false 0 Time_zero false false false.

(** [v[0]] of a header *)
Definition first_value (l : list string) : res string :=
  match l with v :: _ => Ok v | [] => Panic end.

(** ** Addresses *)

Definition Broadcast : string := "broadcast@bm.addr".

Definition BmToEmail (bmAddr : string) : string :=
  if bool_decide (bmAddr = EmptyString) then Broadcast else (bmAddr ++ "@bm.addr")%string.

Definition ToBm (emailAddr : string) : res string :=
  addr ← mail_ParseAddress emailAddr;
  if bool_decide (emailAddr = Broadcast) then Ok EmptyString
  else if negb (emailRegex addr) then Err ErrInvalidEmail
  else
    let bm := (split_at_sign addr).1 in
    match DecodeAddress bm with
    | Ok _ => Ok bm
    | Err _ => Err ErrInvalidEmail
    | Panic => Panic
    | Hang => Hang
    end.

Definition ValidateEmail (to : string) : bool :=
  match mail_ParseAddress to with
  | Ok addr => emailRegex addr || CommandRegex addr
  | _ => false
  end.

(** ** Reading decrypted objects ([cipher.Message], [cipher.Broadcast]) *)

(** What the code reads of a decrypted message. *)
Record CipherMessage := MkCipherMessage {
  cm_public_address : string;       (** [Bitmessage().Public.Address().String()] *)
  cm_content : option Encoding;     (** [Bitmessage().Content] *)
  cm_expiration : Time;             (** [Object().Header().Expiration()] *)
  cm_ack : option string;           (** [Ack()] *)
}.

Definition MsgRead (msg : CipherMessage) (toAddress : string) (ofChan : bool) : Bmail :=
  MkBmail (BmToEmail (cm_public_address msg)) (BmToEmail toAddress) ofChan (cm_expiration msg)
    (cm_ack msg) (cm_content msg) None None.

Definition BroadcastRead (msg : CipherMessage) : Bmail :=
  MkBmail Broadcast (BmToEmail (cm_public_address msg)) false (cm_expiration msg) None
    (cm_content msg) None None.

(** ** To e-mail *)

(** The length of a header printed by [fmt] as [map[k:[v v] k:[v]]]. *)
Definition printed_list (l : list string) : nat :=
  2 + foldr (λ v n, String.length v + n)%nat 0%nat l + (length l - 1).
Definition printed_headers (h : gmap string (list string)) : nat :=
  5 + map_fold (λ k v n, String.length k + 1 + printed_list v + n)%nat 0%nat h + (size h - 1).

Definition ToEmail (m : Bmail) : res IMAPEmail :=
  match Bmail_Content m with
  | Some (Encoding2 subject body) =>
      match Bmail_ImapData m with
      | None => Err (ErrNew "No IMAP data")
      | Some d =>
          let headers : gmap string (list string) :=
            <["Subject"%string := [subject]]> (<["From"%string := [From m]]> (<["To"%string := [To m]]>
            (<["Date"%string := [Time_Format (TimeReceived d)]]>
            (<["Expires"%string := [Time_Format (Expiration m)]]> ∅)))) in
          let headers := if OfChannel m then <["Reply-To"%string := [To m]]> headers else headers in
          let headers := <["Content-Type"%string := ["text/plain; charset=" ++ String "034" "UTF-8" ++ String "034" EmptyString]%string]> headers in
          let headers := <["Content-Transfer-Encoding"%string := ["8bit"%string]]> headers in
          let size := Z.of_nat (printed_headers headers + 2 + String.length body) in
          Ok (MkIMAPEmail (SequenceNumber d) (UID d) (Flags d) (TimeReceived d)
            (MkContent headers body size))
      end
  | _ => Err (ErrNew "Wrong format")
  end.

(** ** Content types

    [contentTypeRegex] is deterministic: a token is a maximal run of its
    characters, none of which can follow one. *)

Definition is_space (c : ascii) : bool :=
  is_char 9 c || is_char 10 c || is_char 12 c || is_char 13 c || is_char 32 c.
Definition is_cntrl (c : ascii) : bool := between 0 31 c || is_char 127 c.
(** every character but the space, the controls and the special characters *)
Definition token_char (c : ascii) : bool :=
  negb (is_char 32 c || is_cntrl c || is_char 40 c || is_char 41 c || is_char 60 c || is_char 62 c ||
    is_char 64 c || is_char 44 c || is_char 59 c || is_char 58 c || is_char 92 c || is_char 34 c ||
    is_char 47 c || is_char 91 c || is_char 93 c || is_char 63 c || is_char 46 c || is_char 61 c).

Fixpoint span (p : ascii → bool) (s : string) : string * string :=
  match s with
  | EmptyString => (EmptyString, EmptyString)
  | String c r => if p c then let '(a, b) := span p r in (String c a, b) else (EmptyString, s)
  end.

(** ["\s?"] *)
Definition opt_space (s : string) : string :=
  match s with String c r => if is_space c then r else s | _ => s end.

Definition token (s : string) : option (string * string) :=
  match span token_char s with
  | (EmptyString, _) => None
  | p => Some p
  end.

(** the types listed, or ["x-"] and a token *)
Definition content_type (s : string) : option (string * string) :=
  match token s with
  | Some (t, r) =>
      if bool_decide (t ∈ ["application"; "audio"; "image"; "message"; "multipart"; "text"; "video"]%string)
         || (sprefix "x-" t && (2 <? String.length t)%nat)
      then Some (t, r) else None
  | None => None
  end.

(** a quoted string or a token *)
Definition param_value (s : string) : option (string * string) :=
  match s with
  | String c r =>
      if is_char 34 c then
        match span (λ c, negb (is_char 34 c)) r with
        | (v, String q r) => Some (String c (v ++ String q EmptyString), r)
        | (_, EmptyString) => None
        end
      else token s
  | EmptyString => None
  end.

(** The parameters; the last one is what the expression captures. *)
Fixpoint params (fuel : nat) (s : string) (last : string * string) : option (string * string) :=
  match fuel with
  | O => None
  | S fuel =>
      match opt_space s with
      | EmptyString => Some last
      | String c r =>
          if is_char 59 c then
            match token (opt_space r) with
            | Some (k, String e r) =>
                if is_char 61 e then
                  match param_value r with
                  | Some (v, r) => params fuel r (k, v)
                  | None => None
                  end
                else None
            | _ => None
            end
          else None
      end
  end.

Definition GetContentType (contentType : string) : res (string * string * gmap string string) :=
  match content_type (opt_space contentType) with
  | Some (content, r) =>
      match opt_space r with
      | String c r =>
          if is_char 47 c then
            match token (opt_space r) with
            | Some (subtype, r) =>
                match params (S (String.length r)) r (EmptyString, EmptyString) with
                | Some (k, v) => Ok (content, subtype, {[k := v]})
                | None => Err (ErrNew "Cannot parse")
                end
            | None => Err (ErrNew "Cannot parse")
            end
          else Err (ErrNew "Cannot parse")
      | EmptyString => Err (ErrNew "Cannot parse")
      end
  | None => Err (ErrNew "Cannot parse")
  end.

Definition is_type (content subtype : string) (t : string * string * gmap string string) : bool :=
  bool_decide (t.1.1 = content) && bool_decide (t.1.2 = subtype).

(** The value of a required header, or an error. *)
Definition content_type_header (c : Content) : res string :=
  match Headers c !! "Content-Type"%string with
  | None => Err (ErrNew "Unrecognized MIME version")
  | Some l => first_value l
  end.

Definition getPlainBody (email : Content) : res string :=
  contentType ← content_type_header email;
  t ← GetContentType contentType;
  if is_type "text" "plain" t then Ok (Body email) else Ok EmptyString.

(** The first part with a plain body; errors of the parts are discarded. *)
Fixpoint first_plain (parts : list Content) : res string :=
  match parts with
  | [] => Err (ErrNew "Couldn't find a text/plain MIME part")
  | part :: parts =>
      match getPlainBody part with
      | Ok (String c r) => Ok (String c r)
      | Panic => Panic
      | Hang => Hang
      | _ => first_plain parts
      end
  end.

Definition GetSMTPBody (email : Content) : res string :=
  match Headers email !! "MIME-Version"%string with
  | None => Ok (Body email)
  | Some version =>
      v ← first_value version;
      if negb (bool_decide (v = "1.0"%string)) then Err (ErrNew "Unrecognized MIME version")
      else
        contentType ← content_type_header email;
        t ← GetContentType contentType;
        if is_type "text" "plain" t then Ok (Body email)
        else if is_type "multipart" "alternative" t then first_plain (ParseMIMEBody email)
        else Err (ErrNew ("Unsupported Content-Type: " ++ contentType ++ "; use text/plain instead")%string)
  end.

(** ** From SMTP *)

(** The value of a header that must be there once. *)
Definition single_header (name : string) (h : gmap string (list string)) : res string :=
  match h !! name with
  | None => Err (ErrNew ("Invalid headers: " ++ name ++ " field is required")%string)
  | Some [v] => Ok v
  | Some _ => Err (ErrNew ("Invalid headers: only one " ++ name ++ " field is allowed.")%string)
  end.

Definition smtp_expiration (h : gmap string (list string)) : res Time :=
  match h !! "Expires"%string with
  | None => Ok Time_zero
  | Some l => s ← first_value l; Time_Parse s
  end.

Definition smtp_subject (h : gmap string (list string)) : res string :=
  match h !! "Subject"%string with
  | None => Ok EmptyString
  | Some l => first_value l
  end.

Definition nonempty_header (name : string) (h : gmap string (list string)) : bool :=
  match h !! name with Some (_ :: _) => true | _ => false end.

(** [addr, _ := mail.ParseAddress(s); addr.Address]: [nil] on error. *)
Definition parsed_address (s : string) : res string :=
  match mail_ParseAddress s with Err _ => Panic | r => r end.

Definition NewBitmessageFromSMTP (smtp : Content) : res Bmail :=
  let header := Headers smtp in
  toV ← single_header "To" header;
  fromV ← single_header "From" header;
  if negb (ValidateEmail fromV || ValidateEmail toV) then Err ErrInvalidEmail
  else
    from ← parsed_address fromV;
    to ← parsed_address toV;
    if nonempty_header "Cc" header || nonempty_header "Bcc" header then
      Err (ErrNew "Invalid headers: do not use CC or BCC with Bitmessage")
    else
      expiration ← smtp_expiration header;
      subject ← smtp_subject header;
      body ← GetSMTPBody smtp;
      Ok (MkBmail from to false expiration None (Some (Encoding2 subject body)) None
        (Some new_MessageState)).

Definition draft_To (h : gmap string (list string)) : string :=
  match h !! "To"%string with
  | None => EmptyString
  | Some toList =>
      if negb (length toList =? 1)%nat then EmptyString
      else if negb (length toList =? 1)%nat then default EmptyString (head toList)
      else EmptyString
  end.

Definition draft_From (h : gmap string (list string)) : string :=
  match h !! "From"%string with
  | Some [v] => v
  | _ => EmptyString
  end.

Definition NewBitmessageDraftFromSMTP (smtp : Content) : res Bmail :=
  let header := Headers smtp in
  let to := draft_To header in
  let from := draft_From header in
  expiration ← smtp_expiration header;
  subject ← smtp_subject header;
  body ← GetSMTPBody smtp;
  Ok (MkBmail from to false expiration None (Some (Encoding2 subject body)) None
    (Some (MkMessageState false 0 Time_zero (negb (bool_decide (to = EmptyString))) false false))).

(** ** The IMAP view ([mailstore.Message]) *)

Definition imap_UID (e : IMAPEmail) : Z := u32 (ImapUID e).
Definition imap_Size (e : IMAPEmail) : Z := u32 (Size (IMAPEmail_Content e)).
Definition imap_Header (e : IMAPEmail) : gmap string (list string) := Headers (IMAPEmail_Content e).
Definition imap_Body (e : IMAPEmail) : res string :=
  match GetSMTPBody (IMAPEmail_Content e) with Err _ => Ok EmptyString | r => r end.
Definition imap_Keywords (e : IMAPEmail) : list string := [].
Definition set_ImapFlags (f : Z) (e : IMAPEmail) : IMAPEmail :=
  MkIMAPEmail (ImapSequenceNumber e) (ImapUID e) f (Date e) (IMAPEmail_Content e).
Definition OverwriteFlags (newFlags : Z) (e : IMAPEmail) : IMAPEmail := set_ImapFlags newFlags e.
Definition AddFlags (newFlags : Z) (e : IMAPEmail) : IMAPEmail :=
  set_ImapFlags (SetFlags (ImapFlags e) newFlags) e.
Definition RemoveFlags (newFlags : Z) (e : IMAPEmail) : IMAPEmail :=
  set_ImapFlags (ResetFlags (ImapFlags e) newFlags) e.
Definition set_Content (c : Content) (e : IMAPEmail) : IMAPEmail :=
  MkIMAPEmail (ImapSequenceNumber e) (ImapUID e) (ImapFlags e) (Date e) c.
Definition SetBody (body : string) (e : IMAPEmail) : IMAPEmail :=
  set_Content (MkContent (Headers (IMAPEmail_Content e)) body (Size (IMAPEmail_Content e))) e.

(** [headers.Get("Date")]: the first value, empty when there is none. *)
Definition header_Get (name : string) (h : gmap string (list string)) : string :=
  match h !! name with Some (v :: _) => v | _ => EmptyString end.

Definition SetHeaders (headers : gmap string (list string)) (e : IMAPEmail) : IMAPEmail :=
  let date := header_Get "Date" headers in
  let d := if bool_decide (date = EmptyString) then Date e
           else match Time_Parse date with Ok d => d | _ => Date e end in
  MkIMAPEmail (ImapSequenceNumber e) (ImapUID e) (ImapFlags e) d
    (MkContent headers (Body (IMAPEmail_Content e)) (Size (IMAPEmail_Content e))).
End email.

(** ** Addresses are taken back out of e-mail addresses *)

Section addresses.
Context {EV : Env} {BM : Bmutil} {ML : MailLibs} {MW : MailLaws}.

Lemma base58_not_at c : base58_char c = true → is_char 64 c = false.
Proof. unfold base58_char, between, is_char. pose proof (Z_of_byte_range c). lia. Qed.

Lemma split_base58 a d : all_chars base58_char a = true →
  split_at_sign (a ++ String "064" d)%string = (a, Some d).
Proof.
  induction a as [|c a IH]; [done|]. simpl. intros [Hc Ha]%andb_true_iff.
  rewrite base58_not_at by done. fold (a ++ String "064" d)%string. by rewrite IH.
Qed.

Lemma is_char_eq z c : is_char z c = true → c = byte_of_Z z.
Proof.
  unfold is_char. intros H%Z.eqb_eq. apply Z_of_byte_inj. rewrite Z_of_byte_of_Z.
  pose proof (Z_of_byte_range c). rewrite Z.mod_small; lia.
Qed.

Lemma BitmessageRegex_spec a : BitmessageRegex a = true →
  ∃ c r, a = String "B" (String "M" (String "-" (String c r))) ∧ all_chars base58_char (String c r) = true.
Proof.
  destruct a as [|b [|m [|d [|c r]]]]; try done. cbn [BitmessageRegex].
  intros [[[Hb Hm]%andb_true_iff Hd]%andb_true_iff Hr]%andb_true_iff. exists c, r. split; [|done].
  by rewrite (is_char_eq _ _ Hb), (is_char_eq _ _ Hm), (is_char_eq _ _ Hd).
Qed.

Lemma split_BmToEmail a : BitmessageRegex a = true →
  split_at_sign (a ++ "@bm.addr")%string = (a, Some "bm.addr"%string).
Proof.
  intros (c & r & -> & H)%BitmessageRegex_spec.
  change ("@bm.addr"%string) with (String "064" "bm.addr").
  pose proof (split_base58 (String c r) "bm.addr" H) as E.
  change (split_at_sign (String "B" (String "M" (String "-" (String c r ++ String "064" "bm.addr")%string)))
    = (String "B" (String "M" (String "-" (String c r))), Some "bm.addr"%string)).
  cbn [split_at_sign]. by rewrite E.
Qed.

Lemma emailRegex_BmToEmail a : BitmessageRegex a = true → emailRegex (a ++ "@bm.addr")%string = true.
Proof. intros H. unfold emailRegex. rewrite split_BmToEmail by done. by rewrite H, bool_decide_eq_true_2. Qed.

Lemma emailRegex_Broadcast : emailRegex Broadcast = false.
Proof. reflexivity. Qed.

Lemma ToBm_BmToEmail_ok a addr : BitmessageRegex a = true → DecodeAddress a = Ok addr →
  ToBm (BmToEmail a) = Ok a.
Proof.
  intros Hr Hd. assert (a ≠ EmptyString) as Hne by (by intros ->).
  unfold BmToEmail. rewrite bool_decide_eq_false_2 by done. unfold ToBm.
  pose proof (emailRegex_BmToEmail a Hr) as He. rewrite ParseAddress_plain by by left. munfold.
  rewrite bool_decide_eq_false_2 by (intros H; by rewrite H, emailRegex_Broadcast in He).
  rewrite He. cbn [negb]. rewrite split_BmToEmail by done. cbn [fst]. by rewrite Hd.
Qed.

(** The form of a Bitmessage address: ["BM-"] and at least one character of
    the alphabet of Bitcoin. *)
Definition base58_alphabet : string := "123456789ABCDEFGHJKLMNPQRSTUVWXYZabcdefghijkmnopqrstuvwxyz".
Definition address_form (a : string) : Prop :=
  ∃ r, a = ("BM-" ++ r)%string ∧ r ≠ EmptyString ∧
    ∀ c, c ∈ String.list_ascii_of_string r → c ∈ String.list_ascii_of_string base58_alphabet.

Lemma base58_char_alphabet c : base58_char c = bool_decide (c ∈ String.list_ascii_of_string base58_alphabet).
Proof. by destruct c as [[] [] [] [] [] [] [] []]; vm_compute. Qed.
Lemma all_chars_Forall p s : all_chars p s = true ↔ ∀ c, c ∈ String.list_ascii_of_string s → p c = true.
Proof.
  induction s as [|d s IH]; cbn [all_chars String.list_ascii_of_string]; [split; [|done]; by intros _ c ?%elem_of_nil|].
  rewrite andb_true_iff, IH. setoid_rewrite elem_of_cons. split; [intros [? ?] c [->|?]; auto|auto].
Qed.
Lemma BitmessageRegex_form a : BitmessageRegex a = true ↔ address_form a.
Proof.
  assert (∀ r, all_chars base58_char r = true ↔
    ∀ c, c ∈ String.list_ascii_of_string r → c ∈ String.list_ascii_of_string base58_alphabet) as Hall.
  { intros r. rewrite all_chars_Forall. by setoid_rewrite base58_char_alphabet; setoid_rewrite bool_decide_eq_true. }
  split.
  - intros (c & r & -> & H)%BitmessageRegex_spec. exists (String c r). by rewrite <- Hall.
  - intros (r & -> & Hne & H%Hall). by destruct r.
Qed.

(** What precedes the at-sign and what follows it. *)
Lemma split_at_sign_eq s a d : split_at_sign s = (a, Some d) → s = (a ++ String "064" d)%string.
Proof.
  revert a. induction s as [|c s IH]; [done|]. intros a. cbn [split_at_sign].
  destruct (is_char 64 c) eqn:E; [apply is_char_eq in E as ->; by intros [= <- <-]|].
  destruct (split_at_sign s) as [b r]. intros [= <- ->]. by rewrite (IH b eq_refl).
Qed.
Lemma emailRegex_form e : emailRegex e = true ↔ ∃ a, e = (a ++ "@bm.addr")%string ∧ address_form a.
Proof.
  split.
  - unfold emailRegex. destruct (split_at_sign e) as [a [d|]] eqn:E; [|done].
    intros [Ha%BitmessageRegex_form ->%bool_decide_eq_true]%andb_true_iff.
    exists a. split; [by apply split_at_sign_eq in E|done].
  - intros (a & -> & Ha). by apply emailRegex_BmToEmail, BitmessageRegex_form.
Qed.

(** C35: an address put in an e-mail address by [BmToEmail] is taken back by
    [ToBm]: for every Bitmessage address, and for the empty address of
    broadcasts; and [ToBm] accepts nothing else: it gives an address exactly
    for what parses as that address at [bm.addr], where the address has the
    form of one and decodes, and the empty one for the address of
    broadcasts. *)
Theorem ToBm_BmToEmail :
  (∀ a addr, BitmessageRegex a = true → DecodeAddress a = Ok addr → ToBm (BmToEmail a) = Ok a) ∧
  (mail_ParseAddress Broadcast = Ok Broadcast → ToBm (BmToEmail EmptyString) = Ok EmptyString) ∧
  (∀ s a, ToBm s = Ok a ↔
     (s = Broadcast ∧ a = EmptyString ∧ ∃ e, mail_ParseAddress s = Ok e) ∨
     (s ≠ Broadcast ∧ mail_ParseAddress s = Ok (a ++ "@bm.addr")%string ∧ address_form a ∧
      ∃ addr, DecodeAddress a = Ok addr)).
Proof.
  split; [|split].
  - intros a addr. apply ToBm_BmToEmail_ok.
  - intros H. unfold BmToEmail. rewrite bool_decide_eq_true_2 by done.
    unfold ToBm. rewrite H. munfold. by rewrite bool_decide_eq_true_2.
  - intros s a. unfold ToBm. munfold. split.
    + destruct (mail_ParseAddress s) as [e| | |]; try done.
      case_bool_decide as Hb; [intros [= <-]; left; eauto|].
      destruct (emailRegex e) eqn:He; [|done]. apply emailRegex_form in He as (b & -> & Hf).
      rewrite split_BmToEmail by (by apply BitmessageRegex_form). cbn [negb fst].
      destruct (DecodeAddress b) as [x| | |] eqn:Hd; try done. intros [= <-]. right. eauto 6.
    + intros [(-> & -> & e & ->)|(Hs & -> & Ha%BitmessageRegex_form & addr & Hd)]; [by rewrite bool_decide_eq_true_2|].
      rewrite bool_decide_eq_false_2 by done. rewrite emailRegex_BmToEmail by done. cbn [negb].
      rewrite split_BmToEmail by done. cbn [fst]. by rewrite Hd.
Qed.
End addresses.

(** ** Messages and e-mails *)

Section conversion.
Context {EV : Env} {BM : Bmutil} {ML : MailLibs} {EL : EnvLaws} {MW : MailLaws}.

(** The message that an IMAP client saves back. *)
Definition saved_back (m : Bmail) (subject body : string) : Bmail :=
  MkBmail (From m) (To m) false (Time_seconds (Expiration m)) None (Some (Encoding2 subject body))
    None (Some new_MessageState).

Lemma ToEmail_headers m subject body d e :
  Bmail_Content m = Some (Encoding2 subject body) → Bmail_ImapData m = Some d → ToEmail m = Ok e →
  let h := Headers (IMAPEmail_Content e) in
  h !! "Subject"%string = Some [subject] ∧ h !! "From"%string = Some [From m] ∧
  h !! "To"%string = Some [To m] ∧ h !! "Date"%string = Some [Time_Format (TimeReceived d)] ∧
  h !! "Expires"%string = Some [Time_Format (Expiration m)] ∧
  h !! "Reply-To"%string = (if OfChannel m then Some [To m] else None) ∧
  h !! "Cc"%string = None ∧ h !! "Bcc"%string = None ∧ h !! "MIME-Version"%string = None ∧
  Body (IMAPEmail_Content e) = body.
Proof.
  intros Hc Hd. unfold ToEmail. rewrite Hc, Hd. intros [= <-]. cbn [IMAPEmail_Content Headers Body].
  destruct (OfChannel m); cbn [negb]; repeat split;
    repeat first [rewrite lookup_insert_eq; reflexivity | rewrite lookup_insert_ne by done];
    apply lookup_empty.
Qed.

(** A message in encoding 2 converted to the e-mail that an IMAP client
    sees, with valid Bitmessage addresses, is accepted when the client saves
    it back, and gives the sender, the recipient, the subject, the body and
    the expiration (to the second) it had.  Its ack and the mark that it
    belongs to a channel are not in the e-mail: they are lost. *)
Theorem ToEmail_saved_back m subject body d :
  Bmail_Content m = Some (Encoding2 subject body) → Bmail_ImapData m = Some d →
  emailRegex (From m) = true → emailRegex (To m) = true →
  ∃ e, ToEmail m = Ok e ∧ ImapUID e = UID d ∧ ImapFlags e = Flags d ∧ Date e = TimeReceived d ∧
    NewBitmessageFromSMTP (IMAPEmail_Content e) = Ok (saved_back m subject body).
Proof.
  intros Hc Hd Hf Ht. destruct (ToEmail m) as [e| | |] eqn:E; try (unfold ToEmail in E; by rewrite Hc, Hd in E).
  exists e. split; [done|].
  destruct (ToEmail_headers m subject body d e Hc Hd E) as (H1 & H2 & H3 & _ & H5 & _ & H7 & H8 & H9 & H10).
  split; [|split; [|split]]; [unfold ToEmail in E; rewrite Hc, Hd in E; by injection E as <-..|].
  assert (∀ s, emailRegex s = true → ValidateEmail s = true) as Hval.
  { intros s Hs. unfold ValidateEmail. rewrite ParseAddress_plain by by left. by rewrite Hs. }
  unfold NewBitmessageFromSMTP, single_header, nonempty_header, smtp_expiration, smtp_subject, GetSMTPBody, parsed_address.
  rewrite H1, H2, H3, H5, H7, H8, H9. munfold. rewrite !Hval by done. cbn [orb negb].
  rewrite !ParseAddress_plain by by left. cbn [orb first_value]. rewrite Parse_Format. by rewrite H10.
Qed.

(** An e-mail whose sender is valid and whose recipient cannot be parsed
    (or the other way round) is not refused: the validation asks for one
    valid address only, and the address that is not there is then
    dereferenced. *)
Theorem NewBitmessageFromSMTP_panics c from to e :
  Headers c !! "From"%string = Some [from] → Headers c !! "To"%string = Some [to] →
  (ValidateEmail from = true ∧ mail_ParseAddress to = Err e ∨
   mail_ParseAddress from = Err e ∧ ValidateEmail to = true) →
  NewBitmessageFromSMTP c = Panic.
Proof.
  intros Hf Ht Hv. unfold NewBitmessageFromSMTP, single_header, parsed_address. rewrite Hf, Ht. munfold.
  destruct Hv as [[Hv He]|[He Hv]].
  - rewrite Hv. cbn [orb negb]. unfold ValidateEmail in Hv.
    destruct (mail_ParseAddress from); [|done..]. by rewrite He.
  - rewrite Hv, orb_true_r. cbn [negb]. by rewrite He.
Qed.

(** A draft never keeps its recipient: the test of the number of [To]
    fields is made twice, and the branch that takes the field cannot be
    reached. *)
Theorem drafts_lose_recipient c b : NewBitmessageDraftFromSMTP c = Ok b →
  To b = EmptyString ∧ ∃ st, State b = Some st ∧ AckExpected st = false.
Proof.
  assert (∀ h, draft_To h = EmptyString) as Hto.
  { intros h. unfold draft_To. destruct (h !! "To"%string) as [l|]; [|done]. by destruct (length l =? 1)%nat. }
  unfold NewBitmessageDraftFromSMTP. munfold. rewrite Hto.
  destruct (smtp_expiration _); try done. destruct (smtp_subject _); try done.
  destruct (GetSMTPBody c); try done. intros [= <-]. simpl. eauto.
Qed.
End conversion.

(** ** A concrete mail library: addresses without display names *)

Module MailModel.

#[export] Instance model : MailLibs := {
  mail_ParseAddress s :=
    if emailRegex s || CommandRegex s || bool_decide (s = Broadcast) then Ok s
    else Err (ErrNew "mail: no angle-addr");
  ParseMIMEBody _ := [];
  FlagSeen := 1; FlagDeleted := 8; FlagRecent := 32;
  HasFlags f g := Z.land f g =? g;
  SetFlags := Z.lor;
  ResetFlags f g := Z.land f (Z.lnot g);
}.

#[export] Instance model_laws : MailLaws.
Proof.
  split; try done.
  - intros s H. simpl. destruct H as [-> | ->]; [done|]. by rewrite orb_true_r.
  - intros s. simpl. by destruct (emailRegex s || CommandRegex s || bool_decide (s = Broadcast)).
Qed.

End MailModel.

(** ** Witnesses *)

Section witnesses.
Import EnvModel BmutilModel MailModel.

Definition bmail1 : Bmail :=
  MkBmail "BM-abc@bm.addr" "BM-xyz@bm.addr" true (time_Now 5) (Some "ack"%string)
    (Some (Encoding2 "Hello" "World")) (Some (MkImapData 3 1 32 (time_Now 7))) None.

Lemma ToEmail_saved_back_witness :
  ∃ e, ToEmail bmail1 = Ok e ∧ NewBitmessageFromSMTP (IMAPEmail_Content e) =
    Ok (MkBmail "BM-abc@bm.addr" "BM-xyz@bm.addr" false (time_Now 5) None
          (Some (Encoding2 "Hello" "World")) None (Some new_MessageState)).
Proof.
  destruct (ToEmail_saved_back bmail1 "Hello" "World" (MkImapData 3 1 32 (time_Now 7)))
    as (e & E & _ & _ & _ & H); try reflexivity.
  exists e. split; [exact E|]. rewrite H. reflexivity.
Defined.

Definition smtp1 (from to : string) : Content :=
  MkContent (<["From"%string := [from]]> {["To"%string := [to]]}) "body" 4.

Lemma NewBitmessageFromSMTP_panics_witness :
  NewBitmessageFromSMTP (smtp1 "BM-abc@bm.addr" "nobody") = Panic.
Proof.
  apply (NewBitmessageFromSMTP_panics _ "BM-abc@bm.addr" "nobody" (ErrNew "mail: no angle-addr"));
    [reflexivity..|]. left. split; vm_compute; reflexivity.
Defined.

Lemma drafts_lose_recipient_witness :
  ∃ b, NewBitmessageDraftFromSMTP (smtp1 "BM-abc@bm.addr" "BM-xyz@bm.addr") = Ok b ∧ To b = EmptyString.
Proof.
  destruct (NewBitmessageDraftFromSMTP (smtp1 "BM-abc@bm.addr" "BM-xyz@bm.addr")) as [b| | |] eqn:E;
    try (vm_compute in E; discriminate).
  exists b. split; [reflexivity|]. by apply (drafts_lose_recipient _ b) in E as [H _].
Defined.
End witnesses.

Lemma ToBm_BmToEmail_witness :
  @ToBm BmutilModel.model MailModel.model (BmToEmail "BM-2cTuPpcV1EH3fQRmVkBmp2mKjQ3oRwbW") =
    Ok "BM-2cTuPpcV1EH3fQRmVkBmp2mKjQ3oRwbW"%string.
Proof.
  apply (proj1 (@ToBm_BmToEmail BmutilModel.model MailModel.model MailModel.model_laws) _
    "2cTuPpcV1EH3fQRmVkBmp2mKjQ3oRwbW"%string); vm_compute; reflexivity.
Defined.
