(* ===== verification/Codec.v ===== *)
(** * Storing messages as protocol buffers ([user/bmail.go])

    [serializeBitmessage] and [decodeBitmessage] translate messages to the
    records of a protocol buffer file; the encoding of those records, like
    the Bitmessage objects inside, is third-party code.  The records follow
    the third version of the language, where an empty byte string is not
    sent and reads back as [nil].

    Proved: what is stored is read back, at the precision of the date
    format.  Not true of the code: a message with an empty body is stored
    but can never be read. *)

From S2P Require Import Prelude Bytes Text Bolt StoreEnv Bmutil Email.
From Stdlib Require Import Ascii.
Local Open Scope Z_scope.

(** ** The records ([serialize.Message]) *)

Record pEncoding := MkpEncoding {
  pe_Format : Z;
  pe_Subject : option string;
  pe_Body : option string;
}.
Record pImapData := MkpImapData { pi_TimeReceived : string; pi_Flags : Z }.
Record pState := MkpState {
  ps_SendTries : Z;
  ps_AckExpected : bool;
  ps_AckReceived : bool;
  ps_PubkeyRequested : bool;
  ps_LastSend : string;
  ps_Received : bool;
}.
Record pMessage := MkpMessage {
  pm_From : string;
  pm_To : string;
  pm_OfChannel : bool;
  pm_Expiration : string;
  pm_Ack : option string;
  pm_ImapData : option pImapData;
  pm_Encoding : option pEncoding;
  pm_Object : option string;
  pm_State : option pState;
}.

(** Byte strings that are empty are not sent. *)
Definition proto_bytes (b : option string) : option string :=
  match b with Some EmptyString => None | _ => b end.
Definition proto_normal (m : pMessage) : pMessage :=
  MkpMessage (pm_From m) (pm_To m) (pm_OfChannel m) (pm_Expiration m) (proto_bytes (pm_Ack m))
    (pm_ImapData m)
    ((λ e, MkpEncoding (pe_Format e) (proto_bytes (pe_Subject e)) (proto_bytes (pe_Body e))) <$> pm_Encoding m)
    (proto_bytes (pm_Object m)) (pm_State m).

Class Serialize := {
  proto_Marshal : pMessage → res string;
  proto_Unmarshal : string → res pMessage;
  ToProtobuf : Encoding → pEncoding;
  Object : Type;
  obj_ReadObject : string → res Object;
  wire_Encode : Object → string;
}.

Class SerializeLaws `{!Serialize} : Prop := {
  Unmarshal_Marshal m d : proto_Marshal m = Ok d → proto_Unmarshal d = Ok (proto_normal m);
  Marshal_returns m : match proto_Marshal m with Panic | Hang => False | _ => True end;
  ToProtobuf_spec e : ToProtobuf e =
    match e with
    | Encoding1 b => MkpEncoding 1 None (Some b)
    | Encoding2 s b => MkpEncoding 2 (Some s) (Some b)
    end;
  ReadObject_Encode o : obj_ReadObject (wire_Encode o) = Ok o;
  (** the header of an object begins with its nonce *)
  Encode_header o : (8 ≤ String.length (wire_Encode o))%nat;
}.

Section codec.
Context {EV : Env} {SZ : Serialize}.

(** ** Decoding *)

Definition decode_content (e : pEncoding) : res Encoding :=
  if pe_Format e =? 1 then
    match pe_Body e with
    | None => Err (ErrNew "Body required in encoding format 1")
    | Some body => Ok (Encoding1 body)
    end
  else if pe_Format e =? 2 then
    let subject := default EmptyString (pe_Subject e) in
    match pe_Body e with
    | None => Err (ErrNew "Body required in encoding format 2")
    | Some body => Ok (Encoding2 subject body)
    end
  else Err (ErrNew "Unsupported encoding").

(** A discarded parsing error leaves the zero time. *)
Definition decode_expiration (s : string) : Time :=
  if bool_decide (s = EmptyString) then Time_zero
  else match Time_Parse s with Ok t => t | _ => Time_zero end.

Definition decode_imap (i : option pImapData) : res (option ImapData) :=
  match i with
  | None => Ok None
  | Some i =>
      timeReceived ← Time_Parse (pi_TimeReceived i);
      Ok (Some (MkImapData 0 0 (pi_Flags i `mod` 256) timeReceived))
  end.

Definition decode_state (s : option pState) : res (option MessageState) :=
  match s with
  | None => Ok None
  | Some s =>
      lastSend ← Time_Parse (ps_LastSend s);
      Ok (Some (MkMessageState (ps_PubkeyRequested s) (ps_SendTries s) lastSend (ps_AckExpected s)
        (ps_AckReceived s) (ps_Received s)))
  end.

Definition decode_object (o : option string) : res (option Object) :=
  match o with
  | None => Ok None
  | Some b => o ← obj_ReadObject b; Ok (Some o)
  end.

Definition decodeBitmessage (data : string) : res (Bmail * option Object) :=
  msg ← proto_Unmarshal data;
  enc ← deref (pm_Encoding msg);
  q ← decode_content enc;
  imap ← decode_imap (pm_ImapData msg);
  state ← decode_state (pm_State msg);
  o ← decode_object (pm_Object msg);
  Ok (MkBmail (pm_From msg) (pm_To msg) (pm_OfChannel msg) (decode_expiration (pm_Expiration msg))
        (pm_Ack msg) (Some q) imap state, o).

(** ** Encoding *)

Definition encode_imap (i : option ImapData) : option pImapData :=
  (λ i, MkpImapData (Time_Format (TimeReceived i)) (Flags i)) <$> i.

Definition encode_state (s : option MessageState) : option pState :=
  (λ s, MkpState (SendTries s) (AckExpected s) (AckReceived s) (PubkeyRequestOutstanding s)
    (Time_Format (LastSend s)) (Received s)) <$> s.

Definition serializeBitmessage (m : Bmail) (o : option Object) : res string :=
  content ← deref (Bmail_Content m);
  proto_Marshal (MkpMessage (From m) (To m) (OfChannel m) (Time_Format (Expiration m)) (Ack m)
    (encode_imap (Bmail_ImapData m)) (Some (ToProtobuf content)) (wire_Encode <$> o)
    (encode_state (State m))).
End codec.

(** ** Round trip *)

Section roundtrip.
Context {EV : Env} {SZ : Serialize} {EL : EnvLaws} {SL : SerializeLaws}.

(** What is kept: times to the second, and not the position in a mailbox. *)
Definition stored_imap (i : ImapData) : ImapData :=
  MkImapData 0 0 (Flags i) (Time_seconds (TimeReceived i)).
Definition stored_state (s : MessageState) : MessageState :=
  MkMessageState (PubkeyRequestOutstanding s) (SendTries s) (Time_seconds (LastSend s)) (AckExpected s)
    (AckReceived s) (Received s).
Definition stored (m : Bmail) : Bmail :=
  MkBmail (From m) (To m) (OfChannel m) (Time_seconds (Expiration m)) (proto_bytes (Ack m))
    (Bmail_Content m) (stored_imap <$> Bmail_ImapData m) (stored_state <$> State m).

Definition body_of (e : Encoding) : string :=
  match e with Encoding1 b | Encoding2 _ b => b end.

(** Flags are 8-bit values. *)
Definition flags_ok (m : Bmail) : Prop :=
  match Bmail_ImapData m with Some i => 0 ≤ Flags i < 256 | None => True end.

Lemma decode_imap_encode i : (match i with Some i => 0 ≤ Flags i < 256 | None => True end) →
  decode_imap (encode_imap i) = Ok (stored_imap <$> i).
Proof.
  destruct i as [i|]; [|done]. intros Hf. simpl. munfold. rewrite Parse_Format.
  by rewrite Z.mod_small.
Qed.

Lemma decode_state_encode s : decode_state (encode_state s) = Ok (stored_state <$> s).
Proof. destruct s as [s|]; [|done]. simpl. munfold. by rewrite Parse_Format. Qed.

Lemma decode_expiration_Format t : decode_expiration (Time_Format t) = Time_seconds t.
Proof.
  unfold decode_expiration. rewrite bool_decide_eq_false_2 by apply Format_nonempty.
  by rewrite Parse_Format.
Qed.

Lemma decode_object_encode o : decode_object (proto_bytes (wire_Encode <$> o)) = Ok o.
Proof.
  destruct o as [o|]; [|done]. pose proof (Encode_header o). simpl.
  destruct (wire_Encode o) eqn:E; [simpl in *; lia|]. simpl. rewrite <-E, ReadObject_Encode. done.
Qed.

(** The content, after the byte strings that are empty were dropped. *)
Lemma decode_content_proto e :
  decode_content (MkpEncoding (pe_Format (ToProtobuf e)) (proto_bytes (pe_Subject (ToProtobuf e)))
    (proto_bytes (pe_Body (ToProtobuf e)))) =
  if bool_decide (body_of e = EmptyString) then
    match e with
    | Encoding1 _ => Err (ErrNew "Body required in encoding format 1")
    | Encoding2 _ _ => Err (ErrNew "Body required in encoding format 2")
    end
  else Ok e.
Proof.
  rewrite ToProtobuf_spec. destruct e as [[|c b]|[|c s] [|c' b]]; reflexivity.
Qed.

Lemma decode_serialize m o data e :
  serializeBitmessage m o = Ok data → flags_ok m → Bmail_Content m = Some e →
  decodeBitmessage data =
  if bool_decide (body_of e = EmptyString) then
    match e with
    | Encoding1 _ => Err (ErrNew "Body required in encoding format 1")
    | Encoding2 _ _ => Err (ErrNew "Body required in encoding format 2")
    end
  else Ok (stored m, o).
Proof.
  intros Hs Hf Hc. unfold serializeBitmessage in Hs. rewrite Hc in Hs. munfold. cbn [deref] in Hs.
  unfold decodeBitmessage. munfold. rewrite (Unmarshal_Marshal _ _ Hs). unfold proto_normal.
  cbn [pm_Encoding pm_From pm_To pm_OfChannel pm_Expiration pm_Ack pm_ImapData pm_State pm_Object fmap option_fmap option_map deref].
  rewrite decode_content_proto. case_bool_decide; [by destruct e|].
  rewrite decode_imap_encode by done. rewrite decode_state_encode. rewrite decode_object_encode.
  rewrite decode_expiration_Format. unfold stored. by rewrite Hc.
Qed.

(** C10: a message that has a body is read back as it was stored: sender,
    recipient, ack, content, flags, state and object are the same, and the
    times are those of the date format, to the second; the UID and the
    sequence number are not stored. *)
Theorem decode_serialize_roundtrip m o data e :
  serializeBitmessage m o = Ok data → flags_ok m →
  Bmail_Content m = Some e → body_of e ≠ EmptyString →
  decodeBitmessage data = Ok (stored m, o).
Proof.
  intros Hs Hf Hc Hb. rewrite (decode_serialize m o data e Hs Hf Hc).
  by rewrite bool_decide_eq_false_2.
Qed.

(** A message with an empty body is stored without an error, and can
    then never be read: the body is missing from what is read back. *)
Theorem empty_body_unreadable m o data e :
  serializeBitmessage m o = Ok data → flags_ok m →
  Bmail_Content m = Some e → body_of e = EmptyString →
  ∃ err, decodeBitmessage data = Err err.
Proof.
  intros Hs Hf Hc Hb. rewrite (decode_serialize m o data e Hs Hf Hc).
  rewrite bool_decide_eq_true_2 by done. destruct e; by eexists.
Qed.
End roundtrip.

(** ** A concrete encoding: the records counted, in binary *)

Module SerializeModel.

Definition ptuple : Type :=
  string * string * bool * string * option string * option (string * Z) *
  option (Z * option string * option string) * option string *
  option (Z * bool * bool * bool * string * bool).

Definition to_tuple (m : pMessage) : ptuple :=
  (pm_From m, pm_To m, pm_OfChannel m, pm_Expiration m, pm_Ack m,
   (λ i, (pi_TimeReceived i, pi_Flags i)) <$> pm_ImapData m,
   (λ e, (pe_Format e, pe_Subject e, pe_Body e)) <$> pm_Encoding m, pm_Object m,
   (λ s, (ps_SendTries s, ps_AckExpected s, ps_AckReceived s, ps_PubkeyRequested s, ps_LastSend s,
          ps_Received s)) <$> pm_State m).
Definition of_tuple (t : ptuple) : pMessage :=
  let '(f, to, ch, ex, ack, im, en, ob, st) := t in
  MkpMessage f to ch ex ack ((λ i, MkpImapData i.1 i.2) <$> im)
    ((λ e, MkpEncoding e.1.1 e.1.2 e.2) <$> en) ob
    ((λ s : Z * bool * bool * bool * string * bool,
      let '(a, b, c, d, e, f) := s in MkpState a b c d e f) <$> st).

Lemma of_to_tuple m : of_tuple (to_tuple m) = m.
Proof. destruct m as [? ? ? ? ? [[]|] [[]|] ? [[]|]]; reflexivity. Qed.

#[export] Instance model : Serialize := {
  proto_Marshal m := Ok (pos_bits (encode (to_tuple (proto_normal m))));
  proto_Unmarshal s :=
    match decode (A := ptuple) (bits_pos s) with
    | Some t => Ok (of_tuple t)
    | None => Err (ErrNew "proto: cannot parse")
    end;
  ToProtobuf e :=
    match e with
    | Encoding1 b => MkpEncoding 1 None (Some b)
    | Encoding2 s b => MkpEncoding 2 (Some s) (Some b)
    end;
  Object := string;
  obj_ReadObject s := if sprefix "OBJECT: " s then Ok (sdrop 8 s) else Err (ErrNew "EOF");
  wire_Encode o := ("OBJECT: " ++ o)%string;
}.

#[export] Instance model_laws : SerializeLaws.
Proof.
  split; try done.
  - intros m d. simpl. intros [= <-]. by rewrite bits_pos_bits, decode_encode, of_to_tuple.
  - intros o. simpl. by rewrite (sdrop_app "OBJECT: " o).
  - intros o. simpl. lia.
Qed.

End SerializeModel.

Section witnesses.
Import EnvModel BmutilModel MailModel SerializeModel.

Lemma decode_serialize_roundtrip_witness :
  ∃ data, serializeBitmessage bmail1 None = Ok data ∧
    decodeBitmessage data = Ok (MkBmail "BM-abc@bm.addr" "BM-xyz@bm.addr" true (time_Now 5)
      (Some "ack"%string) (Some (Encoding2 "Hello" "World")) (Some (MkImapData 0 0 32 (time_Now 7))) None, None).
Proof.
  eexists. split; [reflexivity|].
  rewrite (decode_serialize_roundtrip bmail1 None _ (Encoding2 "Hello" "World")); [reflexivity| | | |].
  - reflexivity.
  - unfold flags_ok. simpl. lia.
  - reflexivity.
  - discriminate.
Defined.

Definition bmail_nobody : Bmail :=
  MkBmail "BM-abc@bm.addr" "BM-xyz@bm.addr" false (time_Now 5) None (Some (Encoding2 "Hello" "")) None None.

Lemma empty_body_unreadable_witness :
  ∃ data err, serializeBitmessage bmail_nobody None = Ok data ∧ decodeBitmessage data = Err err.
Proof.
  destruct (serializeBitmessage bmail_nobody None) as [data| | |] eqn:E; try (simpl in E; discriminate).
  destruct (empty_body_unreadable bmail_nobody None data (Encoding2 "Hello" "") E) as [err H];
    [exact I|reflexivity..|].
  exists data, err. split; [reflexivity|exact H].
Defined.
End witnesses.
