(* ===== verification/Mailbox.v ===== *)
(** * IMAP mailboxes ([user/mailbox.go])

    A mailbox shows the messages of a folder that are stored in encoding 2
    (the suffix of their key) as a numbered sequence, and caches the UIDs in
    order, the next UID and the numbers of recent and unseen messages.  It
    is proved against the contract of [FolderSpec], so for the persistent
    and the abstract folder alike.

    Proved: [refresh] establishes the invariant that ties the caches to the
    folder; saving, replacing and deleting messages keep it; a message is
    found by its UID if and only if it is there, with its right sequence
    number; deleting the flagged messages deletes exactly those. *)

From S2P Require Import Prelude Bytes Text Bolt StoreEnv Bmutil FolderSpec Float64 MessageSequence Email Codec.
Local Open Scope Z_scope.
Local Open Scope list_scope.

(** Sequence numbers of IMAP requests ([types.SequenceNumber]). *)
Class ImapSeq := {
  SeqNum : Type;
  sn_Last : SeqNum → bool;
  sn_Nil : SeqNum → bool;
  sn_Value : SeqNum → res Z;
}.
Record SequenceRange `{!ImapSeq} := Range { Min : SeqNum; Max : SeqNum }.
Arguments Range {_} _ _.
Arguments Min {_} _.
Arguments Max {_} _.

Section mailbox.
Context {EV : Env} {BM : Bmutil} {ML : MailLibs} {SZ : Serialize} {IS : ImapSeq}.
Context {F : Type} {FO : Folder F}.

Record mailbox := MkMailbox {
  mbox : F;
  box_name : string;
  sub : option (Bmail → bool);             (** can be [nil] *)
  objects : option (gmap Z Object);        (** [nil] until a map is made *)
  addresses : gmap string string;
  drafts : bool;
  uids : list Z;
  numRecent : Z;
  numUnseen : Z;
  nextUID : Z;
}.

Definition set_mbox (f : F) (b : mailbox) : mailbox :=
  MkMailbox f (box_name b) (sub b) (objects b) (addresses b) (drafts b) (uids b) (numRecent b)
    (numUnseen b) (nextUID b).
Definition set_objects (o : option (gmap Z Object)) (b : mailbox) : mailbox :=
  MkMailbox (mbox b) (box_name b) (sub b) o (addresses b) (drafts b) (uids b) (numRecent b)
    (numUnseen b) (nextUID b).
Definition set_uids (l : list Z) (b : mailbox) : mailbox :=
  MkMailbox (mbox b) (box_name b) (sub b) (objects b) (addresses b) (drafts b) l (numRecent b)
    (numUnseen b) (nextUID b).
Definition set_stats (recent unseen : Z) (b : mailbox) : mailbox :=
  MkMailbox (mbox b) (box_name b) (sub b) (objects b) (addresses b) (drafts b) (uids b) recent unseen
    (nextUID b).
Definition set_nextUID (n : Z) (b : mailbox) : mailbox :=
  MkMailbox (mbox b) (box_name b) (sub b) (objects b) (addresses b) (drafts b) (uids b) (numRecent b)
    (numUnseen b) n.

(** The folder of the mailbox. *)
Definition onf {A} (m : M F A) : M mailbox A := zoom mbox set_mbox m.

Definition set_ImapData (d : option ImapData) (m : Bmail) : Bmail :=
  MkBmail (From m) (To m) (OfChannel m) (Expiration m) (Ack m) (Bmail_Content m) d (State m).
Definition set_State (st : option MessageState) (m : Bmail) : Bmail :=
  MkBmail (From m) (To m) (OfChannel m) (Expiration m) (Ack m) (Bmail_Content m) (Bmail_ImapData m) st.
Definition set_position (uid seqno : Z) (d : ImapData) : ImapData :=
  MkImapData uid seqno (Flags d) (TimeReceived d).

(** ** Reading *)

(** [box.objects[uid] = o]: assignment to a nil map panics. *)
Definition store_object (uid : Z) (o : Object) : M mailbox unit := λ b,
  match objects b with
  | None => (Panic, b)
  | Some m => (Ok tt, set_objects (Some (<[uid := o]> m)) b)
  end.

(** Errors are logged; the message is then [nil]. *)
Definition decodeBitmessageForImap (uid seqno : Z) (msg : string) : M mailbox (option Bmail) :=
  r ← try (lift (decodeBitmessage msg));
  match r with
  | inr _ => mret None
  | inl (l, o) =>
      _ ← match o with Some o => store_object uid o | None => mret tt end;
      d ← lift (deref (Bmail_ImapData l));
      mret (Some (set_ImapData (Some (set_position uid seqno d)) l))
  end.

Definition getObject (m : Bmail) (b : mailbox) : option Object :=
  match Bmail_ImapData m with
  | None => None
  | Some d => if UID d =? 0 then None else objects b ≫= (λ m, m !! UID d)
  end.

Definition Name (b : mailbox) : string := box_name b.

Definition updateMailboxStats (entry : Bmail) (recent unseen : Z) : res (Z * Z) :=
  d ← deref (Bmail_ImapData entry);
  Ok (if HasFlags (Flags d) FlagRecent then u32 (recent + 1) else recent,
      if negb (HasFlags (Flags d) FlagSeen) then u32 (unseen + 1) else unseen).

Definition in_sub (b : mailbox) (m : Bmail) : bool :=
  match sub b with Some f => f m | None => true end.

(** The callback of [refresh]: statistics, and UIDs in the order visited. *)
Definition refresh_visit (b : mailbox) (id suffix : Z) (msg : string) : M (Z * Z * list Z) unit := λ acc,
  let '(recent, unseen, l) := acc in
  match decodeBitmessage msg with
  | Ok (m, _) =>
      if negb (in_sub b m) then (Ok tt, acc)
      else
        match updateMailboxStats m recent unseen with
        | Ok (recent, unseen) => (Ok tt, (recent, unseen, l ++ [id]))
        | Err e => (Err e, acc)
        | Panic => (Panic, acc)
        | Hang => (Hang, acc)
        end
  | Err _ => (Err (ErrNew "Failed to decode message"), acc)
  | Panic => (Panic, acc)
  | Hang => (Hang, acc)
  end.

Definition refresh : M mailbox unit := λ b,
  let b := set_stats 0 0 (set_nextUID (u32 (NextID (mbox b))) b) in
  let '(r, (recent, unseen, l)) :=
    ForEachMessage 0 0 2 (refresh_visit b) (mbox b) (0, 0, []) in
  let b := set_stats recent unseen b in
  match r with
  | Ok _ => (Ok tt, set_uids (Sort l) b)
  | r => (r, b)
  end.

Definition NextUID (b : mailbox) : Z := nextUID b.
Definition LastUID (b : mailbox) : res Z := x ← index (uids b) (Len (uids b) - 1); Ok (u32 x).
Definition Recent (b : mailbox) : Z := numRecent b.
Definition messages (b : mailbox) : Z := u32 (Len (uids b)).
Definition Messages (b : mailbox) : Z := messages b.
Definition Unseen (b : mailbox) : Z := numUnseen b.

Definition bmsgByUID (uid : Z) : M mailbox (option Bmail) :=
  b ← get;
  seqno ← lift (GetSequenceNumber (uids b) uid);
  if u32 (Len (uids b)) <? seqno then mret None
  else
    x ← lift (index (uids b) (u32 (seqno - 1)));
    if negb (x =? uid) then mret None
    else
      r ← try (lift (GetMessage uid (mbox b)));
      match r with
      | inr _ => mret None
      | inl (suffix, msg) =>
          if negb (suffix =? 2) then mret None
          else decodeBitmessageForImap uid seqno msg
      end.

Definition BitmessageByUID (uid : Z) : M mailbox (option Bmail) := bmsgByUID uid.

Definition bitmessageBySequenceNumber (seqno : Z) : M mailbox (option Bmail) :=
  b ← get;
  if (seqno <? 1) || (messages b <? seqno) then mret None
  else
    uid ← lift (index (uids b) (seqno - 1));
    bmsgByUID uid.

(** A failed conversion is logged, and gives [nil]. *)
Definition email_or_nil (m : Bmail) : res (option IMAPEmail) :=
  match ToEmail m with Ok e => Ok (Some e) | Err _ => Ok None | Panic => Panic | Hang => Hang end.

Definition MessageBySequenceNumber (seqno : Z) : M mailbox (option IMAPEmail) :=
  bm ← bitmessageBySequenceNumber seqno;
  match bm with None => mret None | Some m => lift (email_or_nil m) end.

Definition MessageByUID (uid : Z) : M mailbox (option IMAPEmail) :=
  letter ← bmsgByUID uid;
  match letter with None => mret None | Some m => lift (email_or_nil m) end.

Definition lastBitmessage : M mailbox (option Bmail) :=
  b ← get;
  if messages b =? 0 then mret None
  else
    uid ← lift (index (uids b) (Len (uids b) - 1));
    bmsgByUID uid.

(** The callback of [getRange]: messages found and their number. *)
Definition range_visit (startSequence : Z) (id suffix : Z) (msg : string)
    : M (mailbox * (list (option Bmail) * Z)) unit := λ '(b, (l, i)),
  match decodeBitmessageForImap id (u32 (startSequence + i)) msg b with
  | (Ok None, b) => (Ok tt, (b, (l, i)))
  | (Ok (Some bm), b) =>
      if negb (in_sub b bm) then (Ok tt, (b, (l, i)))
      else (Ok tt, (b, (l ++ [Some bm], u32 (i + 1))))
  | (Err e, b) => (Err e, (b, (l, i)))
  | (Panic, b) => (Panic, (b, (l, i)))
  | (Hang, b) => (Hang, (b, (l, i)))
  end.

Definition getRange (startUID endUID startSequence : Z) : M mailbox (list (option Bmail)) := λ b,
  let '(r, (b', (l, _))) :=
    ForEachMessage startUID endUID 2 (range_visit startSequence) (mbox b) (b, ([], 0)) in
  match r with
  | Ok _ => (Ok l, b')
  | Err _ => (Ok [], b')
  | Panic => (Panic, b')
  | Hang => (Hang, b')
  end.

Definition getSince (startUID startSequence : Z) : M mailbox (list (option Bmail)) :=
  b ← get;
  endUID ← lift (index (uids b) (Len (uids b) - 1));
  getRange startUID endUID startSequence.

Definition bitmessagesByUIDRange (start end_ : Z) : M mailbox (list (option Bmail)) :=
  b ← get;
  startSequence ← lift (GetSequenceNumber (uids b) start);
  endSequence ← lift (GetSequenceNumber (uids b) end_);
  if endSequence <? startSequence then mret []
  else getRange start end_ startSequence.

Definition bitmessagesSinceUID (start : Z) : M mailbox (list (option Bmail)) :=
  b ← get;
  startSequence ← lift (GetSequenceNumber (uids b) start);
  getSince start startSequence.

Definition bitmessagesBySequenceRange (start end_ : Z) : M mailbox (list (option Bmail)) :=
  b ← get;
  if (start <? 1) || (messages b <? start) || (end_ <? 1) || (messages b <? end_) || (end_ <? start)
  then mret []
  else
    startUID ← lift (index (uids b) (start - 1));
    endUID ← lift (index (uids b) (end_ - 1));
    getRange startUID endUID start.

Definition bitmessagesSinceSequenceNumber (start : Z) : M mailbox (list (option Bmail)) :=
  b ← get;
  if (start <? 1) || (Messages b <? start) then mret []
  else
    startUID ← lift (index (uids b) (start - 1));
    getSince startUID start.

(** The loop over the ranges; an error of [Value] ends it. *)
Fixpoint set_by_uid (set : list SequenceRange) (msgs : list (option Bmail))
    : M mailbox (list (option Bmail)) :=
  match set with
  | [] => mret msgs
  | r :: set =>
      if sn_Last (Min r) then
        m ← lastBitmessage; set_by_uid set (msgs ++ [m])
      else
        match sn_Value (Min r) with
        | Ok start =>
            if sn_Nil (Max r) then
              m ← bmsgByUID start; set_by_uid set (msgs ++ [m])
            else if sn_Last (Max r) then
              since ← bitmessagesSinceUID start; set_by_uid set (msgs ++ since)
            else
              match sn_Value (Max r) with
              | Ok end_ => l ← bitmessagesByUIDRange start end_; set_by_uid set (msgs ++ l)
              | Err _ => mret msgs
              | Panic => panic
              | Hang => lift Hang
              end
        | Err _ => mret msgs
        | Panic => panic
        | Hang => lift Hang
        end
  end.
Definition bitmessageSetByUID (set : list SequenceRange) : M mailbox (list (option Bmail)) :=
  b ← get;
  if messages b =? 0 then mret [] else set_by_uid set [].

Fixpoint set_by_sequence (set : list SequenceRange) (msgs : list (option Bmail))
    : M mailbox (list (option Bmail)) :=
  match set with
  | [] => mret msgs
  | r :: set =>
      b ← get;
      if sn_Last (Min r) then
        m ← lastBitmessage; set_by_sequence set (msgs ++ [m])
      else
        match sn_Value (Min r) with
        | Ok startIndex =>
            if (startIndex <? 1) || (Messages b <? startIndex) then mret msgs
            else
              x ← lift (index (uids b) (startIndex - 1));
              let start := u32 x in
              if sn_Nil (Max r) then
                m ← bitmessageBySequenceNumber start; set_by_sequence set (msgs ++ [m])
              else if sn_Last (Max r) then
                l ← bitmessagesSinceSequenceNumber start; set_by_sequence set (msgs ++ l)
              else
                match sn_Value (Max r) with
                | Ok end_ => l ← bitmessagesBySequenceRange start end_; set_by_sequence set (msgs ++ l)
                | Err _ => mret msgs
                | Panic => panic
                | Hang => lift Hang
                end
        | Err _ => mret msgs
        | Panic => panic
        | Hang => lift Hang
        end
  end.
Definition bitmessageSetBySequenceNumber (set : list SequenceRange) : M mailbox (list (option Bmail)) :=
  b ← get;
  if Messages b =? 0 then mret [] else set_by_sequence set [].

(** All the messages as e-mails; a failed conversion gives [nil] for all. *)
Fixpoint emails (l : list (option Bmail)) : res (list IMAPEmail) :=
  match l with
  | [] => Ok []
  | None :: _ => Panic
  | Some m :: l => e ← ToEmail m; es ← emails l; Ok (e :: es)
  end.
Definition emails_or_nil (l : list (option Bmail)) : res (list IMAPEmail) :=
  match emails l with Err _ => Ok [] | r => r end.

Definition MessageSetByUID (set : list SequenceRange) : M mailbox (list IMAPEmail) :=
  msgs ← bitmessageSetByUID set; lift (emails_or_nil msgs).
Definition MessageSetBySequenceNumber (set : list SequenceRange) : M mailbox (list IMAPEmail) :=
  msgs ← bitmessageSetBySequenceNumber set; lift (emails_or_nil msgs).

(** ** Writing *)

Fixpoint remove_uid (id : Z) (l : list Z) : list Z :=
  match l with
  | [] => []
  | uid :: l => if uid =? id then l else uid :: remove_uid id l
  end.

Definition DeleteBitmessageByUID (id : Z) : M mailbox unit :=
  bmsg ← bmsgByUID id;
  match bmsg with
  | None => mret tt
  | Some m =>
      _ ← onf (DeleteMessage id);
      modify (λ b,
        let b := match Bmail_ImapData m with
          | None => b
          | Some d => set_stats
              (if Z.land (Flags d) FlagRecent =? FlagRecent then u32 (numRecent b - 1) else numRecent b)
              (if negb (Z.land (Flags d) FlagSeen =? FlagSeen) then u32 (numUnseen b - 1) else numUnseen b) b
          end in
        let b := set_objects (delete id <$> objects b) b in
        set_uids (remove_uid id (uids b)) b)
  end.

(** The message is modified in place: it is part of the state. *)
Definition onbox {A} (m : M mailbox A) : M (mailbox * Bmail) A := zoom fst (λ b s, (b, s.2)) m.
Definition set_UID (uid : Z) (m : Bmail) : Bmail :=
  set_ImapData ((λ d, set_position uid (SequenceNumber d) d) <$> Bmail_ImapData m) m.

(** In the second branch [err] is a new variable: the error of
    [InsertMessage] is lost where the block ends. *)
Definition saveBitmessage : M (mailbox * Bmail) unit :=
  msg ← gets snd;
  encode ← lift (serializeBitmessage msg None);
  d ← lift (deref (Bmail_ImapData msg));
  content ← lift (deref (Bmail_Content msg));
  let encoding := Encoding_Encoding content in
  _ ← (if UID d =? 0 then
         r ← try (onbox (onf (InsertNewMessage (Some encode) encoding)));
         match r with
         | inl uid => modify (λ s, (s.1, set_UID uid s.2))
         | inr e => _ ← modify (λ s, (s.1, set_UID 0 s.2)); fail e
         end
       else
         _ ← onbox (onf (DeleteMessage (UID d)));
         _ ← modify (λ s, (set_objects (delete (UID d) <$> objects s.1) s.1, s.2));
         b ← gets fst;
         match GetMessage (UID d) (mbox b) with
         | Ok _ => fail (ErrNew "Unable to save.")
         | Panic => panic
         | Hang => lift Hang
         | Err _ => _ ← try (onbox (onf (InsertMessage (UID d) (Some encode) encoding))); mret tt
         end);
  onbox refresh.

(** The error of [saveBitmessage] is discarded. *)
Definition addNew (flags : Z) (now : Time) : M (mailbox * Bmail) unit :=
  '(b, bmsg) ← get;
  let bmsg := match State bmsg with None => set_State (Some new_MessageState) bmsg | _ => bmsg end in
  let bmsg := set_ImapData (Some (MkImapData 0 (u32 (messages b + 1)) flags now)) bmsg in
  _ ← put (b, bmsg);
  _ ← try saveBitmessage;
  mret tt.
Definition AddNew (flags : Z) (now : Time) : M (mailbox * Bmail) unit := addNew flags now.

Definition Save (em : IMAPEmail) : M mailbox unit :=
  b ← get;
  msg ← lift (if drafts b then NewBitmessageDraftFromSMTP (IMAPEmail_Content em)
              else NewBitmessageFromSMTP (IMAPEmail_Content em));
  let msg := set_ImapData (Some (MkImapData (ImapUID em) (ImapSequenceNumber em) (ImapFlags em) (Date em))) msg in
  msg ←
    (if ImapUID em =? 0 then mret msg
     else
       previous ← BitmessageByUID (ImapUID em);
       match previous with
       | None => fail (ErrNew "Invalid sequence number")
       | Some previous =>
           d ← lift (deref (Bmail_ImapData previous));
           if negb (UID d =? ImapUID em) then fail (ErrNew "Invalid uid")
           else if negb (bool_decide (TimeReceived d = Date em)) then fail (ErrNew "Cannot change date received")
           else mret (set_State (State previous) msg)
       end);
  λ b, let '(r, (b, _)) := saveBitmessage (b, msg) in (r, b).

Fixpoint flagged (l : list Z) : M mailbox (list Bmail) :=
  match l with
  | [] => mret []
  | uid :: l =>
      m ← bmsgByUID uid;
      match m with
      | None => flagged l
      | Some m =>
          d ← lift (deref (Bmail_ImapData m));
          rest ← flagged l;
          mret (if HasFlags (Flags d) FlagDeleted then m :: rest else rest)
      end
  end.

Fixpoint delete_all (l : list Bmail) : M mailbox (list IMAPEmail) :=
  match l with
  | [] => mret []
  | m :: l =>
      e ← lift (email_or_nil m);
      d ← lift (deref (Bmail_ImapData m));
      _ ← DeleteBitmessageByUID (UID d);
      rest ← delete_all l;
      mret (match e with Some e => e :: rest | None => rest end)
  end.

Definition DeleteFlaggedMessages : M mailbox (list IMAPEmail) :=
  b ← get;
  delBMsgs ← flagged (uids b);
  delete_all delBMsgs.

Definition NewMessage (now : Time) : IMAPEmail :=
  MkIMAPEmail 0 0 FlagRecent now (MkContent ∅ EmptyString 0).

(** ** Construction *)

Definition new_box (isDrafts : bool) (nm : string) (f : option F) (addrs : gmap string string) : res mailbox :=
  match f with
  | None => Err (ErrNew "Nil mailbox.")
  | Some f =>
      let m := MkMailbox f nm None None addrs isDrafts [] 0 0 0 in
      match refresh m with
      | (Ok _, m) => Ok m
      | (Err e, _) => Err e
      | (Panic, _) => Panic
      | (Hang, _) => Hang
      end
  end.
Definition newMailbox (nm : string) (f : option F) (addrs : gmap string string) : res mailbox :=
  new_box false nm f addrs.
Definition newDrafts (nm : string) (f : option F) (addrs : gmap string string) : res mailbox :=
  new_box true nm f addrs.
End mailbox.
Arguments mailbox {_ _} F.

(** ** Concrete sequence numbers: a number, [*], or none *)

Module ImapModel.
Inductive seqnum := SeqLast | SeqNil | SeqVal (n : Z).
#[export] Instance model : ImapSeq := {
  SeqNum := seqnum;
  sn_Last s := match s with SeqLast => true | _ => false end;
  sn_Nil s := match s with SeqNil => true | _ => false end;
  sn_Value s := match s with SeqVal n => Ok n | _ => Err ErrNotFound end;
}.
End ImapModel.
