(* ===== verification/MailboxInv.v ===== *)
(** * Properties of mailboxes

    The invariant of [Mailbox.mailbox] and what its operations do, over any
    folder that implements the contract of [FolderSpec].  A mailbox stands
    for the messages of its folder that are stored in encoding 2, in
    increasing order of UID ([visible]); its lists and counters are caches
    of that. *)

From S2P Require Import Prelude Bytes Text Bolt StoreEnv Bmutil FolderSpec Float64 MessageSequence Email Codec Mailbox.
Local Open Scope Z_scope.
Local Open Scope list_scope.

(** ** What a mailbox shows *)

Section visible.
Context {EV : Env} {ML : MailLibs} {SZ : Serialize}.

(** A stored message as the mailbox reads it. *)
Definition decoded (e : entry) : option (Z * Bmail) :=
  match decodeBitmessage e.2.2 with Ok (m, _) => Some (e.1, m) | _ => None end.
Definition stored2 (s : fstate) : list entry := filter (selected 0 0 2) (entries (fs_msgs s)).
Definition visible (s : fstate) : list (Z * Bmail) := omap decoded (stored2 s).

(** Every message of the mailbox can be read; no object is stored with it
    ([saveBitmessage] never stores one). *)
Definition readable_entry (e : entry) : Prop :=
  ∃ m d, decodeBitmessage e.2.2 = Ok (m, None) ∧ Bmail_ImapData m = Some d.
Definition readable (s : fstate) : Prop := Forall readable_entry (stored2 s).

Definition flags_of (m : Bmail) : Z := from_option Flags 0 (Bmail_ImapData m).
Definition recent (x : Z * Bmail) : Prop := HasFlags (flags_of x.2) FlagRecent = true.
Definition unseen (x : Z * Bmail) : Prop := HasFlags (flags_of x.2) FlagSeen = false.
Definition deleted (x : Z * Bmail) : Prop := HasFlags (flags_of x.2) FlagDeleted = true.
#[export] Instance recent_dec x : Decision (recent x).
Proof. unfold recent. apply _. Defined.
#[export] Instance unseen_dec x : Decision (unseen x).
Proof. unfold unseen. apply _. Defined.
#[export] Instance deleted_dec x : Decision (deleted x).
Proof. unfold deleted. apply _. Defined.

Definition count (P : Z * Bmail → Prop) `{∀ x, Decision (P x)} (l : list (Z * Bmail)) : Z :=
  Z.of_nat (length (filter P l)).

(** A message with the position it has in the mailbox. *)
Definition positioned (uid seqno : Z) (m : Bmail) : Bmail :=
  set_ImapData (set_position uid seqno <$> Bmail_ImapData m) m.

(** The sequence number and the message with a UID. *)
Definition find_in (uid : Z) (l : list (Z * Bmail)) : option (Z * Bmail) :=
  (λ r, (Z.of_nat r.1 + 1, r.2.2)) <$> list_find (λ x, x.1 = uid) l.
Definition find_uid (uid : Z) (s : fstate) : option (Z * Bmail) := find_in uid (visible s).

(** *** Lemmas on what is visible *)

Lemma elem_of_stored2 s id e : fwf s → (id, e) ∈ stored2 s ↔ fs_msgs s !! id = Some e ∧ e.1 = 2.
Proof.
  intros Hwf. unfold stored2. rewrite list_elem_of_filter, elem_of_entries. unfold selected. simpl.
  split; [intros [(_ & _ & [?|?]) ?]; [lia|done]|]. intros [He He2]. destruct e as [sfx d].
  apply (proj2 Hwf) in He as Hb. simpl in *. repeat split; [lia|by left|by right|done].
Qed.

Lemma stored2_ksorted s : ksorted fst (stored2 s).
Proof. apply ksorted_filter, entries_ksorted. Qed.

Lemma elem_of_visible s id m : fwf s →
  (id, m) ∈ visible s ↔ ∃ data o, fs_msgs s !! id = Some (2, data) ∧ decodeBitmessage data = Ok (m, o).
Proof.
  intros Hwf. unfold visible. rewrite list_elem_of_omap. split.
  - intros ([id' [sfx data]] & Hin & Hd). apply elem_of_stored2 in Hin as [Hm Hs]; [|done].
    unfold decoded in Hd. simpl in *. subst sfx.
    destruct (decodeBitmessage data) as [[m' o]| | |] eqn:E; simplify_eq. eauto.
  - intros (data & o & Hm & Hd). exists (id, (2, data)). split; [by apply elem_of_stored2|].
    unfold decoded. simpl. by rewrite Hd.
Qed.

Lemma decoded_fst e x : decoded e = Some x → x.1 = e.1.
Proof. unfold decoded. destruct (decodeBitmessage e.2.2) as [[m o]| | |]; by intros [= <-]. Qed.

Lemma omap_decoded_ksorted l : ksorted fst l → ksorted fst (omap decoded l).
Proof.
  induction l as [|e l IH]; [constructor|]. intros [Hs HF]%ksorted_cons. rewrite Forall_forall in HF.
  change (omap decoded (e :: l)) with (match decoded e with Some x => x :: omap decoded l | None => omap decoded l end).
  destruct (decoded e) as [x|] eqn:E; [|by apply IH].
  apply ksorted_cons. split; [by apply IH|]. apply Forall_forall. intros y Hy.
  apply list_elem_of_omap in Hy as (e' & He' & Hy). apply decoded_fst in E, Hy.
  rewrite E, Hy. by apply HF.
Qed.

Lemma visible_ksorted s : ksorted fst (visible s).
Proof. apply omap_decoded_ksorted, stored2_ksorted. Qed.

Lemma visible_eq s l : fwf s → ksorted fst l →
  (∀ id m, (id, m) ∈ l ↔ ∃ data o, fs_msgs s !! id = Some (2, data) ∧ decodeBitmessage data = Ok (m, o)) →
  visible s = l.
Proof.
  intros Hwf Hs Hel. apply (ksorted_unique fst); [apply visible_ksorted|done|].
  intros [id m]. by rewrite Hel, elem_of_visible.
Qed.

Lemma omap_decoded_all l :
  Forall readable_entry l → fst <$> omap decoded l = fst <$> l.
Proof.
  induction 1 as [|e l (m & d & He & _) Hl IH]; [done|].
  change (omap decoded (e :: l)) with (match decoded e with Some x => x :: omap decoded l | None => omap decoded l end).
  unfold decoded at 1. rewrite He. cbn [fmap list_fmap fst]. f_equal. exact IH.
Qed.

Lemma readable_lookup s id data : fwf s → readable s → fs_msgs s !! id = Some (2, data) →
  ∃ m d, decodeBitmessage data = Ok (m, None) ∧ Bmail_ImapData m = Some d.
Proof.
  intros Hwf Hr Hm. unfold readable in Hr. rewrite Forall_forall in Hr.
  apply (Hr (id, (2, data))). by apply elem_of_stored2.
Qed.

Lemma readable_intro s : fwf s →
  (∀ id data, fs_msgs s !! id = Some (2, data) →
     ∃ m d, decodeBitmessage data = Ok (m, None) ∧ Bmail_ImapData m = Some d) → readable s.
Proof.
  intros Hwf H. apply Forall_forall. intros [id [sfx data]] Hin.
  apply elem_of_stored2 in Hin as [Hm Hs]; [|done]. simpl in Hs. subst. by apply (H id).
Qed.

Lemma find_uid_Some s uid n m : find_uid uid s = Some (n, m) ↔
  1 ≤ n ∧ visible s !! Z.to_nat (n - 1) = Some (uid, m).
Proof.
  unfold find_uid, find_in. rewrite fmap_Some. split.
  - intros ([i [u m']] & Hf & [= -> ->]). apply list_find_Some in Hf as (Hl & Hu & _).
    simpl in *. subst. split; [lia|]. by replace (Z.to_nat (Z.of_nat i + 1 - 1)) with i by lia.
  - intros [Hn Hl]. exists (Z.to_nat (n - 1), (uid, m)). split; [|simpl; f_equal; f_equal; lia].
    apply list_find_Some. split; [done|]. split; [done|]. intros j y Hj Hlt Hy.
    pose proof (ksorted_lookup fst _ j _ _ _ (visible_ksorted s) Hj Hl Hlt). simpl in *. lia.
Qed.

Lemma find_uid_None s uid : find_uid uid s = None ↔ uid ∉ (fst <$> visible s).
Proof.
  unfold find_uid, find_in. rewrite fmap_None, list_find_None, Forall_forall. split.
  - intros H ([u m] & -> & Hin)%list_elem_of_fmap. by apply (H _ Hin).
  - intros H x Hx Heq. apply H. rewrite <-Heq. by apply list_elem_of_fmap_2.
Qed.
End visible.

(** ** The invariant *)

Section inv.
Context {EV : Env} {BM : Bmutil} {ML : MailLibs} {SZ : Serialize} {LL : MailLaws}.
Context {EL : EnvLaws} {SL : SerializeLaws}.
Context {F : Type} {FO : Folder F} (rep : F → fstate → Prop) {FR : FolderRefines F rep}
  {FI : FolderIterates F rep}.
Implicit Types b : mailbox F.

(** What [refresh] and the lookups need of the folder: its messages can be
    read, their UIDs fit in 32 bits, and there are at most [2^21] of them. *)
Record contents_ok (s : fstate) : Prop := {
  ok_readable : readable s;
  ok_next : fs_next s ≤ 2 ^ 32;
  ok_len : Z.of_nat (length (visible s)) ≤ 2 ^ 21;
}.

Record box_inv b (s : fstate) : Prop := {
  inv_rep : rep (mbox b) s;
  inv_ok : contents_ok s;
  inv_sub : sub b = None;
  inv_objects : objects b = None;
  inv_uids : uids b = fst <$> visible s;
  inv_recent : numRecent b = count recent (visible s);
  inv_unseen : numUnseen b = count unseen (visible s);
  inv_nextUID : nextUID b = u32 (fs_next s);
}.

Lemma inv_wf b s : box_inv b s → fwf s.
Proof. intros [Hr _ _ _ _ _ _ _]. by eapply rep_wf. Qed.

Lemma visible_uid s uid m : fwf s → contents_ok s → (uid, m) ∈ visible s → 1 ≤ uid < 2 ^ 32.
Proof.
  intros Hwf [_ Hn _] (data & o & Hm & _)%elem_of_visible; [|done].
  apply (proj2 Hwf) in Hm. lia.
Qed.

Lemma visible_uids_sorted s : usorted (fst <$> visible s).
Proof.
  unfold usorted. pose proof (visible_ksorted s) as H. induction (visible s) as [|x l IH]; [constructor|].
  apply ksorted_cons in H as [Hs HF]. cbn [fmap list_fmap]. apply ksorted_cons. split; [by apply IH|].
  rewrite Forall_forall in HF. apply Forall_forall. intros y (z & -> & Hz)%list_elem_of_fmap.
  by apply HF.
Qed.

Lemma visible_uids_ok s : fwf s → contents_ok s →
  uids_ok (fst <$> visible s) ∧ Len (fst <$> visible s) ≤ 2 ^ 21 ∧
  Forall (λ x, x < 2 ^ 32) (fst <$> visible s).
Proof.
  intros Hwf Hok. assert (Forall (λ x, 1 ≤ x < 2 ^ 32) (fst <$> visible s)) as HF.
  { apply Forall_forall. intros x ([uid m] & -> & Hin)%list_elem_of_fmap. by eapply visible_uid. }
  assert (Len (fst <$> visible s) ≤ 2 ^ 21).
  { unfold Len. rewrite length_fmap. apply Hok. }
  repeat split; [apply visible_uids_sorted| |lia|done|].
  - eapply Forall_impl; [exact HF|]. unfold is_u64. simpl. lia.
  - eapply Forall_impl; [exact HF|]. simpl. lia.
Qed.

(** *** Refreshing *)

Definition stat (P : Z * Bmail → Prop) `{∀ x, Decision (P x)} (n : Z) (l : list (Z * Bmail)) : Z :=
  u32 (n + count P l).

Lemma count_cons (P : Z * Bmail → Prop) `{∀ x, Decision (P x)} x l :
  count P (x :: l) = (if decide (P x) then 1 else 0) + count P l.
Proof. unfold count. rewrite filter_cons. case_decide; simpl; lia. Qed.

Lemma u32_add n m : u32 (u32 n + m) = u32 (n + m).
Proof. unfold u32. by rewrite Z.add_mod_idemp_l. Qed.

Lemma u32_add_r n m : u32 (n + u32 m) = u32 (n + m).
Proof. unfold u32. by rewrite Z.add_mod_idemp_r. Qed.

Lemma refresh_visit_ok b e m d r n us : sub b = None →
  decodeBitmessage e.2.2 = Ok (m, None) → Bmail_ImapData m = Some d →
  visit (refresh_visit b) e (u32 r, u32 n, us) =
  (Ok tt, (u32 (r + if decide (recent (e.1, m)) then 1 else 0),
           u32 (n + if decide (unseen (e.1, m)) then 1 else 0), us ++ [e.1])).
Proof.
  intros Hsub Hd Hi. unfold visit, refresh_visit. rewrite Hd. unfold in_sub. rewrite Hsub. cbn [negb].
  unfold updateMailboxStats. rewrite Hi. munfold. cbn [deref].
  destruct (decide (recent (e.1, m))) as [Hr|Hr], (decide (unseen (e.1, m))) as [Hu|Hu];
    unfold recent, unseen, flags_of in Hr, Hu; cbn [snd] in Hr, Hu; rewrite Hi in Hr, Hu;
    cbn [from_option] in Hr, Hu; rewrite ?Hr, ?Hu, ?(not_true_is_false _ Hr), ?(not_false_is_true _ Hu);
    cbn [negb]; by rewrite ?u32_add, ?Z.add_0_r.
Qed.

Lemma refresh_loop b l r n us : sub b = None → Forall readable_entry l →
  mfor l (visit (refresh_visit b)) (u32 r, u32 n, us) =
  (Ok tt, (stat recent r (omap decoded l), stat unseen n (omap decoded l), us ++ (fst <$> l))).
Proof.
  intros Hsub Hl. revert r n us. induction Hl as [|e l (m & d & Hm & Hd) Hl IH]; intros r n us.
  { cbn. unfold stat, count. cbn. by rewrite !Z.add_0_r, app_nil_r. }
  cbn [mfor]. rewrite (bind_Ok _ _ _ _ _ (refresh_visit_ok b e m d r n us Hsub Hm Hd)).
  rewrite IH. change (omap decoded (e :: l)) with
    (match decoded e with Some x => x :: omap decoded l | None => omap decoded l end).
  unfold decoded at 3 6. rewrite Hm. unfold stat. rewrite !count_cons, !Z.add_assoc.
  cbn [fmap list_fmap fst]. by rewrite <-app_assoc.
Qed.

Lemma Sort_sorted l : usorted l → Sort l = l.
Proof.
  intros Hs. apply (ksorted_unique id); [|done|intros x; apply elem_of_sort_by].
  apply sort_by_ksorted. rewrite list_fmap_id. by eapply ksorted_NoDup.
Qed.

Lemma count_bound (P : Z * Bmail → Prop) `{∀ x, Decision (P x)} l :
  0 ≤ count P l ≤ Z.of_nat (length l).
Proof. unfold count. pose proof (length_filter P l). lia. Qed.

Lemma refresh_eq b s : rep (mbox b) s → sub b = None → contents_ok s →
  refresh b = (Ok tt,
    set_uids (fst <$> visible s) (set_stats (count recent (visible s)) (count unseen (visible s))
      (set_nextUID (u32 (fs_next s)) b))).
Proof.
  intros Hr Hsub Hok. pose proof (rep_wf _ _ Hr) as Hwf. unfold refresh.
  rewrite (rep_NextID _ _ Hr).
  rewrite (rep_ForEach _ s 0 0 2) by first [exact Hr|unfold is_u64; lia].
  unfold spec_ForEachMessage. rewrite bool_decide_eq_false_2 by lia. fold (stored2 s).
  change (0, 0, @nil Z) with (u32 0, u32 0, @nil Z).
  rewrite refresh_loop by first [done|apply Hok]. fold (visible s).
  assert (∀ (P : Z * Bmail → Prop) `{∀ x, Decision (P x)}, stat P 0 (visible s) = count P (visible s)) as Hst.
  { intros P HP. unfold stat. rewrite Z.add_0_l. apply u32_id. unfold is_u32.
    pose proof (count_bound P (visible s)). pose proof (ok_len _ Hok). lia. }
  rewrite !Hst. cbn [app]. unfold visible.
  rewrite <-(omap_decoded_all (stored2 s)) by apply Hok. fold (visible s).
  rewrite Sort_sorted by apply visible_uids_sorted. done.
Qed.

(** The caches are right after a refresh. *)
Lemma refresh_inv b s : rep (mbox b) s → sub b = None → objects b = None → contents_ok s →
  ∃ b', refresh b = (Ok tt, b') ∧ box_inv b' s ∧ box_name b' = box_name b ∧ drafts b' = drafts b
    ∧ addresses b' = addresses b.
Proof.
  intros Hr Hsub Hobj Hok. eexists. split; [by apply refresh_eq|]. by split.
Qed.

(** *** Finding messages *)

Lemma decodeForImap_ok b uid seqno data m d :
  decodeBitmessage data = Ok (m, None) → Bmail_ImapData m = Some d →
  decodeBitmessageForImap uid seqno data b = (Ok (Some (positioned uid seqno m)), b).
Proof.
  intros Hd Hi. unfold decodeBitmessageForImap. munfold. rewrite Hd. cbn. rewrite Hi. cbn.
  unfold positioned. by rewrite Hi.
Qed.

(** The UID at the place the search gives. *)
Lemma search_hit uids uid : usorted uids → Len uids < 2 ^ 32 - 1 →
  ((u32 (Len uids) <? seqno_spec uids uid) = false ∧
    index uids (u32 (seqno_spec uids uid - 1)) = Ok uid ∧ uid ∈ uids) ∨
  (uid ∉ uids ∧ ((u32 (Len uids) <? seqno_spec uids uid) = true ∨
    ((u32 (Len uids) <? seqno_spec uids uid) = false ∧
     ∃ x, index uids (u32 (seqno_spec uids uid - 1)) = Ok x ∧ x ≠ uid))).
Proof.
  intros Hs Hlen. assert (0 ≤ seqno_spec uids uid - 1 ≤ Len uids) as Hb.
  { unfold seqno_spec, Len. pose proof (length_filter (λ x, x < uid) uids). lia. }
  rewrite (u32_id (Len uids)) by (unfold is_u32; lia).
  rewrite (u32_id (_ - 1)) by (unfold is_u32; lia).
  destruct (decide (uid ∈ uids)) as [Hin|Hnin].
  - left. apply list_elem_of_lookup in Hin as [i Hi].
    assert (index uids (Z.of_nat i) = Ok uid) as Hx by (apply index_lookup; rewrite Nat2Z.id; split; [lia|done]).
    rewrite (seqno_spec_found _ _ _ Hs Hx). replace (Z.of_nat i + 1 - 1) with (Z.of_nat i) by lia.
    split; [|split; [done|by eapply list_elem_of_lookup_2]].
    apply lookup_lt_Some in Hi. unfold Len. apply Z.ltb_ge. lia.
  - right. split; [done|]. destruct (Z.ltb_spec (Len uids) (seqno_spec uids uid)); [by left|right].
    split; [done|]. destruct (index_total uids (seqno_spec uids uid - 1)) as [x Hx]; [lia|].
    exists x. split; [done|]. intros ->. apply Hnin. apply index_lookup in Hx as [_ Hx].
    by eapply list_elem_of_lookup_2.
Qed.

Lemma find_uid_elem s uid : uid ∈ (fst <$> visible s) →
  ∃ m, find_uid uid s = Some (seqno_spec (fst <$> visible s) uid, m) ∧ (uid, m) ∈ visible s.
Proof.
  intros Hin. destruct (find_uid uid s) as [[n m]|] eqn:E; [|by apply find_uid_None in E].
  apply find_uid_Some in E as [Hn Hl]. exists m. split; [|by eapply list_elem_of_lookup_2].
  rewrite (seqno_spec_found _ uid (n - 1)); [do 2 f_equal; lia|apply visible_uids_sorted|].
  apply index_lookup. split; [lia|]. by rewrite list_lookup_fmap, Hl.
Qed.

(** A lookup leaves the mailbox as it is, and gives the message with its
    position, or nothing if there is none. *)
Lemma bmsgByUID_eq b s uid : box_inv b s → is_u64 uid →
  bmsgByUID uid b = (Ok ((λ r, positioned uid r.1 r.2) <$> find_uid uid s), b).
Proof.
  intros Hi Hu. pose proof (inv_wf _ _ Hi) as Hwf. pose proof (inv_ok _ _ Hi) as Hok.
  destruct (visible_uids_ok s Hwf Hok) as (Hu1 & Hu2 & Hu3).
  unfold bmsgByUID. run_step ltac:(reflexivity). rewrite (inv_uids _ _ Hi).
  run_step ltac:(unfold lift; by rewrite GetSequenceNumber_ok).
  destruct (search_hit (fst <$> visible s) uid) as [(-> & Hx & Hin)|(Hnin & Hm)]; [apply Hu1|lia| |].
  - run_step ltac:(unfold lift; by rewrite Hx). rewrite Z.eqb_refl. cbn [negb].
    destruct (find_uid_elem s uid Hin) as (m & Hf & Hv). rewrite Hf.
    apply elem_of_visible in Hv as (data & o & Hm & Hd); [|done].
    destruct (readable_lookup s uid data Hwf (ok_readable _ Hok) Hm) as (m' & d & Hd' & Hid).
    rewrite Hd in Hd'. simplify_eq.
    run_step ltac:(unfold try, lift; rewrite (rep_Get _ _ _ (inv_rep _ _ Hi) Hu); unfold spec_GetMessage; by rewrite Hm).
    cbv beta iota. rewrite Z.eqb_refl. cbn [negb]. by erewrite decodeForImap_ok.
  - rewrite (proj2 (find_uid_None s uid) Hnin).
    destruct Hm as [->|[-> (x & Hx & Hne)]]; [done|].
    run_step ltac:(unfold lift; by rewrite Hx). by rewrite (proj2 (Z.eqb_neq x uid) Hne).
Qed.

(** *** Deleting *)

Definition without (id : Z) (s : fstate) : fstate := FState (fs_next s) (delete id (fs_msgs s)).

Lemma fwf_without id s : fwf s → fwf (without id s).
Proof.
  intros [Hn Hm]. split; [done|]. intros id' sfx m. cbn. intros [_ H]%lookup_delete_Some.
  by apply Hm in H.
Qed.

Lemma visible_without id s : fwf s → visible (without id s) = filter (λ x, x.1 ≠ id) (visible s).
Proof.
  intros Hwf. apply visible_eq; [by apply fwf_without|apply ksorted_filter, visible_ksorted|].
  intros id' m. rewrite list_elem_of_filter, elem_of_visible by done. cbn [fst fs_msgs without].
  setoid_rewrite lookup_delete_Some. split.
  - intros (Hne & data & o & Hm & Hd). exists data, o. by repeat split; [auto..|].
  - intros (data & o & [Hne Hm] & Hd). split; [auto|]. by exists data, o.
Qed.

Lemma contents_ok_without id s : fwf s → contents_ok s → contents_ok (without id s).
Proof.
  intros Hwf [Hr Hn Hl]. split; [|done|].
  - apply readable_intro; [by apply fwf_without|]. intros id' data. cbn [without fs_msgs].
    intros [_ H]%lookup_delete_Some. by eapply readable_lookup.
  - rewrite visible_without by done. pose proof (length_filter (λ x, x.1 ≠ id) (visible s)). lia.
Qed.

Lemma filter_absent (id : Z) (l : list (Z * Bmail)) :
  Forall (λ y, id < y.1) l → filter (λ x, x.1 ≠ id) l = l.
Proof. intros H. apply filter_all. eapply Forall_impl; [exact H|]. simpl. lia. Qed.

Lemma remove_uid_filter id (l : list (Z * Bmail)) : ksorted fst l →
  remove_uid id (fst <$> l) = fst <$> filter (λ x, x.1 ≠ id) l.
Proof.
  induction l as [|x l IH]; [done|]. intros [Hs HF]%ksorted_cons. rewrite filter_cons.
  cbn [fmap list_fmap remove_uid]. destruct (Z.eqb_spec x.1 id) as [He|Hne].
  - rewrite decide_False by lia. subst. by rewrite filter_absent.
  - rewrite decide_True by done. cbn [fmap list_fmap]. f_equal. by apply IH.
Qed.

Lemma count_without (P : Z * Bmail → Prop) `{∀ x, Decision (P x)} id m l :
  ksorted fst l → (id, m) ∈ l →
  count P (filter (λ x, x.1 ≠ id) l) = count P l - if decide (P (id, m)) then 1 else 0.
Proof.
  induction l as [|x l IH]; [by intros _ ?%not_elem_of_nil|]. intros [Hs HF]%ksorted_cons Hin.
  rewrite filter_cons, count_cons. apply elem_of_cons in Hin as [<-|Hin].
  - rewrite decide_False by (cbn; lia). rewrite filter_absent by done. lia.
  - rewrite Forall_forall in HF. rewrite decide_True by (specialize (HF _ Hin); cbn in HF; lia).
    rewrite count_cons, IH by done. lia.
Qed.

(** The flag tests of the code. *)
Lemma count_after (P : Z * Bmail → Prop) `{∀ x, Decision (P x)} s id m (c : bool) :
  contents_ok s → (id, m) ∈ visible s → (c = true ↔ P (id, m)) →
  (if c then u32 (count P (visible s) - 1) else count P (visible s)) =
  count P (filter (λ x, x.1 ≠ id) (visible s)).
Proof.
  intros Hok Hin Hc. rewrite (count_without P id m) by first [apply visible_ksorted|done].
  pose proof (count_bound P (filter (λ x, x.1 ≠ id) (visible s))) as Hb.
  rewrite (count_without P id m) in Hb by first [apply visible_ksorted|done].
  pose proof (count_bound P (visible s)). pose proof (ok_len _ Hok).
  destruct c; [rewrite decide_True in * by tauto; apply u32_id; unfold is_u32; lia|].
  rewrite decide_False by (rewrite <-Hc; done). lia.
Qed.

Lemma DeleteMessage_ok b s id e : rep (mbox b) s → is_u64 id → fs_msgs s !! id = Some e →
  ∃ f, onf (DeleteMessage id) b = (Ok tt, set_mbox f b) ∧ rep f (without id s).
Proof.
  intros Hr Hu Hm. pose proof (rep_wf _ _ Hr) as Hwf.
  destruct (rep_Delete _ _ id Hr Hu) as [H1 H2]. unfold spec_DeleteMessage in H1, H2.
  destruct e as [sfx data]. apply (proj2 Hwf) in Hm as Hid.
  rewrite bool_decide_eq_false_2, Hm in H1, H2 by lia. unfold onf, zoom.
  destruct (DeleteMessage id (mbox b)) as [r f]. cbn [fst snd] in H1, H2. subst r. eauto.
Qed.

Lemma flags_positioned uid n m : flags_of (positioned uid n m) = flags_of m.
Proof. unfold flags_of, positioned. by destruct (Bmail_ImapData m) as [[]|]. Qed.

(** Deleting a message that is there: only it is gone. *)
Lemma DeleteBitmessageByUID_eq b s id : box_inv b s → is_u64 id →
  ∃ b', DeleteBitmessageByUID id b = (Ok tt, b') ∧
    box_inv b' (match find_uid id s with Some _ => without id s | None => s end) ∧ (find_uid id s = None → b' = b).
Proof.
  intros Hi Hu. pose proof (inv_wf _ _ Hi) as Hwf. pose proof (inv_ok _ _ Hi) as Hok.
  unfold DeleteBitmessageByUID. rewrite (bind_Ok _ _ _ _ _ (bmsgByUID_eq b s id Hi Hu)).
  destruct (find_uid id s) as [[n m]|] eqn:Hf; [|eexists; by split].
  apply find_uid_Some in Hf as [Hn Hl]. assert ((id, m) ∈ visible s) as Hin by by eapply list_elem_of_lookup_2.
  pose proof Hin as (data & o & Hm & Hd)%elem_of_visible; [|done].
  destruct (DeleteMessage_ok b s id _ (inv_rep _ _ Hi) Hu Hm) as (f & Hdel & Hr).
  destruct (readable_lookup s id data Hwf (ok_readable _ Hok) Hm) as (m' & d & Hd' & Himap).
  rewrite Hd in Hd'. simplify_eq. cbn [fmap option_fmap option_map fst snd].
  eexists. split; [rewrite (bind_Ok _ _ _ _ _ Hdel); reflexivity|]. split; [|done].
  assert (flags_of m' = Flags d) as Hfl by (unfold flags_of; by rewrite Himap).
  unfold positioned. rewrite Himap. cbn [fmap option_fmap option_map set_ImapData Bmail_ImapData Flags set_position].
  split; cbn; try by apply Hi.
  - done.
  - by apply contents_ok_without.
  - by rewrite (inv_objects _ _ Hi).
  - rewrite (inv_uids _ _ Hi), visible_without by done. apply remove_uid_filter, visible_ksorted.
  - rewrite (inv_recent _ _ Hi), visible_without by done. apply (count_after _ _ _ m'); [done..|].
    unfold recent. cbn [snd]. by rewrite Hfl, HasFlags_spec.
  - rewrite (inv_unseen _ _ Hi), visible_without by done. apply (count_after _ _ _ m'); [done..|].
    unfold unseen. cbn [snd]. rewrite Hfl, HasFlags_spec. by rewrite negb_true_iff.
Qed.

(** *** Saving *)

(** The folder with a message of encoding 2. *)
Definition with_message (id : Z) (data : string) (next : Z) (s : fstate) : fstate :=
  FState next (<[id := (2, data)]> (fs_msgs s)).

Lemma elem_of_visible_insert id data next s m o x :
  fwf s → fwf (with_message id data next s) → decodeBitmessage data = Ok (m, o) →
  x ∈ visible (with_message id data next s) ↔ x = (id, m) ∨ (x ∈ visible s ∧ x.1 ≠ id).
Proof.
  intros Hwf Hwf' Hd. destruct x as [i m']. rewrite !elem_of_visible by done. cbn [fst with_message fs_msgs].
  destruct (decide (i = id)) as [->|Hne].
  - rewrite lookup_insert_eq. split; [intros (data' & o' & [= <-] & H'); left; congruence|].
    intros [[= ->]|[_ ?]]; [by exists data, o|done].
  - rewrite lookup_insert_ne by done. split; [by right|]. intros [[= -> ->]|[? _]]; done.
Qed.

Lemma ksorted_snoc_intro {A} (l : list (Z * A)) e :
  ksorted fst l → (∀ x, x ∈ l → x.1 < e.1) → ksorted fst (l ++ [e]).
Proof.
  induction l as [|x l IH]; intros Hs Hlt; [by repeat constructor|].
  apply ksorted_cons in Hs as [Hs HF]. cbn [app]. apply ksorted_cons. split.
  - apply IH; [done|]. intros y Hy. apply Hlt. by apply list_elem_of_further.
  - apply Forall_app. split; [done|]. apply Forall_singleton. apply Hlt, list_elem_of_here.
Qed.

Lemma visible_append data s m o :
  fwf s → fwf (with_message (fs_next s) data (fs_next s + 1) s) → decodeBitmessage data = Ok (m, o) →
  visible (with_message (fs_next s) data (fs_next s + 1) s) = visible s ++ [(fs_next s, m)].
Proof.
  intros Hwf Hwf' Hd.
  assert (∀ x, x ∈ visible s → x.1 < fs_next s) as Hlt.
  { intros [i m'] (? & ? & Hm & _)%elem_of_visible; [|done]. apply (proj2 Hwf) in Hm. cbn. lia. }
  apply (ksorted_unique fst); [apply visible_ksorted| |].
  - apply ksorted_snoc_intro; [apply visible_ksorted|done].
  - intros x. rewrite (elem_of_visible_insert _ _ _ _ m o) by done.
    rewrite elem_of_app, list_elem_of_singleton. split; [intros [->|[? ?]]; auto|].
    intros [Hx| ->]; [|by left]. right. split; [done|]. specialize (Hlt x Hx). lia.
Qed.

Definition replace_uid (id : Z) (m : Bmail) (l : list (Z * Bmail)) : list (Z * Bmail) :=
  (λ x, if decide (x.1 = id) then (id, m) else x) <$> l.

Lemma replace_uid_ksorted id m l : ksorted fst l → ksorted fst (replace_uid id m l).
Proof.
  assert (∀ x : Z * Bmail, (if decide (x.1 = id) then (id, m) else x).1 = x.1) as Hf
    by (intros x; by case_decide).
  induction l as [|x l IH]; [done|]. intros [Hs HF]%ksorted_cons. apply ksorted_cons.
  split; [by apply IH|]. rewrite Forall_forall in HF. apply Forall_forall.
  intros y (z & -> & Hz)%list_elem_of_fmap. rewrite !Hf. by apply HF.
Qed.

Lemma visible_replace id data s m o m0 :
  fwf s → fwf (with_message id data (fs_next s) s) → decodeBitmessage data = Ok (m, o) →
  (id, m0) ∈ visible s →
  visible (with_message id data (fs_next s) s) = replace_uid id m (visible s).
Proof.
  intros Hwf Hwf' Hd Hin.
  apply (ksorted_unique fst); [apply visible_ksorted|apply replace_uid_ksorted, visible_ksorted|].
  intros x. rewrite (elem_of_visible_insert _ _ _ _ m o) by done.
  unfold replace_uid. rewrite list_elem_of_fmap. split.
  - intros [->|[Hx Hne]]; [exists (id, m0)|exists x]; (split; [|done]).
    + by rewrite decide_True.
    + by rewrite decide_False.
  - intros (y & -> & Hy). case_decide; [by left|right; done].
Qed.

Lemma contents_ok_with id data next s m d :
  fwf s → fwf (with_message id data next s) → contents_ok s →
  decodeBitmessage data = Ok (m, None) → Bmail_ImapData m = Some d →
  next ≤ 2 ^ 32 → Z.of_nat (length (visible (with_message id data next s))) ≤ 2 ^ 21 →
  contents_ok (with_message id data next s).
Proof.
  intros Hwf Hwf' Hok Hd Hi Hn Hl. split; [|done..]. apply readable_intro; [done|].
  intros id' data'. cbn [with_message fs_msgs]. destruct (decide (id' = id)) as [->|Hne].
  - rewrite lookup_insert_eq. intros [= <-]. eauto.
  - rewrite lookup_insert_ne by done. by apply readable_lookup, Hok.
Qed.
(** A message that can be stored and read again. *)
Record saveable (msg : Bmail) (d : ImapData) (data : string) : Prop := {
  sv_serialize : serializeBitmessage msg None = Ok data;
  sv_flags : flags_ok msg;
  sv_imap : Bmail_ImapData msg = Some d;
  sv_content : ∃ subject body, Bmail_Content msg = Some (Encoding2 subject body) ∧ body ≠ EmptyString;
  sv_size : payload_ok (Some data);
}.

Lemma saveable_decode msg d data : saveable msg d data →
  decodeBitmessage data = Ok (stored msg, None) ∧ Bmail_ImapData (stored msg) = Some (stored_imap d).
Proof.
  intros [Hs Hf Hd (subject & body & Hc & Hb) _]. split.
  - rewrite (decode_serialize _ _ _ _ Hs Hf Hc). by rewrite bool_decide_eq_false_2.
  - unfold stored. cbn. by rewrite Hd.
Qed.

(** Start a save: the message is serialised, its position and content are read. *)
Ltac start_save Hs Hd Hc :=
  unfold saveBitmessage; run_step ltac:(reflexivity); cbn [snd];
  run_step ltac:(unfold lift; rewrite Hs; reflexivity);
  run_step ltac:(unfold lift; rewrite Hd; reflexivity);
  run_step ltac:(unfold lift; rewrite Hc; reflexivity); cbn [Encoding_Encoding].

Lemma saveBitmessage_new b s msg d data :
  box_inv b s → saveable msg d data → UID d = 0 →
  fs_next s + 1 ≤ 2 ^ 32 → Z.of_nat (length (visible s)) + 1 ≤ 2 ^ 21 →
  ∃ b' s', saveBitmessage (b, msg) = (Ok tt, (b', set_UID (fs_next s) msg)) ∧ box_inv b' s' ∧
    fs_next s' = fs_next s + 1 ∧ visible s' = visible s ++ [(fs_next s, stored msg)].
Proof.
  intros Hi Hsv Hz Hn Hl. pose proof (inv_wf _ _ Hi) as Hwf. pose proof (inv_rep _ _ Hi) as Hr.
  pose proof (saveable_decode _ _ _ Hsv) as [Hdec Hdi].
  destruct Hsv as [Hs Hf Hd (subject & body & Hc & Hb) Hp].
  set (s' := with_message (fs_next s) data (fs_next s + 1) s).
  destruct (rep_InsertNew _ s (Some data) 2 Hr) as [H1 H2]; [lia|unfold is_u64; lia|done|].
  change (spec_InsertNewMessage (Some data) 2 s) with (@Ok Z (fs_next s), s') in H1, H2.
  pose proof (rep_wf _ _ H2) as Hwf'. cbn [snd] in Hwf'.
  assert (visible s' = visible s ++ [(fs_next s, stored msg)]) as Hv by by eapply visible_append.
  assert (contents_ok s') as Hok'.
  { apply (contents_ok_with _ _ _ _ (stored msg) (stored_imap d)); [done|done|apply Hi|done|done|lia|].
    fold s'. rewrite Hv, length_app. cbn. lia. }
  destruct (InsertNewMessage (Some data) 2 (mbox b)) as [r f] eqn:E. cbn [fst snd] in H1, H2. subst r.
  destruct (refresh_inv (set_mbox f b) s') as (b' & Hb' & Hi' & _); [done|apply Hi|apply Hi|done|].
  exists b', s'. split; [|done]. start_save Hs Hd Hc. rewrite Hz. cbn [Z.eqb].
  run_step ltac:(eapply eq_trans; [eapply bind_Ok; unfold try, onbox, onf, zoom; cbn [fst]; rewrite E;
    reflexivity|]; cbv beta iota; reflexivity).
  unfold onbox, zoom. cbn [fst snd]. by rewrite Hb'.
Qed.

Lemma saveBitmessage_replace b s msg d data n m0 :
  box_inv b s → saveable msg d data → find_uid (UID d) s = Some (n, m0) →
  ∃ b' s', saveBitmessage (b, msg) = (Ok tt, (b', msg)) ∧ box_inv b' s' ∧
    fs_next s' = fs_next s ∧ visible s' = replace_uid (UID d) (stored msg) (visible s).
Proof.
  intros Hi Hsv Hfind. pose proof (inv_wf _ _ Hi) as Hwf. pose proof (inv_rep _ _ Hi) as Hr.
  pose proof (saveable_decode _ _ _ Hsv) as [Hdec Hdi].
  destruct Hsv as [Hs Hf Hd (subject & body & Hc & Hb) Hp].
  apply find_uid_Some in Hfind as [_ Hl%list_elem_of_lookup_2].
  assert (1 ≤ UID d < 2 ^ 32) as Hu by (eapply visible_uid; [done|apply Hi|done]).
  assert (is_u64 (UID d)) as Hu64 by (unfold is_u64; lia).
  pose proof Hl as (data0 & o0 & Hm & _)%elem_of_visible; [|done].
  pose proof (proj2 Hwf _ _ _ Hm) as [Hid _].
  destruct (DeleteMessage_ok b s _ _ Hr Hu64 Hm) as (f & Hdel & Hrf).
  destruct (rep_Insert f _ (UID d) (Some data) 2 Hrf Hu64) as [H1 H2]; [unfold is_u64; lia|done|].
  set (s' := with_message (UID d) data (fs_next s) s).
  assert (spec_InsertMessage (UID d) (Some data) 2 (without (UID d) s) = (Ok tt, s')) as Hsp.
  { unfold spec_InsertMessage, without. cbn [fs_next fs_msgs]. rewrite bool_decide_eq_false_2 by lia.
    rewrite lookup_delete_eq. unfold s', with_message. by rewrite insert_delete_eq. }
  rewrite Hsp in H1, H2. cbn [fst snd] in H1, H2. pose proof (rep_wf _ _ H2) as Hwf'.
  assert (visible s' = replace_uid (UID d) (stored msg) (visible s)) as Hv by by eapply visible_replace.
  assert (contents_ok s') as Hok'.
  { apply (contents_ok_with _ _ _ _ (stored msg) (stored_imap d)); [done|done|apply Hi|done|done|apply Hi|].
    fold s'. rewrite Hv. unfold replace_uid. rewrite length_fmap. apply Hi. }
  destruct (InsertMessage (UID d) (Some data) 2 f) as [r g] eqn:E. cbn [fst snd] in H1, H2. subst r.
  destruct (refresh_inv (set_mbox g (set_objects None (set_mbox f b))) s') as (b' & Hb' & Hi' & _);
    [done|apply Hi|done|done|].
  exists b', s'. split; [|done]. start_save Hs Hd Hc. rewrite (proj2 (Z.eqb_neq (UID d) 0)) by lia.
  assert (onbox (onf (DeleteMessage (UID d))) (b, msg) = (Ok tt, (set_mbox f b, msg))) as Hdel'
    by (unfold onbox, zoom at 1; cbn [fst]; by rewrite Hdel).
  set (b1 := set_objects None (set_mbox f b)).
  assert (try (onbox (onf (InsertMessage (UID d) (Some data) 2))) (b1, msg) = (Ok (inl tt), (set_mbox g b1, msg))) as Hins
    by (unfold try, onbox, onf, zoom; cbn [fst b1 set_objects set_mbox mbox]; by rewrite E).
  run_step ltac:(run_step ltac:(exact Hdel'); run_step ltac:(reflexivity); run_step ltac:(reflexivity);
    cbn [fst snd objects set_mbox]; rewrite (inv_objects _ _ Hi); cbn [mbox set_objects set_mbox];
    rewrite (rep_Get _ _ _ Hrf Hu64); unfold spec_GetMessage, without; cbn [fs_msgs];
    rewrite lookup_delete_eq; run_step ltac:(exact Hins); reflexivity).
  unfold onbox, zoom. cbn [fst snd]. subst b1. by rewrite Hb'.
Qed.
(** *** Expunging *)

(** A message as an e-mail; a failed conversion gives nothing. *)
Definition mail_of (m : Bmail) : option IMAPEmail := match ToEmail m with Ok e => Some e | _ => None end.
Definition a_pos (l : list (Z * Bmail)) (x : Z * Bmail) : Bmail :=
  positioned x.1 (seqno_spec (fst <$> l) x.1) x.2.

Lemma email_or_nil_eq m : email_or_nil m = Ok (mail_of m).
Proof. unfold email_or_nil, mail_of, ToEmail. by repeat case_match. Qed.

Lemma visible_imap s x : fwf s → contents_ok s → x ∈ visible s → ∃ d, Bmail_ImapData x.2 = Some d.
Proof.
  intros Hwf Hok Hin. destruct x as [id m]. apply elem_of_visible in Hin as (data & o & Hm & Hd); [|done].
  destruct (readable_lookup s id data Hwf (ok_readable _ Hok) Hm) as (m' & d & Hd' & Hi).
  rewrite Hd in Hd'. simplify_eq. eauto.
Qed.

Lemma flagged_eq b s l : box_inv b s → (∀ x, x ∈ l → x ∈ visible s) →
  flagged (fst <$> l) b = (Ok (a_pos (visible s) <$> filter deleted l), b).
Proof.
  intros Hi. pose proof (inv_wf _ _ Hi) as Hwf. induction l as [|x l IH]; intros Hsub; [done|].
  assert (x ∈ visible s) as Hx by apply Hsub, list_elem_of_here.
  destruct (visible_imap s x Hwf (inv_ok _ _ Hi) Hx) as [d Hd]. destruct x as [uid m]. cbn [snd] in Hd.
  pose proof (visible_uid s uid m Hwf (inv_ok _ _ Hi) Hx) as Hu.
  destruct (find_uid_elem s uid) as (m' & Hf & Hm').
  { change uid with (uid, m).1. by apply list_elem_of_fmap_2. }
  assert (m' = m) as ->.
  { apply elem_of_visible in Hx as (data & o & H1 & H2), Hm' as (data' & o' & H1' & H2'); [|done..].
    congruence. }
  cbn [fmap list_fmap flagged fst]. run_step ltac:(rewrite (bmsgByUID_eq b s uid Hi) by (unfold is_u64; lia); by rewrite Hf).
  cbn [fmap option_fmap option_map fst snd]. unfold positioned at 1. rewrite Hd. cbn [fmap option_fmap option_map].
  run_step ltac:(reflexivity).
  run_step ltac:(apply IH; intros y Hy; apply Hsub; by apply list_elem_of_further).
  cbn [Flags set_position]. assert (a_pos (visible s) (uid, m) = positioned uid (seqno_spec (fst <$> visible s) uid) m) as Ha by done.
  rewrite filter_cons.
  destruct (HasFlags (Flags d) FlagDeleted) eqn:E.
  - rewrite decide_True by (unfold deleted, flags_of; cbn [snd]; by rewrite Hd). cbn [fmap list_fmap].
    by rewrite Ha.
  - rewrite decide_False; [done|]. unfold deleted, flags_of. cbn [snd]. rewrite Hd. cbn. by rewrite E.
Qed.
(** Deleting in turn the messages of a list. *)
Lemma delete_all_eq l b s0 s : box_inv b s → (∀ x, x ∈ l → ∃ d, Bmail_ImapData x.2 = Some d) →
  Forall (λ x, is_u64 x.1) l →
  ∃ b' s', delete_all (a_pos s0 <$> l) b = (Ok (omap mail_of (a_pos s0 <$> l)), b') ∧ box_inv b' s' ∧
    fs_next s' = fs_next s ∧ visible s' = filter (λ x, x.1 ∉ (fst <$> l)) (visible s).
Proof.
  revert b s; induction l as [|x l IH]; intros b s Hi Himap Hu.
  { exists b, s. split; [done|split; [done|split; [done|]]]. symmetry. apply filter_all, Forall_forall.
    intros x _. apply not_elem_of_nil. }
  apply Forall_cons in Hu as [Hx Hl]. destruct (Himap x) as [d Hd]; [by apply list_elem_of_here|].
  destruct (DeleteBitmessageByUID_eq b s x.1 Hi Hx) as (b1 & Hdel & Hi1 & _).
  pose proof (inv_wf _ _ Hi) as Hwf.
  set (s1 := match find_uid x.1 s with Some _ => without x.1 s | None => s end) in *.
  assert (visible s1 = filter (λ y, y.1 ≠ x.1) (visible s) ∧ fs_next s1 = fs_next s) as [Hv1 Hn1].
  { unfold s1. destruct (find_uid x.1 s) eqn:E; [by split; [apply visible_without|]|].
    split; [|done]. symmetry. apply filter_all, Forall_forall. intros y Hy Heq.
    apply find_uid_None in E. apply E. rewrite <-Heq. by apply list_elem_of_fmap_2. }
  destruct (IH b1 s1 Hi1) as (b2 & s2 & Hrun & Hi2 & Hn2 & Hv2); [|done|].
  { intros y Hy. apply Himap. by apply list_elem_of_further. }
  exists b2, s2. split; [|split; [done|split; [congruence|]]].
  - cbn [fmap list_fmap delete_all]. run_step ltac:(unfold lift; rewrite email_or_nil_eq; reflexivity).
    unfold a_pos at 1. unfold positioned at 1. rewrite Hd. run_step ltac:(reflexivity).
    cbn [UID set_position]. run_step ltac:(exact Hdel). run_step ltac:(exact Hrun).
    cbn [omap list_omap]. by destruct (mail_of _).
  - rewrite Hv2, Hv1, list_filter_filter. apply list_filter_iff. intros y.
    cbn [fmap list_fmap]. rewrite not_elem_of_cons. tauto.
Qed.

Definition a_expunge (l : list (Z * Bmail)) : list IMAPEmail :=
  omap mail_of (a_pos l <$> filter deleted l).

Lemma filter_deleted l : ksorted fst l →
  filter (λ x, x.1 ∉ (fst <$> filter deleted l)) l = filter (λ x, ¬ deleted x) l.
Proof.
  intros Hs. apply (ksorted_unique fst); [by apply ksorted_filter..|]. intros x.
  rewrite !list_elem_of_filter. split; intros [Hd Hx]; (split; [|done]).
  - intros Hdel. apply Hd, list_elem_of_fmap_2, list_elem_of_filter. done.
  - intros (y & Heq & [Hy Hyl]%list_elem_of_filter)%list_elem_of_fmap.
    assert (x = y) as ->; [|done]. apply list_elem_of_lookup in Hx as [i Hx], Hyl as [j Hyl].
    destruct (Nat.lt_total i j) as [Hij|[->|Hij]]; [|congruence|].
    + pose proof (ksorted_lookup fst _ _ _ _ _ Hs Hx Hyl Hij). lia.
    + pose proof (ksorted_lookup fst _ _ _ _ _ Hs Hyl Hx Hij). lia.
Qed.

Lemma DeleteFlaggedMessages_eq b s : box_inv b s →
  ∃ b' s', DeleteFlaggedMessages b = (Ok (a_expunge (visible s)), b') ∧ box_inv b' s' ∧
    fs_next s' = fs_next s ∧ visible s' = filter (λ x, ¬ deleted x) (visible s).
Proof.
  intros Hi. pose proof (inv_wf _ _ Hi) as Hwf.
  assert (∀ x, x ∈ filter deleted (visible s) → x ∈ visible s) as Hsub
    by (intros x Hx; by apply list_elem_of_filter in Hx as [_ Hx]).
  destruct (delete_all_eq (filter deleted (visible s)) b (visible s) s Hi) as (b' & s' & Hrun & Hi' & Hn & Hv).
  { intros x Hx%Hsub. by apply (visible_imap s); [|apply Hi|]. }
  { apply Forall_forall. intros [uid m] Hx%Hsub.
    pose proof (visible_uid s uid m Hwf (inv_ok _ _ Hi) Hx). unfold is_u64. cbn. lia. }
  exists b', s'. split; [|split; [done|split; [done|]]].
  - unfold DeleteFlaggedMessages. run_step ltac:(reflexivity). rewrite (inv_uids _ _ Hi).
    run_step ltac:(by apply flagged_eq). exact Hrun.
  - rewrite Hv. apply filter_deleted, visible_ksorted.
Qed.
(** *** Sequence numbers and ranges *)

Definition a_nth (n : Z) (l : list (Z * Bmail)) : option Bmail :=
  if (n <? 1) || (Z.of_nat (length l) <? n) then None
  else (λ x, positioned x.1 n x.2) <$> l !! Z.to_nat (n - 1).

Lemma messages_eq b s : box_inv b s → messages b = Z.of_nat (length (visible s)).
Proof.
  intros Hi. unfold messages, Len. rewrite (inv_uids _ _ Hi), length_fmap.
  apply u32_id. pose proof (ok_len _ (inv_ok _ _ Hi)). unfold is_u32. lia.
Qed.

Lemma bitmessageBySequenceNumber_eq b s n : box_inv b s →
  bitmessageBySequenceNumber n b = (Ok (a_nth n (visible s)), b).
Proof.
  intros Hi. pose proof (inv_wf _ _ Hi) as Hwf. unfold bitmessageBySequenceNumber, a_nth.
  run_step ltac:(reflexivity). rewrite (messages_eq b s Hi).
  destruct (Z.ltb_spec n 1); [done|]. destruct (Z.ltb_spec (Z.of_nat (length (visible s))) n); [done|].
  cbn [orb]. destruct (lookup_lt_is_Some_2 (visible s) (Z.to_nat (n - 1))) as [[uid m] Hl]; [lia|].
  pose proof (list_elem_of_lookup_2 _ _ _ Hl) as Hin.
  pose proof (visible_uid s uid m Hwf (inv_ok _ _ Hi) Hin).
  run_step ltac:(unfold lift; rewrite (inv_uids _ _ Hi); rewrite (proj2 (index_lookup _ _ uid));
    [reflexivity|split; [lia|by rewrite list_lookup_fmap, Hl]]).
  rewrite (bmsgByUID_eq b s uid Hi) by (unfold is_u64; lia).
  assert (find_uid uid s = Some (n, m)) as Hf by (apply find_uid_Some; split; [lia|done]).
  by rewrite Hf, Hl.
Qed.

(** Messages numbered from [k] on. *)
Fixpoint numbered (k : Z) (l : list (Z * Bmail)) : list Bmail :=
  match l with [] => [] | x :: l => positioned x.1 (u32 k) x.2 :: numbered (k + 1) l end.

Lemma range_loop b l k i acc : Forall readable_entry l → sub b = None →
  mfor l (visit (range_visit k)) (b, (acc, u32 i)) =
  (Ok tt, (b, (acc ++ (Some <$> numbered (k + i) (omap decoded l)), u32 (i + Z.of_nat (length l))))).
Proof.
  intros Hl Hsub. revert acc i. induction Hl as [|e l (m & d & Hm & Hd) Hl IH]; intros acc i.
  { cbn. by rewrite app_nil_r, Z.add_0_r. }
  cbn [mfor]. erewrite bind_Ok.
  2:{ unfold visit, range_visit. rewrite (decodeForImap_ok b _ _ _ m d Hm Hd).
      unfold in_sub. rewrite Hsub. cbn [negb]. rewrite u32_add. reflexivity. }
  rewrite IH. change (omap decoded (e :: l)) with
    (match decoded e with Some x => x :: omap decoded l | None => omap decoded l end).
  unfold decoded at 2. rewrite Hm. cbn [numbered fmap list_fmap fst snd length].
  rewrite <-app_assoc. cbn [app]. rewrite u32_add_r.
  by rewrite (Z.add_assoc k i 1), Nat2Z.inj_succ, <-Z.add_1_l, (Z.add_assoc i 1).
Qed.

Definition between_uids (low high : Z) (x : Z * Bmail) : Prop := low ≤ x.1 ∧ x.1 ≤ high.
#[export] Instance between_uids_dec low high x : Decision (between_uids low high x).
Proof. unfold between_uids. apply _. Defined.

Definition a_range (low high : Z) (l : list (Z * Bmail)) : list Bmail :=
  a_pos l <$> filter (between_uids low high) l.

Lemma filter_decoded low high (l : list entry) : high ≠ 0 →
  omap decoded (filter (selected low high 2) l) =
  filter (between_uids low high) (omap decoded (filter (λ e, e.2.1 = 2) l)).
Proof.
  intros Hh. induction l as [|e l IH]; [done|]. rewrite !filter_cons.
  destruct (decide (e.2.1 = 2)) as [He|He].
  - cbn [omap list_omap]. destruct (decide (selected low high 2 e)) as [Hs|Hs].
    + cbn [omap list_omap]. destruct (decoded e) as [x|] eqn:E; [|done]. apply decoded_fst in E.
      rewrite filter_cons, decide_True; [by f_equal|]. unfold between_uids. rewrite E.
      destruct Hs as (? & [?|?] & _); [done|by split].
    + destruct (decoded e) as [x|] eqn:E; [|done]. apply decoded_fst in E.
      rewrite filter_cons, decide_False; [done|]. unfold between_uids. rewrite E.
      intros [? ?]. apply Hs. split; [done|]. split; by right.
  - rewrite decide_False; [done|]. intros (_ & _ & [?|?]); done.
Qed.

Lemma stored2_alt s : fwf s → stored2 s = filter (λ e, e.2.1 = 2) (entries (fs_msgs s)).
Proof.
  intros Hwf. apply (ksorted_unique fst); [apply stored2_ksorted|apply ksorted_filter, entries_ksorted|].
  intros [id e]. rewrite elem_of_stored2, list_elem_of_filter, elem_of_entries by done. cbn. tauto.
Qed.

(** A sorted list is what is before a range, the range, and what is after. *)
Lemma range_split low high l : ksorted fst l →
  ∃ l1 l3, l = l1 ++ filter (between_uids low high) l ++ l3 ∧
    filter (λ x, x < low) (fst <$> l) = fst <$> l1 ∨ filter (between_uids low high) l = [].
Proof.
  induction l as [|x l IH]; intros Hs; [by exists [], []; right|].
  apply ksorted_cons in Hs as [Hs HF]. rewrite Forall_forall in HF.
  destruct (decide (x.1 < low)) as [Hlt|Hge].
  - destruct (IH Hs) as (l1 & l3 & [[Hl Hc]|Hn]).
    + exists (x :: l1), l3. left. rewrite (filter_cons_False _ x) by (unfold between_uids; lia).
      cbn [fmap list_fmap app]. rewrite filter_cons_True by done. split; [by f_equal|by rewrite Hc].
    + exists [], []. right. by rewrite filter_cons_False by (unfold between_uids; lia).
  - assert (filter (λ x, x < low) (fst <$> (x :: l)) = []) as Hno.
    { apply filter_none, Forall_forall. intros y (z & -> & Hz)%list_elem_of_fmap.
      apply elem_of_cons in Hz as [->|Hz%HF]; lia. }
    assert (∃ l3, x :: l = filter (between_uids low high) (x :: l) ++ l3) as [l3 Hl3].
    2:{ exists [], l3. left. by split. }
    clear IH Hno. revert x Hge HF Hs; induction l as [|y l IH]; intros x Hge HF Hs.
    + rewrite filter_cons. case_decide; [by exists []|by exists [x]].
    + rewrite filter_cons. apply ksorted_cons in Hs as [Hs' HF']. rewrite Forall_forall in HF'.
      case_decide as Hd.
      * destruct (IH y) as [l3 Hl3]; [|done|done|].
        { pose proof (HF y (list_elem_of_here _ _)). lia. }
        exists l3. cbn [app]. by f_equal.
      * exists (x :: y :: l). rewrite filter_none; [done|]. apply Forall_forall.
        intros z Hz%HF. unfold between_uids in *. lia.
Qed.

Lemma numbered_pos l1 l2 : ksorted fst (l1 ++ l2) → Z.of_nat (length (l1 ++ l2)) < 2 ^ 32 →
  numbered (Z.of_nat (length l1) + 1) l2 = a_pos (l1 ++ l2) <$> l2.
Proof.
  revert l1; induction l2 as [|x l2 IH]; intros l1 Hs Hlen; [done|].
  cbn [numbered fmap list_fmap]. f_equal.
  - unfold a_pos. rewrite (seqno_spec_found _ _ (Z.of_nat (length l1))).
    + rewrite u32_id; [done|]. unfold is_u32. rewrite length_app in Hlen. cbn in Hlen. lia.
    + unfold usorted. clear IH Hlen. induction (l1 ++ x :: l2) as [|y l IH]; [constructor|].
      apply ksorted_cons in Hs as [Hs HF]. apply ksorted_cons. split; [by apply IH|].
      by apply Forall_fmap.
    + apply index_lookup. split; [lia|]. rewrite Nat2Z.id, list_lookup_fmap.
      by rewrite list_lookup_middle.
  - specialize (IH (l1 ++ [x])). rewrite <-app_assoc in IH. cbn [app] in IH.
    rewrite <-IH by done. f_equal. rewrite length_app. cbn. lia.
Qed.

Lemma numbered_app k l1 l2 : numbered k (l1 ++ l2) = numbered k l1 ++ numbered (k + Z.of_nat (length l1)) l2.
Proof.
  revert k; induction l1 as [|x l1 IH]; intros k; cbn [app numbered length]; [by rewrite Z.add_0_r|].
  rewrite IH. do 3 f_equal. lia.
Qed.

Lemma length_numbered k l : length (numbered k l) = length l.
Proof. revert k; induction l as [|x l IH]; intros k; cbn; [done|by rewrite IH]. Qed.

(** Numbering a range from the sequence number of its bound. *)
Lemma numbered_range low high l : ksorted fst l → Z.of_nat (length l) < 2 ^ 32 →
  numbered (seqno_spec (fst <$> l) low) (filter (between_uids low high) l) = a_range low high l.
Proof.
  intros Hs Hlen. destruct (range_split low high l Hs) as (l1 & l3 & [[Hl Hc]|Hn]).
  2:{ unfold a_range. by rewrite Hn. }
  unfold seqno_spec. rewrite Hc, length_fmap. unfold a_range.
  set (r := filter (between_uids low high) l) in *. clearbody r. subst l.
  pose proof (numbered_pos l1 (r ++ l3) Hs Hlen) as H. rewrite numbered_app, fmap_app in H.
  apply app_inj_1 in H as [H _]; [done|]. by rewrite length_numbered, length_fmap.
Qed.

Lemma getRange_eq b s low high k : box_inv b s → is_u64 low → is_u64 high → high ≠ 0 →
  getRange low high k b =
  (Ok (Some <$> if high <? low then [] else numbered k (filter (between_uids low high) (visible s))), b).
Proof.
  intros Hi Hlow Hhigh Hh. pose proof (inv_wf _ _ Hi) as Hwf. unfold getRange.
  rewrite (rep_ForEach _ s low high 2) by first [apply Hi|done|unfold is_u64; lia].
  unfold spec_ForEachMessage. destruct (Z.ltb_spec high low).
  { by rewrite bool_decide_eq_true_2. }
  rewrite bool_decide_eq_false_2 by lia. change (@nil (option Bmail), 0) with (@nil (option Bmail), u32 0).
  assert (Forall readable_entry (filter (selected low high 2) (entries (fs_msgs s)))) as Hr.
  { apply Forall_forall. intros e [Hsel He]%list_elem_of_filter.
    pose proof (ok_readable _ (inv_ok _ _ Hi)) as Hall. unfold readable in Hall.
    rewrite Forall_forall in Hall. apply Hall. rewrite stored2_alt by done. apply list_elem_of_filter.
    split; [|done]. destruct Hsel as (_ & _ & [?|?]); done. }
  rewrite range_loop by first [done|apply Hi]. cbn [app]. rewrite Z.add_0_r, filter_decoded by done.
  unfold visible. by rewrite stored2_alt.
Qed.

(** *** Sets of UIDs *)

Context {IS : ImapSeq}.

Definition a_get (uid : Z) (l : list (Z * Bmail)) : option Bmail :=
  (λ r, positioned uid r.1 r.2) <$> find_in uid l.
Definition last_uid (l : list (Z * Bmail)) : Z := default 0 (fst <$> last l).

Fixpoint a_fetch (set : list SequenceRange) (l : list (Z * Bmail)) : list (option Bmail) :=
  match set with
  | [] => []
  | r :: set =>
      if sn_Last (Min r) then a_get (last_uid l) l :: a_fetch set l
      else
        match sn_Value (Min r) with
        | Ok start =>
            if sn_Nil (Max r) then a_get start l :: a_fetch set l
            else if sn_Last (Max r) then (Some <$> a_range start (last_uid l) l) ++ a_fetch set l
            else
              match sn_Value (Max r) with
              | Ok end_ => (Some <$> a_range start end_ l) ++ a_fetch set l
              | _ => []
              end
        | _ => []
        end
  end.

(** Numbers of a request: 32 bits, and no upper bound of zero. *)
Definition range_ok (r : SequenceRange) : Prop :=
  match sn_Value (Min r) with Ok v => is_u32 v | Err _ => True | _ => False end ∧
  match sn_Value (Max r) with Ok v => is_u32 v ∧ v ≠ 0 | Err _ => True | _ => False end.

Lemma seqno_mono l u v : seqno_spec l v < seqno_spec l u → v < u.
Proof.
  intros H. destruct (Z.lt_ge_cases v u) as [|Hge]; [done|]. exfalso. unfold seqno_spec in H.
  assert (length (filter (λ x, x < u)%Z l) ≤ length (filter (λ x, x < v)%Z l))%nat; [|lia].
  clear H. induction l as [|x l IH]; [done|]. rewrite !filter_cons. repeat case_decide; cbn; lia.
Qed.

Lemma a_range_empty low high l : high < low → a_range low high l = [].
Proof.
  intros H. unfold a_range. rewrite filter_none; [done|]. apply Forall_forall.
  intros x _. unfold between_uids. lia.
Qed.

(** The messages of a range of UIDs, numbered by their place in the mailbox. *)
Lemma getRange_ok b s low high : box_inv b s → is_u64 low → is_u64 high → high ≠ 0 →
  getRange low high (seqno_spec (fst <$> visible s) low) b =
  (Ok (Some <$> a_range low high (visible s)), b).
Proof.
  intros Hi Hl Hh Hn. rewrite (getRange_eq b s) by done. destruct (Z.ltb_spec high low).
  - by rewrite a_range_empty.
  - rewrite numbered_range; [done|apply visible_ksorted|]. pose proof (ok_len _ (inv_ok _ _ Hi)). lia.
Qed.

Lemma search_eq b s uid : box_inv b s →
  GetSequenceNumber (uids b) uid = Ok (seqno_spec (fst <$> visible s) uid).
Proof.
  intros Hi. rewrite (inv_uids _ _ Hi).
  apply GetSequenceNumber_ok; apply visible_uids_ok; (apply Hi || by eapply inv_wf).
Qed.

Lemma bitmessagesByUIDRange_eq b s low high : box_inv b s → is_u64 low → is_u64 high → high ≠ 0 →
  bitmessagesByUIDRange low high b = (Ok (Some <$> a_range low high (visible s)), b).
Proof.
  intros Hi Hl Hh Hn. unfold bitmessagesByUIDRange. run_step ltac:(reflexivity).
  run_step ltac:(unfold lift; rewrite (search_eq b s) by done; reflexivity).
  run_step ltac:(unfold lift; rewrite (search_eq b s) by done; reflexivity).
  destruct (Z.ltb_spec (seqno_spec (fst <$> visible s) high) (seqno_spec (fst <$> visible s) low)) as [Hlt|].
  - apply seqno_mono in Hlt. by rewrite a_range_empty.
  - by apply getRange_ok.
Qed.

Lemma last_uid_index b s : box_inv b s → visible s ≠ [] →
  index (uids b) (Len (uids b) - 1) = Ok (last_uid (visible s)) ∧ 1 ≤ last_uid (visible s) < 2 ^ 32.
Proof.
  intros Hi Hne. pose proof (inv_wf _ _ Hi) as Hwf. rewrite (inv_uids _ _ Hi).
  unfold last_uid. destruct (last (visible s)) as [[u m]|] eqn:E; [|by apply last_None in E].
  pose proof E as E'. apply last_Some_elem_of in E'.
  split; [|by eapply visible_uid; [|apply Hi|]].
  rewrite last_lookup in E. apply index_lookup. unfold Len. rewrite length_fmap.
  destruct (visible s) as [|x l] eqn:Hv; [done|]. cbn [length Nat.pred] in *. split; [lia|].
  rewrite list_lookup_fmap. replace (Z.to_nat (Z.of_nat (S (length l)) - 1)) with (length l) by lia.
  by rewrite E.
Qed.

Lemma set_by_uid_eq set b s acc : box_inv b s → visible s ≠ [] → Forall range_ok set →
  set_by_uid set acc b = (Ok (acc ++ a_fetch set (visible s)), b).
Proof.
  intros Hi Hne Hset. destruct (last_uid_index b s Hi Hne) as [Hlast Hlb].
  revert acc; induction Hset as [|r set [Hmin Hmax] Hset IH]; intros acc; cbn [set_by_uid a_fetch].
  { by rewrite app_nil_r. }
  destruct (sn_Last (Min r)).
  { run_step ltac:(unfold lastBitmessage; run_step ltac:(reflexivity); rewrite (messages_eq b s Hi);
      rewrite (proj2 (Z.eqb_neq _ 0)) by (destruct (visible s); [done|cbn; lia]);
      run_step ltac:(unfold lift; rewrite Hlast; reflexivity);
      rewrite (bmsgByUID_eq b s) by first [done|unfold is_u64; lia]; reflexivity).
    rewrite IH. by rewrite <-app_assoc. }
  destruct (sn_Value (Min r)) as [start|e| |]; [|by rewrite app_nil_r|done|done].
  destruct (sn_Nil (Max r)).
  { run_step ltac:(rewrite (bmsgByUID_eq b s) by first [done|unfold is_u64, is_u32 in *; lia]; reflexivity).
    rewrite IH. by rewrite <-app_assoc. }
  destruct (sn_Last (Max r)).
  { run_step ltac:(unfold bitmessagesSinceUID; run_step ltac:(reflexivity);
      run_step ltac:(unfold lift; rewrite (search_eq b s) by done; reflexivity);
      unfold getSince; run_step ltac:(reflexivity); run_step ltac:(unfold lift; rewrite Hlast; reflexivity);
      apply getRange_ok; first [done|unfold is_u64, is_u32 in *; lia]).
    rewrite IH. by rewrite <-app_assoc. }
  destruct (sn_Value (Max r)) as [high|e| |]; [|by rewrite app_nil_r|done|done]. destruct Hmax as [Hh Hn].
  run_step ltac:(apply (bitmessagesByUIDRange_eq b s); first [done|unfold is_u64, is_u32 in *; lia]).
  rewrite IH. by rewrite <-app_assoc.
Qed.

(** ** Refinement: a mailbox is a list of messages and the next UID *)

Record amail := AMail { a_next : Z; a_msgs : list (Z * Bmail) }.

Inductive box_op :=
  | BoxGet (uid : Z)
  | BoxGetSeq (n : Z)
  | BoxFetch (set : list SequenceRange)
  | BoxStatus
  | BoxAdd (msg : Bmail)
  | BoxDelete (uid : Z)
  | BoxExpunge.

Inductive box_out :=
  | OutMessage (r : res (option Bmail))
  | OutMessages (r : res (list (option Bmail)))
  | OutStatus (count recent unseen next : Z)
  | OutMails (r : res (list IMAPEmail))
  | OutDone (r : res unit).

Definition run_box_op (op : box_op) b : box_out * mailbox F :=
  match op with
  | BoxGet uid => let '(r, b) := BitmessageByUID uid b in (OutMessage r, b)
  | BoxGetSeq n => let '(r, b) := bitmessageBySequenceNumber n b in (OutMessage r, b)
  | BoxFetch set => let '(r, b) := bitmessageSetByUID set b in (OutMessages r, b)
  | BoxStatus => (OutStatus (Messages b) (Recent b) (Unseen b) (NextUID b), b)
  | BoxAdd msg => let '(r, (b, _)) := saveBitmessage (b, msg) in (OutDone r, b)
  | BoxDelete uid => let '(r, b) := DeleteBitmessageByUID uid b in (OutDone r, b)
  | BoxExpunge => let '(r, b) := DeleteFlaggedMessages b in (OutMails r, b)
  end.

Definition spec_box_op (op : box_op) (a : amail) : box_out * amail :=
  let l := a_msgs a in
  match op with
  | BoxGet uid => (OutMessage (Ok (a_get uid l)), a)
  | BoxGetSeq n => (OutMessage (Ok (a_nth n l)), a)
  | BoxFetch set => (OutMessages (Ok (if bool_decide (l = []) then [] else a_fetch set l)), a)
  | BoxStatus => (OutStatus (Z.of_nat (length l)) (count recent l) (count unseen l) (u32 (a_next a)), a)
  | BoxAdd msg => (OutDone (Ok tt), AMail (a_next a + 1) (l ++ [(a_next a, stored msg)]))
  | BoxDelete uid => (OutDone (Ok tt), AMail (a_next a) (filter (λ x, x.1 ≠ uid) l))
  | BoxExpunge => (OutMails (Ok (a_expunge l)), AMail (a_next a) (filter (λ x, ¬ deleted x) l))
  end.

Fixpoint run_box {S} (step : box_op → S → box_out * S) (ops : list box_op) (s : S) : list box_out * S :=
  match ops with
  | [] => ([], s)
  | op :: ops => let '(o, s) := step op s in let '(os, s) := run_box step ops s in (o :: os, s)
  end.

(** What a client may pass: 64-bit UIDs, well-formed ranges, and new
    messages that can be stored and read again. *)
Definition box_op_ok (op : box_op) : Prop :=
  match op with
  | BoxGet uid | BoxDelete uid => is_u64 uid
  | BoxFetch set => Forall range_ok set
  | BoxAdd msg => ∃ d data, saveable msg d data ∧ UID d = 0
  | BoxGetSeq _ | BoxStatus | BoxExpunge => True
  end.

Definition abs (s : fstate) : amail := AMail (fs_next s) (visible s).

(** Room for [k] more messages. *)
Definition room (k : Z) (a : amail) : Prop :=
  a_next a + k ≤ 2 ^ 32 ∧ Z.of_nat (length (a_msgs a)) + k ≤ 2 ^ 21.

Lemma run_box_op_sim op b s : box_inv b s → box_op_ok op → room 1 (abs s) →
  ∃ s', (run_box_op op b).1 = (spec_box_op op (abs s)).1 ∧ box_inv (run_box_op op b).2 s' ∧
    (spec_box_op op (abs s)).2 = abs s'.
Proof.
  intros Hi Hop [Hn Hl]. cbn [abs a_next a_msgs] in Hn, Hl. destruct op; cbn [run_box_op spec_box_op abs a_msgs a_next].
  - exists s. unfold BitmessageByUID. by rewrite (bmsgByUID_eq b s uid).
  - exists s. by rewrite (bitmessageBySequenceNumber_eq b s).
  - exists s. unfold bitmessageSetByUID, bind, M_bind, mbind, mbind', get. rewrite (messages_eq b s Hi).
    case_bool_decide as Hv; [by rewrite Hv|].
    rewrite (proj2 (Z.eqb_neq _ 0)) by (destruct (visible s); [done|cbn; lia]).
    by rewrite (set_by_uid_eq set b s []).
  - exists s. split; [|done]. unfold Messages, Recent, Unseen, NextUID.
    by rewrite (messages_eq b s Hi), (inv_recent b s Hi), (inv_unseen b s Hi), (inv_nextUID b s Hi).
  - destruct Hop as (d & data & Hsv & Hz).
    destruct (saveBitmessage_new b s msg d data Hi Hsv Hz) as (b' & s' & -> & Hi' & Hn' & Hv'); [lia..|].
    exists s'. split; [done|]. split; [done|]. unfold abs. by rewrite Hn', Hv'.
  - destruct (DeleteBitmessageByUID_eq b s uid Hi Hop) as (b' & -> & Hi' & _).
    pose proof (inv_wf _ _ Hi) as Hwf. eexists. split; [done|]. split; [done|].
    destruct (find_uid uid s) eqn:E; unfold abs; [by rewrite visible_without|].
    cbn [snd]. f_equal. apply filter_all, Forall_forall. intros y Hy Heq.
    apply find_uid_None in E. apply E. rewrite <-Heq. by apply list_elem_of_fmap_2.
  - destruct (DeleteFlaggedMessages_eq b s Hi) as (b' & s' & -> & Hi' & Hn' & Hv').
    exists s'. split; [done|]. split; [done|]. unfold abs. by rewrite Hn', Hv'.
Qed.

Lemma spec_box_op_room op a k : room (k + 1) a → room k (spec_box_op op a).2.
Proof.
  unfold room. intros [Hn Hl]. destruct op; cbn [spec_box_op snd a_next a_msgs]; try lia.
  - rewrite length_app. cbn. lia.
  - pose proof (length_filter (λ x, x.1 ≠ uid) (a_msgs a)). lia.
  - pose proof (length_filter (λ x, ¬ deleted x) (a_msgs a)). lia.
Qed.

Lemma run_box_sim ops b s : box_inv b s → Forall box_op_ok ops → room (Z.of_nat (length ops)) (abs s) →
  (run_box run_box_op ops b).1 = (run_box spec_box_op ops (abs s)).1 ∧
  ∃ s', box_inv (run_box run_box_op ops b).2 s' ∧ (run_box spec_box_op ops (abs s)).2 = abs s'.
Proof.
  revert b s; induction ops as [|op ops IH]; intros b s Hi Hok Hroom; [by split; [|exists s]|].
  apply Forall_cons in Hok as [Hop Hops]. cbn [length] in Hroom. cbn [run_box].
  destruct (run_box_op_sim op b s Hi Hop) as (s1 & H1 & H2 & H3).
  { unfold room in *. lia. }
  pose proof (spec_box_op_room op (abs s) (Z.of_nat (length ops))) as Hr1.
  rewrite H3 in Hr1. destruct (run_box_op op b) as [o b1], (spec_box_op op (abs s)) as [o' a1].
  cbn [fst snd] in H1, H2, H3. subst o' a1.
  destruct (IH b1 s1 H2 Hops) as [H4 (s2 & H5 & H6)].
  { apply Hr1. unfold room in *. lia. }
  destruct (run_box run_box_op ops b1), (run_box spec_box_op ops (abs s1)). cbn [fst snd] in *. subst.
  split; [done|]. by exists s2.
Qed.

(** C4: a mailbox opened over a folder, persistent or not, behaves on every
    run as a list of messages in increasing order of UID: a message is found
    by UID or by sequence number if and only if it is there, with its place
    in the list as sequence number; a set of UIDs gives the messages of its
    ranges; the counters are those of the list; saving appends a message
    under the next UID, deleting removes the one asked for, and expunging
    removes and returns those with the Deleted flag.  The folder must hold
    readable messages, UIDs must fit in 32 bits, and there is room for at
    most [2^21] messages. *)
Theorem mailbox_refinement nm addrs f s ops :
  rep f s → contents_ok s → Forall box_op_ok ops → room (Z.of_nat (length ops)) (abs s) →
  ∃ b, newMailbox nm (Some f) addrs = Ok b ∧
    (run_box run_box_op ops b).1 = (run_box spec_box_op ops (abs s)).1.
Proof.
  intros Hr Hok Hops Hroom. unfold newMailbox, new_box.
  edestruct (refresh_inv (MkMailbox f nm None None addrs false [] 0 0 0)) as (b & -> & Hi & _); [done..|].
  exists b. split; [done|]. by apply run_box_sim.
Qed.

(** Saving a message under the UID of one that is there replaces that
    one in place: the others, their sequence numbers and the next UID stay,
    and the counters are those of the new list. *)
Theorem saveBitmessage_replaces b s msg d data n m0 :
  box_inv b s → saveable msg d data → find_uid (UID d) s = Some (n, m0) →
  ∃ b' s', saveBitmessage (b, msg) = (Ok tt, (b', msg)) ∧ box_inv b' s' ∧
    abs s' = AMail (fs_next s) (replace_uid (UID d) (stored msg) (visible s)).
Proof.
  intros Hi Hsv Hf. destruct (saveBitmessage_replace b s msg d data n m0 Hi Hsv Hf) as (b' & s' & H1 & H2 & H3 & H4).
  exists b', s'. split; [done|]. split; [done|]. unfold abs. by rewrite H3, H4.
Qed.

(** A request for a UID that is not in the mailbox panics, where the
    protocol wants it ignored. *)
Theorem MessageSetByUID_panics b s r uid :
  box_inv b s → visible s ≠ [] → sn_Last (Min r) = false → sn_Value (Min r) = Ok uid → is_u32 uid →
  sn_Nil (Max r) = true → sn_Value (Max r) = Err ErrNotFound → find_uid uid s = None →
  MessageSetByUID [r] b = (Panic, b).
Proof.
  intros Hi Hne Hl Hv Hu Hn Hmax Hf. unfold MessageSetByUID.
  run_step ltac:(unfold bitmessageSetByUID; run_step ltac:(reflexivity); rewrite (messages_eq b s Hi);
    rewrite (proj2 (Z.eqb_neq _ 0)) by (destruct (visible s); [done|cbn; lia]);
    apply (set_by_uid_eq [r] b s []); [done..|]; apply Forall_singleton; unfold range_ok; by rewrite Hv, Hmax).
  cbn [a_fetch app]. rewrite Hl, Hv, Hn. unfold a_get. change (find_in uid (visible s)) with (find_uid uid s).
  by rewrite Hf.
Qed.

(** A request for one sequence number is answered by the UID of that
    message used as a sequence number: a message further down, or none. *)
Theorem bitmessageSetBySequenceNumber_uid b s r n uid m :
  box_inv b s → sn_Last (Min r) = false → sn_Value (Min r) = Ok n → sn_Nil (Max r) = true →
  1 ≤ n → visible s !! Z.to_nat (n - 1) = Some (uid, m) →
  bitmessageSetBySequenceNumber [r] b = (Ok [a_nth uid (visible s)], b).
Proof.
  intros Hi Hl Hv Hn Hpos Hx. pose proof (inv_wf _ _ Hi) as Hwf.
  pose proof (lookup_lt_Some _ _ _ Hx) as Hlt. pose proof (list_elem_of_lookup_2 _ _ _ Hx) as Hin.
  pose proof (visible_uid s uid m Hwf (inv_ok _ _ Hi) Hin).
  unfold bitmessageSetBySequenceNumber. run_step ltac:(reflexivity). unfold Messages.
  rewrite (messages_eq b s Hi), (proj2 (Z.eqb_neq _ 0)) by lia. cbn [set_by_sequence].
  run_step ltac:(reflexivity). rewrite Hl, Hv. unfold Messages. rewrite (messages_eq b s Hi).
  rewrite (proj2 (Z.ltb_ge n 1)), (proj2 (Z.ltb_ge _ n)) by lia. cbn [orb].
  run_step ltac:(unfold lift; rewrite (inv_uids _ _ Hi); rewrite (proj2 (index_lookup _ _ uid));
    [reflexivity|split; [lia|by rewrite list_lookup_fmap, Hx]]).
  rewrite u32_id by (unfold is_u32; lia). rewrite Hn.
  run_step ltac:(by apply (bitmessageBySequenceNumber_eq b s)). done.
Qed.

(** The message that [addNew] saves. *)
Definition prepared b (flags : Z) (now : Time) (msg : Bmail) : Bmail :=
  set_ImapData (Some (MkImapData 0 (u32 (messages b + 1)) flags now))
    (match State msg with None => set_State (Some new_MessageState) msg | _ => msg end).

(** [addNew] discards errors: a message that cannot be stored is dropped,
    the mailbox stays as it was, and the caller is told that all went well. *)
Theorem addNew_drops b msg flags now e :
  serializeBitmessage (prepared b flags now msg) None = Err e →
  addNew flags now (b, msg) = (Ok tt, (b, prepared b flags now msg)).
Proof.
  intros He. unfold addNew. run_step ltac:(reflexivity). cbv beta iota zeta. run_step ltac:(reflexivity).
  run_step ltac:(apply try_Err; unfold saveBitmessage; run_step ltac:(reflexivity); apply bind_Err;
    unfold lift; cbn [snd]; fold (prepared b flags now msg); rewrite He; reflexivity).
  done.
Qed.

(** *** Messages with an empty body *)

Lemma refresh_unreadable b s l e id data : rep (mbox b) s → sub b = None →
  stored2 s = l ++ [(id, (2, data))] → Forall readable_entry l → decodeBitmessage data = Err e →
  ∃ e' b', refresh b = (Err e', b') ∧ uids b' = uids b ∧ mbox b' = mbox b.
Proof.
  intros Hr Hsub Hst Hl Hd. pose proof (rep_wf _ _ Hr) as Hwf. unfold refresh.
  rewrite (rep_ForEach _ s 0 0 2) by first [exact Hr|unfold is_u64; lia].
  unfold spec_ForEachMessage. rewrite bool_decide_eq_false_2 by lia. fold (stored2 s). rewrite Hst.
  change (0, 0, @nil Z) with (u32 0, u32 0, @nil Z).
  assert (∀ (f : entry → M (Z * Z * list Z) unit) l1 x st st1, mfor l1 f st = (Ok tt, st1) →
    mfor (l1 ++ [x]) f st = (_ ← f x; mret tt) st1) as Happ.
  { intros f l1 x. induction l1 as [|y l1 IH]; intros st st1; [by intros [= ->]|]. cbn [mfor app].
    munfold. destruct (f y st) as [[[]| | |] st2]; [|done..]. apply IH. }
  rewrite (Happ _ l _ _ _ (refresh_loop _ l 0 0 [] Hsub Hl)).
  unfold visit at 1, refresh_visit. munfold. cbn [fst snd]. rewrite Hd. by do 2 eexists.
Qed.

Lemma stored2_append data s :
  fwf s → fwf (with_message (fs_next s) data (fs_next s + 1) s) →
  stored2 (with_message (fs_next s) data (fs_next s + 1) s) = stored2 s ++ [(fs_next s, (2, data))].
Proof.
  intros Hwf Hwf'. apply (ksorted_unique fst); [apply stored2_ksorted|apply ksorted_snoc_intro|].
  - apply stored2_ksorted.
  - intros [i x] [Hx _]%elem_of_stored2; [|done]. destruct x. apply (proj2 Hwf) in Hx. cbn. lia.
  - intros [i x]. rewrite elem_of_app, list_elem_of_singleton, !elem_of_stored2 by done.
    cbn [with_message fs_msgs]. destruct (decide (i = fs_next s)) as [->|Hne].
    + rewrite lookup_insert_eq. split; [intros [[= <-] _]; by right|].
      intros [[Hx _]|[= ->]]; [|done]. destruct x. apply (proj2 Hwf) in Hx. lia.
    + rewrite lookup_insert_ne by done. split; [by left|]. intros [Hx|[= -> _]]; done.
Qed.

(** C39: a message with an empty body is stored, the save then fails, and
    from there on the mailbox can neither be refreshed nor opened again. *)
Theorem empty_body_locks_mailbox b s msg d data subject :
  box_inv b s → serializeBitmessage msg None = Ok data → flags_ok msg → Bmail_ImapData msg = Some d →
  Bmail_Content msg = Some (Encoding2 subject EmptyString) → payload_ok (Some data) → UID d = 0 →
  fs_next s + 1 ≤ 2 ^ 32 →
  ∃ e b', saveBitmessage (b, msg) = (Err e, (b', set_UID (fs_next s) msg)) ∧ uids b' = uids b ∧
    ∀ nm addrs, ∃ e', newMailbox nm (Some (mbox b')) addrs = Err e'.
Proof.
  intros Hi Hs Hf Hd Hc Hp Hz Hn. pose proof (inv_wf _ _ Hi) as Hwf. pose proof (inv_rep _ _ Hi) as Hr.
  assert (∃ e, decodeBitmessage data = Err e) as [e He].
  { rewrite (decode_serialize _ _ _ _ Hs Hf Hc). rewrite bool_decide_eq_true_2 by done. by eexists. }
  set (s' := with_message (fs_next s) data (fs_next s + 1) s).
  destruct (rep_InsertNew _ s (Some data) 2 Hr) as [H1 H2]; [lia|unfold is_u64; lia|done|].
  change (spec_InsertNewMessage (Some data) 2 s) with (@Ok Z (fs_next s), s') in H1, H2.
  pose proof (rep_wf _ _ H2) as Hwf'. cbn [snd] in Hwf'.
  pose proof (stored2_append data s Hwf Hwf') as Hst. fold s' in Hst.
  pose proof (ok_readable _ (inv_ok _ _ Hi)) as Hall.
  destruct (InsertNewMessage (Some data) 2 (mbox b)) as [r f] eqn:E. cbn [fst snd] in H1, H2. subst r.
  destruct (refresh_unreadable (set_mbox f b) s' _ e _ data H2 (inv_sub _ _ Hi) Hst Hall He)
    as (e1 & b1 & Hb1 & Hu1 & Hm1).
  exists e1, b1. split; [|split; [by rewrite Hu1|]].
  - start_save Hs Hd Hc. rewrite Hz. cbn [Z.eqb].
    run_step ltac:(eapply eq_trans; [eapply bind_Ok; unfold try, onbox, onf, zoom; cbn [fst]; rewrite E;
      reflexivity|]; cbv beta iota; reflexivity).
    unfold onbox, zoom. cbn [fst snd]. by rewrite Hb1.
  - intros nm addrs. rewrite Hm1. unfold newMailbox, new_box.
    edestruct (refresh_unreadable (MkMailbox f nm None None addrs false [] 0 0 0) s') as (e2 & b2 & Hb2 & _);
      [done|done|exact Hst|done|done|].
    cbn [mbox set_mbox]. rewrite Hb2. by eexists.
Qed.

(** [LastUID] of an empty mailbox panics; its comment promises the next
    UID. *)
Theorem LastUID_empty b s : box_inv b s →
  LastUID b = if bool_decide (visible s = []) then Panic else Ok (last_uid (visible s)).
Proof.
  intros Hi. unfold LastUID. case_bool_decide as Hv.
  - by rewrite (inv_uids _ _ Hi), Hv.
  - destruct (last_uid_index b s Hi Hv) as [Hx Hb]. munfold. rewrite Hx.
    by rewrite u32_id by (unfold is_u32; lia).
Qed.
End inv.

(** ** Witnesses: mailboxes over the abstract folder *)

Section witnesses.
Import EnvModel BmutilModel MailModel SerializeModel ImapModel.

Local Abbreviation frep := (λ f s : fstate, f = s ∧ fwf s).
Definition s0 : fstate := FState 1 ∅.
Definition note (subject : string) (flags : Z) : Bmail :=
  MkBmail "BM-abc@bm.addr" "BM-xyz@bm.addr" false (time_Now 5) None (Some (Encoding2 subject "text"))
    (Some (MkImapData 0 0 flags (time_Now 7))) None.
(** The folder with two notes saved. *)
Definition data_of (m : Bmail) : string :=
  match serializeBitmessage m None with Ok d => d | _ => EmptyString end.
Definition s2 : fstate :=
  FState 4 {[ 1 := (2, data_of (note "one" 32)); 3 := (2, data_of (note "three" 8)) ]}.

Lemma note_saveable subject flags : 0 ≤ flags < 256 → payload_ok (Some (data_of (note subject flags))) →
  saveable (note subject flags) (MkImapData 0 0 flags (time_Now 7)) (data_of (note subject flags)).
Proof. intros Hf Hp. split; [done|exact Hf|done| |done]. by exists subject, "text"%string. Qed.

Lemma frep_s2 : frep s2 s2.
Proof.
  split; [done|]. split; [cbn; lia|]. intros id sfx m. unfold s2. cbn [fs_msgs fs_next].
  rewrite lookup_insert. case_decide as H1; [intros [= <- <-]; unfold is_u64; lia|].
  rewrite lookup_singleton. case_decide as H3; [intros [= <- <-]; unfold is_u64; lia|done].
Qed.

Lemma contents_s2 : contents_ok s2.
Proof.
  split; [|cbn; lia|vm_compute; discriminate].
  apply readable_intro; [apply frep_s2|]. intros id data. unfold s2. cbn [fs_msgs].
  rewrite lookup_insert. case_decide as H1; [intros [= <-]; do 2 eexists; split; vm_compute; reflexivity|].
  rewrite lookup_singleton. case_decide as H3; [intros [= <-]; do 2 eexists; split; vm_compute; reflexivity|done].
Qed.

Definition box2 : mailbox fstate :=
  MkMailbox s2 "Inbox" None None ∅ false [1; 3] 1 2 4.
Lemma box2_inv : box_inv frep box2 s2.
Proof. split; [apply frep_s2|apply contents_s2|done..]. Qed.

Definition ops2 : list box_op :=
  [BoxAdd (note "four" 1); BoxStatus; BoxGetSeq 2; BoxFetch [Range (SeqVal 2) SeqLast]; BoxDelete 1;
   BoxExpunge; BoxStatus].
Lemma mailbox_refinement_witness :
  ∃ b, newMailbox "Inbox" (Some s2) ∅ = Ok b ∧
    (run_box run_box_op ops2 b).1 !! 1%nat = Some (OutStatus 3 1 2 5) ∧
    (run_box run_box_op ops2 b).1 !! 6%nat = Some (OutStatus 1 0 0 5).
Proof.
  destruct (mailbox_refinement frep "Inbox" ∅ s2 s2 ops2 frep_s2 contents_s2) as (b & Hb & Hrun).
  - repeat first [apply Forall_cons_2|apply Forall_nil_2|exact I]; unfold box_op_ok, is_u64; try lia.
    + do 2 eexists. split; [apply note_saveable; [lia|vm_compute; discriminate]|done].
    + repeat first [apply Forall_cons_2|apply Forall_nil_2]. unfold range_ok, is_u32. cbn. lia.
  - unfold room. split; [cbn; lia|vm_compute; discriminate].
  - exists b. split; [exact Hb|]. rewrite Hrun. split; vm_compute; reflexivity.
Defined.

(** The note of UID 3, read again: its Deleted flag is cleared. *)
Definition note3 : Bmail := set_ImapData (Some (MkImapData 3 2 0 (time_Now 7))) (note "three" 0).
Lemma saveBitmessage_replaces_witness :
  ∃ b' s', saveBitmessage (box2, note3) = (Ok tt, (b', note3)) ∧ box_inv frep b' s' ∧
    abs s' = AMail 4 (replace_uid 3 (stored note3) (visible s2)).
Proof.
  apply (saveBitmessage_replaces frep box2 s2 note3 (MkImapData 3 2 0 (time_Now 7)) (data_of note3) 2
    (default note3 (snd <$> find_uid 3 s2)) box2_inv).
  - split; [done|unfold flags_ok; cbn; lia|done| |vm_compute; discriminate].
    by exists "three"%string, "text"%string.
  - vm_compute. reflexivity.
Defined.

Lemma MessageSetByUID_panics_witness :
  MessageSetByUID [Range (SeqVal 2) SeqNil] box2 = (Panic, box2).
Proof.
  apply (MessageSetByUID_panics frep box2 s2 _ 2 box2_inv); try reflexivity.
  - vm_compute. discriminate.
  - unfold is_u32. lia.
Defined.

Lemma bitmessageSetBySequenceNumber_uid_witness :
  bitmessageSetBySequenceNumber [Range (SeqVal 2) SeqNil] box2 = (Ok [None], box2).
Proof.
  apply (bitmessageSetBySequenceNumber_uid frep box2 s2 _ 2 3
    (default note3 (snd <$> find_uid 3 s2)) box2_inv); try reflexivity.
  lia.
Defined.

Lemma LastUID_empty_witness :
  LastUID box2 = Ok 3 ∧ LastUID (MkMailbox s0 "Inbox" None None ∅ false [] 0 0 1) = Panic.
Proof.
  split; [rewrite (LastUID_empty frep box2 s2 box2_inv); vm_compute; reflexivity|].
  rewrite (LastUID_empty frep _ s0); [vm_compute; reflexivity|].
  assert (∀ id e, fs_msgs s0 !! id ≠ Some e) as Hno by (intros id e; unfold s0; cbn; by rewrite lookup_empty).
  assert (fwf s0) by (split; [cbn; lia|]; intros ??? H; by apply Hno in H).
  split; try done. split; [|cbn; lia|vm_compute; discriminate].
  apply readable_intro; [done|]. intros ?? H'. by apply Hno in H'.
Defined.

(** A text that is not valid UTF-8 cannot be put in a record. *)
Definition failing : Serialize := {|
  proto_Marshal _ := Err (ErrNew "proto: invalid UTF-8 string");
  proto_Unmarshal := proto_Unmarshal;
  ToProtobuf := ToProtobuf;
  Object := Object;
  obj_ReadObject := obj_ReadObject;
  wire_Encode := wire_Encode;
|}.
Definition box0 : mailbox (SZ := failing) fstate :=
  MkMailbox (SZ := failing) s0 "Inbox" None None ∅ false [] 0 0 1.
Lemma addNew_drops_witness :
  addNew 32 (time_Now 9) (box0, note "lost" 0) =
  (Ok tt, (box0, prepared box0 32 (time_Now 9) (note "lost" 0))).
Proof. apply (addNew_drops (SZ := failing) _ _ _ _ (ErrNew "proto: invalid UTF-8 string")). reflexivity. Defined.

Definition blank : Bmail :=
  MkBmail "BM-abc@bm.addr" "BM-xyz@bm.addr" false (time_Now 5) None (Some (Encoding2 "Hello" ""))
    (Some (MkImapData 0 0 32 (time_Now 7))) None.
Lemma empty_body_locks_mailbox_witness :
  ∃ e b', saveBitmessage (box2, blank) = (Err e, (b', set_UID 4 blank)) ∧ uids b' = [1; 3] ∧
    ∀ nm addrs, ∃ e', newMailbox nm (Some (mbox b')) addrs = Err e'.
Proof.
  apply (empty_body_locks_mailbox frep box2 s2 blank (MkImapData 0 0 32 (time_Now 7)) (data_of blank) "Hello" box2_inv).
  - reflexivity.
  - unfold flags_ok. cbn. lia.
  - reflexivity.
  - reflexivity.
  - vm_compute. discriminate.
  - reflexivity.
  - cbn. lia.
Defined.

End witnesses.
