(* ===== verification/IdMgr.v ===== *)
(** * The key manager ([idmgr/manager.go], [idmgr/db.go])

    The manager holds the identities of the user: those derived from a
    master key by a running index, and those imported.  The state is a
    record; a method is a state passing function.  Go visits maps in no
    fixed order; here it is that of [map_to_list], and no theorem depends
    on it.

    Proved: the lists of imported and derived addresses are together those of
    the identities, through every sequence of operations, and hold each once
    unless a derived identity took an address that was there, which [New]
    does not look for; deriving an identity uses the first usable index at or
    after the stored one and moves past it; an exported key file is read back,
    with the passphrase only, but for names that are not UTF-8; and what the
    numbers of an imported file become. *)

From S2P Require Import Prelude Bytes Text Bolt StoreEnv Bmutil Keys.
From stdpp Require Import pretty.
From Stdlib Require Import Ascii.
Local Open Scope Z_scope.
Local Open Scope list_scope.

(** The text of a JSON tree ([encoding/json]). *)
Class JsonText := {
  json_Marshal : json → string;
  json_Decode : string → res json;    (** the first value of a stream *)
}.
(** What was written is read back, but for bytes of strings that are not
    UTF-8: the encoder writes U+FFFD for each. *)
Class JsonTextLaws `{!JsonText} : Prop := {
  Decode_Marshal j : json_Decode (json_Marshal j) = Ok (json_replaced j);
}.

Definition latestFileVersion : Z := 1.

(** ** Numbers and booleans of a file ([strconv.Atoi]) *)

Definition Atoi (s : string) : res Z :=
  let n := match s with
    | String "-"%char s => Z.opp <$> natural s
    | String "+"%char s => natural s
    | _ => natural s
    end in
  match n with
  | Some n => if (- 2 ^ 63 <=? n) && (n <? 2 ^ 63) then Ok n else Err (ErrNew "value out of range")
  | None => Err (ErrNew "invalid syntax")
  end.

Definition readIniBool (m : gmap string string) (key : string) (defaultValue : bool) : bool :=
  match m !! key with
  | None => defaultValue
  | Some str =>
      if bool_decide (ToLower str = "false"%string) then false
      else if bool_decide (ToLower str = "true"%string) then true
      else defaultValue
  end.

Definition readIniUint64 (m : gmap string string) (key : string) (defaultValue : Z) : Z :=
  match m !! key with
  | None => defaultValue
  | Some str => match Atoi str with Ok n => u64 n | _ => defaultValue end
  end.

Section idmgr.
Context {EV : Env} {BM : Bmutil} {ID : Identity} {JT : JsonText}.

(** ** The database of the manager *)

Record db := MkDb {
  Version : Z;
  MasterKey : option ExtendedKey;
  NewIDIndex : Z;
  IDs : option (gmap string PrivateID);   (** can be a [nil] map *)
}.

Definition newDb (key : ExtendedKey) (v : Z) : db := MkDb v (Some key) 0 (Some ∅).

(** What the decoder builds: identities can be [nil] pointers. *)
Record raw_db := MkRawDb {
  raw_Version : Z;
  raw_MasterKey : option ExtendedKey;
  raw_NewIDIndex : Z;
  raw_IDs : option (gmap string (option PrivateID));
}.

Definition read_id (j : json) : res (option PrivateID) :=
  match j with JNull => Ok None | _ => p ← PrivateID_UnmarshalJSON j; Ok (Some p) end.
Fixpoint read_ids (l : list (string * json)) (m : gmap string (option PrivateID))
    : res (gmap string (option PrivateID)) :=
  match l with
  | [] => Ok m
  | (a, j) :: l => p ← read_id j; read_ids l (<[a := p]> m)
  end.

Definition openDb (r : string) : res raw_db :=
  j ← json_Decode r;
  match j with
  | JObj _ | JNull =>
      version ← read_num (- 2 ^ 63) (2 ^ 63) "version" j;
      key ← match json_field "masterKey" j with
            | None | Some JNull => Ok None
            | Some k => k ← MasterKey_UnmarshalJSON k; Ok (Some k)
            end;
      index ← read_num 0 (2 ^ 32) "newIDIndex" j;
      ids ← match json_field "addresses" j with
            | None => Ok (Some ∅)
            | Some JNull => Ok None
            | Some (JObj l) => m ← read_ids l ∅; Ok (Some m)
            | Some _ => Err json_type
            end;
      Ok (MkRawDb version key index ids)
  | _ => Err json_type
  end.

(** Maps are written in the order of their keys. *)
Definition by_key : relation (string * PrivateID) := λ x y, ble x.1 y.1.
#[export] Instance by_key_dec x y : Decision (by_key x y).
Proof. unfold by_key, ble. apply _. Defined.
Fixpoint write_ids (l : list (string * PrivateID)) : res (list (string * json)) :=
  match l with
  | [] => Ok []
  | (a, p) :: l => j ← PrivateID_MarshalJSON p; l ← write_ids l; Ok ((a, j) :: l)
  end.

Definition Serialize (d : db) : res string :=
  ids ← match IDs d with
        | None => Ok JNull
        | Some m => l ← write_ids (merge_sort by_key (map_to_list m)); Ok (JObj l)
        end;
  Ok (json_Marshal (JObj [
    ("version", JNum (Version d));
    ("masterKey", match MasterKey d with Some k => MasterKey_MarshalJSON k | None => JNull end);
    ("newIDIndex", JNum (NewIDIndex d));
    ("addresses", ids)]))%string.

Definition checkAndUpgrade (version : Z) : res unit :=
  if version =? 1 then Ok tt else Err ErrUnknownKeyfileVersion.

(** ** The manager *)

Record Manager := MkManager {
  mgr_db : db;
  importedIDs : list string;
  derivedIDs : list string;
}.

Definition set_db (d : db) (m : Manager) : Manager := MkManager d (importedIDs m) (derivedIDs m).
Definition set_IDs (ids : gmap string PrivateID) (d : db) : db :=
  MkDb (Version d) (MasterKey d) (NewIDIndex d) (Some ids).
(** Reading a [nil] map finds nothing. *)
Definition ids (m : Manager) : gmap string PrivateID := default ∅ (IDs (mgr_db m)).

Definition New (seed : string) : res Manager :=
  mKey ← NewMaster seed;
  Ok (MkManager (newDb mKey latestFileVersion) [] []).

(** The loop over the identities of a file. *)
Fixpoint classify (l : list (string * option PrivateID)) (m : gmap string PrivateID)
    (imported derived : list string) : res (gmap string PrivateID * list string * list string) :=
  match l with
  | [] => Ok (m, imported, derived)
  | (addr, p) :: l =>
      id ← deref p;
      if Imported id then classify l (<[addr := id]> m) (imported ++ [addr]) derived
      else classify l (<[addr := id]> m) imported (derived ++ [addr])
  end.

Definition FromPlaintext (r : string) : res Manager :=
  d ← openDb r;
  '(m, imported, derived) ← classify (map_to_list (default ∅ (raw_IDs d))) ∅ [] [];
  _ ← checkAndUpgrade (raw_Version d);
  Ok (MkManager
        (MkDb (raw_Version d) (raw_MasterKey d) (raw_NewIDIndex d) ((λ _, m) <$> raw_IDs d))
        imported derived).

Definition FromEncrypted (enc pass : string) : res Manager :=
  if (String.length enc <? Overhead + nonceSize + saltLength)%nat
  then Err (ErrNew "encrypted data too small")
  else
    nonce ← slice_to nonceSize enc;
    rest ← slice_from nonceSize enc;
    salt ← slice_to saltLength rest;
    box ← slice_from saltLength rest;
    match secretbox_Open box nonce (deriveKey pass salt) with
    | None => Err ErrDecryptionFailed
    | Some contents => FromPlaintext contents
    end.

Definition ExportPlaintext (m : Manager) : res string := Serialize (mgr_db m).

(** The state is the number of reads of randomness. *)
Definition rand_read (n : nat) : M nat string := λ i, (Ok (rand_Read i n), S i).
Definition ExportEncrypted (pass : string) (m : Manager) : M nat string :=
  plain ← lift (ExportPlaintext m);
  nonce ← rand_read nonceSize;
  salt ← rand_read saltLength;
  mret ((nonce ++ salt) ++ secretbox_Seal plain nonce (deriveKey pass salt))%string.

Definition ImportIdentity (p : PrivateID) : M Manager unit :=
  a ← lift (PrivateID_Address p);
  let str := Address_String a in
  m ← get;
  match ids m !! str with
  | Some _ => mret tt
  | None =>
      let p := MkPrivateID (Private p) (IsChan p) (Disabled p) true (id_Name p) in
      match IDs (mgr_db m) with
      | None => panic
      | Some l => put (MkManager (set_IDs (<[str := p]> l) (mgr_db m)) (importedIDs m ++ [str]) (derivedIDs m))
      end
  end.

(** The loop that derives a key: [i] and the index wrap at 32 bits. *)
Fixpoint derive (fuel : nat) (key : ExtendedKey) (base stream i : Z) : res (HDKey * Z) :=
  match fuel with
  | O => Hang
  | S fuel =>
      match NewHD key (u32 (base + i)) stream with
      | Ok k => Ok (k, i)
      | Err _ => derive fuel key base stream (u32 (i + 1))
      | Panic => Panic
      | Hang => Hang
      end
  end.

Definition mgr_New (fuel : nat) (name : string) (stream behavior : Z) : M Manager PrivateID :=
  m ← get;
  let d := mgr_db m in
  key ← lift (deref (MasterKey d));
  '(privHD, i) ← lift (derive fuel key (NewIDIndex d) stream 0);
  let d := MkDb (Version d) (MasterKey d) (u32 (NewIDIndex d + u32 (i + 1))) (IDs d) in
  let q := NewPrivateID (NewPrivateAddress privHD DefaultAddressVersion stream) behavior None in
  let id := MkPrivateID (Some q) false false false name in
  let str := Address_String (id_Address q) in
  _ ← put (MkManager d (importedIDs m) (derivedIDs m ++ [str]));
  match IDs d with
  | None => panic
  | Some l => _ ← put (MkManager (set_IDs (<[str := id]> l) d) (importedIDs m) (derivedIDs m ++ [str])); mret id
  end.

Definition NewUnnamed (fuel : nat) (stream behavior : Z) : M Manager PrivateID :=
  mgr_New fuel EmptyString stream behavior.

Definition ForEach {S} (f : PrivateID → M S unit) (m : Manager) : M S unit :=
  mfor (map_to_list (ids m)) (λ x, f x.2).

Definition mgr_Get (address : string) (m : Manager) : option PrivateID := ids m !! address.
Definition NumImported (m : Manager) : Z := Z.of_nat (length (importedIDs m)).
Definition NumDeterministic (m : Manager) : Z := Z.of_nat (length (derivedIDs m)).
Definition mgr_Size (m : Manager) : Z := Z.of_nat (size (ids m)).
Definition Addresses (m : Manager) : list string := fst <$> map_to_list (ids m).

Definition rename (address name : string) : M Manager unit :=
  m ← get;
  match ids m !! address with
  | None => fail ErrNonexistentIdentity
  | Some id =>
      let id := MkPrivateID (Private id) (IsChan id) (Disabled id) (Imported id) name in
      put (set_db (set_IDs (<[address := id]> (ids m)) (mgr_db m)) m)
  end.
Definition NameAddress (address name : string) : M Manager unit := rename address name.
Definition UnnameAddress (address : string) : M Manager unit := rename address EmptyString.
Definition mgr_Names (m : Manager) : gmap string string := id_Name <$> ids m.

(** *** Importing *)

(** One section of a PyBitmessage file: [None] if it is skipped. *)
Definition import_section (address : string) (v : gmap string string) : option PrivateID :=
  if bool_decide (address = "bitmessagesettings"%string) then None
  else
    match v !! "privsigningkey"%string, v !! "privencryptionkey"%string with
    | Some signingKey, Some encKey =>
        let nonceTrials := readIniUint64 v "noncetrialsperbyte" DefaultNonceTrialsPerByte in
        let extraBytes := readIniUint64 v "payloadlengthextrabytes" DefaultExtraBytes in
        let enabled := readIniBool v "enabled" true in
        let isChan := readIniBool v "chan" false in
        let name := default EmptyString (v !! "label"%string) in
        match ImportWIF address signingKey encKey with
        | Ok pr => Some (MkPrivateID (Some (NewPrivateID pr 0 (Some (nonceTrials, extraBytes)))) isChan (negb enabled) false name)
        | _ => None
        end
    | _, _ => None
    end.

Fixpoint import_all (l : list PrivateID) (addresses : gmap string string) : M Manager (gmap string string) :=
  match l with
  | [] => mret addresses
  | p :: l =>
      a ← lift (PrivateID_Address p);
      _ ← ImportIdentity p;
      import_all l (<[Address_String a := id_Name p]> addresses)
  end.

Definition ImportKeysFromPyBitmessage (f : gmap string (gmap string string)) : M Manager (gmap string string) :=
  import_all (omap (λ x, import_section x.1 x.2) (map_to_list f)) ∅.

(** [None]: neither format; the ini parser is third-party code. *)
Definition ImportKeys (ini_Load : string → res (gmap string (gmap string string))) (data : string)
    : M Manager (option (gmap string string)) :=
  match ini_Load data with
  | Ok f => m ← ImportKeysFromPyBitmessage f; mret (Some m)
  | Panic => panic
  | Hang => lift Hang
  | Err _ =>
      match FromPlaintext data with
      | Ok other => m ← import_all (snd <$> map_to_list (ids other)) ∅; mret (Some m)
      | Err _ => mret None
      | Panic => panic
      | Hang => lift Hang
      end
  end.
End idmgr.

(** ** The lists of addresses *)

Section invariant.
Context {EV : Env} {BM : Bmutil} {ID : Identity} {JT : JsonText}.
Implicit Types m : Manager.

(** The lists hold the addresses of the imported and of the other
    identities, once each. *)
Record mgr_inv m : Prop := {
  inv_map : IDs (mgr_db m) = Some (ids m);
  inv_NoDup : NoDup (importedIDs m) ∧ NoDup (derivedIDs m);
  inv_imported a : a ∈ importedIDs m ↔ ∃ p, ids m !! a = Some p ∧ Imported p = true;
  inv_derived a : a ∈ derivedIDs m ↔ ∃ p, ids m !! a = Some p ∧ Imported p = false;
  inv_address a p : ids m !! a = Some p → ∃ q, Private p = Some q ∧ Address_String (id_Address q) = a;
}.

(** What holds even when a derived identity takes the place of one that has
    its address: the lists together hold the addresses of the identities;
    the derived ones are exactly those in their list, which can hold an
    address more than once, or one that was imported before. *)
Record mgr_listed m : Prop := {
  ls_map : IDs (mgr_db m) = Some (ids m);
  ls_address a p : ids m !! a = Some p → ∃ q, Private p = Some q ∧ Address_String (id_Address q) = a;
  ls_all a : a ∈ importedIDs m ++ derivedIDs m ↔ is_Some (ids m !! a);
  ls_derived a : a ∈ derivedIDs m ↔ ∃ p, ids m !! a = Some p ∧ Imported p = false;
  ls_NoDup : NoDup (importedIDs m);
}.

Lemma mgr_inv_listed m : mgr_inv m ↔ mgr_listed m ∧ NoDup (importedIDs m ++ derivedIDs m).
Proof.
  split.
  - intros [Hm [H1 H2] Hi Hd Ha]. split.
    + split; try done. intros a. rewrite elem_of_app, Hi, Hd. split; [by intros [(p & -> & _)|(p & -> & _)]|].
      intros [p Hp]. destruct (Imported p) eqn:E; [left|right]; by exists p.
    + apply NoDup_app. split; [done|]. split; [|done].
      intros a (p & Hp & E)%Hi (p' & Hp' & E')%Hd. congruence.
  - intros [[Hm Ha Hall Hd Hn] (H1 & Hdisj & H2)%NoDup_app]. split; try done. intros a. split.
    + intros Hin. destruct (proj1 (Hall a)) as [p Hp]; [by apply elem_of_app; left|]. exists p. split; [done|].
      destruct (Imported p) eqn:E; [done|]. destruct (Hdisj a Hin). apply Hd. by exists p.
    + intros (p & Hp & E). destruct (proj1 (elem_of_app _ _ a) (proj2 (Hall a) (mk_is_Some _ _ Hp))) as [?|Hin]; [done|].
      apply Hd in Hin as (p' & Hp' & E'). congruence.
Qed.

(** A list of the keys of a map has no duplicates if it is as long. *)
Lemma NoDup_keys {A} (l : list string) (g : gmap string A) : (∀ a, a ∈ l ↔ is_Some (g !! a)) →
  NoDup l ↔ length l = size g.
Proof.
  intros Hl. rewrite <- length_map_to_list, <- (length_fmap fst).
  pose proof (NoDup_fst_map_to_list g) as Hk. set (k := fst <$> map_to_list g) in *.
  assert (∀ a, a ∈ k ↔ a ∈ l) as Hkl.
  { intros a. rewrite Hl. unfold k. rewrite list_elem_of_fmap. split.
    - intros ([a' x] & -> & Hx%elem_of_map_to_list). by eexists.
    - intros [x Hx]. exists (a, x). by rewrite elem_of_map_to_list. }
  split.
  - intros Hn. apply Permutation_length, NoDup_Permutation; [done..|]. intros a. by rewrite Hkl.
  - intros Hlen. assert (k ≡ₚ l) as <-; [|done]. apply submseteq_length_Permutation; [|lia].
    apply NoDup_submseteq; [done|]. intros a. by rewrite Hkl.
Qed.
Lemma inv_size m : mgr_listed m → mgr_inv m ↔ NumImported m + NumDeterministic m = mgr_Size m.
Proof.
  intros Hl. rewrite mgr_inv_listed, (NoDup_keys _ _ (ls_all _ Hl)), length_app.
  unfold NumImported, NumDeterministic, mgr_Size. split; [intros [_ H]; lia|intros H; split; [done|lia]].
Qed.

Lemma ids_set l d i j : ids (MkManager (set_IDs l d) i j) = l.
Proof. done. Qed.

Lemma listed_New seed m : New seed = Ok m → mgr_listed m ∧ NumImported m + NumDeterministic m = mgr_Size m.
Proof.
  unfold New. munfold. destruct (NewMaster seed) as [k| | |]; try done. intros [= <-].
  split; [|done]. split; unfold ids; cbn; [done| | | |constructor]; intros a.
  - intros p. by rewrite lookup_empty.
  - rewrite lookup_empty, elem_of_nil. split; [done|by intros [? ?]].
  - rewrite elem_of_nil. split; [done|]. intros (p & H & _). by rewrite lookup_empty in H.
Qed.
Lemma inv_New seed m : New seed = Ok m → mgr_inv m.
Proof. intros [Hl H]%listed_New. by apply inv_size. Qed.

(** An identity put under its address, and at the end of the list of its
    kind; a derived one can take the place of another. *)
Lemma listed_add m d p q b :
  mgr_listed m → Private p = Some q → Imported p = b →
  let a := Address_String (id_Address q) in
  (b = true → ids m !! a = None) →
  mgr_listed (MkManager (set_IDs (<[a := p]> (ids m)) d)
    (if b then importedIDs m ++ [a] else importedIDs m) (if b then derivedIDs m else derivedIDs m ++ [a])).
Proof.
  intros [Hm Ha Hall Hd Hn] Hq Hb a Hnew.
  assert (∀ x, is_Some (<[a := p]> (ids m) !! x) ↔ x = a ∨ is_Some (ids m !! x)) as Hsome.
  { intros x. rewrite lookup_insert_is_Some. destruct (decide (x = a)); naive_solver. }
  split; rewrite ?ids_set; cbn [importedIDs derivedIDs].
  - done.
  - intros a' p'. destruct (decide (a' = a)) as [->|Hne]; [|rewrite lookup_insert_ne by done; apply Ha].
    rewrite lookup_insert_eq. intros [= <-]. by exists q.
  - intros x. rewrite Hsome, <- Hall. destruct b; rewrite !elem_of_app, list_elem_of_singleton; tauto.
  - intros x. destruct (decide (x = a)) as [->|Hne].
    + rewrite lookup_insert_eq. destruct b.
      * specialize (Hnew eq_refl). rewrite Hd, Hnew. split; [by intros (? & ? & _)|intros (? & [= <-] & ?); congruence].
      * rewrite elem_of_app, list_elem_of_singleton. split; [intros _; by exists p|by right].
    + rewrite lookup_insert_ne by done. rewrite <- Hd. destruct b; [done|].
      rewrite elem_of_app, list_elem_of_singleton. naive_solver.
  - destruct b; [|done]. apply NoDup_app. split; [done|]. split; [|apply NoDup_singleton].
    intros x Hx ->%list_elem_of_singleton. destruct (proj1 (Hall a)) as [y Hy]; [by apply elem_of_app; left|].
    by rewrite Hnew in Hy.
Qed.

Lemma ImportIdentity_shape p m m' : mgr_listed m → ImportIdentity p m = (Ok tt, m') →
  ∃ q, Private p = Some q ∧
    let a := Address_String (id_Address q) in
    match ids m !! a with
    | Some _ => m' = m
    | None => m' = MkManager
        (set_IDs (<[a := MkPrivateID (Private p) (IsChan p) (Disabled p) true (id_Name p)]> (ids m)) (mgr_db m))
        (importedIDs m ++ [a]) (derivedIDs m)
    end.
Proof.
  intros Hl. unfold ImportIdentity, PrivateID_Address. munfold. destruct (Private p) as [q|] eqn:Hq; [|done].
  cbn [deref]. intros H. exists q. split; [done|]. revert H. cbv zeta.
  destruct (ids m !! _); [by intros [= <-]|]. rewrite (ls_map _ Hl). by intros [= <-].
Qed.

Lemma ids_rename m a name m' : rename a name m = (Ok tt, m') → ∃ p, ids m !! a = Some p ∧
  m' = set_db (set_IDs (<[a := MkPrivateID (Private p) (IsChan p) (Disabled p) (Imported p) name]> (ids m)) (mgr_db m)) m.
Proof.
  unfold rename. munfold. destruct (ids m !! a) as [p|]; [|done]. intros [= <-]. by exists p.
Qed.
Lemma listed_rename m a name m' : mgr_listed m → rename a name m = (Ok tt, m') →
  mgr_listed m' ∧ mgr_Size m' = mgr_Size m ∧ importedIDs m' = importedIDs m ∧ derivedIDs m' = derivedIDs m.
Proof.
  intros [Hm Ha Hall Hd Hn] (p & Hp & ->)%ids_rename. set (p' := MkPrivateID _ _ _ _ _).
  split; [|split; [|done]].
  - split; unfold set_db; rewrite ?ids_set; cbn [importedIDs derivedIDs]; [done| | | |done]; intros x.
    + intros y. destruct (decide (x = a)) as [->|Hne]; [|rewrite lookup_insert_ne by done; apply Ha].
      rewrite lookup_insert_eq. intros [= <-]. exact (Ha a p Hp).
    + rewrite Hall, lookup_insert_is_Some. destruct (decide (a = x)) as [<-|]; naive_solver.
    + rewrite Hd. destruct (decide (x = a)) as [->|Hne]; [|by rewrite lookup_insert_ne].
      rewrite lookup_insert_eq, Hp. split; intros (y & [= <-] & Hf); eauto.
  - unfold mgr_Size, set_db. rewrite ids_set. by rewrite map_size_insert, Hp.
Qed.

(** The first usable index at or after a given one. *)
Definition first_usable (key : ExtendedKey) (stream base j : Z) (k : HDKey) : Prop :=
  base ≤ j ∧ NewHD key j stream = Ok k ∧ ∀ x, base ≤ x < j → ∃ e, NewHD key x stream = Err e.

Lemma derive_first fuel key base stream j k i : is_u32 base → is_u32 j → 0 ≤ i → base + i ≤ j →
  first_usable key stream base j k → (Z.to_nat (j - base - i) < fuel)%nat →
  derive fuel key base stream i = Ok (k, j - base).
Proof.
  intros Hb Hj Hi Hij (Hle & Hk & Hfail). revert i Hi Hij.
  induction fuel as [|fuel IH]; intros i Hi Hij Hf; [lia|]. cbn [derive]. unfold is_u32 in *.
  rewrite u32_id by (unfold is_u32; lia). destruct (decide (base + i = j)) as [Heq|Hne].
  - rewrite Heq, Hk. do 2 f_equal. lia.
  - destruct (Hfail (base + i)) as [e ->]; [lia|]. rewrite u32_id by (unfold is_u32; lia).
    apply IH; lia.
Qed.

(** A derived identity, and the state after. *)
Lemma mgr_New_eq fuel name stream behavior m key j k :
  mgr_listed m → MasterKey (mgr_db m) = Some key → is_u32 (NewIDIndex (mgr_db m)) → is_u32 j →
  first_usable key stream (NewIDIndex (mgr_db m)) j k →
  (Z.to_nat (j - NewIDIndex (mgr_db m)) < fuel)%nat →
  let q := NewPrivateID (NewPrivateAddress k DefaultAddressVersion stream) behavior None in
  let p := MkPrivateID (Some q) false false false name in
  let a := Address_String (id_Address q) in
  mgr_New fuel name stream behavior m =
    (Ok p, MkManager (set_IDs (<[a := p]> (ids m))
             (MkDb (Version (mgr_db m)) (Some key) (u32 (j + 1)) (IDs (mgr_db m))))
             (importedIDs m) (derivedIDs m ++ [a])).
Proof.
  intros Hi Hkey Hb Hj Hfirst Hf q p a. unfold mgr_New. munfold. rewrite Hkey. cbn [deref].
  rewrite (derive_first _ _ _ _ j k 0); [|done|done|done|destruct Hfirst; lia|done|by rewrite Z.sub_0_r].
  cbv beta iota zeta. cbn [MasterKey NewIDIndex Version IDs].
  unfold is_u32 in *. destruct Hfirst as [Hle _].
  assert (u32 (NewIDIndex (mgr_db m) + u32 (j - NewIDIndex (mgr_db m) + 1)) = u32 (j + 1)) as ->.
  { unfold u32. rewrite Z.add_mod_idemp_r by done. f_equal. lia. }
  by rewrite (ls_map _ Hi).
Qed.

Lemma mgr_New_shape fuel name stream behavior m p m' : mgr_listed m →
  mgr_New fuel name stream behavior m = (Ok p, m') →
  ∃ q d, Private p = Some q ∧ Imported p = false ∧
    m' = MkManager (set_IDs (<[Address_String (id_Address q) := p]> (ids m)) d) (importedIDs m)
           (derivedIDs m ++ [Address_String (id_Address q)]).
Proof.
  intros Hi. unfold mgr_New. munfold. destruct (MasterKey (mgr_db m)) as [key|]; [|done]. cbn [deref].
  destruct (derive _ _ _ _ _) as [[k i]| | |]; try done. cbn [IDs]. rewrite (ls_map _ Hi).
  intros [= <- <-]. by do 2 eexists.
Qed.

(** What a manager goes through, and whether a derived identity took an
    address that was there: that of an imported key of the same seed, or one
    derived before the index wrapped. *)
Inductive mgr_step : Manager → bool → Manager → Prop :=
  | step_New fuel name stream behavior m p a m' :
      mgr_New fuel name stream behavior m = (Ok p, m') → PrivateID_Address p = Ok a →
      mgr_step m (bool_decide (is_Some (ids m !! Address_String a))) m'
  | step_Import p m m' : ImportIdentity p m = (Ok tt, m') → mgr_step m false m'
  | step_Name a name m m' : NameAddress a name m = (Ok tt, m') → mgr_step m false m'
  | step_Unname a m m' : UnnameAddress a m = (Ok tt, m') → mgr_step m false m'.

(** A history, with the number of times that happened. *)
Inductive mgr_steps (m0 : Manager) : nat → Manager → Prop :=
  | mgr_steps_init : mgr_steps m0 0 m0
  | mgr_steps_snoc k m b m' : mgr_steps m0 k m → mgr_step m b m' → mgr_steps m0 (k + Nat.b2n b) m'.

Lemma listed_step m b m' : mgr_listed m → mgr_step m b m' →
  mgr_listed m' ∧
  NumImported m' + NumDeterministic m' - mgr_Size m' =
    NumImported m + NumDeterministic m - mgr_Size m + Z.of_nat (Nat.b2n b).
Proof.
  intros Hi Hs. unfold NumImported, NumDeterministic, mgr_Size.
  destruct Hs as [fuel name stream behavior m p a m' Hnew Ha|p m m' Himp|a name m m' Hn|a m m' Hn].
  - destruct (mgr_New_shape _ _ _ _ _ _ _ Hi Hnew) as (q & d & Hq & Hp & ->).
    unfold PrivateID_Address in Ha. rewrite Hq in Ha. munfold. simpl in Ha. simplify_eq.
    split; [by apply (listed_add m d p q false Hi)|]. rewrite ids_set. cbn [importedIDs derivedIDs].
    rewrite length_app, map_size_insert. cbn [length].
    destruct (ids m !! Address_String (id_Address q));
      [rewrite bool_decide_eq_true_2 by done|rewrite bool_decide_eq_false_2 by (by intros [? ?])]; cbn; lia.
  - destruct (ImportIdentity_shape _ _ _ Hi Himp) as (q & Hq & Hm). cbv zeta in Hm.
    destruct (ids m !! _) as [y|] eqn:Hx; subst m'; [split; [done|cbn; lia]|]. split.
    + by apply (listed_add m (mgr_db m) _ q true Hi).
    + rewrite ids_set. cbn [importedIDs derivedIDs]. rewrite length_app, map_size_insert, Hx. cbn. lia.
  - destruct (listed_rename _ _ _ _ Hi Hn) as (? & H1 & -> & ->). unfold mgr_Size in H1. split; [done|cbn; lia].
  - destruct (listed_rename _ _ _ _ Hi Hn) as (? & H1 & -> & ->). unfold mgr_Size in H1. split; [done|cbn; lia].
Qed.

Lemma inv_step m m' : mgr_inv m → mgr_step m false m' → mgr_inv m'.
Proof.
  intros Hi Hs. pose proof (proj1 (proj1 (mgr_inv_listed m) Hi)) as Hl.
  destruct (listed_step _ _ _ Hl Hs) as [Hl' Hn]. apply (inv_size _ Hl) in Hi. apply (inv_size _ Hl').
  cbn in Hn. lia.
Qed.
End invariant.

(** ** Key files *)

Section roundtrip.
Context {EV : Env} {BM : Bmutil} {ID : Identity} {JT : JsonText}.
Context {EL : EnvLaws} {IL : IdentityLaws} {JL : JsonTextLaws}.
Implicit Types m : Manager.

Definition all_Some {A} (l : list (string * A)) : list (string * option A) := (λ x, (x.1, Some x.2)) <$> l.

Lemma MarshalJSON_obj p j : PrivateID_MarshalJSON p = Ok j → ∃ l, j = JObj l.
Proof.
  unfold PrivateID_MarshalJSON. destruct (Private p); [|done]. munfold.
  destruct (id_Pow _); [|done]. intros [= <-]. by eexists.
Qed.

Lemma read_write_ids (l : list (string * PrivateID)) acc : Forall (λ x, writable x.2) l →
  ∃ js, write_ids l = Ok js ∧ read_ids js acc = Ok (foldl (λ (g : gmap string (option PrivateID)) x, <[x.1 := Some x.2]> g) acc l).
Proof.
  intros Hl. revert acc. induction Hl as [|[a p] l Hp Hl IH]; intros acc; [by exists []|].
  destruct (PrivateID_json p Hp) as (j & Hj & Hj'). destruct (IH (<[a := Some p]> acc)) as (js & Hjs & Hr).
  exists ((a, j) :: js). cbn [write_ids]. rewrite Hj. munfold. rewrite Hjs. split; [done|].
  cbn [read_ids]. destruct (MarshalJSON_obj p j Hj) as [o ->].
  unfold read_id. munfold. rewrite Hj'. exact Hr.
Qed.

(** Inserting the elements of a list with distinct keys. *)
Lemma foldl_insert {A} (l : list (string * A)) (acc : gmap string A) : NoDup (fst <$> l) →
  foldl (λ g x, <[x.1 := x.2]> g) acc l = list_to_map l ∪ acc.
Proof.
  revert acc. induction l as [|[a x] l IH]; intros acc; cbn [foldl list_to_map foldr fmap list_fmap fst snd];
    [by rewrite (left_id_L ∅ (∪))|].
  intros [Ha Hl]%NoDup_cons. rewrite IH by done. rewrite <-insert_union_l.
  symmetry. apply insert_union_r. by apply not_elem_of_list_to_map_1.
Qed.

Lemma foldl_insert_map {A} (l : list (string * A)) (g : gmap string A) :
  l ≡ₚ map_to_list g → foldl (λ g x, <[x.1 := x.2]> g) ∅ l = g.
Proof.
  intros Hp. assert (NoDup (fst <$> l)) as Hnd by (rewrite Hp; apply NoDup_fst_map_to_list).
  rewrite foldl_insert by done. rewrite (right_id_L ∅ (∪)).
  rewrite (list_to_map_proper l _ Hnd Hp). apply list_to_map_to_list.
Qed.

Lemma foldl_Some (l : list (string * PrivateID)) (acc : gmap string PrivateID) :
  foldl (λ (g : gmap string (option PrivateID)) x, <[x.1 := Some x.2]> g) (Some <$> acc) l = Some <$> foldl (λ (g : gmap string PrivateID) x, <[x.1 := x.2]> g) acc l.
Proof.
  revert acc; induction l as [|[a p] l IH]; intros acc; cbn [foldl]; [done|].
  rewrite <-fmap_insert. apply IH.
Qed.

Lemma classify_all (l : list (string * PrivateID)) acc imp der :
  classify (all_Some l) acc imp der =
  Ok (foldl (λ g x, <[x.1 := x.2]> g) acc l,
      imp ++ (fst <$> filter (λ x, Imported x.2 = true) l),
      der ++ (fst <$> filter (λ x, Imported x.2 = false) l)).
Proof.
  revert acc imp der; induction l as [|[a p] l IH]; intros acc imp der; cbn [all_Some fmap list_fmap classify foldl].
  { by rewrite !app_nil_r. }
  fold (all_Some l). munfold. cbn [deref snd fst]. rewrite !filter_cons. cbn [snd].
  destruct (Imported p) eqn:E; rewrite IH; [rewrite decide_True, decide_False by congruence|rewrite decide_False, decide_True by congruence];
    cbn [fmap list_fmap fst]; by rewrite <-!app_assoc.
Qed.

(** The identities of a file as they are read back. *)
Lemma write_ids_replaced (l : list (string * PrivateID)) js :
  Forall (λ x, all_chars is_ascii x.1 = true) l → write_ids l = Ok js →
  write_ids (prod_map id name_replaced <$> l) = Ok (map (λ x, (utf8_replaced x.1, json_replaced x.2)) js).
Proof.
  intros Hl. revert js. induction Hl as [|[a p] l Ha Hl IH]; intros js; [by intros [= <-]|].
  rewrite fmap_cons. cbn [write_ids prod_map fst snd].
  intros (j & Hj & (js' & Hjs & [= <-])%res_bind_inv)%res_bind_inv.
  rewrite (MarshalJSON_replaced _ _ Hj). cbn [fst] in Ha. munfold.
  rewrite (IH _ Hjs). cbn [map fst snd]. by rewrite (ascii_replaced _ Ha).
Qed.

Definition ids_replaced (js : list (string * json)) : list (string * json) :=
  map (λ x, (utf8_replaced x.1, json_replaced x.2)) js.

Lemma openDb_text v k i (o : option (list (string * json))) :
  - 2 ^ 63 ≤ v < 2 ^ 63 → is_u32 i →
  openDb (json_Marshal (JObj [
    ("version", JNum v);
    ("masterKey", match k with Some k => MasterKey_MarshalJSON k | None => JNull end);
    ("newIDIndex", JNum i);
    ("addresses", match o with Some l => JObj l | None => JNull end)]))%string =
  match o with
  | None => Ok (MkRawDb v k i None)
  | Some l => m ← read_ids (ids_replaced l) ∅; Ok (MkRawDb v k i (Some m))
  end.
Proof.
  intros Hv Hi. unfold openDb. munfold. rewrite Decode_Marshal.
  set (K := match k with Some k => MasterKey_MarshalJSON k | None => JNull end).
  set (O := match o with Some l => JObj (ids_replaced l) | None => JNull end).
  assert (json_replaced K = K) as HK.
  { destruct k as [k|]; [|done]. cbn. by rewrite (ascii_replaced _ (KeyString_ascii k)). }
  assert (json_replaced (match o with Some l => JObj l | None => JNull end) = O) as HO by (by destruct o).
  assert (json_replaced (JObj [("version", JNum v); ("masterKey", K); ("newIDIndex", JNum i);
      ("addresses", match o with Some l => JObj l | None => JNull end)]) =
    JObj [("version", JNum v); ("masterKey", K); ("newIDIndex", JNum i); ("addresses", O)])%string as ->
    by (rewrite <- HK at 2; rewrite <- HO; reflexivity).
  clear HO. set (J := JObj _). unfold read_num.
  assert (json_field "version" J = Some (JNum v)) as -> by (vm_compute; reflexivity).
  assert (json_field "newIDIndex" J = Some (JNum i)) as -> by (vm_compute; reflexivity).
  assert (json_field "masterKey" J = Some K) as -> by (vm_compute; reflexivity).
  assert (json_field "addresses" J = Some O) as -> by (vm_compute; reflexivity).
  assert (∀ n lo hi, lo ≤ n < hi → ((lo <=? n) && (n <? hi)) = true) as Hr.
  { intros n lo hi Hb. apply andb_true_intro. split; [apply Z.leb_le|apply Z.ltb_lt]; lia. }
  unfold is_u32 in Hi. rewrite !Hr by lia. subst K O.
  destruct k as [k|]; cbn [MasterKey_MarshalJSON MasterKey_UnmarshalJSON]; [rewrite KeyFromString_String|];
    destruct o as [l|]; try done; by destruct (read_ids _ ∅).
Qed.

(** The state that a key file can hold. *)
Record exportable m : Prop := {
  ex_version : Version (mgr_db m) = latestFileVersion;
  ex_index : is_u32 (NewIDIndex (mgr_db m));
  ex_ids : ∀ a p, ids m !! a = Some p → writable p;
}.

Definition with_flag (f : bool) (m : Manager) : list string :=
  fst <$> filter (λ x, Imported x.2 = f) (map_to_list (ids m)).

Lemma elem_of_with_flag f m a : a ∈ with_flag f m ↔ ∃ p, ids m !! a = Some p ∧ Imported p = f.
Proof.
  unfold with_flag. rewrite list_elem_of_fmap. split.
  - intros ([a' p] & -> & [Hf Hp%elem_of_map_to_list]%list_elem_of_filter). by exists p.
  - intros (p & Hp & Hf). exists (a, p). split; [done|]. apply list_elem_of_filter.
    split; [done|]. by apply elem_of_map_to_list.
Qed.

Lemma NoDup_with_flag f m : NoDup (with_flag f m).
Proof.
  unfold with_flag. pose proof (NoDup_fst_map_to_list (ids m)) as H. revert H.
  generalize (map_to_list (ids m)) as l. induction l as [|x l IH]; [constructor|].
  intros [Hx Hl]%NoDup_cons. rewrite filter_cons. case_decide; [|by apply IH].
  cbn [fmap list_fmap]. apply NoDup_cons. split; [|by apply IH].
  intros (y & Heq & [_ Hy]%list_elem_of_filter)%list_elem_of_fmap. apply Hx. rewrite Heq.
  by apply list_elem_of_fmap_2.
Qed.

(** What is read back of a database: the names as they were written. *)
Definition db_replaced (d : db) : db :=
  MkDb (Version d) (MasterKey d) (NewIDIndex d) ((λ l : gmap string PrivateID, name_replaced <$> l) <$> IDs d).
Lemma db_replaced_id m : mgr_inv m →
  db_replaced (mgr_db m) = mgr_db m ↔ ∀ a p, ids m !! a = Some p → utf8_valid (id_Name p) = true.
Proof.
  intros Hi. pose proof (inv_map _ Hi) as Hm. unfold ids in *. destruct m as [[v k i o] imp der]. cbn in *.
  rewrite Hm. cbn. unfold db_replaced. cbn [Version MasterKey NewIDIndex IDs]. rewrite Hm. cbn. split.
  - intros [= E] a p Hp. apply name_replaced_id. apply (f_equal (lookup a)) in E.
    rewrite lookup_fmap, Hp in E. by injection E.
  - intros Hv. do 2 f_equal. apply map_eq. intros a. rewrite lookup_fmap.
    destruct (_ !! a) as [p|] eqn:E; [|done]. cbn. f_equal. by apply name_replaced_id, (Hv a).
Qed.

(** Names do not matter for the lists. *)
Lemma flag_replaced f (g : gmap string PrivateID) :
  fst <$> filter (λ x, Imported x.2 = f) (map_to_list (name_replaced <$> g)) =
  fst <$> filter (λ x, Imported x.2 = f) (map_to_list g).
Proof.
  rewrite map_to_list_fmap. generalize (map_to_list g) as l. intros l.
  induction l as [|[a p] l IH]; [done|]. rewrite fmap_cons, !filter_cons. cbn [prod_map snd name_replaced Imported].
  case_decide; [|done]. rewrite !fmap_cons. by f_equal.
Qed.

(** The identities of a file, in the order they are written, and their
    text. *)
Lemma ids_read_back m : mgr_inv m → (∀ a p, ids m !! a = Some p → writable p) →
  ∃ js, write_ids (merge_sort by_key (map_to_list (ids m))) = Ok js ∧
    read_ids (ids_replaced js) ∅ = Ok (Some <$> (name_replaced <$> ids m)).
Proof.
  intros Hi Hw. set (l := merge_sort by_key (map_to_list (ids m))).
  assert (∀ a p, (a, p) ∈ l → ids m !! a = Some p) as Hl.
  { intros a p. unfold l. rewrite merge_sort_Permutation. by intros ?%elem_of_map_to_list. }
  assert (Forall (λ x, all_chars is_ascii x.1 = true) l) as Ha.
  { apply Forall_forall. intros [a p] Hin%Hl. destruct (inv_address _ Hi _ _ Hin) as (q & _ & <-).
    apply Address_ascii. }
  assert (Forall (λ x, writable x.2) l) as H1 by (apply Forall_forall; intros [a p] Hin%Hl; by eapply Hw).
  assert (Forall (λ x, writable x.2) (prod_map id name_replaced <$> l)) as H2.
  { apply Forall_fmap. eapply Forall_impl; [exact H1|]. intros [a p]. apply name_replaced_writable. }
  destruct (read_write_ids _ ∅ H1) as (js & Hjs & _). exists js. split; [done|].
  destruct (read_write_ids _ ∅ H2) as (js' & Hjs' & Hr). rewrite (write_ids_replaced _ _ Ha Hjs) in Hjs'.
  injection Hjs' as <-. unfold ids_replaced. rewrite Hr.
  rewrite <-(fmap_empty (M := gmap string) (A := PrivateID) Some), foldl_Some.
  rewrite (foldl_insert_map _ (name_replaced <$> ids m)); [done|].
  rewrite map_to_list_fmap. apply fmap_Permutation, merge_sort_Permutation.
Qed.

Lemma Export_FromPlaintext m : mgr_inv m → exportable m →
  ∃ text m', ExportPlaintext m = Ok text ∧ FromPlaintext text = Ok m' ∧ mgr_db m' = db_replaced (mgr_db m) ∧
    importedIDs m' ≡ₚ importedIDs m ∧ derivedIDs m' ≡ₚ derivedIDs m.
Proof.
  intros Hi [Hv Hx Hw]. unfold ExportPlaintext, Serialize, FromPlaintext. rewrite (inv_map _ Hi).
  destruct (ids_read_back m Hi Hw) as (js & Hjs & Hread).
  remember (name_replaced <$> ids m) as g eqn:Hg. munfold. rewrite Hjs.
  eexists _, _. split; [reflexivity|].
  pose proof (openDb_text (Version (mgr_db m)) (MasterKey (mgr_db m)) (NewIDIndex (mgr_db m)) (Some js)) as Hopen.
  cbv beta iota in Hopen. rewrite Hopen; [|rewrite Hv; unfold latestFileVersion; lia|done]. clear Hopen.
  munfold. rewrite Hread. cbn [raw_IDs default from_option].
  change (g = name_replaced <$> ids m) in Hg.
  change (id (gmap_fmap PrivateID (option PrivateID) Some g)) with (Some <$> g). rewrite map_to_list_fmap.
  change (prod_map id Some <$> map_to_list g) with (all_Some (map_to_list g)).
  rewrite classify_all. cbn [app]. cbn [raw_Version]. rewrite Hv. cbn [checkAndUpgrade latestFileVersion Z.eqb Pos.eqb].
  split; [reflexivity|]. cbn [mgr_db importedIDs derivedIDs].
  rewrite (foldl_insert_map _ g) by done. subst g. rewrite !flag_replaced. split.
  - unfold db_replaced. rewrite (inv_map _ Hi), Hv. done.
  - destruct (inv_NoDup _ Hi). split; (apply NoDup_Permutation; [apply NoDup_with_flag|done|]); intros a.
    + by rewrite (inv_imported _ Hi), <-elem_of_with_flag.
    + by rewrite (inv_derived _ Hi), <-elem_of_with_flag.
Qed.
End roundtrip.

(** ** Decimal numbers *)

Definition digit_char (c : ascii) : bool := (48 <=? Z_of_byte c) && (Z_of_byte c <=? 57).

Lemma pretty_char x : (x < 10)%N →
  digit_char (pretty_N_char x) = true ∧ Z_of_byte (pretty_N_char x) - 48 = Z.of_N x.
Proof.
  intros Hx. assert (x = 0 ∨ x = 1 ∨ x = 2 ∨ x = 3 ∨ x = 4 ∨ x = 5 ∨ x = 6 ∨ x = 7 ∨ x = 8 ∨ x = 9)%N as Hd by lia.
  repeat destruct Hd as [->|Hd]; try subst x; by vm_compute.
Qed.

Lemma digits_pretty_go x s : ∃ k, ∀ acc, digits acc (pretty_N_go x s) = digits (acc * k + Z.of_N x) s.
Proof.
  revert s. induction (N.lt_wf_0 x) as [x _ IH]; intros s.
  destruct (decide (x = 0)%N) as [->|Hx].
  { exists 1. intros acc. rewrite pretty_N_go_0. by rewrite Z.mul_1_r, Z.add_0_r. }
  rewrite pretty_N_go_step by lia.
  assert (x `div` 10 < x)%N as Hlt by (apply N.div_lt; lia).
  destruct (IH (x `div` 10)%N Hlt (String (pretty_N_char (x `mod` 10)) s)) as [k Hk].
  destruct (pretty_char (x `mod` 10)%N) as [H1 H2]; [by apply N.mod_lt|].
  exists (10 * k). intros acc. rewrite Hk. cbn [digits]. unfold digit_char in H1. rewrite H1, H2.
  f_equal. assert (x = 10 * (x `div` 10) + x `mod` 10)%N as Hdm by (by apply N.div_mod). lia.
Qed.

Lemma pretty_go_first x s : (0 < x)%N → ∃ c r, pretty_N_go x s = String c r ∧ digit_char c = true.
Proof.
  revert s. induction (N.lt_wf_0 x) as [x _ IH]; intros s Hx. rewrite pretty_N_go_step by done.
  destruct (decide (x `div` 10 = 0)%N) as [->|Hd].
  - rewrite pretty_N_go_0. do 2 eexists. split; [done|]. apply pretty_char. by apply N.mod_lt.
  - apply IH; [apply N.div_lt; lia|]. by apply N.neq_0_lt_0.
Qed.

Lemma pretty_natural x : natural (pretty x) = Some (Z.of_N x) ∧ ∃ c r, pretty x = String c r ∧ digit_char c = true.
Proof.
  unfold pretty, pretty_N. case_decide as Hx; [subst; split; [done|by do 2 eexists]|].
  destruct (pretty_go_first x EmptyString) as (c & r & Hc & Hd); [lia|]. split; [|by exists c, r].
  destruct (digits_pretty_go x EmptyString) as [k Hk]. specialize (Hk 0). rewrite Hc in Hk |- *.
  unfold natural. rewrite Hk. cbn [digits]. f_equal.
Qed.

Lemma Atoi_pretty n :
  Atoi (pretty n) = if (- 2 ^ 63 <=? n) && (n <? 2 ^ 63) then Ok n else Err (ErrNew "value out of range").
Proof.
  assert (∀ x, match pretty x with
    | String "-"%char s => Z.opp <$> natural s | String "+"%char s => natural s | _ => natural (pretty x) end
    = Some (Z.of_N x)) as Hpos.
  { intros x. destruct (pretty_natural x) as [Hn (c & r & Hc & Hd)]. rewrite Hc in *.
    destruct (ascii_dec c "-"%char) as [->|H1]; [done|]. destruct (ascii_dec c "+"%char) as [->|H2]; [done|].
    rewrite <-Hn. clear -H1 H2. destruct c as [[] [] [] [] [] [] [] []]; done. }
  unfold Atoi. destruct n as [|p|p].
  - done.
  - change (pretty (Z.pos p)) with (pretty (N.pos p)). by rewrite Hpos.
  - change (pretty (Z.neg p)) with (String "-"%char (pretty (N.pos p))). cbv iota.
    rewrite (proj1 (pretty_natural _)). done.
Qed.

(** ** Properties *)

Section properties.
Context {EV : Env} {BM : Bmutil} {ID : Identity} {JT : JsonText}.
Context {EL : EnvLaws} {IL : IdentityLaws} {JL : JsonTextLaws}.
Implicit Types m : Manager.

(** C23: through every sequence of derivations, imports and renamings, every
    identity is filed under its own address, the lists of imported and of
    derived addresses hold together the addresses of the identities, no
    imported one twice, and exactly the identities that are not marked as
    imported are in the list of derived ones.  The lengths of the lists
    exceed the number of identities by the number of times that a derived
    identity took an address that was there; so the lists are those of the
    imported and of the derived identities, each once, exactly if that never
    happened: [New] does not look. *)
Theorem manager_invariant seed m0 k m :
  New seed = Ok m0 → mgr_steps m0 k m →
  mgr_listed m ∧ NumImported m + NumDeterministic m = mgr_Size m + Z.of_nat k ∧ (mgr_inv m ↔ k = 0%nat).
Proof.
  intros [Hl0 Hn0]%listed_New Hs.
  assert (mgr_listed m ∧ NumImported m + NumDeterministic m = mgr_Size m + Z.of_nat k) as [Hl Hn].
  { induction Hs as [|k m b m' _ [Hl Hn] Hb]; [split; [done|lia]|].
    destruct (listed_step _ _ _ Hl Hb) as [? Hn']. split; [done|lia]. }
  split; [done|]. split; [done|]. rewrite (inv_size _ Hl). lia.
Qed.

(** C37: a derived identity comes from the first index, at or after the
    stored one, for which a key can be derived; the index then moves past
    it (wrapping at 32 bits), and the identity is filed as a derived one.
    The loop ends if there is such an index. *)
Theorem mgr_New_next fuel name stream behavior m key j k :
  mgr_listed m → MasterKey (mgr_db m) = Some key → is_u32 (NewIDIndex (mgr_db m)) → is_u32 j →
  first_usable key stream (NewIDIndex (mgr_db m)) j k →
  (Z.to_nat (j - NewIDIndex (mgr_db m)) < fuel)%nat →
  let q := NewPrivateID (NewPrivateAddress k DefaultAddressVersion stream) behavior None in
  let p := MkPrivateID (Some q) false false false name in
  let a := Address_String (id_Address q) in
  ∃ m', mgr_New fuel name stream behavior m = (Ok p, m') ∧
    NewIDIndex (mgr_db m') = u32 (j + 1) ∧ ids m' = <[a := p]> (ids m) ∧
    derivedIDs m' = derivedIDs m ++ [a] ∧ importedIDs m' = importedIDs m.
Proof.
  intros Hi Hk Hb Hj Hf Hfuel q p a.
  rewrite (mgr_New_eq fuel name stream behavior m key j k Hi Hk Hb Hj Hf Hfuel).
  eexists. split; [reflexivity|]. done.
Qed.

(** Identities without names. *)
Definition unnamed m : Prop := ∀ a p, ids m !! a = Some p → id_Name p = EmptyString.
Lemma New_unnamed seed m : New seed = Ok m → unnamed m.
Proof.
  unfold New. munfold. destruct (NewMaster seed); try done. intros [= <-] x p. unfold ids. cbn.
  by rewrite lookup_empty.
Qed.
Lemma NewUnnamed_preserves fuel stream behavior : preserves unnamed (NewUnnamed fuel stream behavior).
Proof.
  intros m r m'. unfold NewUnnamed, mgr_New. munfold. destruct (MasterKey (mgr_db m)) as [key|]; [|by intros [= _ <-]].
  cbn [deref]. destruct (derive _ _ _ _ _) as [[k i]| | |]; try by intros [= _ <-]. cbn [IDs].
  unfold unnamed, ids. destruct (IDs (mgr_db m)) as [l|]; intros [= _ <-]; cbn; [|done].
  intros Hl x p. rewrite lookup_insert_Some. intros [[_ <-]|[_ Hp]]; [done|by eapply Hl].
Qed.
Lemma unnamed_read_back m : mgr_inv m → unnamed m → db_replaced (mgr_db m) = mgr_db m.
Proof. intros Hi Hu. apply db_replaced_id; [done|]. intros a p Hp. by rewrite (Hu a p Hp). Qed.

(** A key file opened with the passphrase it was written with. *)
Lemma encrypted_opens m pass n :
  mgr_inv m → exportable m →
  ∃ enc m', ExportEncrypted pass m n = (Ok enc, S (S n)) ∧ FromEncrypted enc pass = Ok m' ∧
    mgr_db m' = db_replaced (mgr_db m) ∧ importedIDs m' ≡ₚ importedIDs m ∧ derivedIDs m' ≡ₚ derivedIDs m.
Proof.
  intros Hi Hex. destruct (Export_FromPlaintext m Hi Hex) as (text & m' & Ht & Hm' & Hrest).
  set (nonce := rand_Read n nonceSize). set (salt := rand_Read (S n) saltLength).
  exists ((nonce ++ salt) ++ secretbox_Seal text nonce (deriveKey pass salt))%string, m'.
  split; [unfold ExportEncrypted; munfold; by rewrite Ht|]. split; [|done].
  pose proof (rand_Read_length n nonceSize) as H1. pose proof (rand_Read_length (S n) saltLength) as H2.
  unfold FromEncrypted. rewrite (proj2 (Nat.ltb_ge _ _)).
  2:{ rewrite !slength_app, Seal_length. fold nonce in H1. fold salt in H2. lia. }
  rewrite sapp_assoc. destruct (slice_app nonce (salt ++ secretbox_Seal text nonce (deriveKey pass salt))%string _ H1) as [-> ->].
  munfold. destruct (slice_app salt (secretbox_Seal text nonce (deriveKey pass salt)) _ H2) as [-> ->].
  by rewrite Open_Seal.
Qed.

(** C11: an encrypted key file is read back with its passphrase as the same
    database (version, master key, index, and identities with their keys and
    flags), with the same imported and derived addresses, and with the names
    as JSON can hold them: the bytes of a name that are not UTF-8 come back
    as U+FFFD.  So the database is the same exactly if every name is valid
    UTF-8. *)
Theorem FromEncrypted_ExportEncrypted m pass n :
  mgr_inv m → exportable m →
  ∃ enc m', ExportEncrypted pass m n = (Ok enc, S (S n)) ∧ FromEncrypted enc pass = Ok m' ∧
    mgr_db m' = db_replaced (mgr_db m) ∧ importedIDs m' ≡ₚ importedIDs m ∧ derivedIDs m' ≡ₚ derivedIDs m ∧
    (mgr_db m' = mgr_db m ↔ ∀ a p, ids m !! a = Some p → utf8_valid (id_Name p) = true).
Proof.
  intros Hi He. destruct (encrypted_opens m pass n Hi He) as (enc & m' & H1 & H2 & H3 & H4 & H5).
  exists enc, m'. repeat (split; [done|]). rewrite H3. by apply db_replaced_id.
Qed.

(** C38: a number of a PyBitmessage file is read as a 64-bit signed integer
    and then taken as unsigned: one in range is itself, a negative one wraps
    to a huge difficulty, and one too large for 63 bits is silently replaced
    by the default, although it would fit. *)
Theorem readIniUint64_bounds (v : gmap string string) k d n :
  v !! k = Some (pretty n) →
  readIniUint64 v k d =
    if (0 <=? n) && (n <? 2 ^ 63) then n
    else if (- 2 ^ 63 <=? n) && (n <? 0) then 2 ^ 64 + n else d.
Proof.
  intros Hv. unfold readIniUint64. rewrite Hv, Atoi_pretty.
  destruct (Z.leb_spec 0 n), (Z.ltb_spec n (2 ^ 63)), (Z.leb_spec (- 2 ^ 63) n), (Z.ltb_spec n 0);
    cbn [andb]; try lia; try done.
  - by apply u64_id; unfold is_u64; lia.
  - unfold u64. rewrite <-(Z.mod_add n 1) by done. rewrite Z.mod_small by lia. lia.
Qed.
End properties.

(** ** A concrete text of JSON trees *)

Module JsonModel.

Definition leaf : Type := Z + string + bool.
Fixpoint to_tree (j : json) : gen_tree leaf :=
  match j with
  | JNull => GenNode 0 []
  | JBool b => GenLeaf (inr b)
  | JNum n => GenLeaf (inl (inl n))
  | JStr s => GenLeaf (inl (inr s))
  | JObj l => GenNode 1 (map (λ p, GenNode 2 [GenLeaf (inl (inr p.1)); to_tree p.2]) l)
  end.
Fixpoint of_tree (t : gen_tree leaf) : json :=
  match t with
  | GenLeaf (inr b) => JBool b
  | GenLeaf (inl (inl n)) => JNum n
  | GenLeaf (inl (inr s)) => JStr s
  | GenNode 1 l =>
      JObj (map (λ t, match t with
        | GenNode 2 [GenLeaf (inl (inr k)); t] => (k, of_tree t)
        | _ => (EmptyString, JNull)
        end) l)
  | GenNode _ _ => JNull
  end.

Lemma of_to_tree : ∀ j, of_tree (to_tree j) = j.
Proof.
  fix IH 1. intros [|b|n|s|l]; [done..|]. cbn [to_tree of_tree]. f_equal. rewrite map_map.
  induction l as [|[k j] l IHl]; [done|]. cbn [map fst snd]. rewrite IH. by f_equal.
Qed.

#[export] Instance model : JsonText := {
  json_Marshal j := pos_bits (encode (to_tree (json_replaced j)));
  json_Decode s :=
    match decode (A := gen_tree leaf) (bits_pos s) with
    | Some t => Ok (of_tree t)
    | None => Err (ErrNew "invalid character")
    end;
}.
#[export] Instance model_laws : JsonTextLaws.
Proof. split. intros j. simpl. by rewrite bits_pos_bits, decode_encode, of_to_tree. Qed.
End JsonModel.

Section witnesses.
Import EnvModel BmutilModel IdentityModel JsonModel.

Local Definition mgr0 : Manager := MkManager (newDb ("seed"%string : ExtendedKey) latestFileVersion) [] [].
Local Definition derived1 : Manager := (mgr_New 3 "first" 1 1 mgr0).2.
Local Definition derived2 : Manager := (mgr_New 3 "second" 1 1 derived1).2.

Local Definition new_reuses (name : string) (m : Manager) : option bool :=
  match (mgr_New 3 name 1 1 m).1 with
  | Ok p => match PrivateID_Address p with
            | Ok a => Some (bool_decide (is_Some (ids m !! Address_String a)))
            | _ => None
            end
  | _ => None
  end.
Lemma step_eval name b m : new_reuses name m = Some b → mgr_step m b (mgr_New 3 name 1 1 m).2.
Proof.
  unfold new_reuses. destruct (mgr_New 3 name 1 1 m) as [[p| | |] m'] eqn:E; try done. cbn [fst snd].
  destruct (PrivateID_Address p) as [a| | |] eqn:Ha; try done. intros [= <-].
  exact (step_New 3 name 1 1 m p a m' E Ha).
Qed.
Lemma derived1_step : mgr_step mgr0 false derived1.
Proof. apply (step_eval "first" false mgr0). vm_compute. reflexivity. Qed.
Lemma derived2_step : mgr_step derived1 false derived2.
Proof. apply (step_eval "second" false derived1). vm_compute. reflexivity. Qed.

(** The first key of the seed is imported, and then derived: it is listed
    twice, and no longer imported. *)
Local Definition first_key : PrivateID :=
  MkPrivateID (Some (("seed" ++ be32 0)%string, 0, Some (1000, 2000)) : option IdPrivateID) false false false "mine".
Local Definition imported1 : Manager := (ImportIdentity first_key mgr0).2.
Local Definition overwritten : Manager := (mgr_New 3 "first" 1 1 imported1).2.

Lemma manager_invariant_witness :
  (mgr_inv derived2 ∧ NumImported derived2 + NumDeterministic derived2 = mgr_Size derived2 ∧ mgr_Size derived2 = 2) ∧
  (mgr_listed overwritten ∧ NumImported overwritten + NumDeterministic overwritten = 2 ∧ mgr_Size overwritten = 1 ∧
   ¬ mgr_inv overwritten).
Proof.
  split.
  - destruct (manager_invariant "seed" mgr0 0 derived2) as (_ & H2 & H3).
    + reflexivity.
    + apply (mgr_steps_snoc _ 0 derived1 false); [|apply derived2_step].
      apply (mgr_steps_snoc _ 0 mgr0 false); [constructor|apply derived1_step].
    + split; [by apply H3|]. split; [rewrite H2; lia|]. vm_compute. reflexivity.
  - destruct (manager_invariant "seed" mgr0 1 overwritten) as (H1 & H2 & H3).
    + reflexivity.
    + apply (mgr_steps_snoc _ 0 imported1 true).
      * apply (mgr_steps_snoc _ 0 mgr0 false); [constructor|]. by apply (step_Import first_key).
      * apply (step_eval "first" true imported1). vm_compute. reflexivity.
    + assert (mgr_Size overwritten = 1) as Hz by (vm_compute; reflexivity).
      split; [exact H1|]. split; [rewrite H2, Hz; reflexivity|]. split; [exact Hz|]. by intros ?%H3.
Defined.

(** The key of index 1 cannot be used: index 2 is. *)
Lemma mgr_New_next_witness :
  ∃ p m', mgr_New 3 "second" 1 1 derived1 = (Ok p, m') ∧ NewIDIndex (mgr_db m') = 3.
Proof.
  assert (mgr_listed derived1) as Hi.
  { apply (listed_step mgr0 false); [|apply derived1_step]. by apply (listed_New "seed"). }
  assert (NewIDIndex (mgr_db derived1) = 1) as Hx by (vm_compute; reflexivity).
  destruct (mgr_New_next 3 "second" 1 1 derived1 "seed"%string 2 ("seed" ++ be32 2)%string Hi) as (m' & H1 & H2 & _).
  - reflexivity.
  - rewrite Hx. unfold is_u32. lia.
  - unfold is_u32. lia.
  - rewrite Hx. split; [lia|]. split; [reflexivity|]. intros x Hb.
    assert (x = 1) as -> by lia. by eexists.
  - rewrite Hx. lia.
  - eexists _, m'. split; [exact H1|]. rewrite H2. reflexivity.
Defined.

Local Definition chan_named (name : string) : PrivateID :=
  MkPrivateID (Some (("abc"%string, 0, Some (1000, 2000)) : IdPrivateID)) true false false name.
Local Definition mgr1 (name : string) : Manager := (ImportIdentity (chan_named name) mgr0).2.
Lemma mgr1_ids name :
  ids (mgr1 name) = {["BM-abc"%string := MkPrivateID (Private (chan_named name)) true false true name]}.
Proof. reflexivity. Qed.
Lemma mgr1_inv name : mgr_inv (mgr1 name).
Proof. eapply (inv_step mgr0); [by eapply (inv_New "seed")|]. by apply (step_Import (chan_named name)). Qed.
Lemma mgr1_exportable name : exportable (mgr1 name).
Proof.
  assert (NewIDIndex (mgr_db (mgr1 name)) = 0) as Hx by reflexivity.
  split; [reflexivity|rewrite Hx; unfold is_u32; lia|]. intros a p. rewrite mgr1_ids. intros [_ <-]%lookup_singleton_Some.
  exists ("abc"%string, 0, Some (1000, 2000)), (1000, 2000).
  split; [reflexivity|]. split; [reflexivity|]. unfold is_u64, is_u32.
  change (id_Behavior _) with 0. cbn [fst snd]. lia.
Qed.

(** A name that is UTF-8 comes back, and one that is not does not. *)
Lemma FromEncrypted_ExportEncrypted_witness :
  (∃ enc m', ExportEncrypted "secret" (mgr1 "chan") 7%nat = (Ok enc, 9%nat) ∧ FromEncrypted enc "secret" = Ok m' ∧
    mgr_db m' = mgr_db (mgr1 "chan") ∧ importedIDs m' ≡ₚ ["BM-abc"%string]) ∧
  (let bad := mgr1 (String (byte_of_Z 255) EmptyString) in
   ∃ enc m', ExportEncrypted "secret" bad 7%nat = (Ok enc, 9%nat) ∧ FromEncrypted enc "secret" = Ok m' ∧
     mgr_db m' ≠ mgr_db bad).
Proof.
  split.
  - destruct (FromEncrypted_ExportEncrypted (mgr1 "chan") "secret" 7 (mgr1_inv _) (mgr1_exportable _))
      as (enc & m' & H1 & H2 & _ & H4 & _ & H5).
    exists enc, m'. split; [exact H1|]. split; [exact H2|]. split; [|exact H4].
    apply H5. intros a p. rewrite mgr1_ids. intros [_ <-]%lookup_singleton_Some. reflexivity.
  - intros bad. destruct (FromEncrypted_ExportEncrypted bad "secret" 7 (mgr1_inv _) (mgr1_exportable _))
      as (enc & m' & H1 & H2 & _ & _ & _ & H5).
    exists enc, m'. split; [exact H1|]. split; [exact H2|]. intros Hsame.
    pose proof (proj1 H5 Hsame "BM-abc"%string _ (lookup_singleton_eq _ _)) as Hu.
    vm_compute in Hu. discriminate Hu.
Defined.

Lemma readIniUint64_bounds_witness :
  readIniUint64 {["noncetrialsperbyte"%string := "-1"%string]} "noncetrialsperbyte" 1000 = 2 ^ 64 - 1.
Proof.
  change "-1"%string with (pretty (-1)).
  by rewrite (readIniUint64_bounds _ "noncetrialsperbyte" 1000 (-1)) by apply lookup_singleton_eq.
Defined.
End witnesses.
