(* ===== verification/Commands.v ===== *)
(** * Commands by e-mail and by RPC ([cmd], [cmd/rpc/proto.go])

    A command is read from the words of an e-mail ([ReadCommand]) or built
    from a protocol buffer ([BuildCommand]), executed, and its response is
    written as text or as a protocol buffer.  The table of commands refers to
    its readers by name, since the reader of [help] looks the table up.  Of
    the generated records only the fields that the code reads or sets are
    kept; their generated text is a parameter.

    Proved: which words are accepted for each command, and that a command
    sent by RPC is rebuilt as it was read, up to the flag for acks, which is
    lost.  Not true of the code: a difficulty can be asked for. *)

From S2P Require Import Prelude Bytes Text Bolt StoreEnv Bmutil Keys IdMgr Email.
From Stdlib Require Import Ascii.
Local Open Scope Z_scope.
Local Open Scope list_scope.

(** ** Patterns of parameters *)

Definition KeyRepeated : Z := 0.
Definition KeyRepeatedNull : Z := 1.
Definition KeyBoolean : Z := 2.
Definition KeyNatural : Z := 3.
Definition KeyString : Z := 4.
Definition KeySymbol : Z := 5.

Definition keyString (key : Z) : string :=
  if key =? KeyRepeated then "+"
  else if key =? KeyRepeatedNull then "*"
  else if key =? KeyBoolean then " boolean"
  else if key =? KeyNatural then " natural"
  else if key =? KeyString then " string"
  else if key =? KeySymbol then " symbol"
  else EmptyString.
Definition patternString (keys : list Z) : string := Join EmptyString (keyString <$> keys).

(** The variables that [ReadPattern] writes, by the type of their pointer. *)
Inductive cell :=
  | CBool (b : bool)
  | CUint64 (n : Z)
  | CString (s : string)
  | COther.

(** [strconv.ParseUint(s, 10, 64)] *)
Definition ParseUint (s : string) : res Z :=
  match natural s with
  | Some n => if n <? 2 ^ 64 then Ok n else Err (ErrNew "value out of range")
  | None => Err (ErrNew "invalid syntax")
  end.

(** The expression of a string matches if two quotes are on one line. *)
Fixpoint quote_on_line (s : string) : bool :=
  match s with
  | EmptyString => false
  | String c s => if is_char 34 c then true else if is_char 10 c then false else quote_on_line s
  end.
Fixpoint regexString (s : string) : bool :=
  match s with
  | EmptyString => false
  | String c s => (is_char 34 c && quote_on_line s) || regexString s
  end.

(** One parameter; the variable keeps its value on error. *)
Definition read_cell (param : string) (e : cell) : res cell :=
  match e with
  | COther => Err ErrInvalidType
  | CBool _ =>
      if bool_decide (param = "true"%string) then Ok (CBool true)
      else if bool_decide (param = "false"%string) then Ok (CBool false)
      else Err ErrInvalidBoolean
  | CUint64 _ => n ← ParseUint param; Ok (CUint64 n)
  | CString _ =>
      if negb (regexString param) then Err ErrInvalidString
      else Ok (CString (stake (String.length param - 2) (sdrop 1 param)))
  end.
Fixpoint read_cells (params : list string) (elements : list cell) : res unit * list cell :=
  match params, elements with
  | param :: params, e :: elements =>
      match read_cell param e with
      | Ok e => let '(r, l) := read_cells params elements in (r, e :: l)
      | Err x => (Err x, e :: elements)
      | Panic => (Panic, e :: elements)
      | Hang => (Hang, e :: elements)
      end
  | _, _ => (Ok tt, elements)
  end.
Definition ReadPattern (params : list string) : M (list cell) unit := λ elements,
  if negb (length params =? length elements)%nat then
    (Err (ErrInvalidNumberOfParameters params (u32 (Z.of_nat (length elements)))), elements)
  else read_cells params elements.

(** ** Errors as text ([err.Error()]) *)

Definition Error (e : error) : string :=
  match e with
  | ErrDuplicateID => "duplicate ID"
  | ErrInvalidID => "invalid ID"
  | ErrNotFound => "record not found"
  | ErrDecryptionFailed => "invalid passphrase"
  | ErrDuplicateMailbox => "duplicate mailbox"
  | ErrUnrecognizedAck => "Unrecognized ack"
  | ErrNoAckExpected => "No ack expected"
  | ErrNoMessageFound => "No message found"
  | ErrMissingPrivateID => "Private id not found"
  | ErrInvalidEmail => "From address must be of the form ^BM-[123456789abcdefghijkmnopqrstuvwxyzABCDEFGHJKLMNPQRSTUVWXYZ]+@bm\.addr$."
  | ErrGetPubKeySent => "GetPubKey request sent"
  | ErrAckMissing => "Ack missing"
  | ErrIdentityNotFound => "identity not found"
  | ErrUnknownKeyfileVersion => "unknown keyfile version"
  | ErrNonexistentIdentity => "identity doesn't exist"
  | ErrInvalidPrivateID => "Invalid Private ID"
  | errSuccessCode => "decryption successful"
  | ErrInvalidString => "Invalid string pattern. Should be delimited by " ++ quote ++ " "
  | ErrInvalidBoolean => "Boolean should be 'true' or 'false'"
  | ErrInvalidType => "Cannot read the given type."
  | ErrInvalidRPCRequest => "Invalid rpc request."
  | ErrUnknownCommand cmd => "Unknown command " ++ cmd
  | ErrUnrecognizedPattern cmd patterns =>
      "Unrecognized pattern for command " ++ cmd ++ "." ++ newline ++ "Recognized patterns are " ++ newline ++
      String "009" (Join (newline ++ String "009" EmptyString) (patternString <$> patterns))
  | ErrInvalidNumberOfParameters params expected =>
      "Invalid number of parameters in (" ++ Join " " params ++ "); expected " ++ decimal expected
  | ErrServerStopped => "Server is not running."
  | ErrNew msg => msg
  end%string.

(** ** Commands *)

(** What the [read] of a pattern refers to. *)
Inductive reader := RHelp | RNewAddress | RListAddresses.
Record Pattern := MkPattern { pat_help : string; pat_key : list Z; pat_read : reader }.
Record command := MkCommand { cmd_help : string; cmd_patterns : list Pattern }.

Definition Commands : list string :=
  ["deletemessages"; "getmessages"; "help"; "listaddresses"; "newaddress"; "sendmessage"]%string.
Definition Unimplemented : list string :=
  ["deletemessages"; "getmessages"; "listaddresses"; "newaddress"; "sendmessage"]%string.

Definition unimplementedStub : command := MkCommand "has not yet been implemented." [].
Definition help : command := MkCommand "provides instructions on commands."
  [MkPattern "Print instructions for all commands." [] RHelp;
   MkPattern "Print instructions for specified commands." [KeySymbol; KeyRepeated] RHelp].
Definition newAddress : command := MkCommand "creates a new address."
  [MkPattern "Create a new unnamed address." [] RNewAddress;
   MkPattern "Create a new named address." [KeyBoolean] RNewAddress;
   MkPattern "Create a new named address." [KeyBoolean; KeyNatural; KeyNatural] RNewAddress;
   MkPattern "Create a new named address." [KeyString] RNewAddress;
   MkPattern "Create a new named address." [KeyString; KeyBoolean] RNewAddress;
   MkPattern "Create a new named address." [KeyString; KeyBoolean; KeyNatural; KeyNatural] RNewAddress].
Definition listAddresses : command := MkCommand "list all available addresses"
  [MkPattern "list all available addresses" [] RListAddresses].

Definition commands : gmap string command := list_to_map
  [("help", help); ("newaddress", newAddress); ("listaddresses", listAddresses);
   ("getmessages", unimplementedStub); ("deletemessages", unimplementedStub);
   ("sendmessage", unimplementedStub); ("subscribe", unimplementedStub)]%string.

Definition recognizedPatterns (patterns : list Pattern) : list (list Z) := pat_key <$> patterns.

(** The checks of [init]: each panics when it fails. *)
Fixpoint in_order (previous : string) (l : list string) : bool :=
  match l with [] => true | c :: l => bleb previous c && in_order c l end.
Definition init_ok : bool :=
  in_order EmptyString Commands && forallb (λ c, bool_decide (is_Some (commands !! c))) Commands &&
  in_order EmptyString Unimplemented && forallb (λ c, bool_decide (c ∈ Commands)) Unimplemented &&
  forallb (λ c : string * command, negb (bool_decide (cmd_help c.2 = EmptyString)) &&
    forallb (λ p, negb (bool_decide (pat_help p = EmptyString))) (cmd_patterns c.2)) (map_to_list commands).

Record newAddressCommand := MkNewAddressCommand {
  na_ack : bool;
  na_label : option string;
  na_pow : option (Z * Z);
  na_version : Z;
  na_stream : Z;
}.
Inductive Command :=
  | HelpCommand (cmds : list string)
  | NewAddressCommand (c : newAddressCommand)
  | ListAddressesCommand.

Definition DefaultSendAck : bool := true.

(** *** Reading the words of an e-mail: the parameters are a slice, which
    [help] sorts in place *)

Fixpoint check_commands (l : list string) : res unit :=
  match l with
  | [] => Ok tt
  | p :: l => match commands !! p with Some _ => check_commands l | None => Err (ErrUnknownCommand p) end
  end.

Definition readHelpCommand : M (list string) Command :=
  param ← get;
  _ ← lift (check_commands param);
  _ ← modify (merge_sort ble);
  param ← get;
  mret (HelpCommand param).

Definition read_send_ack (param : list string) : res bool :=
  match ReadPattern param [CBool false] with
  | (Ok _, [CBool b]) => Ok b
  | (Ok _, _) => Panic
  | (Err e, _) => Err e
  | (Panic, _) => Panic
  | (Hang, _) => Hang
  end.
Definition readNewAddressCommand : M (list string) Command :=
  param ← get;
  sendAck ← match param with
    | [] => mret DefaultSendAck
    | [_] => lift (read_send_ack param)
    | _ => fail (ErrInvalidNumberOfParameters param 1)
    end;
  mret (NewAddressCommand (MkNewAddressCommand sendAck None None 4 1)).

Definition readListAddressesCommand : M (list string) Command :=
  param ← get;
  match param with
  | [] => mret ListAddressesCommand
  | _ => fail (ErrInvalidNumberOfParameters param 0)
  end.

Definition run_reader (r : reader) : M (list string) Command :=
  match r with
  | RHelp => readHelpCommand
  | RNewAddress => readNewAddressCommand
  | RListAddresses => readListAddressesCommand
  end.

(** The first pattern that reads the parameters; errors are dropped. *)
Fixpoint try_patterns (patterns : list Pattern) : M (list string) (option Command) :=
  match patterns with
  | [] => mret None
  | p :: patterns =>
      c ← try (run_reader (pat_read p));
      match c with inl c => mret (Some c) | inr _ => try_patterns patterns end
  end.
Definition ReadCommand (name : string) : M (list string) Command :=
  match commands !! name with
  | None => fail (ErrUnknownCommand name)
  | Some c =>
      r ← try_patterns (cmd_patterns c);
      match r with
      | Some c => mret c
      | None => fail (ErrUnrecognizedPattern name (recognizedPatterns (cmd_patterns c)))
      end
  end.

(** *** Requests by RPC *)

Record HelpRequest := MkHelpRequest { hr_Version : option Z; hr_Requests : list string }.
Record NewAddressRequest := MkNewAddressRequest {
  nr_Version : option Z;
  nr_Addressversion : option Z;
  nr_Label : option string;
  nr_Stream : option Z;
  nr_Noncetrialsperbyte : option Z;
  nr_Extrabytes : option Z;
  nr_Ack : option bool;
}.
Record ListAddressesRequest := MkListAddressesRequest { lr_Version : option Z }.
(** The messages inside can be [nil]. *)
Inductive request :=
  | ReqHelp (r : option HelpRequest)
  | ReqNewaddress (r : option NewAddressRequest)
  | ReqListaddresses (r : option ListAddressesRequest).
Record BMRPCRequest := MkBMRPCRequest { rq_Version : option Z; rq_Request : option request }.

Definition buildHelpCommand (r : option HelpRequest) : res Command :=
  match r with
  | Some (MkHelpRequest (Some v) requests) =>
      if negb (v =? 1) then Err ErrInvalidRPCRequest
      else _ ← check_commands requests; Ok (HelpCommand requests)
  | _ => Err ErrInvalidRPCRequest
  end.

Definition is_other (o : option Z) (v : Z) : bool :=
  match o with Some x => negb (x =? v) | None => false end.
Definition buildNewAddressCommand (r : option NewAddressRequest) : res Command :=
  r ← deref r;
  if is_other (nr_Addressversion r) 4 then Err (ErrNew "Address version must be 4")
  else if is_other (nr_Stream r) 1 then Err (ErrNew "Stream must be 1")
  else
    let ack := match nr_Ack r with Some b => b | None => true end in
    p ← match nr_Noncetrialsperbyte r with
        | None => Ok (0, 0)
        | Some n =>
            match nr_Extrabytes r with
            | Some _ => Err (ErrNew "Must provide both nonce trials per byte and extra bytes.")
            | None => x ← deref (nr_Extrabytes r); Ok (n, x)
            end
        end;
    Ok (NewAddressCommand (MkNewAddressCommand ack (nr_Label r) (Some p) 4 1)).

Definition buildListAddressesCommand (r : option ListAddressesRequest) : res Command :=
  Ok ListAddressesCommand.

Definition BuildCommand (r : option BMRPCRequest) : res Command :=
  match r with
  | Some (MkBMRPCRequest (Some v) (Some q)) =>
      if negb (v =? 1) then Err ErrInvalidRPCRequest
      else
        match q with
        | ReqHelp r => buildHelpCommand r
        | ReqNewaddress r => buildNewAddressCommand r
        | ReqListaddresses r => buildListAddressesCommand r
        end
  | _ => Err ErrInvalidRPCRequest
  end.

(** [Command.RPC] *)
Definition helpCommand_RPC (cmds : list string) : BMRPCRequest :=
  MkBMRPCRequest (Some 1) (Some (ReqHelp (Some (MkHelpRequest (Some 1) cmds)))).
Definition newAddressCommand_RPC (c : newAddressCommand) : BMRPCRequest :=
  MkBMRPCRequest (Some 1)
    (Some (ReqNewaddress (Some (MkNewAddressRequest (Some 1) None (na_label c) None None None None)))).
Definition listAddressesCommand_RPC : BMRPCRequest :=
  MkBMRPCRequest (Some 1) (Some (ReqListaddresses (Some (MkListAddressesRequest (Some 1))))).

Definition Command_RPC (c : Command) : BMRPCRequest :=
  match c with
  | HelpCommand cmds => helpCommand_RPC cmds
  | NewAddressCommand c => newAddressCommand_RPC c
  | ListAddressesCommand => listAddressesCommand_RPC
  end.

(** ** Execution *)

Section execute.
Context {BM : Bmutil} {ID : Identity} {PB : Publics}.

Record PublicID := MkPublicID { pid_ID : IdPublic; pid_Label : string }.

(** What a command needs of a user ([cmd.User]). *)
Class User (S : Type) := {
  NewAddress : string → bool → M S PublicID;
  ListAddresses : M S (list PublicID);
}.

Inductive Response :=
  | helpResponse (cmds : list string) (long : bool)
  | newAddressResponse (address : PublicID)
  | listAddressesResponse (addresses : list PublicID)
  | errorResponse (err : error).

Definition helpCommand_Execute {S} (cmds : list string) : M S Response :=
  match cmds with
  | [] => mret (helpResponse Commands false)
  | cmds => mret (helpResponse cmds true)
  end.
Definition newAddressCommand_Execute {S} `{!User S} (c : newAddressCommand) : M S Response :=
  addr ← NewAddress EmptyString (na_ack c); mret (newAddressResponse addr).
Definition listAddressesCommand_Execute {S} `{!User S} : M S Response :=
  l ← ListAddresses; mret (listAddressesResponse l).

Definition Execute {S} `{!User S} (c : Command) : M S Response :=
  match c with
  | HelpCommand cmds => helpCommand_Execute cmds
  | NewAddressCommand c => newAddressCommand_Execute c
  | ListAddressesCommand => listAddressesCommand_Execute
  end.

(** ** Replies *)

Record BitmessageIdentity := MkBitmessageIdentity {
  bi_Version : option Z;
  bi_Address : option string;
  bi_Label : option string;
  bi_Behavior : option Z;
  bi_Noncetrialsperbyte : option Z;
  bi_Extrabytes : option Z;
}.
(** The replies carried by [BMRPCReply]; their version is always 1. *)
Inductive reply :=
  | ErrorReply (err : option string)
  | NewAddressReply (address : option BitmessageIdentity)
  | ListAddressesReply (addresses : list BitmessageIdentity)
  | HelpReply (instructions : list string).
Record BMRPCReply := MkBMRPCReply { rp_Version : option Z; rp_Reply : option reply }.

(** The generated [String] method of an identity. *)
Class ProtoText := { BitmessageIdentity_String : option BitmessageIdentity → string }.
Context {PT : ProtoText}.

(** The difficulty can be a [nil] pointer. *)
Definition PublicToRPC (ip : PublicID) : res BitmessageIdentity :=
  pow ← deref (pub_Pow (pid_ID ip));
  Ok (MkBitmessageIdentity (Some 1) (Some (Address_String (pub_Address (pid_ID ip)))) (Some (pid_Label ip))
        (Some (pub_Behavior (pid_ID ip))) (Some pow.1) (Some pow.2)).
Fixpoint PublicsToRPC (l : list PublicID) : res (list BitmessageIdentity) :=
  match l with
  | [] => Ok []
  | addr :: l => i ← PublicToRPC addr; ids ← PublicsToRPC l; Ok (i :: ids)
  end.

Definition new_reply (r : reply) : BMRPCReply := MkBMRPCReply (Some 1) (Some r).
(** The instructions that [helpResponse.RPC] writes are not those it sends. *)
Definition helpResponse_RPC (cmds : list string) : BMRPCReply := new_reply (HelpReply cmds).
Definition newAddressResponse_RPC (addr : PublicID) : res BMRPCReply :=
  i ← PublicToRPC addr; Ok (new_reply (NewAddressReply (Some i))).
Definition listAddressesResponse_RPC (l : list PublicID) : res BMRPCReply :=
  ids ← PublicsToRPC l; Ok (new_reply (ListAddressesReply ids)).
(** "Not yet implemented." *)
Definition errorResponse_RPC : option BMRPCReply := None.

Definition Response_RPC (r : Response) : res (option BMRPCReply) :=
  match r with
  | helpResponse cmds long => Ok (Some (helpResponse_RPC cmds))
  | newAddressResponse addr => res_map Some (newAddressResponse_RPC addr)
  | listAddressesResponse l => res_map Some (listAddressesResponse_RPC l)
  | errorResponse _ => Ok errorResponse_RPC
  end.

(** *** Replies as text ([cmd/rpc/proto.go]) *)

Definition BitmessageIdentity_Message (bi : BitmessageIdentity) : string :=
  let '(address, last) :=
    match bi_Address bi with Some a => (a, ", ") | None => (EmptyString, EmptyString) end%string in
  let '(label, last) :=
    match bi_Label bi with
    | Some l => (last ++ quote ++ l ++ quote, ", ") | None => (EmptyString, last) end%string in
  let '(behavior, last) :=
    match bi_Behavior bi with
    | Some b => (last ++ "behavior:" ++ decimal b, ", ") | None => (EmptyString, last) end%string in
  let poo :=
    match bi_Noncetrialsperbyte bi, bi_Extrabytes bi with
    | Some n, Some e => last ++ "pow:{" ++ decimal n ++ ", " ++ decimal e ++ "}"
    | _, _ => EmptyString
    end%string in
  (address ++ label ++ behavior ++ poo)%string.

Definition reply_Message (r : reply) : string :=
  match r with
  | ErrorReply _ => EmptyString
  | NewAddressReply a => BitmessageIdentity_String a
  | ListAddressesReply l => Join newline (BitmessageIdentity_Message <$> l)
  | HelpReply l => Join newline l
  end.
Definition Message (r : option BMRPCReply) : res string :=
  r ← deref r;
  Ok match rp_Reply r with None => EmptyString | Some r => reply_Message r end.

(** *** Help *)

Definition formatHelp (help : string) (indent firstIndent lineWidth : Z) : string := help.
Definition helpMessageShort (cmd : string) (c : command) : string :=
  ("  " ++ pad14 cmd ++ " : " ++ formatHelp (cmd_help c) 4 19 78)%string.
Definition helpMessagePattern (cmd : string) (p : Pattern) : string :=
  ("  " ++ pad14 cmd ++ " " ++ patternString (pat_key p) ++ newline ++ formatHelp (pat_help p) 4 4 78)%string.
Definition helpMessageLong (cmd : string) (c : command) : string :=
  (helpMessageShort cmd c ++
   Join EmptyString ((λ p, newline ++ helpMessagePattern cmd p) <$> cmd_patterns c))%string.

(** The zero value, when a name is not in the table. *)
Definition lookup_command (name : string) : command := default (MkCommand EmptyString []) (commands !! name).
Definition helpResponse_String (cmds : list string) (long : bool) : string :=
  let write := if long then helpMessageLong else helpMessageShort in
  Join EmptyString ((λ name, write name (lookup_command name)) <$> cmds).
Definition newAddressResponse_String (addr : PublicID) : res string :=
  r ← newAddressResponse_RPC addr; Message (Some r).
Definition listAddressesResponse_String (l : list PublicID) : res string :=
  r ← listAddressesResponse_RPC l; Message (Some r).
Definition errorResponse_String (err : error) : string := ("Error: " ++ Error err ++ ".")%string.

Definition Response_String (r : Response) : res string :=
  match r with
  | helpResponse cmds long => Ok (helpResponse_String cmds long)
  | newAddressResponse addr => newAddressResponse_String addr
  | listAddressesResponse l => listAddressesResponse_String l
  | errorResponse err => Ok (errorResponse_String err)
  end.

(** ** The two interfaces *)

Context {EV : Env} {S : Type} {US : User S}.

Definition SubjectRe (cmd : string) (p : list string) : string := ("Re: " ++ cmd ++ " " ++ Join " " p)%string.

Definition execute_words (name : string) (params : list string) : M S (Response * list string) :=
  match ReadCommand name params with
  | (Err err, params) => mret (errorResponse err, params)
  | (Ok c, params) =>
      r ← try (Execute c);
      mret (match r with inl r => r | inr err => errorResponse err end, params)
  | (Panic, _) => panic
  | (Hang, _) => lift Hang
  end.

(** The subject is written from the parameters as the reader left them. *)
Definition EmailCommand (from agent name : string) (params : list string) : M S Bmail :=
  '(r, params) ← execute_words name params;
  body ← lift (Response_String r);
  mret (MkBmail agent from false Time_zero None (Some (Encoding2 (SubjectRe name params) body)) None None).

Definition RPCCommand (req : option BMRPCRequest) : M S (option BMRPCReply) :=
  c ← lift (BuildCommand req);
  response ← Execute c;
  lift (Response_RPC response).

(** [running]: the server is running. *)
Definition BMAgentRequest (running : bool) (req : option BMRPCRequest) : M S (option BMRPCReply) :=
  if negb running then fail ErrServerStopped
  else
    reply ← try (RPCCommand req);
    mret match reply with
         | inl reply => reply
         | inr err => Some (new_reply (ErrorReply (Some (Error err))))
         end.
End execute.

(** ** What is accepted *)

Definition known (name : string) : Prop := is_Some (commands !! name).

(** The commands that words stand for, and the parameters afterwards. *)
Inductive accepted : string → list string → Command → list string → Prop :=
  | acc_help params sorted :
      Forall known params → sorted ≡ₚ params → StronglySorted ble sorted →
      accepted "help" params (HelpCommand sorted) sorted
  | acc_newaddress params ack :
      params = [] ∧ ack = true ∨ params = ["true"%string] ∧ ack = true ∨ params = ["false"%string] ∧ ack = false →
      accepted "newaddress" params (NewAddressCommand (MkNewAddressCommand ack None None 4 1)) params
  | acc_listaddresses : accepted "listaddresses" [] ListAddressesCommand [].

Lemma init_passes : init_ok = true.
Proof. vm_compute. reflexivity. Qed.

Lemma commands_cases name c : commands !! name = Some c →
  name = "help"%string ∧ c = help ∨ name = "newaddress"%string ∧ c = newAddress ∨
  name = "listaddresses"%string ∧ c = listAddresses ∨
  c = unimplementedStub ∧ name ∉ ["help"; "newaddress"; "listaddresses"]%string.
Proof.
  intros Hin%elem_of_list_to_map_2. rewrite !elem_of_cons, elem_of_nil in Hin.
  destruct_or?; simplify_eq; auto 6; right; right; right;
    (split; [done|by rewrite !elem_of_cons, elem_of_nil; intros ?; destruct_or?]).
Qed.

Lemma check_commands_eq l :
  match check_commands l with Ok _ => Forall known l | Err _ => ¬ Forall known l | _ => False end.
Proof.
  induction l as [|p l IH]; [constructor|]. cbn [check_commands].
  destruct (commands !! p) eqn:E.
  - destruct (check_commands l); [|intros [_ ?]%Forall_cons; done|done..]. constructor; [by eexists|done].
  - intros [[? Hp] _]%Forall_cons. congruence.
Qed.

Lemma known_check l : Forall known l → check_commands l = Ok tt.
Proof. intros H. pose proof (check_commands_eq l). by destruct (check_commands l) as [[]| | |]. Qed.

Lemma readHelp_eq l :
  Forall known l ∧ readHelpCommand l = (Ok (HelpCommand (merge_sort ble l)), merge_sort ble l) ∨
  ¬ Forall known l ∧ ∃ e, readHelpCommand l = (Err e, l).
Proof.
  unfold readHelpCommand. pose proof (check_commands_eq l) as H. munfold.
  destruct (check_commands l) as [[]| | |]; [by left|right; by eauto|done..].
Qed.

Lemma readNewAddress_eq l :
  (∃ ack, accepted "newaddress" l (NewAddressCommand (MkNewAddressCommand ack None None 4 1)) l ∧
    readNewAddressCommand l = (Ok (NewAddressCommand (MkNewAddressCommand ack None None 4 1)), l)) ∨
  (∃ e, readNewAddressCommand l = (Err e, l)) ∧ l ≠ [] ∧ l ≠ ["true"%string] ∧ l ≠ ["false"%string].
Proof.
  destruct l as [|p [|q l]].
  - left. exists true. split; [constructor; auto|done].
  - destruct (decide (p = "true"%string)) as [->|H1]; [left; exists true; split; [constructor; auto|done]|].
    destruct (decide (p = "false"%string)) as [->|H2]; [left; exists false; split; [constructor; auto|done]|].
    right. split; [|repeat split; congruence]. exists ErrInvalidBoolean.
    assert (read_send_ack [p] = Err ErrInvalidBoolean) as He.
    { unfold read_send_ack, ReadPattern. cbn [length Nat.eqb negb read_cells]. unfold read_cell.
      by rewrite !bool_decide_eq_false_2. }
    unfold readNewAddressCommand. munfold. by rewrite He.
  - right. split; [eexists; reflexivity|]. done.
Qed.

Lemma try_patterns_fail patterns l : Forall (λ p, ∃ e, run_reader (pat_read p) l = (Err e, l)) patterns →
  try_patterns patterns l = (Ok None, l).
Proof.
  induction 1 as [|p patterns [e' Hp] _ IH]; [done|]. cbn [try_patterns]. munfold. by rewrite Hp.
Qed.

(** Reading fails on all patterns alike: they have the same reader. *)
Lemma ReadCommand_fail name c r l e : commands !! name = Some c →
  Forall (λ p, pat_read p = r) (cmd_patterns c) → run_reader r l = (Err e, l) →
  ReadCommand name l = (Err (ErrUnrecognizedPattern name (recognizedPatterns (cmd_patterns c))), l).
Proof.
  intros Hc Hr He. unfold ReadCommand. rewrite Hc.
  run_step ltac:(apply try_patterns_fail; eapply Forall_impl; [exact Hr|]; intros p <-; eauto).
  done.
Qed.

Lemma accepted_name name l c l' : accepted name l c l' →
  name ∈ ["help"; "newaddress"; "listaddresses"]%string.
Proof. destruct 1; by repeat constructor. Qed.

Lemma ReadCommand_cases name params :
  match ReadCommand name params with
  | (Ok c, params') => accepted name params c params'
  | (Err e, params') => params' = params ∧ (¬ ∃ c l, accepted name params c l) ∧
      e = match commands !! name with
          | None => ErrUnknownCommand name
          | Some c => ErrUnrecognizedPattern name (recognizedPatterns (cmd_patterns c))
          end
  | _ => False
  end.
Proof.
  destruct (commands !! name) as [c|] eqn:Hc.
  2:{ unfold ReadCommand. rewrite Hc. split; [done|]. split; [|done].
      intros (c & l & Ha%accepted_name). apply (eq_None_not_Some (commands !! name)) in Hc. apply Hc.
      rewrite !elem_of_cons, elem_of_nil in Ha. by destruct_or?; subst; eexists. }
  destruct (commands_cases _ _ Hc) as [[-> ->]|[[-> ->]|[[-> ->]|[-> Hn]]]].
  - destruct (readHelp_eq params) as [[Hk He]|[Hk [e He]]].
    + unfold ReadCommand. rewrite Hc. munfold. cbn [help cmd_patterns try_patterns pat_read run_reader].
      munfold. rewrite He. constructor; [done|apply merge_sort_Permutation|].
      apply StronglySorted_merge_sort; apply _.
    + rewrite (ReadCommand_fail _ _ RHelp _ e Hc) by first [done|repeat constructor].
      split; [done|]. split; [|done]. intros (c & l & Ha). by inversion Ha.
  - destruct (readNewAddress_eq params) as [(ack & Ha & He)|[[e He] (H1 & H2 & H3)]].
    + unfold ReadCommand. rewrite Hc. munfold. cbn [newAddress cmd_patterns try_patterns pat_read run_reader].
      munfold. by rewrite He.
    + rewrite (ReadCommand_fail _ _ RNewAddress _ e Hc) by first [done|repeat constructor].
      split; [done|]. split; [|done]. intros (c & l & Ha). inversion Ha as [|? ? Hx|]; subst; destruct Hx as [[? _]|[[? _]|[? _]]]; done.
  - destruct params as [|p l]; [constructor|].
    rewrite (ReadCommand_fail _ _ RListAddresses _ (ErrInvalidNumberOfParameters (p :: l) 0) Hc)
      by first [done|repeat constructor].
    split; [done|]. split; [|done]. intros (c & l' & Ha). inversion Ha.
  - unfold ReadCommand. rewrite Hc. split; [done|]. split; [|done].
    intros (c & l & Ha%accepted_name). done.
Qed.

(** C30: the words accepted for each command: names of commands for [help],
    which are sorted in place; nothing, [true] or [false] for [newaddress],
    none of the other patterns its help announces; nothing for
    [listaddresses]; nothing at all for the other names.  Reading never
    panics; it fails with the name if the command is unknown, and otherwise
    with its patterns. *)
Theorem ReadCommand_accepted name params :
  match ReadCommand name params with
  | (Ok c, params') => accepted name params c params'
  | (Err e, params') => params' = params ∧ (¬ ∃ c l, accepted name params c l) ∧
      e = match commands !! name with
          | None => ErrUnknownCommand name
          | Some c => ErrUnrecognizedPattern name (recognizedPatterns (cmd_patterns c))
          end
  | _ => False
  end.
Proof. apply ReadCommand_cases. Qed.

(** ** Commands over RPC *)

(** What is left of a command when it has been sent. *)
Definition rebuilt (c : Command) : Command :=
  match c with
  | NewAddressCommand c => NewAddressCommand (MkNewAddressCommand true (na_label c) (Some (0, 0)) 4 1)
  | c => c
  end.

Lemma BuildCommand_words name params c params' :
  ReadCommand name params = (Ok c, params') → BuildCommand (Some (Command_RPC c)) = Ok (rebuilt c).
Proof.
  intros Hr. pose proof (ReadCommand_cases name params) as Ha. rewrite Hr in Ha.
  destruct Ha as [params sorted Hk Hp _|params ack _|]; [|done..].
  cbn. unfold bind, mbind, res_mbind, res_bind. by rewrite known_check by (by rewrite Hp).
Qed.

(** A command read from words, turned into a request and built again
    from it, is the same command, but an address is always asked for with
    acks, also where the words said [false]. *)
Theorem BuildCommand_RPC name params c params' :
  ReadCommand name params = (Ok c, params') → BuildCommand (Some (Command_RPC c)) = Ok (rebuilt c).
Proof. apply BuildCommand_words. Qed.

(** A difficulty for a new address can never be asked for: with both
    numbers the request is refused, by a message that asks for both, and
    with the first alone the server panics. *)
Theorem buildNewAddress_difficulty v l n x ack :
  BuildCommand (Some (MkBMRPCRequest (Some 1) (Some (ReqNewaddress (Some
    (MkNewAddressRequest v None l None (Some n) x ack)))))) =
  match x with
  | Some _ => Err (ErrNew "Must provide both nonce trials per byte and extra bytes.")
  | None => Panic
  end.
Proof. by destruct x. Qed.

Section replies.
Context {BM : Bmutil} {ID : Identity} {PB : Publics} {PT : ProtoText}.
Context {S : Type} {US : User S}.

(** The server answers every request for help with the names asked for
    (or with all of them), never with the instructions that it writes; a
    name that is not in the table is answered by an error. *)
Theorem help_reply_names cmds s :
  BMAgentRequest true (Some (Command_RPC (HelpCommand cmds))) s =
  (Ok (Some (new_reply
     match check_commands cmds with
     | Err e => ErrorReply (Some (Error e))
     | _ => HelpReply (match cmds with [] => Commands | _ => cmds end)
     end)), s).
Proof.
  pose proof (check_commands_eq cmds) as H.
  assert (BuildCommand (Some (Command_RPC (HelpCommand cmds))) =
    res_map (λ _, HelpCommand cmds) (check_commands cmds)) as Hb.
  { cbn. munfold. by destruct (check_commands cmds). }
  unfold BMAgentRequest, RPCCommand. cbn [negb]. munfold. rewrite Hb.
  destruct (check_commands cmds) as [[]| | |]; [by destruct cmds|done..].
Qed.
(** What is sent of an identity: every field. *)
Definition complete (i : BitmessageIdentity) : Prop :=
  bi_Version i = Some 1 ∧ is_Some (bi_Address i) ∧ is_Some (bi_Label i) ∧ is_Some (bi_Behavior i) ∧
  is_Some (bi_Noncetrialsperbyte i) ∧ is_Some (bi_Extrabytes i).

(** The replies that fit a request. *)
Inductive replies_to : request → reply → Prop :=
  | replies_help names :
      replies_to (ReqHelp (Some (MkHelpRequest (Some 1) names)))
        (HelpReply (match names with [] => Commands | _ => names end))
  | replies_newaddress r i : complete i → replies_to (ReqNewaddress (Some r)) (NewAddressReply (Some i))
  | replies_listaddresses r l : Forall complete l → replies_to (ReqListaddresses r) (ListAddressesReply l).
Definition well_formed (req : option BMRPCRequest) (r : reply) : Prop :=
  (∃ text, r = ErrorReply (Some text)) ∨
  ∃ q, req = Some (MkBMRPCRequest (Some 1) (Some q)) ∧ replies_to q r.

Lemma PublicToRPC_complete p i : PublicToRPC p = Ok i → complete i.
Proof. by intros (pow & _ & [= <-])%res_bind_inv. Qed.
Lemma PublicsToRPC_complete l ids : PublicsToRPC l = Ok ids → Forall complete ids.
Proof.
  revert ids. induction l as [|p l IH]; intros ids; [by intros [= <-]; constructor|].
  intros (i & Hi%PublicToRPC_complete & (ids' & H%IH & [= <-])%res_bind_inv)%res_bind_inv. by constructor.
Qed.

(** The command that a request stands for fits it. *)
Lemma BuildCommand_request req c : BuildCommand req = Ok c → ∃ q, req = Some (MkBMRPCRequest (Some 1) (Some q)) ∧
  match c with
  | HelpCommand names => q = ReqHelp (Some (MkHelpRequest (Some 1) names))
  | NewAddressCommand _ => ∃ r, q = ReqNewaddress (Some r)
  | ListAddressesCommand => ∃ r, q = ReqListaddresses r
  end.
Proof.
  destruct req as [[[v|] [q|]]|]; cbn [BuildCommand]; try done.
  destruct (Z.eqb_spec v 1) as [->|]; [|done]. cbn [negb]. intros H. exists q. split; [done|].
  destruct q as [[[[hv|] names]|]|[r|]|r]; cbn in H; try done.
  - destruct (Z.eqb_spec hv 1) as [->|]; [|done]. cbn [negb] in H.
    by apply res_bind_inv in H as (? & _ & [= <-]).
  - destruct (is_other (nr_Addressversion r) 4); [done|]. destruct (is_other (nr_Stream r) 1); [done|].
    apply res_bind_inv in H as (? & _ & [= <-]). by exists r.
  - injection H as <-. by exists r.
Qed.

Lemma RPCCommand_replies req s reply s' : RPCCommand req s = (Ok reply, s') →
  ∃ r, reply = Some (new_reply r) ∧ well_formed req r.
Proof.
  intros (c & ? & [= Hb <-] & (resp & s1 & He & [= Hr _])%bind_inv)%bind_inv.
  destruct (BuildCommand_request _ _ Hb) as (q & -> & Hq).
  assert (∃ r, reply = Some (new_reply r) ∧ replies_to q r) as (r & -> & H).
  2:{ exists r. split; [done|]. right. by exists q. }
  destruct c as [names|c|].
  - subst q. destruct names as [|name names]; injection He as <- _; injection Hr as <-;
      eexists; (split; [done|constructor]).
  - destruct Hq as [r ->]. apply bind_inv in He as (addr & s2 & _ & [= <- _]).
    apply res_bind_inv in Hr as (? & (i & Hi%PublicToRPC_complete & [= <-])%res_bind_inv & [= <-]).
    eexists. by split; [|constructor].
  - destruct Hq as [r ->]. apply bind_inv in He as (l & s2 & _ & [= <- _]).
    apply res_bind_inv in Hr as (? & (ids & Hi%PublicsToRPC_complete & [= <-])%res_bind_inv & [= <-]).
    eexists. by split; [|constructor].
Qed.

(** C27: every answer of the agent over RPC is a message of version 1 that
    holds a reply, and a reply that fits the request: either an error with a
    text, or, for a request of version 1, the names for help, an identity
    with all its fields for a new address, such identities for the list of
    addresses.  An agent that does not run does not answer. *)
Theorem BMAgentRequest_typed running req s reply s' : BMAgentRequest running req s = (Ok reply, s') →
  running = true ∧ ∃ r, reply = Some (MkBMRPCReply (Some 1) (Some r)) ∧ well_formed req r.
Proof.
  unfold BMAgentRequest. destruct running; [|done]. cbn [negb]. intros (x & s1 & H & [= <- _])%bind_inv.
  split; [done|]. unfold try in H. destruct (RPCCommand req s) as [[r|e| |] s2] eqn:E; try done; injection H as <- _.
  - by apply RPCCommand_replies in E.
  - eexists. split; [done|]. left. by eexists.
Qed.
End replies.

Lemma BuildCommand_RPC_witness :
  ReadCommand "newaddress" ["false"%string] =
    (Ok (NewAddressCommand (MkNewAddressCommand false None None 4 1)), ["false"%string]) ∧
  BuildCommand (Some (Command_RPC (NewAddressCommand (MkNewAddressCommand false None None 4 1)))) =
    Ok (NewAddressCommand (MkNewAddressCommand true None (Some (0, 0)) 4 1)).
Proof.
  assert (ReadCommand "newaddress" ["false"%string] =
    (Ok (NewAddressCommand (MkNewAddressCommand false None None 4 1)), ["false"%string])) as H
    by (vm_compute; reflexivity).
  split; [exact H|]. exact (BuildCommand_RPC _ _ _ _ H).
Defined.

Section typed_witness.
Import BmutilModel IdentityModel.

(** A user with one address. *)
#[local] Instance one_address : User unit := {
  NewAddress _ _ := fail ErrMissingPrivateID;
  ListAddresses := mret [MkPublicID (("abc", 1, Some (1000, 1000))%string : IdPublic) "mine"];
}.
Lemma BMAgentRequest_typed_witness :
  let mine := MkBitmessageIdentity (Some 1) (Some "BM-abc"%string) (Some "mine"%string) (Some 1) (Some 1000) (Some 1000) in
  let req := Some (Command_RPC ListAddressesCommand) in
  BMAgentRequest true req tt = (Ok (Some (new_reply (ListAddressesReply [mine]))), tt) ∧
  ∃ r, Some (new_reply (ListAddressesReply [mine])) = Some (MkBMRPCReply (Some 1) (Some r)) ∧ well_formed req r.
Proof.
  intros mine req.
  assert (BMAgentRequest true req tt = (Ok (Some (new_reply (ListAddressesReply [mine]))), tt)) as H by reflexivity.
  split; [exact H|]. exact (proj2 (BMAgentRequest_typed true req tt _ tt H)).
Defined.
End typed_witness.
