(* ===== verification/User.v ===== *)
(** * Users and the sending of messages ([user/user.go], [process.go],
      [serverops.go], [command.go], [imap.go], [smtp.go])

    A user has a set of mailboxes and a record of the acks that are awaited.
    A message to be sent goes through several stages: the public key of the
    recipient is found or asked for, an ack is made if one is expected, the
    message is encrypted, and proof of work is done on the ack and on the
    message.  What happens after a proof of work is a closure in the code and
    here a value ([pow_done]) that the queue keeps and [run_done] runs.

    What the user has pointers to, the key manager, the server and its queue,
    is behind an interface ([Host]); encryption and the objects of the
    network are third-party code ([Wire]).

    Proved: a message to a recipient whose key is not known waits in the
    outbox, marked; a command sent by e-mail is answered in the folder of
    commands; an ack moves its message from Limbo to Sent.  Not true of the
    code: the ack is recorded; the users that the program makes can send. *)

From S2P Require Import Prelude Bytes Text Bolt StoreEnv Bmutil FolderSpec Keys Float64 MessageSequence Email Codec Mailbox MailboxInv Commands.
From Stdlib Require Import Ascii.
Local Open Scope Z_scope.
Local Open Scope list_scope.

(** ** Parameters *)

(** [bmutil/cipher], [bmutil/wire], [bmutil/pow] and the arithmetic of
    times.  Encryption takes the number of a reading of randomness. *)
Class Wire `{!Env} `{!Bmutil} `{!Identity} `{!Publics} `{!Serialize} := {
  Hash : Type;
  Hash_eq_dec :: EqDecision Hash;
  Hash_countable :: Countable Hash;
  InventoryHash : Object → Hash;
  Object_Expiration : Object → Time;
  Time_Add : Time → Z → Time;               (** durations are in nanoseconds *)
  Time_Sub : Time → Time → Z;
  Seconds : Z → Z;                          (** [uint64(d.Seconds())] *)
  Target : Type;
  CalculateTarget : Z → Z → Z * Z → Target; (** length, seconds to live, difficulty *)
  Address_Stream : Address → Z;
  CreateTaglessBroadcast : nat → Time → IdPublic → option Encoding → IdPrivateID → res Object;
  CreateTaggedBroadcast : nat → Time → IdPublic → option Encoding → IdPrivateID → res Object;
  SignAndEncryptMessage : nat → Time → Z → IdPublic → string → option Encoding → option string →
    IdPrivateID → IdPublic → res Object;
  NewMsgObject : Time → Z → string → Object;  (** expiration, stream, payload *)
  Int31 : nat → Z;
  ObjectTypeMsg : Z;
  ObjectTypeBroadcast : Z;
  BehaviorAck : Z;
  DefaultStream : Z;
}.

(** What [GetOrRequestPublicID] returns: [user.Broadcast], the identity of
    a recipient, or [nil]. *)
Inductive Recipient `{Publics} := PBroadcast | PKnown (p : IdPublic) | PNil.
Definition Recipient_Behavior `{Publics} (to : Recipient) : res Z :=
  match to with PBroadcast => Ok 0 | PKnown p => Ok (pub_Behavior p) | PNil => Panic end.

(** The closures given to the proof of work.  A message in one is the
    pointer's target: nothing else holds it until the closure runs. *)
Inductive after `{Wire} :=
  | AckReady (bmsg : Bmail) (h : Hash)
  | Prepared (bmsg : Bmail) (object : Object).
(** With the encoded object, without its nonce. *)
Definition pow_done `{Wire} : Type := after * string.

(** The key manager ([keys.Manager]). *)
Class Keyring `{Identity} (K : Type) := {
  keys_Get : string → K → option PrivateID;
  keys_NewUnnamed : Z → Z → M K PrivateID;
  keys_Names : K → gmap string string;
}.

(** The key manager and the server, through the pointers of the user. *)
Class Host `{Wire} (H : Type) := {
  host_keys :: Keyring H;
  GetOrRequestPublicID : string → M H Recipient;
  Send : string → M H unit;
  pow_Run : Target → string → pow_done → M H unit;
  now : M H Time;
  random : M H nat;      (** the number of the next reading of randomness *)
}.

(** [data.Folders], and the clock of the machine.  A folder is a pointer,
    whose target is kept by name: [folders_Get] and [folders_New] give a copy
    of it, [folders_set] puts a changed one back. *)
Class FoldersOps `{Env} (F D : Type) := {
  folders_New : string → M D F;
  folders_Get : string → M D F;
  folders_Names : D → list string;
  folders_set : string → F → D → D;
  folders_now : M D Time;
}.

(** ** Names and texts ([defaults.go]) *)

Definition InboxFolderName : string := "Inbox".
Definition OutboxFolderName : string := "Outbox".
Definition LimboFolderName : string := "Limbo".
Definition SentFolderName : string := "Sent".
Definition TrashFolderName : string := "Trash".
Definition DraftsFolderName : string := "Drafts".
Definition CommandsFolderName : string := "Commands".

Definition welcomeMsg (keyList : string) : string :=
  (newline ++ "Welcome to bmagent and to the anonymous, encrypted world of Bitmessage! You are" ++ newline ++
   "using version 0.1 alpha." ++ newline ++ newline ++
   "You have the following addresses available: " ++ newline ++ newline ++
   keyList ++ newline ++ newline ++
   "To send a bitmessage, write an email with an address of the" ++ newline ++
   "form <destination bitmessage address>@bm.addr. For sending out a broadcast," ++ newline ++
   "shoot an e-mail to broadcast@bm.addr. Don't forget to add valid From addresses" ++ newline ++
   "in your e-mail client! From addresses are considered valid if bmagent holds" ++ newline ++
   "private keys for them. You can also send commands to bmagent via the address" ++ newline ++
   "<command>@bm.agent." ++ newline ++ newline ++
   "Have a bug to report? Care to help out? Please see our github repo:" ++ newline ++
   "https://github.com/DanielKrawisz/bmagent/")%string.

(** [binary.Write] of an [int32], little endian. *)
Definition le32 (n : Z) : string :=
  foldr (λ i s, String (byte_of_Z (Z.shiftr n (8 * i))) s) EmptyString [0; 1; 2; 3].

Section user.
Context {EV : Env} {BM : Bmutil} {ML : MailLibs} {SZ : Serialize} {IS : ImapSeq}.
Context {ID : Identity} {PB : Publics} {WR : Wire} {PT : ProtoText}.
Context {F : Type} {FO : Folder F} {H : Type} {HO : Host H}.

(** ** State *)

Record User := MkUser {
  username : string;
  boxes : gmap string (mailbox F);
  acks : gmap Hash Z;
  expiration : option (Z → Z);   (** can be [nil] *)
  pm : bool;                     (** the queue of the server, or [nil] *)
}.
Record Sys := MkSys { sys_user : User; sys_host : H }.

Definition set_boxes (bs : gmap string (mailbox F)) (u : User) : User :=
  MkUser (username u) bs (acks u) (expiration u) (pm u).
Definition set_acks (a : gmap Hash Z) (u : User) : User :=
  MkUser (username u) (boxes u) a (expiration u) (pm u).
Definition set_user (u : User) (s : Sys) : Sys := MkSys u (sys_host s).
Definition set_host (h : H) (s : Sys) : Sys := MkSys (sys_user s) h.

Definition sys_boxes (s : Sys) : gmap string (mailbox F) := boxes (sys_user s).
Definition put_box (name : string) (b : mailbox F) (s : Sys) : Sys :=
  set_user (set_boxes (<[name := b]> (sys_boxes s)) (sys_user s)) s.

Definition host {A} (m : M H A) : M Sys A := zoom sys_host set_host m.
(** A call on one of the mailboxes; a missing one is a [nil] pointer. *)
Definition on_box {A} (name : string) (m : M (mailbox F) A) : M Sys A := λ s,
  match sys_boxes s !! name with
  | None => (Panic, s)
  | Some b => let '(r, b) := m b in (r, put_box name b s)
  end.
(** The same with the message at hand, which is modified in place. *)
Definition on_box_msg {A} (name : string) (m : M (mailbox F * Bmail) A) : M (Sys * Bmail) A := λ '(s, bm),
  match sys_boxes s !! name with
  | None => (Panic, (s, bm))
  | Some b => let '(r, (b, bm)) := m (b, bm) in (r, (put_box name b s, bm))
  end.
Definition on_sys {A} (m : M Sys A) : M (Sys * Bmail) A := zoom fst (λ s x, (s, x.2)) m.
(** A new message of the caller's. *)
Definition with_msg {A} (bm : Bmail) (m : M (Sys * Bmail) A) : M Sys A := λ s,
  let '(r, (s, _)) := m (s, bm) in (r, s).

(** The clock is read when the mailbox is not [nil]. *)
Definition box_AddNew (name : string) (flags : Z) : M (Sys * Bmail) unit :=
  '(s, _) ← get;
  match sys_boxes s !! name with
  | None => panic
  | Some _ => t ← on_sys (host now); on_box_msg name (AddNew flags t)
  end.

(** ** Mailboxes *)

Definition NewMailbox (name : string) : res (mailbox F) := Err (ErrNew "Not yet implemented.").
Definition Mailboxes (u : User) : list (mailbox F) := (map_to_list (boxes u)).*2.
Definition MailboxByName (name : string) (u : User) : res (mailbox F) :=
  let name := if bool_decide (lower_name name = lower_name InboxFolderName) then InboxFolderName else name in
  match boxes u !! name with None => Err (ErrNew "Not found") | Some b => Ok b end.

Section folders.
Context {D : Type} {FD : FoldersOps F D} {K : Type} {KR : Keyring K}.

Fixpoint open_boxes (names : list string) (addrs : gmap string string)
    (bs : gmap string (mailbox F)) : M D (gmap string (mailbox F)) :=
  match names with
  | [] => mret bs
  | name :: names =>
      folder ← folders_Get name;
      mb ← lift (if bool_decide (name = DraftsFolderName) then newDrafts name (Some folder) addrs
                 else newMailbox name (Some folder) addrs);
      open_boxes names addrs (<[name := mb]> bs)
  end.

(** The arguments [expiration] and [pm] are not used. *)
Definition NewUser (username : string) (privateIds : K) (expiration : Z → Z) : M D User :=
  folders ← get;
  bs ← open_boxes (folders_Names folders) (keys_Names privateIds) ∅;
  mret (MkUser username bs ∅ None false).

(** *** The default mailboxes of a new user ([Initialize]) *)

Definition on_folders {A} (m : M D A) : M (D * K) A := zoom fst (λ d s, (d, s.2)) m.
Definition on_keys {A} (m : M K A) : M (D * K) A := zoom snd (λ k s, (s.1, k)) m.

(** The list of addresses: a missing one is not shown, and there are none
    yet when the list is fetched. *)
Definition key_line (x : string * string) : string :=
  (String "009" x.1 ++ "@bm.addr " ++ x.2 ++ newline)%string.
Definition key_list (tags : gmap string string) : string :=
  foldr (λ x s, key_line x ++ s)%string EmptyString (map_to_list tags).

(** The mailbox of the inbox points to its folder, which is looked up again
    when it is used. *)
Definition Initialize (genkeys : nat) : M (D * K) unit :=
  tags ← gets (λ s, keys_Names s.2);
  folder ← on_folders (folders_New InboxFolderName);
  inbox ← lift (newMailbox InboxFolderName (Some folder) tags);
  _ ← on_folders (folders_New OutboxFolderName);
  _ ← on_folders (folders_New SentFolderName);
  _ ← on_folders (folders_New LimboFolderName);
  _ ← on_folders (folders_New TrashFolderName);
  _ ← on_folders (folders_New CommandsFolderName);
  _ ← on_folders (folders_New DraftsFolderName);
  _ ← mfor (seq 0 genkeys) (λ _, _ ← on_keys (keys_NewUnnamed DefaultStream BehaviorAck); mret tt);
  t ← on_folders folders_now;
  folder ← on_folders (folders_Get InboxFolderName);
  let msg := MkBmail "welcome@bm.agent" (EmptyString ++ "@bm.addr") false Time_zero None
    (Some (Encoding2 "Welcome to bmagent!" (welcomeMsg (key_list tags)))) None None in
  let '(r, (b, _)) := AddNew FlagRecent t (set_mbox folder inbox, msg) in
  _ ← on_folders (modify (folders_set InboxFolderName (mbox b)));
  lift r.

(** What new keys keep. *)
Lemma Initialize_preserves (P : K → Prop) n :
  (∀ stream behavior, preserves P (keys_NewUnnamed stream behavior)) →
  preserves (λ s : D * K, P s.2) (Initialize n).
Proof.
  intros Hk. assert (∀ {A} (m : M D A), preserves (λ s : D * K, P s.2) (on_folders m)) as Hf.
  { intros A m. apply (preserves_keeps snd), keeps_zoom. done. }
  assert (∀ {A} (r : res A), preserves (λ s : D * K, P s.2) (lift r)) as Hl by (by intros A r s r' s' [= _ <-]).
  unfold Initialize.
  repeat first [apply Hf | apply Hl | apply preserves_bind; [|intros ?] | case_match].
  - by intros s r s' [= _ <-].
  - apply preserves_mfor. intros x. apply preserves_bind; [|by intros ? ? ? ? [= _ <-]].
    intros [d k] r s' He. unfold on_keys, zoom in He. destruct (keys_NewUnnamed _ _ _) as [r' k'] eqn:E.
    injection He as _ <-. exact (Hk _ _ _ _ _ E).
Qed.
End folders.

(** ** Objects ([serverops.go]) *)

Definition expiry (t : Z) : M Sys Z :=
  s ← get;
  f ← lift (deref (expiration (sys_user s)));
  mret (f t).
(** [time.Now().Add(expiry)] *)
Definition expires (e : Z) : M Sys Time := t ← host now; mret (Time_Add t e).

Definition generateBroadcast (content : option Encoding) (from : IdPrivateID) (e : Z) : M Sys Object :=
  let version := Address_Version (id_Address from) in
  if (version =? 2) || (version =? 3) then
    t ← expires e; n ← host random; lift (CreateTaglessBroadcast n t (id_Public from) content from)
  else if version =? 4 then
    t ← expires e; n ← host random; lift (CreateTaggedBroadcast n t (id_Public from) content from)
  else fail (ErrNew "Unknown from address version").

Definition generateMessage (content : option Encoding) (ack : option string) (from : IdPrivateID)
    (to : Recipient) (e : Z) : M Sys Object :=
  match to with
  | PKnown to =>
      t ← expires e; n ← host random;
      lift (SignAndEncryptMessage n t (Address_Stream (id_Address from)) (id_Public from)
        (RipeHash (pub_Address to)) content ack from to)
  | _ => panic
  end.

(** [box.getObject(m)], where [box] can be [nil]. *)
Definition box_getObject (m : Bmail) (b : option (mailbox F)) : res (option Object) :=
  match Bmail_ImapData m with
  | None => Ok None
  | Some d => if UID d =? 0 then Ok None else b ← deref b; Ok (getObject m b)
  end.

Definition modify_state (f : MessageState → MessageState) : M (Sys * Bmail) unit :=
  '(s, m) ← get;
  st ← lift (deref (State m));
  put (s, set_State (Some (f st)) m).
Definition set_requested (st : MessageState) : MessageState :=
  MkMessageState true (SendTries st) (LastSend st) (AckExpected st) (AckReceived st) (Received st).
Definition set_AckExpected (b : bool) (st : MessageState) : MessageState :=
  MkMessageState (PubkeyRequestOutstanding st) (SendTries st) (LastSend st) b (AckReceived st) (Received st).
Definition set_sent (t : Time) (st : MessageState) : MessageState :=
  MkMessageState (PubkeyRequestOutstanding st) (u32 (SendTries st + 1)) t (AckExpected st) (AckReceived st)
    (Received st).
Definition set_AckReceived (st : MessageState) : MessageState :=
  MkMessageState (PubkeyRequestOutstanding st) (SendTries st) (LastSend st) (AckExpected st) true (Received st).
Definition set_OfChannel (b : bool) (m : Bmail) : Bmail :=
  MkBmail (From m) (To m) b (Expiration m) (Ack m) (Bmail_Content m) (Bmail_ImapData m) (State m).
Definition set_Ack (a : option string) (m : Bmail) : Bmail :=
  MkBmail (From m) (To m) (OfChannel m) (Expiration m) a (Bmail_Content m) (Bmail_ImapData m) (State m).

(** Whether an ack is expected, from the keys at hand and the recipient. *)
Definition decide_ack (to : Recipient) : M (Sys * Bmail) unit :=
  '(s, m) ← get;
  match keys_Get (To m) (sys_host s) with
  | Some id => _ ← put (s, set_OfChannel (IsChan id) m); modify_state (set_AckExpected false)
  | None =>
      b ← lift (Recipient_Behavior to);
      if Z.land b BehaviorAck =? BehaviorAck then modify_state (set_AckExpected true) else mret tt
  end.

(** The object for a recipient that is known. *)
Definition object_for (fromID : IdPrivateID) (to : Recipient) : M (Sys * Bmail) Object :=
  match to with
  | PBroadcast =>
      '(_, m) ← get;
      e ← on_sys (expiry ObjectTypeBroadcast);
      on_sys (generateBroadcast (Bmail_Content m) fromID e)
  | to =>
      _ ← decide_ack to;
      '(_, m) ← get;
      missing ← (match Ack m with
                 | None => st ← lift (deref (State m)); mret (AckExpected st)
                 | Some _ => mret false
                 end);
      if (missing : bool) then fail ErrAckMissing
      else
        e ← on_sys (expiry ObjectTypeMsg);
        on_sys (generateMessage (Bmail_Content m) (Ack m) fromID to e)
  end.

(** The object, and the difficulty in the data of the sender. *)
Definition generateObject : M (Sys * Bmail) (Object * option (Z * Z)) :=
  '(s, m) ← get;
  fromAddr ← lift (ToBm (From m));
  match keys_Get fromAddr (sys_host s) with
  | None => fail ErrMissingPrivateID
  | Some from =>
      fromID ← lift (deref (Private from));
      o ← lift (box_getObject m (sys_boxes s !! OutboxFolderName));
      match o with
      | Some o => mret (o, id_Pow fromID)
      | None =>
          to ← try (on_sys (host (GetOrRequestPublicID (To m))));
          match to with
          | inr err =>
              _ ← (if bool_decide (err = ErrGetPubKeySent) then modify_state set_requested else mret tt);
              fail err
          | inl to => o ← object_for fromID to; mret (o, id_Pow fromID)
          end
      end
  end.

Definition generateAck : M (Sys * Bmail) (Object * option (Z * Z)) :=
  '(s, m) ← get;
  if bool_decide (To m = "broadcast@bm.agent"%string) then fail (ErrNew "No acks on broadcast messages.")
  else
    fromAddr ← lift (ToBm (From m));
    from ← lift (deref (keys_Get fromAddr (sys_host s)));
    fromID ← lift (deref (Private from));
    n ← on_sys (host random);
    t ← on_sys (host now);
    e ← on_sys (expiry ObjectTypeMsg);
    mret (NewMsgObject (Time_Add t e) (Address_Stream (id_Address fromID)) (le32 (Int31 n)), id_Pow fromID).

(** ** Sending ([process.go]) *)

(** The number of 8 bytes before an encoded object is its nonce. *)
Definition sendPow (object : Object) (powData : option (Z * Z)) (next : after) : M Sys unit :=
  q ← lift (slice_from 8 (wire_Encode object));
  t ← host now;
  d ← lift (deref powData);
  let target := CalculateTarget (Z.of_nat (String.length q))
    (Seconds (Time_Sub (Object_Expiration object) t)) d in
  s ← get;
  if negb (pm (sys_user s)) then panic else host (pow_Run target q (next, q)).

Definition sendPreparedMessage (object : Object) (powData : option (Z * Z)) : M (Sys * Bmail) unit :=
  _ ← on_box_msg OutboxFolderName saveBitmessage;
  '(_, bmsg) ← get;
  on_sys (sendPow object powData (Prepared bmsg object)).

Definition process : M (Sys * Bmail) unit :=
  r ← try generateObject;
  match r with
  | inl (object, data) => sendPreparedMessage object data
  | inr err =>
      if bool_decide (err = ErrGetPubKeySent) then on_box_msg OutboxFolderName saveBitmessage
      else if bool_decide (err = ErrAckMissing) then
        '(ack, powData) ← generateAck;
        let h := InventoryHash ack in
        '(s, bmsg) ← get;
        d ← lift (deref (Bmail_ImapData bmsg));
        _ ← on_sys (modify (λ s, set_user (set_acks (<[h := UID d]> (acks (sys_user s))) (sys_user s)) s));
        on_sys (sendPow ack powData (AckReady bmsg h))
      else fail err
  end.

(** ** Mail ([user.go]) *)

(** The message is read again from its mailbox, deleted and added. *)
Definition Move (bmsg : Bmail) (from to : string) : M Sys unit :=
  d ← lift (deref (Bmail_ImapData bmsg));
  b ← on_box from (bmsgByUID (UID d));
  match b with
  | None => mret tt
  | Some b =>
      _ ← on_box from (DeleteBitmessageByUID (UID d));
      with_msg (set_ImapData None b) (box_AddNew to FlagSeen)
  end.

(** What the closures do; their errors are logged. *)
Definition after_pow (completed : string) (k : after) : M Sys unit :=
  match k with
  | AckReady bmsg h =>
      with_msg (set_Ack (Some completed) bmsg)
        ('(object, objData) ← generateObject; sendPreparedMessage object objData)
  | Prepared bmsg object =>
      with_msg bmsg
        (_ ← on_box_msg OutboxFolderName saveBitmessage;
         _ ← on_sys (host (Send completed));
         '(_, m) ← get;
         st ← lift (deref (State m));
         let newBoxName := if AckExpected st then LimboFolderName else SentFolderName in
         t ← on_sys (host now);
         _ ← modify_state (set_sent t);
         '(_, m) ← get;
         on_sys (Move m OutboxFolderName newBoxName))
  end.
(** [nonce]: the 8 bytes of the nonce. *)
Definition run_done (nonce : string) (d : pow_done) : M Sys unit :=
  _ ← try (after_pow (nonce ++ d.2) d.1); mret tt.

Definition DeliverFromBMNet (bm : Bmail) : M Sys unit := with_msg bm (box_AddNew InboxFolderName FlagRecent).

(** The callback of [DeliverPublic]: the matches so far. *)
Definition match_public (bmaddr : string) (id suffix : Z) (msg : string) : M (list Bmail) unit :=
  '(bmsg, _) ← lift (decodeBitmessage msg);
  st ← lift (deref (State bmsg));
  if PubkeyRequestOutstanding st && Contains (To bmsg) bmaddr
  then modify (λ l, l ++ [bmsg]) else mret tt.

Definition DeliverPublic (bmaddr : string) : M Sys unit :=
  if negb (BitmessageRegex bmaddr) then fail (ErrNew "Bitmessage address required.")
  else
    s ← get;
    outbox ← lift (deref (sys_boxes s !! OutboxFolderName));
    let '(r, bms) := ForEachMessage 0 0 2 (match_public bmaddr) (mbox outbox) [] in
    _ ← lift r;
    mfor bms (λ bm, with_msg bm process).

Definition DeliverAckReply (hash : Hash) : M Sys unit :=
  s ← get;
  match acks (sys_user s) !! hash with
  | None => fail ErrUnrecognizedAck
  | Some uid =>
      bmsg ← on_box LimboFolderName (bmsgByUID uid);
      match bmsg with
      | None => fail ErrNoMessageFound
      | Some bmsg =>
          st ← lift (deref (State bmsg));
          if negb (AckExpected st) then fail ErrNoAckExpected
          else Move (set_State (Some (set_AckReceived st)) bmsg) LimboFolderName SentFolderName
      end
  end.

(** ** Commands ([command.go]) *)

Definition PrivateIDToPublicID (pi : PrivateID) : res PublicID :=
  p ← deref (Private pi); Ok (MkPublicID (id_Public p) (id_Name pi)).

Definition user_NewAddress (tag : string) (sendAck : bool) : M Sys PublicID :=
  pi ← host (keys_NewUnnamed DefaultStream (if sendAck then BehaviorAck else 0));
  lift (PrivateIDToPublicID pi).

Fixpoint public_ids (addrs : list string) (h : H) : res (list PublicID) :=
  match addrs with
  | [] => Ok []
  | addr :: addrs =>
      pi ← deref (keys_Get addr h);
      p ← PrivateIDToPublicID pi;
      l ← public_ids addrs h;
      Ok (p :: l)
  end.
Definition user_ListAddresses : M Sys (list PublicID) :=
  s ← get;
  lift (public_ids (map_to_list (keys_Names (sys_host s))).*1 (sys_host s)).

#[export] Instance user_commands : Commands.User Sys := {
  NewAddress := user_NewAddress;
  ListAddresses := user_ListAddresses;
}.

Definition executeCommand (from name params : string) : M Sys unit :=
  bm ← EmailCommand from "command@bm.agent" name (Fields params);
  with_msg bm (box_AddNew CommandsFolderName FlagRecent).

Definition DeliverFromSMTP (smtp : Content) : M Sys unit :=
  bmsg ← lift (NewBitmessageFromSMTP smtp);
  if CommandRegex (To bmsg) then
    name ← lift (first_value (default [] (Headers smtp !! "Subject"%string)));
    executeCommand (From bmsg) name (Body smtp)
  else
    with_msg bmsg
      (r ← try (box_AddNew OutboxFolderName FlagSeen);
       match r with inr _ => mret tt | inl _ => process end).

(** ** The e-mail servers ([imap.go], [smtp.go]) *)

(** [BitmessageStore.Authenticate] with the credentials of the
    configuration: the user of the store. *)
Definition Authenticate (cfgUser cfgPass username password : string) (u : User) : res User :=
  if negb (bool_decide (username = cfgUser)) || negb (bool_decide (password = cfgPass))
  then Err (ErrNew "Invalid credentials") else Ok u.

Inductive Reply := ReplyAuthOk | ReplyInvalidAuth | ReplyUnsupportedAuth | ReplyError (e : error).

Definition validateAuth (base64_Decode : string → res string) (cfgUser cfgPass mechanism : string)
    (args : list string) : res (Reply * bool) :=
  if negb (bool_decide (mechanism = "PLAIN"%string)) then Ok (ReplyUnsupportedAuth, false)
  else
    arg ← first_value args;
    match base64_Decode arg with
    | Ok b =>
        match Split 0 b with
        | [_; user; pass] =>
            if negb (bool_decide (user = cfgUser)) || negb (bool_decide (pass = cfgPass))
            then Ok (ReplyInvalidAuth, false) else Ok (ReplyAuthOk, true)
        | _ => Ok (ReplyInvalidAuth, false)
        end
    | Err _ => Ok (ReplyError (ErrNew "Invalid BASE64 encoding"), false)
    | Panic => Panic
    | Hang => Hang
    end.

Definition validateSender (from : string) (s : Sys) : res bool :=
  match (addr ← mail_ParseAddress from; ToBm addr) with
  | Ok bmAddr => Ok (bool_decide (is_Some (keys_Get bmAddr (sys_host s))))
  | Err _ => Ok false
  | Panic => Panic
  | Hang => Hang
  end.

(** The message is parsed by the SMTP library. *)
Definition messageReceived (id : string) (content : Content) : M Sys string :=
  _ ← DeliverFromSMTP content; mret id.
End user.

(** ** Lemmas *)

Section laws.
Context {EV : Env} {BM : Bmutil} {ML : MailLibs} {SZ : Serialize} {IS : ImapSeq}.
Context {ID : Identity} {PB : Publics} {WR : Wire} {PT : ProtoText}.
Context {F : Type} {FO : Folder F} {H : Type} {HO : Host H}.
Context {LL : MailLaws} {EL : EnvLaws} {SL : SerializeLaws}.
Context (rep : F → fstate → Prop) {FR : FolderRefines F rep} {FI : FolderIterates F rep}.
Implicit Types (s : Sys (F := F) (H := H)) (b : mailbox F) (m : Bmail) (a : fstate).

Lemma on_box_run {A} name (f : M (mailbox F) A) s b r b' :
  sys_boxes s !! name = Some b → f b = (r, b') → on_box name f s = (r, put_box name b' s).
Proof. intros Hb Hf. unfold on_box. by rewrite Hb, Hf. Qed.
Lemma on_box_msg_run {A} name (f : M (mailbox F * Bmail) A) s m b r b' m' :
  sys_boxes s !! name = Some b → f (b, m) = (r, (b', m')) →
  on_box_msg name f (s, m) = (r, (put_box name b' s, m')).
Proof. intros Hb Hf. unfold on_box_msg. by rewrite Hb, Hf. Qed.

Lemma sys_boxes_put name b s : sys_boxes (put_box name b s) = <[name := b]> (sys_boxes s).
Proof. done. Qed.
Lemma put_box_twice name b b' s : put_box name b (put_box name b' s) = put_box name b s.
Proof.
  destruct s as [[n bs ac ex p] h]. unfold put_box, set_user, set_boxes, sys_boxes. cbn.
  by rewrite insert_insert_eq.
Qed.
Lemma put_box_same name b s : sys_boxes s !! name = Some b → put_box name b s = s.
Proof.
  destruct s as [[n bs ac ex p] h]. unfold put_box, set_user, set_boxes, sys_boxes. cbn. intros Hb.
  by rewrite insert_id.
Qed.

(** A message that can be stored and read again, wherever it is filed. *)
Definition storable (m : Bmail) : Prop := ∃ d data, saveable m d data.

Lemma storable_UID uid m d data : saveable m d data →
  saveable (set_UID uid m) (set_position uid (SequenceNumber d) d) data.
Proof.
  intros [Hs Hf Hd Hc Hp]. unfold set_UID. rewrite Hd. cbn [fmap option_fmap option_map].
  split; [|unfold flags_ok in *; by rewrite Hd in Hf|done|done|done].
  unfold serializeBitmessage in *. cbn [set_ImapData Bmail_Content From To OfChannel Expiration Ack Bmail_ImapData State].
  rewrite <-Hs, Hd. done.
Qed.

Lemma stored_UID uid m : stored (set_UID uid m) = stored m.
Proof. destruct m as [? ? ? ? ? ? [[]|] ?]; done. Qed.

Lemma addNew_ok b a m flags t :
  box_inv rep b a → room 1 (abs a) → storable (prepared b flags t m) →
  ∃ b' a', AddNew flags t (b, m) = (Ok tt, (b', set_UID (fs_next a) (prepared b flags t m))) ∧
    box_inv rep b' a' ∧ abs a' = AMail (fs_next a + 1) (visible a ++ [(fs_next a, stored (prepared b flags t m))]).
Proof.
  intros Hi [Hr1 Hr2] (d & data & Hsv). cbn in Hr1, Hr2.
  assert (UID d = 0) as Hz by (pose proof (sv_imap _ _ _ Hsv) as E; by injection E as <-).
  destruct (saveBitmessage_new rep b a _ d data Hi Hsv Hz) as (b' & a' & He & Hi' & Hn & Hv); [lia..|].
  exists b', a'. split; [|split; [done|unfold abs; by rewrite Hn, Hv]].
  unfold AddNew, addNew. run_step ltac:(reflexivity). cbv beta iota zeta. run_step ltac:(reflexivity).
  run_step ltac:(unfold try; fold (prepared b flags t m); rewrite He; reflexivity). done.
Qed.

Lemma box_AddNew_ok name s b a m flags t h :
  sys_boxes s !! name = Some b → box_inv rep b a → room 1 (abs a) → now (sys_host s) = (Ok t, h) →
  storable (prepared b flags t m) →
  ∃ b' a', box_AddNew name flags (s, m) =
      (Ok tt, (put_box name b' (set_host h s), set_UID (fs_next a) (prepared b flags t m))) ∧
    box_inv rep b' a' ∧ abs a' = AMail (fs_next a + 1) (visible a ++ [(fs_next a, stored (prepared b flags t m))]).
Proof.
  intros Hb Hi Hr Ht Hs. destruct (addNew_ok b a m flags t Hi Hr Hs) as (b' & a' & He & Hi' & Ha).
  exists b', a'. split; [|done]. unfold box_AddNew. run_step ltac:(reflexivity). cbv beta iota. rewrite Hb.
  run_step ltac:(unfold on_sys, host, zoom; cbn [fst]; rewrite Ht; reflexivity).
  by apply (on_box_msg_run _ _ _ _ b).
Qed.

(** Filing a message of the caller's. *)
Lemma with_AddNew_ok name s b a m flags t h :
  sys_boxes s !! name = Some b → box_inv rep b a → room 1 (abs a) → now (sys_host s) = (Ok t, h) →
  storable (prepared b flags t m) →
  ∃ b' a', with_msg m (box_AddNew name flags) s = (Ok tt, put_box name b' (set_host h s)) ∧
    box_inv rep b' a' ∧ abs a' = AMail (fs_next a + 1) (visible a ++ [(fs_next a, stored (prepared b flags t m))]).
Proof.
  intros Hb Hi Hr Ht Hs. destruct (box_AddNew_ok name s b a m flags t h) as (b' & a' & He & Hi' & Ha); [done..|].
  exists b', a'. split; [|done]. unfold with_msg. by rewrite He.
Qed.

Lemma NewBitmessageFromSMTP_new smtp m : NewBitmessageFromSMTP smtp = Ok m →
  State m = Some new_MessageState ∧ Ack m = None ∧ Bmail_ImapData m = None.
Proof.
  unfold NewBitmessageFromSMTP. munfold. intros Hm.
  repeat mcase_in Hm; try done; by injection Hm as <-.
Qed.

(** The message as it waits in the outbox. *)
Definition waiting b t m : Bmail :=
  set_State (Some (set_requested new_MessageState)) (prepared b FlagSeen t m).

Lemma generateObject_waits s m addr from p h st :
  ToBm (From m) = Ok addr → keys_Get addr (sys_host s) = Some from → Private from = Some p →
  box_getObject m (sys_boxes s !! OutboxFolderName) = Ok None →
  GetOrRequestPublicID (To m) (sys_host s) = (Err ErrGetPubKeySent, h) → State m = Some st →
  generateObject (s, m) = (Err ErrGetPubKeySent, (set_host h s, set_State (Some (set_requested st)) m)).
Proof.
  intros Ha Hk Hp Ho Hg Hst. unfold generateObject. run_step ltac:(reflexivity). cbv beta iota.
  run_step ltac:(unfold lift; rewrite Ha; reflexivity). rewrite Hk.
  run_step ltac:(unfold lift; rewrite Hp; reflexivity). run_step ltac:(unfold lift; rewrite Ho; reflexivity).
  cbv beta iota.
  run_step ltac:(unfold try, on_sys, host, zoom; cbn [fst]; rewrite Hg; reflexivity). cbv beta iota.
  rewrite bool_decide_eq_true_2 by done. unfold modify_state. munfold. cbn [snd].
  by rewrite Hst.
Qed.

Lemma replace_last (id : Z) m m' l : (∀ x, x ∈ l → x.1 ≠ id) →
  replace_uid id m' (l ++ [(id, m)]) = l ++ [(id, m')].
Proof.
  intros Hl. unfold replace_uid. rewrite fmap_app. cbn [fmap list_fmap fst]. rewrite decide_True by done.
  f_equal. rewrite <-(list_fmap_id l) at 2. apply list_fmap_ext. intros i x Hx%list_elem_of_lookup_2.
  rewrite decide_False; [done|by apply Hl].
Qed.

Lemma visible_below a x : fwf a → x ∈ visible a → x.1 < fs_next a.
Proof.
  intros Hwf Hx. destruct x as [i m]. apply elem_of_visible in Hx as (data & o & Hm & _); [|done].
  apply (proj2 Hwf) in Hm. cbn. lia.
Qed.

(** Saving again the message that was filed last. *)
Lemma save_last b a next l m0 m d data :
  box_inv rep b a → abs a = AMail (next + 1) (l ++ [(next, m0)]) → 0 ≤ next → (∀ x, x ∈ l → x.1 < next) →
  saveable m d data → UID d = next →
  ∃ b' a', saveBitmessage (b, m) = (Ok tt, (b', m)) ∧ box_inv rep b' a' ∧
    abs a' = AMail (next + 1) (l ++ [(next, stored m)]).
Proof.
  intros Hi Ha Hpos Hl Hsv <-. injection Ha as Hn Hv.
  assert (find_uid (UID d) a = Some (Z.of_nat (length l) + 1, m0)) as Hf.
  { apply find_uid_Some. split; [lia|]. rewrite Hv, lookup_app_r by lia.
    replace (Z.to_nat (Z.of_nat (length l) + 1 - 1) - length l)%nat with 0%nat by lia. done. }
  destruct (saveBitmessage_replace rep b a m d data _ _ Hi Hsv Hf) as (b' & a' & He & Hi' & Hn' & Hv').
  exists b', a'. split; [done|]. split; [done|]. unfold abs. rewrite Hn', Hn, Hv', Hv.
  f_equal. apply replace_last. intros x Hx. specialize (Hl x Hx). lia.
Qed.

(** C13: an e-mail to a recipient whose public key is not known is accepted:
    it waits in the outbox, once, under the next UID, marked as seen and as
    waiting for a key; nothing else of the user changes. *)
Theorem DeliverFromSMTP_waits s b a smtp m addr from p t h1 h2 :
  NewBitmessageFromSMTP smtp = Ok m → CommandRegex (To m) = false →
  sys_boxes s !! OutboxFolderName = Some b → box_inv rep b a → room 1 (abs a) →
  now (sys_host s) = (Ok t, h1) →
  ToBm (From m) = Ok addr → keys_Get addr h1 = Some from → Private from = Some p →
  GetOrRequestPublicID (To m) h1 = (Err ErrGetPubKeySent, h2) →
  storable (prepared b FlagSeen t m) → storable (waiting b t m) →
  ∃ b' a', DeliverFromSMTP smtp s = (Ok tt, put_box OutboxFolderName b' (set_host h2 s)) ∧
    box_inv rep b' a' ∧ abs a' = AMail (fs_next a + 1) (visible a ++ [(fs_next a, stored (waiting b t m))]).
Proof.
  intros Hm Hc Hb Hi Hr Ht Ha Hk Hp Hg Hs1 (d2 & data2 & Hs2).
  destruct (NewBitmessageFromSMTP_new _ _ Hm) as (Hst & _ & _).
  destruct (box_AddNew_ok OutboxFolderName s b a m FlagSeen t h1) as (b1 & a1 & He1 & Hi1 & Ha1); [done..|].
  pose proof (inv_wf _ _ _ Hi) as Hwf.
  apply (storable_UID (fs_next a) _ _ _) in Hs2.
  edestruct (save_last b1 a1 (fs_next a)) as (b2 & a2 & He2 & Hi2 & Ha2);
    [exact Hi1|exact Ha1|destruct Hwf; lia|intros x; by apply visible_below|exact Hs2|done|].
  exists b2, a2. split; [|split; [done|by rewrite Ha2, stored_UID]].
  unfold DeliverFromSMTP. run_step ltac:(unfold lift; rewrite Hm; reflexivity). rewrite Hc.
  set (m1 := set_UID (fs_next a) (prepared b FlagSeen t m)) in *.
  set (s1 := put_box OutboxFolderName b1 (set_host h1 s)) in *.
  assert (generateObject (s1, m1) = (Err ErrGetPubKeySent, (set_host h2 s1, set_UID (fs_next a) (waiting b t m)))) as Hgen.
  { assert (m1 = set_ImapData (Some (MkImapData (fs_next a) (u32 (messages b + 1)) FlagSeen t)) m) as Hm1
      by (unfold m1, prepared; by rewrite Hst).
    replace (set_UID (fs_next a) (waiting b t m)) with (set_State (Some (set_requested new_MessageState)) m1) by done.
    rewrite Hm1. apply (generateObject_waits s1 _ addr from p h2 new_MessageState); try done.
    unfold box_getObject, s1. rewrite sys_boxes_put, lookup_insert_eq. cbn.
    destruct (fs_next a =? 0); [done|]. unfold getObject. cbn. by rewrite (inv_objects _ _ _ Hi1). }
  unfold with_msg. rewrite (bind_Ok _ _ _ _ _ (try_Ok _ _ _ _ He1)). cbv beta iota.
  unfold process. rewrite (bind_Ok _ _ _ _ _ (try_Err _ _ _ _ Hgen)). cbv beta iota.
  rewrite bool_decide_eq_true_2 by done.
  erewrite on_box_msg_run; [|by cbn; rewrite lookup_insert_eq|exact He2].
  cbv beta iota. f_equal. exact (put_box_twice OutboxFolderName b2 b1 (set_host h2 s)).
Qed.

(** ** Moving messages *)

Lemma prepared_imap b flags t i m : prepared b flags t (set_ImapData i m) = prepared b flags t m.
Proof. unfold prepared. cbn. by destruct (State m). Qed.

Lemma Move_ok bm d from to s b1 a1 b2 a2 n m t h :
  Bmail_ImapData bm = Some d → is_u64 (UID d) → from ≠ to →
  sys_boxes s !! from = Some b1 → box_inv rep b1 a1 → find_uid (UID d) a1 = Some (n, m) →
  sys_boxes s !! to = Some b2 → box_inv rep b2 a2 → room 1 (abs a2) →
  now (sys_host s) = (Ok t, h) → storable (prepared b2 FlagSeen t m) →
  ∃ b1' a1' b2' a2', Move bm from to s = (Ok tt, put_box to b2' (put_box from b1' (set_host h s))) ∧
    box_inv rep b1' a1' ∧ abs a1' = AMail (fs_next a1) (filter (λ x, x.1 ≠ UID d) (visible a1)) ∧
    box_inv rep b2' a2' ∧
    abs a2' = AMail (fs_next a2 + 1) (visible a2 ++ [(fs_next a2, stored (prepared b2 FlagSeen t m))]).
Proof.
  intros Hd Hu Hne Hb1 Hi1 Hf Hb2 Hi2 Hr Ht Hs.
  destruct (DeleteBitmessageByUID_eq rep b1 a1 (UID d) Hi1 Hu) as (b1' & Hdel & Hi1' & _).
  rewrite Hf in Hi1'.
  destruct (with_AddNew_ok to (put_box from b1' s) b2 a2 (set_ImapData None (positioned (UID d) n m)) FlagSeen t h)
    as (b2' & a2' & He & Hi2' & Ha2'); [by rewrite sys_boxes_put, lookup_insert_ne|done..| |].
  { unfold positioned. by rewrite !prepared_imap. }
  exists b1', (without (UID d) a1), b2', a2'.
  split; [|split; [done|split; [by rewrite <-visible_without by apply (inv_wf _ _ _ Hi1)|split; [done|]]]].
  2:{ rewrite Ha2'. unfold positioned. by rewrite !prepared_imap. }
  unfold Move. run_step ltac:(unfold lift; rewrite Hd; reflexivity).
  run_step ltac:(apply (on_box_run _ _ _ b1); [done|by apply (bmsgByUID_eq rep b1 a1)]).
  rewrite Hf, (put_box_same _ _ _ Hb1). cbn [fmap option_fmap option_map fst snd].
  run_step ltac:(apply (on_box_run _ _ _ b1); done). exact He.
Qed.

Lemma find_uid_state uid n m : State (positioned uid n m) = State m.
Proof. done. Qed.

(** C14: an ack that is awaited moves its message from Limbo to Sent, under
    the next UID there and marked as seen, as it is stored in Limbo: that
    the ack was received is not recorded, and the ack is still awaited. *)
Theorem DeliverAckReply_moves hash uid s b1 a1 b2 a2 n m st t h :
  acks (sys_user s) !! hash = Some uid → is_u64 uid →
  sys_boxes s !! LimboFolderName = Some b1 → box_inv rep b1 a1 → find_uid uid a1 = Some (n, m) →
  State m = Some st → AckExpected st = true →
  sys_boxes s !! SentFolderName = Some b2 → box_inv rep b2 a2 → room 1 (abs a2) →
  now (sys_host s) = (Ok t, h) → storable (prepared b2 FlagSeen t m) →
  ∃ b1' a1' b2' a2',
    DeliverAckReply hash s = (Ok tt, put_box SentFolderName b2' (put_box LimboFolderName b1' (set_host h s))) ∧
    box_inv rep b1' a1' ∧ abs a1' = AMail (fs_next a1) (filter (λ x, x.1 ≠ uid) (visible a1)) ∧
    box_inv rep b2' a2' ∧ ∃ m',
      abs a2' = AMail (fs_next a2 + 1) (visible a2 ++ [(fs_next a2, m')]) ∧
      From m' = From m ∧ To m' = To m ∧ Bmail_Content m' = Bmail_Content m ∧
      State m' = Some (stored_state st).
Proof.
  intros Hack Hu Hb1 Hi1 Hf Hst Hexp Hb2 Hi2 Hr Ht Hs.
  pose proof Hf as Hv. apply find_uid_Some in Hv as [Hn Hv%list_elem_of_lookup_2].
  destruct (visible_imap a1 (uid, m)) as [d Hd]; [by eapply inv_wf|apply Hi1|done|]. cbn in Hd.
  set (bm := set_State (Some (set_AckReceived st)) (positioned uid n m)).
  assert (Bmail_ImapData bm = Some (set_position uid n d)) as Hbm
    by (subst bm; unfold positioned; cbn; by rewrite Hd).
  destruct (Move_ok bm _ LimboFolderName SentFolderName s b1 a1 b2 a2 n m t h Hbm)
    as (b1' & a1' & b2' & a2' & He & Hi1' & Ha1' & Hi2' & Ha2'); [done..|].
  exists b1', a1', b2', a2'. split; [|split; [done|split; [done|split; [done|]]]].
  - unfold DeliverAckReply. run_step ltac:(reflexivity). rewrite Hack.
    run_step ltac:(apply (on_box_run _ _ _ b1); [done|by apply (bmsgByUID_eq rep b1 a1)]).
    rewrite Hf, (put_box_same _ _ _ Hb1). cbn [fmap option_fmap option_map fst snd].
    run_step ltac:(unfold lift; rewrite find_uid_state, Hst; reflexivity). rewrite Hexp. exact He.
  - eexists. split; [exact Ha2'|]. unfold prepared. rewrite Hst. unfold stored. cbn. by rewrite Hst.
Qed.

(** ** Users made by [NewUser] *)

(** The clock and the source of randomness answer. *)
Class HostLaws : Prop := {
  now_ok (h : H) : ∃ t h', now h = (Ok t, h');
  random_ok (h : H) : ∃ n h', random h = (Ok n, h');
}.

Lemma host_Ok {A} (f : M H A) s r h : f (sys_host s) = (r, h) → host f s = (r, set_host h s).
Proof. intros Hf. unfold host, zoom. by rewrite Hf. Qed.
Lemma on_sys_run {A} (f : M Sys A) s m r s' : f s = (r, s') → on_sys f (s, m) = (r, (s', m)).
Proof. intros Hf. unfold on_sys, zoom. cbn. by rewrite Hf. Qed.
Lemma bind_Panic {S A B} (f : M S A) (k : A → M S B) x x' : f x = (Panic, x') → bind f k x = (Panic, x').
Proof. intros Hf. munfold. by rewrite Hf. Qed.
Lemma try_Panic {S A} (f : M S A) x x' : f x = (Panic, x') → try f x = (Panic, x').
Proof. intros Hf. unfold try. by rewrite Hf. Qed.

Lemma expiry_nil t s : expiration (sys_user s) = None → expiry t s = (Panic, s).
Proof. intros He. unfold expiry. munfold. by rewrite He. Qed.
Lemma on_expiry_nil t s m : expiration (sys_user s) = None → on_sys (expiry t) (s, m) = (Panic, (s, m)).
Proof. intros He. apply on_sys_run. by apply expiry_nil. Qed.

Definition panics {S A} (f : M S A) (x : S) : Prop := ∃ x', f x = (Panic, x').

(** Deciding on the ack changes the message only, or panics. *)
Lemma decide_ack_cases to s m st : State m = Some st →
  panics (decide_ack to) (s, m) ∨
  ∃ m' st', decide_ack to (s, m) = (Ok tt, (s, m')) ∧ State m' = Some st' ∧ To m' = To m ∧ From m' = From m ∧
    Bmail_ImapData m' = Bmail_ImapData m.
Proof.
  intros Hst. unfold decide_ack, modify_state, panics. munfold. cbn [snd].
  destruct (keys_Get (To m) (sys_host s)) as [id|].
  - right. cbn. rewrite Hst. cbn. by do 2 eexists.
  - destruct (Recipient_Behavior to) as [b|e| |] eqn:Hb; [|by destruct to..|left; by eexists|by destruct to].
    cbn. destruct (Z.land b BehaviorAck =? BehaviorAck); right; cbn; rewrite ?Hst; by do 2 eexists.
Qed.

Context {HL : HostLaws}.

Lemma generateAck_nil s m : expiration (sys_user s) = None → To m ≠ "broadcast@bm.agent"%string →
  (∃ addr, ToBm (From m) = Ok addr) → panics generateAck (s, m).
Proof.
  intros He Hto [addr Ha]. unfold generateAck, panics.
  destruct (keys_Get addr (sys_host s)) as [from|] eqn:Hk.
  2:{ eexists. run_step ltac:(reflexivity). cbv beta iota. rewrite bool_decide_eq_false_2 by done.
      run_step ltac:(unfold lift; rewrite Ha; reflexivity). apply bind_Panic. unfold lift. by rewrite Hk. }
  destruct (Private from) as [p|] eqn:Hp.
  2:{ eexists. run_step ltac:(reflexivity). cbv beta iota. rewrite bool_decide_eq_false_2 by done.
      run_step ltac:(unfold lift; rewrite Ha; reflexivity).
      run_step ltac:(unfold lift; rewrite Hk; reflexivity). apply bind_Panic. unfold lift. by rewrite Hp. }
  destruct (random_ok (sys_host s)) as (n & h1 & Hn). destruct (now_ok h1) as (t & h2 & Ht).
  eexists. run_step ltac:(reflexivity). cbv beta iota. rewrite bool_decide_eq_false_2 by done.
  run_step ltac:(unfold lift; rewrite Ha; reflexivity).
  run_step ltac:(unfold lift; rewrite Hk; reflexivity). run_step ltac:(unfold lift; rewrite Hp; reflexivity).
  run_step ltac:(apply on_sys_run, host_Ok; exact Hn). run_step ltac:(apply on_sys_run, host_Ok; exact Ht).
  apply bind_Panic, on_expiry_nil. exact He.
Qed.

(** Without durations no object can be made: at best an ack is missing. *)
Lemma object_for_nil p to s m st : expiration (sys_user s) = None → State m = Some st →
  panics (object_for p to) (s, m) ∨
  ∃ m', object_for p to (s, m) = (Err ErrAckMissing, (s, m')) ∧ To m' = To m ∧ From m' = From m.
Proof.
  intros He Hst. assert (panics (on_sys (expiry ObjectTypeBroadcast)) (s, m)) as [x Hx]
    by (eexists; by apply on_expiry_nil).
  assert (panics (object_for p to) (s, m) ∨ ∃ m' st', object_for p to (s, m) =
    (match Ack m' with
     | None => if AckExpected st' then (Err ErrAckMissing, (s, m')) else (Panic, (s, m'))
     | Some _ => (Panic, (s, m'))
     end) ∧ To m' = To m ∧ From m' = From m) as [?|(m' & st' & Ho & Hto & Hfr)]; [| |].
  - destruct to as [|q|]; [left; eexists; run_step ltac:(reflexivity); cbv beta iota; by apply bind_Panic| |];
      (edestruct decide_ack_cases as [[x' Hx']|(m' & st' & Hx' & Hst' & Hto & Hfr & _)]; [exact Hst| |];
       [left; eexists; apply bind_Panic; exact Hx'|right; exists m', st'; split; [|done]]);
      (run_step ltac:(exact Hx'); run_step ltac:(reflexivity); cbv beta iota;
       destruct (Ack m') as [ack|];
       [run_step ltac:(reflexivity); by apply bind_Panic, on_expiry_nil
       |run_step ltac:(munfold; rewrite Hst'; reflexivity); cbv beta iota;
        destruct (AckExpected st'); [done|by apply bind_Panic, on_expiry_nil]]).
  - by left.
  - destruct (Ack m') as [ack|]; [left; by eexists|].
    destruct (AckExpected st'); [right; by exists m'|left; by eexists].
Qed.

Lemma generateObject_nil s m st addr from p to h :
  expiration (sys_user s) = None → State m = Some st →
  ToBm (From m) = Ok addr → keys_Get addr (sys_host s) = Some from → Private from = Some p →
  box_getObject m (sys_boxes s !! OutboxFolderName) = Ok None →
  GetOrRequestPublicID (To m) (sys_host s) = (Ok to, h) →
  panics generateObject (s, m) ∨
  ∃ m', generateObject (s, m) = (Err ErrAckMissing, (set_host h s, m')) ∧ To m' = To m ∧ From m' = From m.
Proof.
  intros He Hst Ha Hk Hp Ho Hg.
  assert (generateObject (s, m) = (o ← object_for p to; mret (o, id_Pow p)) (set_host h s, m)) as Hrun.
  { unfold generateObject. run_step ltac:(reflexivity). cbv beta iota.
    run_step ltac:(unfold lift; rewrite Ha; reflexivity). rewrite Hk.
    run_step ltac:(unfold lift; rewrite Hp; reflexivity). run_step ltac:(unfold lift; rewrite Ho; reflexivity).
    cbv beta iota.
    by run_step ltac:(unfold try, on_sys, host, zoom; cbn [fst]; rewrite Hg; reflexivity). }
  destruct (object_for_nil p to (set_host h s) m st He Hst) as [[x Hx]|(m' & Hx & Hto & Hfr)].
  - left. eexists. rewrite Hrun. by apply bind_Panic.
  - right. exists m'. split; [|done]. rewrite Hrun. by apply bind_Err.
Qed.

(** The users of the program: made by [NewUser], which sets neither the
    durations nor the queue. *)
Lemma NewUser_nil {D K} {FD : FoldersOps F D} {KR : Keyring K} name (k : K) (e : Z → Z) (folders folders' : D)
    (u : User (F := F)) :
  NewUser name k e folders = (Ok u, folders') → expiration u = None ∧ pm u = false ∧ acks u = ∅.
Proof.
  unfold NewUser. intros (d & ? & [= <- <-] & (bs & d1 & _ & [= <- _])%bind_inv)%bind_inv. done.
Qed.

(** No user of the program can send a message.  [NewUser] drops the
    durations and the queue it is given, so whenever the sender has a key and
    the public key of the recipient is known (or the message is a broadcast),
    processing the message panics. *)
Theorem NewUser_cannot_send {D K} {FD : FoldersOps F D} {KR : Keyring K} name (k : K) e (folders folders' : D)
    u s m st addr from p to h :
  NewUser name k e folders = (Ok u, folders') → expiration (sys_user s) = expiration u →
  State m = Some st → To m ≠ "broadcast@bm.agent"%string →
  box_getObject m (sys_boxes s !! OutboxFolderName) = Ok None →
  ToBm (From m) = Ok addr → keys_Get addr (sys_host s) = Some from → Private from = Some p →
  GetOrRequestPublicID (To m) (sys_host s) = (Ok to, h) →
  (process (s, m)).1 = Panic.
Proof.
  intros Hu Hex Hst Hto Ho Ha Hk Hp Hg. apply NewUser_nil in Hu as [He _]. rewrite He in Hex.
  destruct (generateObject_nil s m st addr from p to h) as [[x Hx]|(m' & Hx & Hto' & Hfr)]; [done..| |].
  - unfold process. by rewrite (bind_Panic _ _ _ _ (try_Panic _ _ _ Hx)).
  - unfold process. rewrite (bind_Ok _ _ _ _ _ (try_Err _ _ _ _ Hx)). cbv beta iota.
    rewrite bool_decide_eq_false_2, bool_decide_eq_true_2 by done.
    destruct (generateAck_nil (set_host h s) m') as [y Hy]; [done|by rewrite Hto'|by rewrite Hfr; eauto|].
    by rewrite (bind_Panic _ _ _ _ Hy).
Qed.

(** ** Commands by e-mail *)

(** Executing a command does not touch the mailboxes. *)
Lemma Execute_user c s r s' : Execute c s = (r, s') → sys_user s' = sys_user s.
Proof.
  intros He. assert (sys_user (Execute c s).2 = sys_user s) as E; [|by rewrite He in E]. clear He r s'.
  destruct c as [[|]|c|]; try done; unfold Execute, NewAddress, ListAddresses; cbn.
  - unfold user_NewAddress, host. munfold. destruct (keys_NewUnnamed _ _ (sys_host s)) as [[pi| | |] h]; try done.
    by destruct (PrivateIDToPublicID pi).
  - unfold user_ListAddresses. munfold. by destruct (public_ids _ (sys_host s)).
Qed.
Lemma execute_words_user name params s r s' :
  execute_words name params s = (r, s') → sys_user s' = sys_user s.
Proof.
  unfold execute_words. destruct (ReadCommand name params) as [[c| | |] params']; try (by intros [= _ <-]).
  intros He. destruct (Execute c s) as [re s1] eqn:E. pose proof (Execute_user _ _ _ _ E).
  munfold. rewrite E in He. by destruct re; simplify_eq.
Qed.

(** C31: an e-mail to the agent is executed as a command, named by its
    subject with the words of its body as parameters, and the text of the
    response is filed as a recent message in the folder of commands, as a
    reply to the sender; the other mailboxes do not change. *)
Theorem DeliverFromSMTP_command s s1 b a smtp m name rest r params text t h :
  NewBitmessageFromSMTP smtp = Ok m → CommandRegex (To m) = true →
  Headers smtp !! "Subject"%string = Some (name :: rest) →
  execute_words name (Fields (Body smtp)) s = (Ok (r, params), s1) → Response_String r = Ok text →
  sys_boxes s !! CommandsFolderName = Some b → box_inv rep b a → room 1 (abs a) →
  now (sys_host s1) = (Ok t, h) →
  let reply := MkBmail "command@bm.agent" (From m) false Time_zero None
    (Some (Encoding2 (SubjectRe name params) text)) None None in
  storable (prepared b FlagRecent t reply) →
  ∃ b' a', DeliverFromSMTP smtp s = (Ok tt, put_box CommandsFolderName b' (set_host h s)) ∧
    box_inv rep b' a' ∧
    abs a' = AMail (fs_next a + 1) (visible a ++ [(fs_next a, stored (prepared b FlagRecent t reply))]).
Proof.
  intros Hm Hc Hsub Hex Htext Hb Hi Hr Ht reply Hs. pose proof (execute_words_user _ _ _ _ _ Hex) as Hu.
  assert (set_host h s1 = set_host h s) as Hsame by (unfold set_host; by rewrite Hu).
  destruct (with_AddNew_ok CommandsFolderName s1 b a reply FlagRecent t h) as (b' & a' & He & Hi' & Ha');
    [unfold sys_boxes; by rewrite Hu|done..|].
  exists b', a'. split; [|done]. unfold DeliverFromSMTP.
  run_step ltac:(unfold lift; rewrite Hm; reflexivity). rewrite Hc.
  run_step ltac:(unfold lift; rewrite Hsub; reflexivity). unfold executeCommand.
  run_step ltac:(unfold EmailCommand; run_step ltac:(exact Hex); cbv beta iota;
    run_step ltac:(unfold lift; rewrite Htext; reflexivity); reflexivity).
  fold reply. by rewrite He, Hsame.
Qed.
End laws.

(** ** Concrete objects: what they are made of, in text *)

Module WireModel.
Import EnvModel BmutilModel IdentityModel SerializeModel.
#[export] Instance model : Wire := {
  Hash := string;
  InventoryHash o := o;
  Object_Expiration o := byte_of_Z 0;
  Time_Add t d := t;
  Time_Sub t u := Z_of_byte t - Z_of_byte u;
  Seconds d := u64 (d `div` 10 ^ 9);
  Target := Z;
  CalculateTarget len ttl d := len + ttl + d.1 + d.2;
  Address_Stream a := 1;
  CreateTaglessBroadcast n t p c from := Ok "broadcast"%string;
  CreateTaggedBroadcast n t p c from := Ok "broadcast"%string;
  SignAndEncryptMessage n t str p ripe c ack from to := Ok ("message " ++ ripe)%string;
  NewMsgObject t str payload := ("object " ++ payload)%string;
  Int31 n := Z.of_nat n;
  ObjectTypeMsg := 2;
  ObjectTypeBroadcast := 3;
  BehaviorAck := 1;
  DefaultStream := 1;
}.
#[export] Instance proto_text : ProtoText := {
  BitmessageIdentity_String i := default EmptyString (i ≫= bi_Address);
}.
End WireModel.

Section witnesses.
Import EnvModel BmutilModel MailModel SerializeModel ImapModel IdentityModel WireModel.

(** A host that counts the readings of its clock: it has one key, and knows
    one recipient. *)
Definition own_id : PrivateID := MkPrivateID (Some ("abc"%string, 1, Some (1000, 1000))) false false false "me".
Definition def_id : IdPublic := ("def"%string, 1, None).
Local Instance one_keyring : Keyring nat := {
  keys_Get a _ := if bool_decide (a = "BM-abc"%string) then Some own_id else None;
  keys_NewUnnamed _ _ := mret own_id;
  keys_Names _ := {[ "BM-abc" := "me" ]}%string;
}.
Local Instance one_key : Host nat := {
  host_keys := one_keyring;
  GetOrRequestPublicID a :=
    if bool_decide (a = "BM-def@bm.addr"%string) then mret (PKnown def_id)
    else fail ErrGetPubKeySent;
  Send _ := mret tt;
  pow_Run _ _ _ := mret tt;
  now n := (Ok (time_Now n), S n);
  random n := (Ok n, S n);
}.
Local Instance one_key_laws : HostLaws.
Proof. split; intros h; by do 2 eexists. Qed.

Local Abbreviation frep := (λ f s : fstate, f = s ∧ fwf s).
Definition sys2 : Sys (F := fstate) (H := nat) :=
  MkSys (MkUser "alice" {[ "Outbox" := box2; "Limbo" := box2; "Sent" := box2; "Commands" := box2 ]}%string
    {[ "an ack"%string := 3 ]} None false) 0%nat.

Definition mail_to (to subject body : string) : Content :=
  MkContent (<["To" := [to]]> (<["From" := ["BM-abc@bm.addr"]]> (<["Subject" := [subject]]> ∅)))%string body 10.
Definition bmail_to (to subject body : string) : Bmail :=
  MkBmail "BM-abc@bm.addr" to false Time_zero None (Some (Encoding2 subject body)) None (Some new_MessageState).

(** A message with a body that fits is stored by this encoding. *)
Lemma storable_intro m d subject body :
  Bmail_ImapData m = Some d → 0 ≤ Flags d < 256 → Bmail_Content m = Some (Encoding2 subject body) →
  body ≠ EmptyString → payload_ok (Some (data_of m)) → storable m.
Proof.
  intros Hd Hf Hc Hb Hp. exists d, (data_of m). split; [|unfold flags_ok; by rewrite Hd|done|by eauto|done].
  unfold data_of. unfold serializeBitmessage. rewrite Hc. reflexivity.
Qed.

Lemma DeliverFromSMTP_waits_witness :
  let m := bmail_to "BM-xyz@bm.addr" "Hello" "World" in
  ∃ b' a', DeliverFromSMTP (mail_to "BM-xyz@bm.addr" "Hello" "World") sys2 =
      (Ok tt, put_box "Outbox" b' (set_host 1%nat sys2)) ∧
    box_inv frep b' a' ∧ abs a' = AMail 5 (visible s2 ++ [(4, stored (waiting box2 (time_Now 0) m))]).
Proof.
  intros m.
  apply (DeliverFromSMTP_waits frep sys2 box2 s2 _ m "BM-abc" own_id ("abc"%string, 1, Some (1000, 1000))
    (time_Now 0) 1%nat 1%nat); try reflexivity.
  - exact box2_inv.
  - split; [cbn; lia|vm_compute; discriminate].
  - eapply storable_intro; [reflexivity|cbn; lia|reflexivity|discriminate|vm_compute; discriminate].
  - eapply storable_intro; [reflexivity|cbn; lia|reflexivity|discriminate|vm_compute; discriminate].
Defined.

Lemma DeliverFromSMTP_command_witness :
  let reply := MkBmail "command@bm.agent" "BM-abc@bm.addr" false Time_zero None
    (Some (Encoding2 (SubjectRe "wake" ["me"; "up"]%string) "Error: Unknown command wake.")) None None in
  ∃ b' a', DeliverFromSMTP (mail_to "do@bm.agent" "wake" "me up") sys2 =
      (Ok tt, put_box "Commands" b' (set_host 1%nat sys2)) ∧
    box_inv frep b' a' ∧ abs a' = AMail 5 (visible s2 ++ [(4, stored (prepared box2 FlagRecent (time_Now 0) reply))]).
Proof.
  intros reply.
  assert (Fields "me up" = ["me"; "up"]%string) as Hf by (vm_compute; reflexivity).
  assert (commands !! "wake"%string = None) as Hc by (vm_compute; reflexivity).
  pose proof (DeliverFromSMTP_command frep sys2 sys2 box2 s2 (mail_to "do@bm.agent" "wake" "me up")
    (bmail_to "do@bm.agent" "wake" "me up") "wake" [] (errorResponse (ErrUnknownCommand "wake"))
    ["me"; "up"]%string "Error: Unknown command wake." (time_Now 0) 1%nat) as Hw.
  apply Hw; clear Hw.
  - reflexivity.
  - reflexivity.
  - reflexivity.
  - change (Body (mail_to "do@bm.agent" "wake" "me up")) with "me up"%string. rewrite Hf.
    unfold execute_words, ReadCommand. rewrite Hc. reflexivity.
  - reflexivity.
  - reflexivity.
  - exact box2_inv.
  - split; [cbn; lia|vm_compute; discriminate].
  - reflexivity.
  - eapply storable_intro; [reflexivity|cbn; lia|reflexivity|discriminate|vm_compute; discriminate].
Defined.

(** Limbo with one message that was sent and for which an ack is awaited. *)
Definition sent_state : MessageState := MkMessageState false 1 (time_Now 3) true false false.
Definition sent_note : Bmail := set_State (Some sent_state) (note "sent" 1).
Definition sL : fstate := FState 4 {[ 3 := (2, data_of sent_note) ]}.
Definition boxL : mailbox fstate := MkMailbox sL "Limbo" None None ∅ false [3] 0 0 4.

Lemma frep_sL : frep sL sL.
Proof.
  split; [done|]. split; [cbn; lia|]. intros id sfx m. unfold sL. cbn [fs_msgs fs_next].
  rewrite lookup_singleton. case_decide as H3; [intros [= <- <-]; unfold is_u64; lia|done].
Qed.
Lemma decode_sent_note : decodeBitmessage (data_of sent_note) = Ok (stored sent_note, None).
Proof. vm_compute. reflexivity. Qed.
Lemma visible_sL : visible sL = [(3, stored sent_note)].
Proof.
  apply visible_eq; [apply frep_sL|repeat constructor|]. intros id m. unfold sL. cbn [fs_msgs].
  rewrite list_elem_of_singleton, lookup_singleton. split.
  - intros [= -> ->]. exists (data_of sent_note), None. split; [done|exact decode_sent_note].
  - intros (data & o & Hd & Hm). case_decide; [|done]. injection Hd as <-.
    rewrite decode_sent_note in Hm. by simplify_eq.
Qed.
Lemma boxL_inv : box_inv frep boxL sL.
Proof.
  split; [apply frep_sL| |done|done|..]; try (rewrite visible_sL; reflexivity); [|done].
  split; [|cbn; lia|by rewrite visible_sL]. apply readable_intro; [apply frep_sL|]. intros id data.
  unfold sL. cbn [fs_msgs]. rewrite lookup_singleton. case_decide; [intros [= <-]|done].
  do 2 eexists. split; [exact decode_sent_note|done].
Qed.

Definition the_ack : Hash := "an ack"%string.
Definition sysL : Sys (F := fstate) (H := nat) :=
  MkSys (MkUser "alice" {[ "Limbo" := boxL; "Sent" := box2 ]}%string {[ the_ack := 3 ]} None false) 0%nat.

Lemma DeliverAckReply_moves_witness :
  ∃ b1' a1' b2' a2',
    DeliverAckReply the_ack sysL = (Ok tt, put_box "Sent" b2' (put_box "Limbo" b1' (set_host 1%nat sysL))) ∧
    box_inv frep b1' a1' ∧ abs a1' = AMail 4 [] ∧
    box_inv frep b2' a2' ∧ ∃ m', abs a2' = AMail 5 (visible s2 ++ [(4, m')]) ∧
      State m' = Some (MkMessageState false 1 (time_Now 3) true false false).
Proof.
  assert (find_uid 3 sL = Some (1, stored sent_note)) as Hf.
  { unfold find_uid. rewrite visible_sL. reflexivity. }
  destruct (DeliverAckReply_moves frep the_ack 3 sysL boxL sL box2 s2 1 (stored sent_note) sent_state (time_Now 0) 1%nat)
    as (b1' & a1' & b2' & a2' & H1 & H2 & H3 & H4 & m' & H5 & _ & _ & _ & H6).
  - reflexivity.
  - unfold is_u64. lia.
  - reflexivity.
  - exact boxL_inv.
  - exact Hf.
  - reflexivity.
  - reflexivity.
  - reflexivity.
  - exact box2_inv.
  - split; [cbn; lia|vm_compute; discriminate].
  - reflexivity.
  - eapply storable_intro; [reflexivity|cbn; lia|reflexivity|discriminate|vm_compute; discriminate].
  - exists b1', a1', b2', a2'. split; [exact H1|]. split; [exact H2|].
    split; [rewrite H3, visible_sL; reflexivity|].
    split; [exact H4|]. exists m'. split; [exact H5|exact H6].
Defined.

(** The folders of a user by name. *)
Local Instance named_folders : FoldersOps fstate (gmap string fstate) := {
  folders_New name := λ d, (Ok (FState 1 ∅), <[name := FState 1 ∅]> d);
  folders_Get name := λ d, (match d !! name with Some f => Ok f | None => Err ErrNotFound end, d);
  folders_Names d := (map_to_list d).*1;
  folders_set name f d := <[name := f]> d;
  folders_now := mret (time_Now 0);
}.
Definition user1 : User (F := fstate) :=
  MkUser "alice" {[ "Outbox" := MkMailbox s0 "Outbox" None None {[ "BM-abc" := "me" ]} false [] 0 0 1 ]}%string
    ∅ None false.

Lemma NewUser_cannot_send_witness :
  let folders := {[ "Outbox" := s0 ]}%string : gmap string fstate in
  NewUser "alice" 0%nat (λ _, 10) folders = (Ok user1, folders) ∧
  (process (MkSys user1 0%nat, bmail_to "BM-def@bm.addr" "Hello" "World")).1 = Panic.
Proof.
  intros folders.
  assert (NewUser "alice" 0%nat (λ _, 10) folders = (Ok user1, folders)) as Hu by reflexivity.
  split; [exact Hu|].
  apply (NewUser_cannot_send "alice" 0%nat (λ _, 10) folders folders user1
    (MkSys user1 0%nat) _ new_MessageState "BM-abc" own_id ("abc"%string, 1, Some (1000, 1000))
    (PKnown def_id) 0%nat Hu); try reflexivity. discriminate.
Defined.
End witnesses.
