(* ===== verification/Sending.v ===== *)
(** * The life of a message that is sent ([user/process.go], [user/user.go])

    A message to a recipient whose public key is known is not sent at once:
    its ack, if one is expected, and then the message itself wait in the
    queue for their proofs of work, and what is done next is a closure run
    when a proof is found ([run_done] of [User]).

    What the user sees of the server is the interface [HostView]: the orders
    in the queue, the objects sent, the keys.  A user can send when he has a
    queue and a function for the expirations, which the users made by
    [NewUser] do not have ([User.NewUser_cannot_send]).

    Proved, stage by stage: what is stored, queued and sent.  Not true of the
    code: that the ack of a message finds it in Limbo. *)

From S2P Require Import Prelude Bytes Text Bolt StoreEnv Bmutil FolderSpec Keys Float64 MessageSequence Email Codec Mailbox MailboxInv Commands User.
From Stdlib Require Import Ascii.
Local Open Scope Z_scope.
Local Open Scope list_scope.

(** ** What the user sees of the server *)

Record host_view `{Wire} := HostState {
  hv_queued : list (Target * string * pow_done);    (** the orders given *)
  hv_sent : list string;                            (** the objects sent *)
  hv_keys : string → option PrivateID;
  hv_known : string → option IdPublic;              (** recipients, by e-mail address *)
}.

Arguments HostState {_ _ _ _ _ _} _ _ _ _.
Arguments hv_queued {_ _ _ _ _ _} _.
Arguments hv_sent {_ _ _ _ _ _} _.
Arguments hv_keys {_ _ _ _ _ _} _ _.
Arguments hv_known {_ _ _ _ _ _} _ _.

Definition hv_queue `{Wire} (x : Target * string * pow_done) (v : host_view) : host_view :=
  HostState (hv_queued v ++ [x]) (hv_sent v) (hv_keys v) (hv_known v).
Definition hv_send `{Wire} (x : string) (v : host_view) : host_view :=
  HostState (hv_queued v) (hv_sent v ++ [x]) (hv_keys v) (hv_known v).

(** The calls succeed, and only the two that should change the view do. *)
Class HostView `{Wire} (H : Type) `{!Host H} := {
  host_rep : H → host_view → Prop;
  rep_keys h v a : host_rep h v → keys_Get a h = hv_keys v a;
  rep_now h v : host_rep h v → ∃ t h', now h = (Ok t, h') ∧ host_rep h' v;
  rep_random h v : host_rep h v → ∃ n h', random h = (Ok n, h') ∧ host_rep h' v;
  rep_known h v a p : host_rep h v → hv_known v a = Some p →
    ∃ h', GetOrRequestPublicID a h = (Ok (PKnown p), h') ∧ host_rep h' v;
  rep_Send h v x : host_rep h v → ∃ h', Send x h = (Ok tt, h') ∧ host_rep h' (hv_send x v);
  rep_pow_Run h v t x d : host_rep h v →
    ∃ h', pow_Run t x d h = (Ok tt, h') ∧ host_rep h' (hv_queue (t, x, d) v);
}.

Section sending.
Context {EV : Env} {BM : Bmutil} {ML : MailLibs} {SZ : Serialize} {IS : ImapSeq}.
Context {ID : Identity} {PB : Publics} {WR : Wire} {PT : ProtoText}.
Context {F : Type} {FO : Folder F} {H : Type} {HO : Host H} {HV : HostView H}.
Context {LL : MailLaws} {EL : EnvLaws} {SL : SerializeLaws}.
Context (rep : F → fstate → Prop) {FR : FolderRefines F rep} {FI : FolderIterates F rep}.
Implicit Types (s : Sys (F := F) (H := H)) (b : mailbox F) (m : Bmail) (a : fstate) (v : host_view).

(** A message of a user who can send, to a recipient whose key is known. *)
Record sendable v (u : User (F := F)) (m : Bmail) (id : IdPrivateID) (d : Z * Z) (p : IdPublic) : Prop := {
  sd_from : ∃ addr from, ToBm (From m) = Ok addr ∧ hv_keys v addr = Some from ∧ Private from = Some id;
  sd_difficulty : id_Pow id = Some d;
  sd_not_own : hv_keys v (To m) = None;
  sd_known : hv_known v (To m) = Some p;
  sd_expiration : is_Some (expiration u);
  sd_queue : pm u = true;
}.

(** Whether a recipient acknowledges what it gets. *)
Definition acking (p : IdPublic) : bool := Z.land (pub_Behavior p) BehaviorAck =? BehaviorAck.
Definition expecting (p : IdPublic) (st : MessageState) : MessageState :=
  if acking p then set_AckExpected true st else st.

(** The object of a message: signed by its sender and encrypted for its
    recipient, with the ack to be sent back. *)
Definition object_of (m : Bmail) (ack : option string) (id : IdPrivateID) (p : IdPublic) (o : Object) : Prop :=
  ∃ n t, SignAndEncryptMessage n t (Address_Stream (id_Address id)) (id_Public id) (RipeHash (pub_Address p))
    (Bmail_Content m) ack id p = Ok o.
Definition encrypts (m : Bmail) (ack : option string) (id : IdPrivateID) (p : IdPublic) : Prop :=
  ∀ n t, is_Ok (SignAndEncryptMessage n t (Address_Stream (id_Address id)) (id_Public id)
    (RipeHash (pub_Address p)) (Bmail_Content m) ack id p) = true.

(** What is queued for an object: its proof of work, and what comes next. *)
Definition order_for (o : Object) (d : Z * Z) (next : after) (x : Target * string * pow_done) : Prop :=
  let q := sdrop 8 (wire_Encode o) in
  ∃ t, x = (CalculateTarget (Z.of_nat (String.length q)) (Seconds (Time_Sub (Object_Expiration o) t)) d, q, (next, q)).

(** *** Steps *)

Lemma set_State_same m st : State m = Some st → set_State (Some st) m = m.
Proof. destruct m. by intros [= ->]. Qed.

Lemma modify_state_run f s m st : State m = Some st →
  modify_state f (s, m) = (Ok tt, (s, set_State (Some (f st)) m)).
Proof. intros Hst. unfold modify_state. munfold. cbn. by rewrite Hst. Qed.

Lemma host_run {A} (f : M H A) s r h : f (sys_host s) = (r, h) → host f s = (r, set_host h s).
Proof. intros E. unfold host, zoom. by rewrite E. Qed.

Lemma decide_ack_known p v s m st : host_rep (sys_host s) v → State m = Some st → hv_keys v (To m) = None →
  decide_ack (PKnown p) (s, m) = (Ok tt, (s, set_State (Some (expecting p st)) m)).
Proof.
  intros Hr Hst Hk. unfold decide_ack, expecting, acking. run_step ltac:(reflexivity). cbv beta iota.
  rewrite (rep_keys _ _ _ Hr), Hk. run_step ltac:(reflexivity).
  destruct (_ =? BehaviorAck); [by apply modify_state_run|]. by rewrite set_State_same.
Qed.

(** The proof of work of an object is queued with what comes next. *)
Lemma sendPow_queues o d next v s : host_rep (sys_host s) v → pm (sys_user s) = true →
  ∃ x h, sendPow o (Some d) next s = (Ok tt, set_host h s) ∧ host_rep h (hv_queue x v) ∧ order_for o d next x.
Proof.
  intros Hr Hpm. destruct (rep_now _ _ Hr) as (t & h1 & E1 & Hr1). set (q := sdrop 8 (wire_Encode o)).
  assert (slice_from 8 (wire_Encode o) = Ok q) as Hq.
  { unfold slice_from. by rewrite (proj2 (Nat.leb_le _ _) (Encode_header o)). }
  set (T := CalculateTarget (Z.of_nat (String.length q)) (Seconds (Time_Sub (Object_Expiration o) t)) d).
  destruct (rep_pow_Run h1 v T q (next, q) Hr1) as (h2 & E2 & Hr2).
  exists (T, q, (next, q)), h2. split; [|split; [done|by exists t]].
  unfold sendPow. run_step ltac:(unfold lift; rewrite Hq; reflexivity).
  run_step ltac:(apply host_run; exact E1). run_step ltac:(reflexivity). cbv beta iota zeta. fold T.
  run_step ltac:(reflexivity). cbn [sys_user set_host]. rewrite Hpm. exact (host_run _ (set_host h1 s) _ _ E2).
Qed.

Lemma no_object b m : objects b = None → box_getObject m (Some b) = Ok None.
Proof.
  intros Ho. unfold box_getObject, getObject. destruct (Bmail_ImapData m) as [i|] eqn:Ei; [|done].
  destruct (UID i =? 0); [done|]. munfold. cbn. by rewrite Ho.
Qed.

(** What [generateObject] does up to the choice of the ack. *)
Lemma generateObject_known v s m id d p st b : host_rep (sys_host s) v → sendable v (sys_user s) m id d p →
  State m = Some st → sys_boxes s !! OutboxFolderName = Some b → objects b = None →
  let m' := set_State (Some (expecting p st)) m in
  ∃ h, host_rep h v ∧
    generateObject (s, m) =
      (o ← (if bool_decide (Ack m = None) && AckExpected (expecting p st) then fail ErrAckMissing
            else e ← on_sys (expiry ObjectTypeMsg);
                 on_sys (generateMessage (Bmail_Content m) (Ack m) id (PKnown p) e));
       mret (o, Some d)) (set_host h s, m').
Proof.
  intros Hr [(addr & from & Ha & Hk & Hp) Hd Hto Hkn _ _] Hst Hb Ho m'.
  destruct (rep_known _ _ _ _ Hr Hkn) as (h & E & Hr'). exists h. split; [done|].
  unfold generateObject. run_step ltac:(reflexivity). cbv beta iota.
  run_step ltac:(unfold lift; rewrite Ha; reflexivity). rewrite (rep_keys _ _ _ Hr), Hk.
  run_step ltac:(unfold lift; rewrite Hp; reflexivity).
  run_step ltac:(unfold lift; rewrite Hb, (no_object b m Ho); reflexivity).
  cbv beta iota.
  run_step ltac:(apply try_Ok, on_sys_run, host_run; exact E). cbv beta iota.
  unfold bind at 1, mbind at 1, M_bind at 1, mbind' at 1. unfold object_for.
  rewrite (bind_Ok _ _ _ _ _ (decide_ack_known p v (set_host h s) m st Hr' Hst Hto)).
  rewrite Hd. cbv beta iota. fold m'.
  unfold bind at 1, mbind at 1, M_bind at 1, mbind' at 1. cbn [get]. cbv beta iota.
  assert (Ack m' = Ack m ∧ State m' = Some (expecting p st) ∧ Bmail_Content m' = Bmail_Content m) as (-> & Hs' & ->)
    by done.
  destruct (Ack m) as [k|] eqn:EA.
  - rewrite bool_decide_eq_false_2 by done. cbn [andb]. munfold. reflexivity.
  - rewrite bool_decide_eq_true_2 by done. cbn [andb]. munfold. cbn. by destruct (AckExpected _).
Qed.

Lemma generateObject_asks v s m id d p st b : host_rep (sys_host s) v → sendable v (sys_user s) m id d p →
  State m = Some st → sys_boxes s !! OutboxFolderName = Some b → objects b = None →
  Ack m = None → AckExpected (expecting p st) = true →
  ∃ h, host_rep h v ∧
    generateObject (s, m) = (Err ErrAckMissing, (set_host h s, set_State (Some (expecting p st)) m)).
Proof.
  intros Hr Hsd Hst Hb Ho Hack Hexp.
  destruct (generateObject_known v s m id d p st b Hr Hsd Hst Hb Ho) as (h & Hr' & ->).
  exists h. split; [done|]. by rewrite Hack, Hexp.
Qed.

Lemma generateObject_makes v s m id d p st b : host_rep (sys_host s) v → sendable v (sys_user s) m id d p →
  State m = Some st → sys_boxes s !! OutboxFolderName = Some b → objects b = None →
  is_Some (Ack m) ∨ AckExpected (expecting p st) = false → encrypts m (Ack m) id p →
  ∃ o h, host_rep h v ∧ object_of m (Ack m) id p o ∧
    generateObject (s, m) = (Ok (o, Some d), (set_host h s, set_State (Some (expecting p st)) m)).
Proof.
  intros Hr Hsd Hst Hb Ho Hack Henc.
  destruct (generateObject_known v s m id d p st b Hr Hsd Hst Hb Ho) as (h0 & Hr0 & ->).
  set (m' := set_State _ m). set (s0 := set_host h0 s).
  destruct (rep_now _ _ Hr0) as (t & h1 & E1 & Hr1). destruct (rep_random _ _ Hr1) as (n & h2 & E2 & Hr2).
  destruct (sd_expiration _ _ _ _ _ _ Hsd) as [e He].
  specialize (Henc n (Time_Add t (e ObjectTypeMsg))) as Henc'.
  destruct (SignAndEncryptMessage n (Time_Add t (e ObjectTypeMsg)) _ _ _ _ _ _ _) as [o| | |] eqn:Es; [|done..].
  exists o, h2. split; [done|]. split; [by exists n, (Time_Add t (e ObjectTypeMsg))|].
  replace (bool_decide (Ack m = None) && AckExpected (expecting p st)) with false.
  2:{ destruct Hack as [[? Hk]|Hk]; rewrite Hk; [done|by rewrite andb_false_r]. }
  assert (on_sys (expiry ObjectTypeMsg) (s0, m') = (Ok (e ObjectTypeMsg), (s0, m'))) as Ee.
  { unfold on_sys, zoom, expiry. munfold. cbn. by rewrite He. }
  assert (generateMessage (Bmail_Content m) (Ack m) id (PKnown p) (e ObjectTypeMsg) s0 =
    (Ok o, set_host h2 s0)) as Eg.
  { unfold generateMessage, expires.
    run_step ltac:(run_step ltac:(apply host_run; exact E1); reflexivity).
    run_step ltac:(apply host_run; exact E2). unfold lift. by rewrite Es. }
  run_step ltac:(run_step ltac:(exact Ee); by apply on_sys_run). done.
Qed.

(** Saving a message in the outbox and queuing its object. *)
Lemma sendPrepared_queues v s m o d b a i data n m0 : host_rep (sys_host s) v → pm (sys_user s) = true →
  sys_boxes s !! OutboxFolderName = Some b → box_inv rep b a →
  saveable m i data → find_uid (UID i) a = Some (n, m0) →
  ∃ x h b' a', sendPreparedMessage o (Some d) (s, m) =
      (Ok tt, (put_box OutboxFolderName b' (set_host h s), m)) ∧
    host_rep h (hv_queue x v) ∧ order_for o d (Prepared m o) x ∧
    box_inv rep b' a' ∧ abs a' = AMail (fs_next a) (replace_uid (UID i) (stored m) (visible a)).
Proof.
  intros Hr Hpm Hb Hi Hsv Hf.
  destruct (saveBitmessage_replace rep b a m i data n m0 Hi Hsv Hf) as (b' & a' & Hsave & Hi' & Hn & Hv).
  set (s1 := put_box OutboxFolderName b' s).
  destruct (sendPow_queues o d (Prepared m o) v s1 Hr Hpm) as (x & h & E & Hr' & Hx).
  exists x, h, b', a'. split; [|split; [done|split; [done|split; [done|]]]].
  2:{ unfold abs. by rewrite Hn, Hv. }
  unfold sendPreparedMessage. run_step ltac:(by apply (on_box_msg_run _ _ _ _ b)).
  run_step ltac:(reflexivity). cbv beta iota.
  unfold on_sys, zoom. cbn [fst snd]. fold s1. by rewrite E.
Qed.

(** A message whose object can be made is stored, and its object queued:
    the common part of [process] and of what follows an ack. *)
Definition make_and_queue : M (Sys (F := F) (H := H) * Bmail) unit :=
  '(object, data) ← generateObject; sendPreparedMessage object data.

Lemma process_made s m x : (generateObject (s, m)).1 = Ok x → process (s, m) = make_and_queue (s, m).
Proof.
  intros E. unfold process, make_and_queue. munfold. unfold try.
  destruct (generateObject (s, m)) as [r y]. simpl in E. by subst r.
Qed.

Lemma make_and_queue_ok v s m id d p st b a i data n m0 :
  host_rep (sys_host s) v → sendable v (sys_user s) m id d p → State m = Some st →
  sys_boxes s !! OutboxFolderName = Some b → box_inv rep b a → find_uid (UID i) a = Some (n, m0) →
  is_Some (Ack m) ∨ AckExpected (expecting p st) = false → encrypts m (Ack m) id p →
  let m' := set_State (Some (expecting p st)) m in saveable m' i data →
  ∃ o x h b' a', make_and_queue (s, m) = (Ok tt, (put_box OutboxFolderName b' (set_host h s), m')) ∧
    is_Ok (generateObject (s, m)).1 = true ∧
    object_of m (Ack m) id p o ∧ host_rep h (hv_queue x v) ∧ order_for o d (Prepared m' o) x ∧
    box_inv rep b' a' ∧ abs a' = AMail (fs_next a) (replace_uid (UID i) (stored m') (visible a)).
Proof.
  intros Hr Hsd Hst Hb Hi Hf Hack Henc m' Hsv.
  destruct (generateObject_makes v s m id d p st b Hr Hsd Hst Hb (inv_objects _ _ _ Hi) Hack Henc)
    as (o & h1 & Hr1 & Ho & E1). fold m' in E1.
  destruct (sendPrepared_queues v (set_host h1 s) m' o d b a i data n m0)
    as (x & h & b' & a' & E2 & Hr2 & Hx & Hi' & Ha'); [done|apply Hsd|done..|].
  exists o, x, h, b', a'. rewrite E1. split; [|done].
  unfold make_and_queue. rewrite (bind_Ok _ _ _ _ _ E1). exact E2.
Qed.

(** A message whose ack is missing waits for the proof of work of an ack. *)
Lemma process_asks v s m id d p st b i :
  host_rep (sys_host s) v → sendable v (sys_user s) m id d p → State m = Some st →
  sys_boxes s !! OutboxFolderName = Some b → objects b = None → Bmail_ImapData m = Some i →
  Ack m = None → AckExpected (expecting p st) = true → To m ≠ "broadcast@bm.agent"%string →
  let m' := set_State (Some (expecting p st)) m in
  ∃ ack x h, process (s, m) =
      (Ok tt, (set_host h (set_user (set_acks (<[InventoryHash ack := UID i]> (acks (sys_user s))) (sys_user s)) s), m')) ∧
    host_rep h (hv_queue x v) ∧ order_for ack d (AckReady m' (InventoryHash ack)) x.
Proof.
  intros Hr Hsd Hst Hb Ho Himap Hack Hexp Hto m'.
  destruct (generateObject_asks v s m id d p st b Hr Hsd Hst Hb Ho Hack Hexp) as (h1 & Hr1 & E1). fold m' in E1.
  destruct (rep_random _ _ Hr1) as (n & h2 & E2 & Hr2). destruct (rep_now _ _ Hr2) as (t & h3 & E3 & Hr3).
  destruct Hsd as [(addr & from & Ha & Hk & Hp) Hd _ _ [e He] Hpm].
  set (ack := NewMsgObject (Time_Add t (e ObjectTypeMsg)) (Address_Stream (id_Address id)) (le32 (Int31 n))).
  set (s1 := set_host h1 s) in *.
  assert (generateAck (s1, m') = (Ok (ack, Some d), (set_host h3 s, m'))) as Eg.
  { unfold generateAck. run_step ltac:(reflexivity). cbv beta iota.
    rewrite bool_decide_eq_false_2 by exact Hto. change (From m') with (From m).
    run_step ltac:(unfold lift; rewrite Ha; reflexivity).
    run_step ltac:(unfold lift; cbn [sys_host s1 set_host]; rewrite (rep_keys _ _ _ Hr1), Hk; reflexivity).
    run_step ltac:(unfold lift; rewrite Hp; reflexivity).
    run_step ltac:(apply on_sys_run, host_run; exact E2).
    run_step ltac:(apply on_sys_run, host_run; exact E3).
    assert (on_sys (expiry ObjectTypeMsg) (set_host h3 (set_host h2 s1), m') =
      (Ok (e ObjectTypeMsg), (set_host h3 (set_host h2 s1), m'))) as Ee
      by (unfold on_sys, zoom, expiry; munfold; cbn; by rewrite He).
    rewrite (bind_Ok _ _ _ _ _ Ee), Hd. done. }
  set (s2 := set_user (set_acks (<[InventoryHash ack := UID i]> (acks (sys_user s))) (sys_user s)) (set_host h3 s)).
  destruct (sendPow_queues ack d (AckReady m' (InventoryHash ack)) v s2 Hr3 Hpm) as (x & h & E4 & Hr4 & Hx).
  exists ack, x, h. split; [|done]. unfold process.
  rewrite (bind_Ok _ _ _ _ _ (try_Err _ _ _ _ E1)). cbv beta iota.
  rewrite bool_decide_eq_false_2, bool_decide_eq_true_2 by done.
  rewrite (bind_Ok _ _ _ _ _ Eg). cbv beta iota zeta. run_step ltac:(reflexivity). cbv beta iota.
  run_step ltac:(unfold lift; change (Bmail_ImapData m') with (Bmail_ImapData m); rewrite Himap; reflexivity).
  run_step ltac:(reflexivity). exact (on_sys_run _ s2 m' _ _ E4).
Qed.

(** To a recipient that sends no acks, a message goes at once. *)
Lemma process_at_once v s m id d p st b a i data n m0 :
  host_rep (sys_host s) v → sendable v (sys_user s) m id d p → State m = Some st →
  sys_boxes s !! OutboxFolderName = Some b → box_inv rep b a → find_uid (UID i) a = Some (n, m0) →
  acking p = false → AckExpected st = false → encrypts m (Ack m) id p → saveable m i data →
  ∃ o x h b' a', process (s, m) = (Ok tt, (put_box OutboxFolderName b' (set_host h s), m)) ∧
    object_of m (Ack m) id p o ∧ host_rep h (hv_queue x v) ∧ order_for o d (Prepared m o) x ∧
    box_inv rep b' a' ∧ abs a' = AMail (fs_next a) (replace_uid (UID i) (stored m) (visible a)).
Proof.
  intros Hr Hsd Hst Hb Hi Hf Hp Hexp Henc Hsv.
  assert (expecting p st = st) as Hst' by (unfold expecting; by rewrite Hp).
  pose proof (set_State_same m st Hst) as Hm.
  destruct (make_and_queue_ok v s m id d p st b a i data n m0) as (o & x & h & b' & a' & E & Hok & H1);
    rewrite ?Hst', ?Hm in *; try done; [by right|].
  exists o, x, h, b', a'. split; [|done].
  destruct (generateObject (s, m)) as [[y| | |] z] eqn:Eg; try done.
  rewrite (process_made s m y); [done|by rewrite Eg].
Qed.

(** *** A message in a mailbox, and its new version *)

Lemma replace_uid_other uid m (l : list (Z * Bmail)) :
  filter (λ x, x.1 ≠ uid) (replace_uid uid m l) = filter (λ x, x.1 ≠ uid) l.
Proof.
  unfold replace_uid. induction l as [|x l IH]; [done|]. cbn [fmap list_fmap]. rewrite !filter_cons.
  destruct (decide (x.1 = uid)) as [E|E].
  - rewrite decide_False by (intros H1; by apply H1). rewrite decide_False by (intros H1; by apply H1). exact IH.
  - rewrite decide_True, decide_True by done. by rewrite IH.
Qed.

Lemma find_uid_replaced a a' uid n m0 m : find_uid uid a = Some (n, m0) →
  visible a' = replace_uid uid m (visible a) → find_uid uid a' = Some (n, m).
Proof.
  rewrite !find_uid_Some. intros [Hn Hl] ->. split; [done|]. unfold replace_uid.
  rewrite list_lookup_fmap, Hl. simpl. by rewrite decide_True.
Qed.

(** A message new in the outbox. *)
Definition filed b t m (uid : Z) : Bmail := set_UID uid (prepared b FlagSeen t m).

Lemma filed_fields b t m uid : State m = Some new_MessageState →
  From (filed b t m uid) = From m ∧ To (filed b t m uid) = To m ∧ Ack (filed b t m uid) = Ack m ∧
  Bmail_Content (filed b t m uid) = Bmail_Content m ∧ State (filed b t m uid) = Some new_MessageState ∧
  ∃ i, Bmail_ImapData (filed b t m uid) = Some i ∧ UID i = uid.
Proof. intros Hst. unfold filed, prepared. rewrite Hst. cbn. repeat split; try done. by eexists. Qed.

(** An e-mail that is put in the outbox is processed there. *)
Lemma DeliverFromSMTP_process v s b a smtp m :
  NewBitmessageFromSMTP smtp = Ok m → CommandRegex (To m) = false →
  sys_boxes s !! OutboxFolderName = Some b → box_inv rep b a → room 1 (abs a) →
  host_rep (sys_host s) v → (∀ t, storable (prepared b FlagSeen t m)) →
  ∃ t h b1 a1, host_rep h v ∧ box_inv rep b1 a1 ∧
    abs a1 = AMail (fs_next a + 1) (visible a ++ [(fs_next a, stored (filed b t m (fs_next a)))]) ∧
    let '(r, (s', _)) := process (put_box OutboxFolderName b1 (set_host h s), filed b t m (fs_next a)) in
    DeliverFromSMTP smtp s = (r, s').
Proof.
  intros Hm Hc Hb Hi Hroom Hr Hst. destruct (rep_now _ _ Hr) as (t & h & E & Hr').
  destruct (box_AddNew_ok rep OutboxFolderName s b a m FlagSeen t h Hb Hi Hroom E (Hst t)) as (b1 & a1 & E1 & Hi1 & Ha1).
  exists t, h, b1, a1. split; [done|]. split; [done|]. split; [by unfold filed; rewrite stored_UID|].
  fold (filed b t m (fs_next a)) in E1. unfold DeliverFromSMTP.
  destruct (process _) as [r [s' m']] eqn:Ep.
  run_step ltac:(unfold lift; rewrite Hm; reflexivity). rewrite Hc. unfold with_msg.
  rewrite (bind_Ok _ _ _ _ _ (try_Ok _ _ _ _ E1)). cbv beta iota. by rewrite Ep.
Qed.

Lemma sendable_filed v u u' m m' id d p : sendable v u m id d p → From m' = From m → To m' = To m →
  expiration u' = expiration u → pm u' = pm u → sendable v u' m' id d p.
Proof. intros [] Hf Ht He Hp. split; by rewrite ?Hf, ?Ht, ?He, ?Hp. Qed.

(** An ack is looked up in Limbo by a UID. *)
Lemma DeliverAckReply_missing hash uid s b a :
  acks (sys_user s) !! hash = Some uid → is_u64 uid → sys_boxes s !! LimboFolderName = Some b →
  box_inv rep b a → uid ∉ (fst <$> visible a) → DeliverAckReply hash s = (Err ErrNoMessageFound, s).
Proof.
  intros Hack Hu Hb Hi Hn. apply find_uid_None in Hn. unfold DeliverAckReply. run_step ltac:(reflexivity).
  rewrite Hack. run_step ltac:(apply (on_box_run _ _ _ b); [done|by apply (bmsgByUID_eq rep b a)]).
  by rewrite Hn, (put_box_same _ _ _ Hb).
Qed.

(** What is done when the proof of work of a message is found. *)
Lemma after_pow_moves s b1 b m o st completed h1 h2 t :
  sys_boxes s !! OutboxFolderName = Some b1 → saveBitmessage (b1, m) = (Ok tt, (b, m)) → State m = Some st →
  Send completed (sys_host s) = (Ok tt, h1) → now h1 = (Ok t, h2) →
  after_pow completed (Prepared m o) s =
    Move (set_State (Some (set_sent t st)) m) OutboxFolderName
      (if AckExpected st then LimboFolderName else SentFolderName)
      (set_host h2 (put_box OutboxFolderName b s)).
Proof.
  intros Hb Hsave Hst E1 E2. set (s1 := put_box OutboxFolderName b s). unfold after_pow, with_msg.
  rewrite (bind_Ok _ _ _ _ _ (on_box_msg_run _ _ _ _ b1 _ _ _ Hb Hsave)). fold s1.
  rewrite (bind_Ok _ _ _ _ _ (on_sys_run _ s1 m _ _ (host_run _ s1 _ _ E1))).
  rewrite (bind_Ok get _ (set_host h1 s1, m) (set_host h1 s1, m) (set_host h1 s1, m)) by done. cbv beta iota.
  rewrite Hst. rewrite (bind_Ok (lift (deref (Some st))) _ (set_host h1 s1, m) st (set_host h1 s1, m)) by done.
  cbv zeta. rewrite (bind_Ok _ _ _ _ _ (on_sys_run _ (set_host h1 s1) m _ _ (host_run _ (set_host h1 s1) _ _ E2))).
  rewrite (bind_Ok _ _ _ _ _ (modify_state_run (set_sent t) _ m st Hst)). set (bm := set_State _ m).
  rewrite (bind_Ok get _ (set_host h2 s1, bm) (set_host h2 s1, bm) (set_host h2 s1, bm)) by done. cbv beta iota.
  unfold on_sys, zoom. cbn [fst snd].
  by destruct (Move bm OutboxFolderName (if AckExpected st then LimboFolderName else SentFolderName) (set_host h2 s1)).
Qed.

(** ** Theorems *)

(** C6: an e-mail to a recipient whose public key is known is accepted: it is
    put in the outbox once, and one order is given for it.  For a recipient
    that acknowledges what it gets, the order is for an ack, kept under the
    message's UID in the outbox; for another one it is for the message itself,
    signed by its sender, encrypted for its recipient and without an ack. *)
Theorem DeliverFromSMTP_queues v s b a smtp m id d p :
  NewBitmessageFromSMTP smtp = Ok m → CommandRegex (To m) = false → To m ≠ "broadcast@bm.agent"%string →
  sys_boxes s !! OutboxFolderName = Some b → box_inv rep b a → room 1 (abs a) →
  host_rep (sys_host s) v → sendable v (sys_user s) m id d p →
  (∀ t, storable (prepared b FlagSeen t m)) → encrypts m None id p →
  ∃ s' b' a' t x, let m' := filed b t m (fs_next a) in
    DeliverFromSMTP smtp s = (Ok tt, s') ∧
    sys_boxes s' = <[OutboxFolderName := b']> (sys_boxes s) ∧ box_inv rep b' a' ∧
    abs a' = AMail (fs_next a + 1) (visible a ++ [(fs_next a, stored m')]) ∧
    host_rep (sys_host s') (hv_queue x v) ∧
    if acking p then ∃ ack, order_for ack d
         (AckReady (set_State (Some (set_AckExpected true new_MessageState)) m') (InventoryHash ack)) x ∧
       acks (sys_user s') = <[InventoryHash ack := fs_next a]> (acks (sys_user s))
    else ∃ o, object_of m None id p o ∧ order_for o d (Prepared m' o) x ∧ acks (sys_user s') = acks (sys_user s).
Proof.
  intros Hm Hc Hto Hb Hi Hroom Hr Hsd Hst Henc. destruct (NewBitmessageFromSMTP_new _ _ Hm) as (Hs0 & Ha0 & _).
  destruct (DeliverFromSMTP_process v s b a smtp m) as (t & h & b1 & a1 & Hr1 & Hi1 & Ha1 & Hp); [done..|].
  destruct (filed_fields b t m (fs_next a) Hs0) as (Ef & Et & Ea & Ec & Es & i & Ei & Eu).
  set (m' := filed b t m (fs_next a)) in *. set (s1 := put_box OutboxFolderName b1 (set_host h s)) in *.
  assert (sendable v (sys_user s1) m' id d p) as Hsd' by by eapply sendable_filed.
  assert (sys_boxes s1 !! OutboxFolderName = Some b1) as Hb1 by apply lookup_insert_eq.
  destruct (acking p) eqn:Eack.
  - assert (expecting p new_MessageState = set_AckExpected true new_MessageState) as Hexp
      by (unfold expecting; by rewrite Eack).
    destruct (process_asks v s1 m' id d p new_MessageState b1 i) as (ack & x & h2 & E & Hr2 & Hx);
      [done..|apply (inv_objects _ _ _ Hi1)|done|by rewrite Ea|by rewrite Hexp|by rewrite Et|].
    rewrite E in Hp. rewrite Hexp in Hx. rewrite Eu in Hp.
    eexists _, b1, a1, t, x. split; [exact Hp|]. split; [done|]. split; [done|]. split; [done|]. split; [done|].
    exists ack. by split.
  - destruct (Hst t) as (i0 & data & Hsv).
    apply (storable_UID (fs_next a)) in Hsv. fold (filed b t m (fs_next a)) in Hsv. fold m' in Hsv.
    pose proof (sv_imap _ _ _ Hsv) as Hii. rewrite Ei in Hii. injection Hii as Hii. rewrite <-Hii in Hsv.
    injection Ha1 as Hn1 Hv1. pose proof (inv_wf _ _ _ Hi) as Hwf.
    assert (find_uid (UID i) a1 = Some (Z.of_nat (length (visible a)) + 1, stored m')) as Hf.
    { rewrite Eu. apply find_uid_Some. split; [lia|]. rewrite Hv1, lookup_app_r by lia.
      replace (_ - _)%nat with 0%nat by lia. done. }
    destruct (process_at_once v s1 m' id d p new_MessageState b1 a1 i data _ _ Hr1 Hsd' Es Hb1 Hi1 Hf)
      as (o & x & h2 & b2 & a2 & E & Ho & Hr2 & Hx & Hi2 & Ha2); [done|done| |done|].
    + rewrite Ea, Ha0. unfold encrypts. by rewrite Ec.
    + rewrite E in Hp. eexists _, b2, a2, t, x. split; [exact Hp|].
      split; [apply insert_insert_eq|]. split; [done|]. split; [|split; [done|]].
      * rewrite Ha2, Hn1, Hv1, Eu. f_equal. apply replace_last. intros y Hy. pose proof (visible_below _ _ Hwf Hy). lia.
      * exists o. rewrite Ea, Ha0 in Ho. unfold object_of in *. rewrite Ec in Ho. done.
Qed.

(** C7: when the proof of work of an ack is found, the ack is put in its
    message, which is stored again in the outbox under its UID, and one order
    is given for the message itself: encrypted for its recipient, with the
    ack that he is to send back. *)
Theorem ack_ready_queues v s b a m h id d p st i data n m0 nonce q :
  let ack := (nonce ++ q)%string in
  let m' := set_State (Some (expecting p st)) (set_Ack (Some ack) m) in
  sys_boxes s !! OutboxFolderName = Some b → box_inv rep b a → find_uid (UID i) a = Some (n, m0) →
  State m = Some st → host_rep (sys_host s) v → sendable v (sys_user s) m id d p →
  encrypts m (Some ack) id p → saveable m' i data →
  ∃ s' b' a' o x, run_done nonce (AckReady m h, q) s = (Ok tt, s') ∧
    sys_boxes s' = <[OutboxFolderName := b']> (sys_boxes s) ∧ acks (sys_user s') = acks (sys_user s) ∧
    box_inv rep b' a' ∧ abs a' = AMail (fs_next a) (replace_uid (UID i) (stored m') (visible a)) ∧
    host_rep (sys_host s') (hv_queue x v) ∧ object_of m (Some ack) id p o ∧ order_for o d (Prepared m' o) x.
Proof.
  intros ack m' Hb Hi Hf Hst Hr Hsd Henc Hsv.
  assert (sendable v (sys_user s) (set_Ack (Some ack) m) id d p) as Hsd' by by eapply sendable_filed.
  destruct (make_and_queue_ok v s (set_Ack (Some ack) m) id d p st b a i data n m0)
    as (o & x & h2 & b' & a' & E & _ & Ho & Hr' & Hx & Hi' & Ha'); try done; [by left|].
  exists (put_box OutboxFolderName b' (set_host h2 s)), b', a', o, x. split; [|done].
  assert (after_pow ack (AckReady m h) s = (Ok tt, put_box OutboxFolderName b' (set_host h2 s))) as E5.
  { unfold after_pow, with_msg. fold make_and_queue. by rewrite E. }
  unfold run_done. cbn [fst snd]. fold ack. by rewrite (bind_Ok _ _ _ _ _ (try_Ok _ _ _ _ E5)).
Qed.

(** C8: when the proof of work of a message is found, the object sent is the
    nonce followed by what the proof was made for, and the message leaves the
    outbox: it goes to Limbo when an ack is expected and to Sent otherwise,
    under the next UID there and marked as seen.  What is filed there is what
    was stored before: that the message was sent is not recorded in it.  Nor
    is its new UID: an ack, which is kept with the UID in the outbox, does
    not find the message unless Limbo has that UID too. *)
Theorem Prepared_sends v s b1 a1 b2 a2 m o st i data n m0 nonce q :
  let to := if AckExpected st then LimboFolderName else SentFolderName in
  host_rep (sys_host s) v → State m = Some st → saveable m i data →
  sys_boxes s !! OutboxFolderName = Some b1 → box_inv rep b1 a1 → find_uid (UID i) a1 = Some (n, m0) →
  sys_boxes s !! to = Some b2 → box_inv rep b2 a2 → room 1 (abs a2) →
  (∀ t, storable (prepared b2 FlagSeen t (stored m))) →
  ∃ s' b1' a1' b2' a2' m', run_done nonce (Prepared m o, q) s = (Ok tt, s') ∧
    host_rep (sys_host s') (hv_send (nonce ++ q) v) ∧
    sys_boxes s' = <[to := b2']> (<[OutboxFolderName := b1']> (sys_boxes s)) ∧
    acks (sys_user s') = acks (sys_user s) ∧
    box_inv rep b1' a1' ∧ abs a1' = AMail (fs_next a1) (filter (λ x, x.1 ≠ UID i) (visible a1)) ∧
    box_inv rep b2' a2' ∧ abs a2' = AMail (fs_next a2 + 1) (visible a2 ++ [(fs_next a2, m')]) ∧
    From m' = From m ∧ To m' = To m ∧ Bmail_Content m' = Bmail_Content m ∧
    SendTries <$> State m' = Some (SendTries st) ∧
    ∀ hash, AckExpected st = true → acks (sys_user s) !! hash = Some (UID i) →
      UID i ∉ fs_next a2 :: (fst <$> visible a2) → DeliverAckReply hash s' = (Err ErrNoMessageFound, s').
Proof.
  intros to Hr Hst Hsv Hb1 Hi1 Hf Hb2 Hi2 Hroom Hstor.
  destruct (saveBitmessage_replace rep b1 a1 m i data n m0 Hi1 Hsv Hf) as (b & a & Hsave & Hi & Hn & Hv).
  set (s1 := put_box OutboxFolderName b s).
  destruct (rep_Send (sys_host s1) v (nonce ++ q)%string Hr) as (h1 & E1 & Hr1).
  destruct (rep_now _ _ Hr1) as (t1 & h2 & E2 & Hr2). destruct (rep_now _ _ Hr2) as (t2 & h3 & E3 & Hr3).
  set (bm := set_State (Some (set_sent t1 st)) m).
  pose proof (find_uid_replaced a1 a (UID i) n m0 (stored m) Hf Hv) as Hf'.
  assert (is_u64 (UID i)) as Hu.
  { pose proof Hf as [_ Hl%list_elem_of_lookup_2]%find_uid_Some.
    pose proof (visible_uid _ _ _ (inv_wf _ _ _ Hi1) (inv_ok _ _ _ Hi1) Hl). unfold is_u64. lia. }
  assert (OutboxFolderName ≠ to) as Hne by (unfold to; by destruct (AckExpected st)).
  destruct (Move_ok rep bm i OutboxFolderName to (set_host h2 s1) b a b2 a2 n (stored m) t2 h3)
    as (b1' & a1' & b2' & a2' & E4 & Hi1' & Ha1' & Hi2' & Ha2'); try done.
  { apply (sv_imap _ _ _ Hsv). }
  { apply lookup_insert_eq. }
  { unfold s1. change (<[OutboxFolderName := b]> (sys_boxes s) !! to = Some b2). by rewrite lookup_insert_ne. }
  exists (put_box to b2' (put_box OutboxFolderName b1' (set_host h3 (set_host h2 s1)))), b1', a1', b2', a2'.
  eexists. split; [|split; [exact Hr3|split; [|split; [done|]]]].
  - assert (after_pow (nonce ++ q) (Prepared m o) s =
      (Ok tt, put_box to b2' (put_box OutboxFolderName b1' (set_host h3 (set_host h2 s1))))) as E5;
      [|unfold run_done; cbn [fst snd]; by rewrite (bind_Ok _ _ _ _ _ (try_Ok _ _ _ _ E5))].
    rewrite (after_pow_moves s b1 b m o st (nonce ++ q)%string h1 h2 t1) by done. exact E4.
  - unfold s1. change (<[to := b2']> (<[OutboxFolderName := b1']> (<[OutboxFolderName := b]> (sys_boxes s))) =
      <[to := b2']> (<[OutboxFolderName := b1']> (sys_boxes s))). by rewrite insert_insert_eq.
  - split; [done|]. split; [rewrite Ha1', Hn, Hv; by rewrite replace_uid_other|]. split; [done|]. split; [done|].
    split; [by unfold stored, prepared; cbn; rewrite Hst|]. split; [by unfold stored, prepared; cbn; rewrite Hst|].
    split; [by unfold stored, prepared; cbn; rewrite Hst|]. split; [by unfold stored, prepared; cbn; rewrite Hst|].
    intros hash Hexp Hack Hno. assert (to = LimboFolderName) as Hto by (unfold to; by rewrite Hexp).
    injection Ha2' as _ Hv2'. rewrite Hto.
    apply (DeliverAckReply_missing hash (UID i) _ b2' a2'); [done|done|apply lookup_insert_eq|done|].
    rewrite Hv2', fmap_app. intros [?|?%list_elem_of_singleton]%elem_of_app; apply Hno; rewrite elem_of_cons; auto.
Qed.
End sending.

(** ** Witnesses: a server that records what it is asked *)

Section witnesses.
Import EnvModel BmutilModel MailModel SerializeModel ImapModel IdentityModel WireModel.

Record recorder := Recorder { rc_readings : nat; rc_orders : list (Target * string * pow_done); rc_sent : list string }.
Local Instance recorder_keys : Keyring recorder := {
  keys_Get a _ := if bool_decide (a = "BM-abc"%string) then Some own_id else None;
  keys_NewUnnamed _ _ := mret own_id;
  keys_Names _ := {[ "BM-abc" := "me" ]}%string;
}.
Definition recipient (a : string) : option IdPublic :=
  if bool_decide (a = "BM-def@bm.addr"%string) then Some def_id else None.
Local Instance recorder_host : Host recorder := {
  host_keys := recorder_keys;
  GetOrRequestPublicID a := match recipient a with Some p => mret (PKnown p) | None => fail ErrGetPubKeySent end;
  Send x r := (Ok tt, Recorder (rc_readings r) (rc_orders r) (rc_sent r ++ [x]));
  pow_Run t x d r := (Ok tt, Recorder (rc_readings r) (rc_orders r ++ [(t, x, d)]) (rc_sent r));
  now r := (Ok (time_Now (rc_readings r)), Recorder (S (rc_readings r)) (rc_orders r) (rc_sent r));
  random r := (Ok (rc_readings r), Recorder (S (rc_readings r)) (rc_orders r) (rc_sent r));
}.
Definition recorded (r : recorder) : host_view :=
  HostState (rc_orders r) (rc_sent r) (λ a, if bool_decide (a = "BM-abc"%string) then Some own_id else None) recipient.
Local Instance recorder_view : HostView recorder.
Proof.
  refine {| host_rep r v := v = recorded r |}.
  - by intros r v a ->.
  - intros r v ->. by do 2 eexists.
  - intros r v ->. by do 2 eexists.
  - intros r v a p -> Hk. exists r. split; [|done]. cbn in *. by rewrite Hk.
  - intros r v x ->. by eexists.
  - intros r v t x d ->. by eexists.
Defined.

Local Abbreviation frep := (λ f s : fstate, f = s ∧ fwf s).
Definition start : recorder := Recorder 0 [] [].
Definition sender : User (F := fstate) :=
  MkUser "alice" {[ "Outbox" := box2; "Limbo" := box2; "Sent" := box2 ]}%string ∅ (Some (λ _, 3600)) true.
Definition sys3 : Sys (F := fstate) (H := recorder) := MkSys sender start.
Definition hello : Bmail := bmail_to "BM-def@bm.addr" "Hello" "World".

Lemma hello_sendable (u : User (F := fstate)) m : From m = From hello → To m = To hello → is_Some (expiration u) → pm u = true →
  sendable (recorded start) u m ("abc"%string, 1, Some (1000, 1000)) (1000, 1000) def_id.
Proof.
  intros Hf Ht He Hp. split; rewrite ?Hf, ?Ht; try done.
  exists "BM-abc"%string, own_id. by split.
Qed.

Lemma hello_storable t : storable (prepared box2 FlagSeen t hello).
Proof.
  eapply storable_intro; [reflexivity|cbn; lia|reflexivity|discriminate|].
  destruct t as [[] [] [] [] [] [] [] []]; vm_compute; discriminate.
Qed.

Lemma DeliverFromSMTP_queues_witness :
  ∃ s' b' a' m' ack x, DeliverFromSMTP (mail_to "BM-def@bm.addr" "Hello" "World") sys3 = (Ok tt, s') ∧
    box_inv frep b' a' ∧ abs a' = AMail 5 (visible s2 ++ [(4, m')]) ∧
    host_rep (sys_host s') (hv_queue x (recorded start)) ∧
    acks (sys_user s') = {[ InventoryHash ack := 4 ]}.
Proof.
  destruct (DeliverFromSMTP_queues frep (recorded start) sys3 box2 s2 (mail_to "BM-def@bm.addr" "Hello" "World")
    hello ("abc"%string, 1, Some (1000, 1000)) (1000, 1000) def_id)
    as (s' & b' & a' & t & x & E & _ & Hi & Ha & Hr & ack & _ & Hack); try reflexivity.
  - discriminate.
  - exact box2_inv.
  - split; [cbn; lia|vm_compute; discriminate].
  - apply hello_sendable; [done..|by eexists|done].
  - apply hello_storable.
  - intros n t. reflexivity.
  - exists s', b', a'. eexists. exists ack, x. split; [exact E|]. split; [exact Hi|]. split; [exact Ha|].
    split; [exact Hr|exact Hack].
Defined.

(** The message in the outbox under UID 3, and an empty Limbo. *)
Definition asked : Bmail := set_State (Some (set_AckExpected true new_MessageState)) (filed box2 (time_Now 0) hello 3).
Definition acked : Bmail := set_Ack (Some "12345678an ack"%string) asked.
Definition empty_box : mailbox fstate := MkMailbox s0 "Limbo" None None ∅ false [] 0 0 1.
Definition waiting_sys : Sys (F := fstate) (H := recorder) :=
  MkSys (MkUser "alice" {[ "Outbox" := box2; "Limbo" := empty_box ]}%string {[ "an ack"%string : Hash := 3 ]}
    (Some (λ _, 3600)) true) start.

Lemma empty_box_inv : box_inv frep empty_box s0.
Proof.
  assert (fwf s0) as Hwf by (split; [cbn; lia|intros id sfx m; cbn; by rewrite lookup_empty]).
  split; [by split| |done..]. split; [|cbn; lia|vm_compute; discriminate].
  apply readable_intro; [done|]. intros id data. cbn. by rewrite lookup_empty.
Qed.

Lemma acked_saveable : saveable acked (MkImapData 3 3 FlagSeen (time_Now 0)) (data_of acked).
Proof. split; [reflexivity|unfold flags_ok; cbn; lia|reflexivity|by do 2 eexists|vm_compute; discriminate]. Qed.

Lemma find_three : find_uid 3 s2 = Some (2, default hello (snd <$> find_uid 3 s2)).
Proof. vm_compute. reflexivity. Qed.

Lemma ack_ready_queues_witness :
  ∃ s' b' a' o x, run_done "12345678" (AckReady asked "an ack"%string, "an ack"%string) waiting_sys = (Ok tt, s') ∧
    box_inv frep b' a' ∧ abs a' = AMail 4 (replace_uid 3 (stored acked) (visible s2)) ∧
    host_rep (sys_host s') (hv_queue x (recorded start)) ∧ order_for o (1000, 1000) (Prepared acked o) x.
Proof.
  destruct (ack_ready_queues frep (recorded start) waiting_sys box2 s2 asked "an ack"%string
    ("abc"%string, 1, Some (1000, 1000)) (1000, 1000) def_id (set_AckExpected true new_MessageState)
    (MkImapData 3 3 FlagSeen (time_Now 0)) (data_of acked) 2 (default hello (snd <$> find_uid 3 s2)) "12345678" "an ack")
    as (s' & b' & a' & o & x & E & _ & _ & Hi & Ha & Hr & _ & Hx).
  - reflexivity.
  - exact box2_inv.
  - exact find_three.
  - reflexivity.
  - reflexivity.
  - apply hello_sendable; [done..|by eexists|done].
  - intros n t. reflexivity.
  - exact acked_saveable.
  - exists s', b', a', o, x. split; [exact E|]. split; [exact Hi|]. split; [exact Ha|]. split; [exact Hr|exact Hx].
Defined.

Lemma acked_storable t : storable (prepared empty_box FlagSeen t (stored acked)).
Proof.
  eapply storable_intro; [reflexivity|cbn; lia|reflexivity|discriminate|].
  destruct t as [[] [] [] [] [] [] [] []]; vm_compute; discriminate.
Qed.

Lemma Prepared_sends_witness :
  ∃ s' b' a' m', run_done "87654321" (Prepared acked "message"%string, "message"%string) waiting_sys = (Ok tt, s') ∧
    host_rep (sys_host s') (hv_send "87654321message" (recorded start)) ∧
    sys_boxes s' !! "Limbo"%string = Some b' ∧ box_inv frep b' a' ∧ abs a' = AMail 2 [(1, m')] ∧
    SendTries <$> State m' = Some 0 ∧ DeliverAckReply "an ack"%string s' = (Err ErrNoMessageFound, s').
Proof.
  destruct (Prepared_sends frep (recorded start) waiting_sys box2 s2 empty_box s0 acked "message"%string
    (set_AckExpected true new_MessageState) (MkImapData 3 3 FlagSeen (time_Now 0)) (data_of acked) 2
    (default hello (snd <$> find_uid 3 s2))
    "87654321" "message")
    as (s' & b1' & a1' & b' & a' & m' & E & Hr & Hbx & _ & _ & _ & Hi & Ha & _ & _ & _ & Ht & Hack).
  - reflexivity.
  - reflexivity.
  - exact acked_saveable.
  - reflexivity.
  - exact box2_inv.
  - exact find_three.
  - reflexivity.
  - exact empty_box_inv.
  - split; [cbn; lia|vm_compute; discriminate].
  - exact acked_storable.
  - exists s', b', a', m'. split; [exact E|]. split; [exact Hr|]. split; [rewrite Hbx; apply lookup_insert_eq|].
    split; [exact Hi|]. split; [exact Ha|]. split; [exact Ht|]. apply Hack; [reflexivity..|].
    rewrite elem_of_cons. cbn. vm_compute. intros [H|H]; [discriminate|]. by apply not_elem_of_nil in H.
Defined.
End witnesses.
