(* ===== verification/Smtp.v ===== *)
(** * SMTP sessions ([user/smtp.go], [user/email/smtp.go], [user/email/imap.go])

    A session reads lines until its connection ends; each goes to the
    protocol of the SMTP library, a parameter, which calls the handlers of
    the server and answers.  A line is whole when its newline has come.

    Proved: a session ends, its lines go to the protocol once each and in
    order, whether the peer still reads or not, and what is sent is the
    answers, up to the point where the peer stops reading.  However the
    sessions of a server interleave, none takes lines of another.

    Not true of the code: a connection is closed when its session ends. *)

From S2P Require Import Prelude Bytes Text Bolt StoreEnv Bmutil FolderSpec Keys Email Codec MessageSequence Mailbox Commands User.
Local Open Scope Z_scope.
Local Open Scope list_scope.

Record SMTPConfig := MkSMTPConfig { RequireTLS : bool; smtp_Username : string; smtp_Password : string }.
Record IMAPConfig := MkIMAPConfig { imap_Username : string; imap_Password : string; imap_RequireTLS : bool }.

(** What the protocol calls; [X] is the state of the user. *)
Record Handlers (X : Type) := MkHandlers {
  ValidateSenderHandler : string → X → res bool;
  ValidateRecipientHandler : string → bool;
  ValidateAuthenticationHandler : string → list string → res (Reply * bool);
  GetAuthenticationMechanismsHandler : list string;
  MessageReceivedHandler : string → Content → M X string;
}.
Arguments MkHandlers {_} _ _ _ _ _.

(** [smtp.Protocol]: its state, its replies as lines; [Parse] without what
    is left of the line. *)
Class SmtpLib (X : Type) := {
  Protocol : Type;
  NewProtocol : Handlers X → Protocol;
  Protocol_Start : M Protocol (option (list string));
  Protocol_Parse : string → M (Protocol * X) (option (list string));
}.

(** A connection: what the peer sends until it ends it, what was sent to him,
    and the writes that he will still take, if not all. *)
Record Conn := MkConn { incoming : string; sent : list string; room : option nat }.

Definition io_EOF : error := ErrNew "EOF".
Definition conn_Write (r : string) : M Conn unit := λ c,
  match room c with
  | Some O => (Err (ErrNew "broken pipe"), c)
  | Some (S n) => (Ok tt, MkConn (incoming c) (sent c ++ [r]) (Some n))
  | None => (Ok tt, MkConn (incoming c) (sent c ++ [r]) None)
  end.

(** [reader.ReadString]: up to the newline, or an error at the end. *)
Fixpoint split_line (s : string) : option (string * string) :=
  match s with
  | EmptyString => None
  | String c s =>
      if is_char 10 c then Some (String c EmptyString, s)
      else match split_line s with Some (l, rest) => Some (String c l, rest) | None => None end
  end.
Definition ReadString : M Conn string := λ c,
  match split_line (incoming c) with
  | Some (l, rest) => (Ok l, MkConn rest (sent c) (room c))
  | None => (Err io_EOF, MkConn EmptyString (sent c) (room c))
  end.

Section sessions.
Context {X : Type} {SM : SmtpLib X}.

Definition on_conn {A} (f : M Conn A) : M (Conn * (Protocol * X)) A := zoom fst (λ c s, (c, s.2)) f.
Definition on_protocol {A} (f : M (Protocol * X) A) : M (Conn * (Protocol * X)) A := zoom snd (λ p s, (s.1, p)) f.

(** The error of a write ends the loop over the lines, not the session. *)
Fixpoint write_lines (rs : list string) : M Conn unit :=
  match rs with
  | [] => mret tt
  | r :: rs =>
      x ← try (conn_Write r);
      match x with inl _ => write_lines rs | inr _ => mret tt end
  end.
Definition write_reply (reply : option (list string)) : M Conn unit :=
  match reply with Some rs => write_lines rs | None => mret tt end.

(** A round of the loop: the next reply, or the end. *)
Definition round (reply : option (list string)) : M (Conn * (Protocol * X)) (option (option (list string))) :=
  _ ← on_conn (write_reply reply);
  command ← try (on_conn ReadString);
  match command with
  | inr _ => mret None
  | inl command => reply ← on_protocol (Protocol_Parse command); mret (Some reply)
  end.
Fixpoint smtp_loop (fuel : nat) (reply : option (list string)) : M (Conn * (Protocol * X)) unit :=
  match fuel with
  | O => lift Hang
  | S fuel =>
      next ← round reply;
      match next with None => mret tt | Some reply => smtp_loop fuel reply end
  end.

(** More rounds than there are lines. *)
Definition smtpRun : M (Conn * (Protocol * X)) unit :=
  reply ← on_protocol (zoom fst (λ p s, (p, s.2)) Protocol_Start);
  s ← get;
  smtp_loop (S (String.length (incoming s.1))) reply.

(** ** What a session does *)

(** The lines, the last of which may not be whole. *)
Fixpoint text_of (lines : list string) (rest : string) : string :=
  match lines with [] => rest | l :: lines => (l ++ newline ++ text_of lines rest)%string end.

(** The lines one after the other. *)
Fixpoint parse_all (lines : list string) : M (Protocol * X) (list (option (list string))) :=
  match lines with
  | [] => mret []
  | l :: lines =>
      r ← Protocol_Parse (l ++ newline);
      rs ← parse_all lines;
      mret (r :: rs)
  end.

(** The lines that can still be written. *)
Definition taken (o : option nat) (rs : list string) : list string :=
  match o with Some n => take n rs | None => rs end.
Definition left_over (o : option nat) (rs : list string) : option nat :=
  (λ n, (n - length rs)%nat) <$> o.

Lemma split_line_app l s : has_byte 10 l = false → split_line (l ++ newline ++ s) = Some ((l ++ newline)%string, s).
Proof.
  induction l as [|c l IH]; [done|]. rewrite has_byte_one. intros [Hc Hl]%orb_false_iff.
  change (split_line (String c (l ++ newline ++ s)) = Some (String c (l ++ newline), s)).
  cbn [split_line]. by rewrite Hc, IH.
Qed.
Lemma split_line_none s : has_byte 10 s = false → split_line s = None.
Proof.
  induction s as [|c s IH]; [done|]. rewrite has_byte_one. intros [Hc Hs]%orb_false_iff.
  cbn [split_line]. by rewrite Hc, IH.
Qed.

Lemma write_lines_eq rs c :
  write_lines rs c = (Ok tt, MkConn (incoming c) (sent c ++ taken (room c) rs) (left_over (room c) rs)).
Proof.
  revert c. induction rs as [|r rs IH]; intros [i s o].
  { cbn. destruct o as [n|]; cbn; rewrite ?take_nil, app_nil_r, ?Nat.sub_0_r; done. }
  cbn [write_lines]. destruct o as [[|n]|].
  - unfold try, conn_Write. munfold. cbn. by rewrite app_nil_r.
  - rewrite (bind_Ok _ _ _ (inl tt) (MkConn i (s ++ [r]) (Some n))) by done. rewrite IH. cbn.
    by rewrite <- app_assoc.
  - rewrite (bind_Ok _ _ _ (inl tt) (MkConn i (s ++ [r]) None)) by done. rewrite IH. cbn.
    by rewrite <- app_assoc.
Qed.

Definition reply_lines (r : option (list string)) : list string := default [] r.

Lemma write_reply_eq r c : write_reply r c =
  (Ok tt, MkConn (incoming c) (sent c ++ taken (room c) (reply_lines r)) (left_over (room c) (reply_lines r))).
Proof. destruct r as [rs|]; [apply write_lines_eq|]. apply (write_lines_eq []). Qed.

Lemma taken_app o a b : taken o a ++ taken (left_over o a) b = taken o (a ++ b).
Proof. destruct o as [n|]; [|done]. cbn. by rewrite take_app. Qed.
Lemma left_over_app o a b : left_over (left_over o a) b = left_over o (a ++ b).
Proof. destruct o as [n|]; [|done]. cbn. f_equal. rewrite length_app. lia. Qed.

(** A round in which a line has come, and one in which none will. *)
Definition written (r : option (list string)) (i : string) (c : Conn) : Conn :=
  MkConn i (sent c ++ taken (room c) (reply_lines r)) (left_over (room c) (reply_lines r)).

Lemma round_eq r c px : round r (c, px) =
  match split_line (incoming c) with
  | None => (Ok None, (written r EmptyString c, px))
  | Some (l, rest) => let '(x, px') := Protocol_Parse l px in (res_map Some x, (written r rest c, px'))
  end.
Proof.
  unfold round. rewrite (bind_Ok _ _ _ tt (written r (incoming c) c, px))
    by (unfold on_conn, zoom; cbn [fst]; by rewrite write_reply_eq).
  unfold try, on_conn, on_protocol, zoom, ReadString. munfold. cbn [fst snd written incoming].
  destruct (split_line (incoming c)) as [[l rest]|]; [|done]. cbn [fst snd written incoming].
  by destruct (Protocol_Parse l px) as [[x|e| |] px'].
Qed.

Lemma smtp_loop_eq fuel lines rest r c px rs px' :
  Forall (λ l, has_byte 10 l = false) lines → has_byte 10 rest = false →
  incoming c = text_of lines rest → (length lines < fuel)%nat → parse_all lines px = (Ok rs, px') →
  let out := reply_lines r ++ (rs ≫= reply_lines) in
  smtp_loop fuel r (c, px) = (Ok tt, (MkConn EmptyString (sent c ++ taken (room c) out) (left_over (room c) out), px')).
Proof.
  revert fuel r c px rs. induction lines as [|l lines IH]; intros fuel r c px rs Hl Hrest Hin Hf Hp;
    (destruct fuel as [|fuel]; [cbn in Hf; lia|]); cbn [smtp_loop text_of] in *; cbv zeta.
  - injection Hp as <- <-. rewrite (bind_Ok _ _ _ None (written r EmptyString c, px)).
    + cbn. by rewrite app_nil_r.
    + by rewrite round_eq, Hin, split_line_none.
  - apply Forall_cons in Hl as [Hl1 Hl].
    apply bind_inv in Hp as (r1 & px1 & Hp1 & (rs1 & px2 & Hp2 & [= <- <-])%bind_inv).
    rewrite (bind_Ok _ _ _ (Some r1) (written r (text_of lines rest) c, px1)).
    + rewrite (IH fuel r1 _ px1 rs1) by (done || cbn in Hf |- *; lia). cbn [sent room bind written].
      by rewrite <- app_assoc, taken_app, left_over_app.
    + by rewrite round_eq, Hin, split_line_app, Hp1.
Qed.

Lemma length_text lines rest : (length lines ≤ String.length (text_of lines rest))%nat.
Proof.
  induction lines as [|l lines IH]; cbn [text_of length]; [lia|].
  rewrite !slength_app. cbn. lia.
Qed.

(** A session ends.  Its whole lines went to the protocol once each and in
    order, and no more; what was sent is the greeting and the answers, as far
    as the peer took them: commands are carried out for a peer that does not
    read any more. *)
Theorem smtpRun_lines lines rest c p x r0 p0 rs px' :
  Forall (λ l, has_byte 10 l = false) lines → has_byte 10 rest = false → incoming c = text_of lines rest →
  Protocol_Start p = (Ok r0, p0) → parse_all lines (p0, x) = (Ok rs, px') →
  let out := reply_lines r0 ++ (rs ≫= reply_lines) in
  smtpRun (c, (p, x)) = (Ok tt, (MkConn EmptyString (sent c ++ taken (room c) out) (left_over (room c) out), px')).
Proof.
  intros Hl Hrest Hin Hs Hp out. unfold smtpRun.
  rewrite (bind_Ok _ _ _ r0 (c, (p0, x))) by (unfold on_protocol, zoom; cbn [fst snd]; by rewrite Hs).
  rewrite (bind_Ok _ _ _ (c, (p0, x)) (c, (p0, x))) by done. cbn [fst].
  apply (smtp_loop_eq _ lines rest); try done. rewrite Hin. pose proof (length_text lines rest). lia.
Qed.
End sessions.

(** ** The server *)

Section serve.
Context {X : Type} {SM : SmtpLib X}.
Context (handlers : Handlers X).

(** What a session of the server is at between two rounds, and whether its
    loop has ended; [Serve] accepts connections, the sessions are goroutines
    over one user. *)
Record session := MkSession {
  ss_conn : Conn;
  ss_protocol : Protocol;
  ss_reply : option (list string);
  ss_over : bool;
}.
Record Serving := MkServing { accepting : bool; sessions : list session; shared : X }.

Inductive serve_event :=
  | Accepted (c : Conn)
  | AcceptFailed
  | Line (i : nat) (l : string)
  | Ended (i : nat).

Inductive serve_step : Serving → serve_event → Serving → Prop :=
  | serve_accept c r p ss x :
      Protocol_Start (NewProtocol handlers) = (Ok r, p) →
      serve_step (MkServing true ss x) (Accepted c) (MkServing true (ss ++ [MkSession c p r false]) x)
  | serve_fail ss x : serve_step (MkServing true ss x) AcceptFailed (MkServing false ss x)
  | serve_line b ss x i c p r l rest r' c' p' x' :
      ss !! i = Some (MkSession c p r false) → split_line (incoming c) = Some (l, rest) →
      round r (c, (p, x)) = (Ok (Some r'), (c', (p', x'))) →
      serve_step (MkServing b ss x) (Line i l) (MkServing b (<[i := MkSession c' p' r' false]> ss) x')
  | serve_end b ss x i c p r c' p' x' :
      ss !! i = Some (MkSession c p r false) →
      round r (c, (p, x)) = (Ok None, (c', (p', x'))) →
      serve_step (MkServing b ss x) (Ended i) (MkServing b (<[i := MkSession c' p' r true]> ss) x').

Inductive serve_steps (x0 : X) : list serve_event → Serving → Prop :=
  | serve_init : serve_steps x0 [] (MkServing true [] x0)
  | serve_snoc tr s e s' : serve_steps x0 tr s → serve_step s e s' → serve_steps x0 (tr ++ [e]) s'.

(** The connections that were accepted, and the lines taken from the one at
    an index. *)
Definition accepted_conns (tr : list serve_event) : list Conn :=
  omap (λ e, match e with Accepted c => Some c | _ => None end) tr.
Definition lines_of (i : nat) (tr : list serve_event) : list string :=
  omap (λ e, match e with Line j l => if bool_decide (i = j) then Some l else None | _ => None end) tr.

(** A line with its newline, the only one. *)
Definition whole_line (l : string) : Prop := ∃ l', l = (l' ++ newline)%string ∧ has_byte 10 l' = false.

Lemma split_line_whole s l rest : split_line s = Some (l, rest) → whole_line l ∧ s = (l ++ rest)%string.
Proof.
  revert l. induction s as [|c s IH]; intros l; [done|]. cbn [split_line].
  destruct (is_char 10 c) eqn:Hc.
  - intros [= <- <-]. split; [|done]. exists EmptyString. split; [|done].
    apply Z.eqb_eq in Hc. change (String c EmptyString = newline). unfold newline. f_equal. by apply Z_of_byte_inj.
  - destruct (split_line s) as [[l0 r0]|]; [|done]. intros [= <- <-].
    destruct (IH _ eq_refl) as [(l' & -> & Hl) ->]. split; [|done].
    exists (String c l'). split; [done|]. by rewrite has_byte_one, Hc.
Qed.
Lemma split_line_None s : split_line s = None → has_byte 10 s = false.
Proof.
  induction s as [|c s IH]; [done|]. cbn [split_line]. rewrite has_byte_one.
  destruct (is_char 10 c); [done|]. destruct (split_line s) as [[]|]; [done|]. auto.
Qed.

Definition joined (ls : list string) : string := foldr String.append EmptyString ls.
Lemma joined_snoc ls l : joined (ls ++ [l]) = (joined ls ++ l)%string.
Proof.
  unfold joined. induction ls as [|x ls IH]; cbn [app foldr]; [by rewrite sapp_nil_r|].
  by rewrite IH, sapp_assoc.
Qed.

(** What is known of a session from the lines taken. *)
Definition in_order (c0 : Conn) (ls : list string) (s : session) : Prop :=
  Forall whole_line ls ∧
  ∃ rest, incoming c0 = (joined ls ++ incoming (ss_conn s) ++ rest)%string ∧ has_byte 10 rest = false ∧
    if ss_over s then incoming (ss_conn s) = EmptyString else rest = EmptyString.

Lemma lines_of_snoc i tr e :
  lines_of i (tr ++ [e]) = lines_of i tr ++ match e with Line j l => if bool_decide (i = j) then [l] else [] | _ => [] end.
Proof. unfold lines_of. rewrite omap_app. f_equal. destruct e as [| |j l|]; cbn; try case_bool_decide; done. Qed.
Lemma accepted_snoc tr e :
  accepted_conns (tr ++ [e]) = accepted_conns tr ++ match e with Accepted c => [c] | _ => [] end.
Proof. unfold accepted_conns. rewrite omap_app. by destruct e. Qed.

Lemma in_order_line c0 ls c p r l rest r' c' p' x x' : split_line (incoming c) = Some (l, rest) →
  round r (c, (p, x)) = (Ok (Some r'), (c', (p', x'))) →
  in_order c0 ls (MkSession c p r false) → in_order c0 (ls ++ [l]) (MkSession c' p' r' false).
Proof.
  rewrite round_eq. intros Hs. rewrite Hs. destruct (Protocol_Parse l _) as [[y|e| |] px]; [|done..].
  intros [= _ <- _] [Hf (rest' & H0 & _ & ->)]. destruct (split_line_whole _ _ _ Hs) as [Hl Hi].
  split; [by apply Forall_app; split; [|constructor]|]. exists EmptyString. cbn [ss_conn ss_over written incoming] in *.
  split; [|done]. by rewrite H0, Hi, joined_snoc, !sapp_nil_r, sapp_assoc.
Qed.
Lemma in_order_end c0 ls c p r c' p' x x' : round r (c, (p, x)) = (Ok None, (c', (p', x'))) →
  in_order c0 ls (MkSession c p r false) → in_order c0 ls (MkSession c' p' r true).
Proof.
  rewrite round_eq. destruct (split_line (incoming c)) as [[l rest]|] eqn:Hs.
  { by destruct (Protocol_Parse l _) as [[y|e| |] px]. }
  intros [= <- _ _] [Hf (rest' & H0 & _ & ->)]. split; [done|]. exists (incoming c).
  cbn [ss_conn ss_over written incoming] in *. rewrite sapp_nil_r in H0.
  split; [done|]. split; [by apply split_line_None|done].
Qed.

(** Sessions are as many as connections, and each in order. *)
Definition served (tr : list serve_event) (s : Serving) : Prop :=
  length (sessions s) = length (accepted_conns tr) ∧
  (∀ i, (length (sessions s) ≤ i)%nat → lines_of i tr = []) ∧
  ∀ i se c0, sessions s !! i = Some se → accepted_conns tr !! i = Some c0 → in_order c0 (lines_of i tr) se.

Lemma served_update tr e b ss x i se se' x' :
  served tr (MkServing b ss x) → ss !! i = Some se → accepted_conns (tr ++ [e]) = accepted_conns tr →
  (∀ j, j ≠ i → lines_of j (tr ++ [e]) = lines_of j tr) →
  (∀ c0, in_order c0 (lines_of i tr) se → in_order c0 (lines_of i (tr ++ [e])) se') →
  served (tr ++ [e]) (MkServing b (<[i := se']> ss) x').
Proof.
  intros (H1 & H2 & H3) Hi Ha Hl Hs. cbn [sessions] in *. unfold served. cbn [sessions]. rewrite Ha, length_insert.
  pose proof (lookup_lt_Some _ _ _ Hi). split; [done|]. split.
  - intros j Hj. rewrite Hl by lia. by apply H2.
  - intros j sj c0. destruct (decide (j = i)) as [->|Hn].
    + rewrite list_lookup_insert_eq by done. intros [= <-] Hc. by apply Hs, (H3 i se).
    + rewrite list_lookup_insert_ne by done. intros Hj Hc. rewrite Hl by done. by apply (H3 j sj).
Qed.

Lemma served_step tr s e s' : served tr s → serve_step s e s' → served (tr ++ [e]) s'.
Proof.
  intros Hi Hs. destruct Hs as [c r p ss x Hp|ss x|b ss x i c p r l rest r' c' p' x' Hs Hl Hr|b ss x i c p r c' p' x' Hs Hr].
  - destruct Hi as (H1 & H2 & H3). unfold served. cbn [sessions] in *. rewrite accepted_snoc, !length_app.
    split; [cbn; lia|]. split; [intros i Hi; rewrite lines_of_snoc, app_nil_r; apply H2; lia|].
    intros i se c0 Hse Hc. rewrite lines_of_snoc, app_nil_r.
    apply lookup_app_Some in Hse as [Hse|[Hlen Hse]].
    + rewrite lookup_app_l in Hc by (rewrite <- H1; by eapply lookup_lt_Some). by apply (H3 i).
    + rewrite lookup_app_r in Hc by lia. rewrite <- H1 in Hc. rewrite H2 by done.
      destruct (i - length ss)%nat; [|done]. injection Hse as <-. injection Hc as <-.
      split; [constructor|]. exists EmptyString. by rewrite sapp_nil_r.
  - destruct Hi as (H1 & H2 & H3). unfold served. cbn [sessions] in *. rewrite accepted_snoc, app_nil_r.
    split; [done|]. split; intros i; rewrite lines_of_snoc, app_nil_r; [apply H2|apply H3].
  - eapply served_update; [done|done|by rewrite accepted_snoc, app_nil_r|..].
    + intros j Hn. by rewrite lines_of_snoc, bool_decide_eq_false_2, app_nil_r.
    + intros c0. rewrite lines_of_snoc, bool_decide_eq_true_2 by done. by eapply in_order_line.
  - eapply served_update; [done|done|by rewrite accepted_snoc, app_nil_r|..].
    + intros j Hn. by rewrite lines_of_snoc, app_nil_r.
    + intros c0. rewrite lines_of_snoc, app_nil_r. by eapply in_order_end.
Qed.

(** C36: however the sessions of a server interleave, each connection that was
    accepted has a session, whose lines so far are whole, are the beginning of
    what its peer sent, once each and in order, and are followed by what is
    still to be read; a session that has ended has taken all of its lines. *)
Theorem sessions_in_order x0 tr s : serve_steps x0 tr s →
  length (sessions s) = length (accepted_conns tr) ∧
  ∀ i se c0, sessions s !! i = Some se → accepted_conns tr !! i = Some c0 → in_order c0 (lines_of i tr) se.
Proof.
  intros H. assert (served tr s) as (H1 & _ & H3); [|done].
  induction H as [|tr s e s' _ IH Hs]; [|by eapply served_step]. by split; [|split; [|intros i se c0]].
Qed.
End serve.

Section server.
Context {EV : Env} {BM : Bmutil} {ML : MailLibs} {SZ : Codec.Serialize} {IS : ImapSeq}.
Context {ID : Identity} {PB : Publics} {WR : Wire} {PT : ProtoText}.
Context {F : Type} {FO : Folder F} {H : Type} {HO : Host H}.
Context (base64_Decode : string → res string).

(** What [Serve] gives to the protocol of each connection. *)
Definition smtp_handlers (cfg : SMTPConfig) : Handlers (Sys (F := F) (H := H)) :=
  MkHandlers validateSender ValidateEmail (validateAuth base64_Decode (smtp_Username cfg) (smtp_Password cfg))
    ["PLAIN"%string] messageReceived.
Definition Serve {SM : SmtpLib (Sys (F := F) (H := H))} (cfg : SMTPConfig) := serve_steps (smtp_handlers cfg).
End server.

(** ** Witness *)

Section witness.
(** Lines are kept, and each is answered. *)
#[local] Instance keeper : SmtpLib (list string) := {
  Protocol := nat;
  NewProtocol _ := 0%nat;
  Protocol_Start n := (Ok (Some ["220 hello"%string]), n);
  Protocol_Parse l s := (Ok (Some ["250 ok"%string]), (S s.1, s.2 ++ [l]));
}.
Definition no_handlers : Handlers (list string) :=
  MkHandlers (λ _ _, Ok true) (λ _, true) (λ _ _, Ok (ReplyAuthOk, true)) [] (λ id _, mret id).
Definition peer1 : Conn := MkConn ("HELO a" ++ newline ++ "QU")%string [] None.
Definition peer2 : Conn := MkConn ("HELO b" ++ newline ++ "QUIT" ++ newline)%string [] (Some 1%nat).
Definition line (s : string) : string := (s ++ newline)%string.

Definition at_point (c : Conn) (n : nat) (reply : string) (over : bool) : session (X := list string) :=
  MkSession c n (Some [reply]) over.

(** Two peers in turn; the first ends in the middle of a line, the second
    reads nothing but the greeting. *)
Definition turns : list serve_event :=
  [Accepted peer1; Accepted peer2; Line 1 (line "HELO b"); Line 0 (line "HELO a"); Line 1 (line "QUIT"); Ended 0].
Definition after_turns : Serving := MkServing true
  [at_point (MkConn EmptyString ["220 hello"; "250 ok"]%string None) 1%nat "250 ok" true;
   at_point (MkConn EmptyString ["220 hello"]%string (Some 0%nat)) 2%nat "250 ok" false]
  [line "HELO b"; line "HELO a"; line "QUIT"].

Lemma line_to b ss x i l rest c n r c' n' r' x' ss' : ss !! i = Some (at_point c n r false) →
  split_line (incoming c) = Some (l, rest) →
  round (Some [r]) (c, (n, x)) = (Ok (Some (Some [r'])), (c', (n', x'))) → ss' = <[i := at_point c' n' r' false]> ss →
  serve_step no_handlers (MkServing b ss x) (Line i l) (MkServing b ss' x').
Proof. intros H1 H2 H3 ->. by eapply serve_line. Qed.
Lemma end_to b ss x i c n r c' n' x' ss' : ss !! i = Some (at_point c n r false) →
  round (Some [r]) (c, (n, x)) = (Ok None, (c', (n', x'))) → ss' = <[i := at_point c' n' r true]> ss →
  serve_step no_handlers (MkServing b ss x) (Ended i) (MkServing b ss' x').
Proof. intros H1 H2 ->. by eapply serve_end. Qed.

Lemma turns_steps : serve_steps no_handlers [] turns after_turns.
Proof.
  apply (serve_snoc _ _ [Accepted peer1; Accepted peer2; Line 1 (line "HELO b"); Line 0 (line "HELO a"); Line 1 (line "QUIT")]
    (MkServing true [at_point (MkConn "QU" ["220 hello"%string] None) 1%nat "250 ok" false;
       at_point (MkConn EmptyString ["220 hello"]%string (Some 0%nat)) 2%nat "250 ok" false]
       [line "HELO b"; line "HELO a"; line "QUIT"])).
  2:{ by eapply end_to. }
  apply (serve_snoc _ _ [Accepted peer1; Accepted peer2; Line 1 (line "HELO b"); Line 0 (line "HELO a")]
    (MkServing true [at_point (MkConn "QU" ["220 hello"%string] None) 1%nat "250 ok" false;
       at_point (MkConn (line "QUIT") ["220 hello"]%string (Some 0%nat)) 1%nat "250 ok" false]
       [line "HELO b"; line "HELO a"])).
  2:{ by eapply (line_to _ _ _ 1%nat). }
  apply (serve_snoc _ _ [Accepted peer1; Accepted peer2; Line 1 (line "HELO b")]
    (MkServing true [at_point peer1 0%nat "220 hello" false;
       at_point (MkConn (line "QUIT") ["220 hello"]%string (Some 0%nat)) 1%nat "250 ok" false]
       [line "HELO b"])).
  2:{ by eapply (line_to _ _ _ 0%nat). }
  apply (serve_snoc _ _ [Accepted peer1; Accepted peer2]
    (MkServing true [at_point peer1 0%nat "220 hello" false;
       at_point peer2 0%nat "220 hello" false] [])).
  2:{ by eapply (line_to _ _ _ 1%nat). }
  apply (serve_snoc _ _ [Accepted peer1] (MkServing true [at_point peer1 0%nat "220 hello" false] [])).
  2:{ by eapply (serve_accept _ _ _ _ [_]). }
  apply (serve_snoc _ _ [] (MkServing true [] [])); [constructor|]. by apply (serve_accept _ _ _ _ []).
Qed.

Lemma sessions_in_order_witness :
  lines_of 1 turns = [line "HELO b"; line "QUIT"] ∧
  ∀ i se c0, sessions after_turns !! i = Some se → accepted_conns turns !! i = Some c0 →
    in_order c0 (lines_of i turns) se.
Proof.
  split; [reflexivity|]. exact (proj2 (sessions_in_order no_handlers [] turns after_turns turns_steps)).
Defined.
End witness.
