(* ===== verification/Server.v ===== *)
(** * The server ([server.go], [serverops.go], [user.go], [bmrpc/client.go])

    The server holds the keys of the user, the store, the cache of public
    identities, the proof-of-work queue and the connection to [bmd]; it
    implements what a user needs of it ([Host]).  Objects that arrive are
    given to [newMessage], [newBroadcast] and [newGetpubkey]; the program has
    one user, number 1.  The closures of the server and those of its user
    wait in one queue.

    Proved: a message for one of our keys arrives in the inbox, and the ack
    it carries is sent; a message for nobody changes only the counter; the
    counters that are saved are those that are loaded.  Not true of the code:
    broadcasts can be sent; a broadcast of somebody else is ignored. *)

From S2P Require Import Prelude Bytes Text Bolt StoreEnv Bmutil FolderSpec Store Pow Keys IdMgr.
From S2P Require Import Float64 MessageSequence Email Codec Mailbox MailboxInv Commands User Sending.
Local Open Scope Z_scope.
Local Open Scope list_scope.

(** ** Parameters *)

(** The answer of [bmd] to a request for an identity. *)
Record GetIdentityReply := MkGetIdentityReply {
  SigningKey : string;
  EncryptionKey : string;
  id_reply_Behavior : Z;
  NonceTrials : Z;
  ExtraBytes : Z;
}.
(** The code of an error of [grpc]: whether it is [codes.NotFound]. *)
Inductive rpc_error := NotFound | OtherError (e : error).

(** The connection, and what is read of the network's objects. *)
Class Network `{Wire} (B : Type) := {
  bmd_GetIdentity : string → M B (GetIdentityReply + rpc_error);
  bmd_SendObject : string → M B Z;
  PubKey : Type;
  ParsePubKey : string → res PubKey;
  NewPublic : PubKey → PubKey → Z → Z → Z → Z * Z → res IdPublic;  (** version, stream, behavior *)
  ObjMessage : Type;                              (** [obj.Message] *)
  Message_Decode : string → res ObjMessage;
  Message_Encrypted : ObjMessage → string;
  TryDecryptAndVerifyMessage : ObjMessage → option IdPrivateID → option CipherMessage;
  ObjBroadcast : Type;                            (** [obj.Broadcast] *)
  DecodeBroadcast : string → res ObjBroadcast;
  Broadcast_Encrypted : ObjBroadcast → string;
  TryDecryptAndVerifyBroadcast : ObjBroadcast → Address → option CipherMessage;
  GetPubKey_Decode : string → res (Z * string * string);  (** version, ripe, tag *)
  Tag : Address → string;
  MsgObject_Decode : string → res unit;
  GeneratePubKey : nat → IdPrivateID → Z → res Object;
  NewGetPubKey : Time → Address → Object;
  bytes_InventoryHash : string → Hash;            (** [hash.InventoryHash] *)
  AckLength : nat;
  MessageHeaderSize : nat;
  SimplePubKeyVersion : Z;
  ExtendedPubKeyVersion : Z;
  TagGetPubKeyVersion : Z;
  ObjectTypeGetPubKey : Z;
  ObjectTypePubKey : Z;
  pow_Default : Z * Z;
}.

(** [aes.BlockSize + 70 + aes.BlockSize + sha256.Size] *)
Definition smallestEncrypted : nat := 16 + 70 + 16 + 32.

(** Hours as durations. *)
Definition hours (n : Z) : Z := n * 3600 * 10 ^ 9.
Definition defaultPubkeyExpiry : Z := hours (24 * 14).
Definition defaultGetpubkeyExpiry : Z := hours (24 * 14).
Definition defaultUnknownObjExpiry : Z := hours 24.

(** ** The client of [bmd] ([bmrpc/client.go]) *)

Section client.
Context {EV : Env} {BM : Bmutil} {SZ : Serialize} {ID : Identity} {PB : Publics} {WR : Wire}.
Context {B : Type} {NW : Network B}.

Definition GetIdentity (address : string) : M B IdPublic :=
  match DecodeAddress address with
  | Err _ => fail (ErrNew "Address decode failed: <nil>")
  | Panic => panic
  | Hang => lift Hang
  | Ok addr =>
      r ← bmd_GetIdentity address;
      match r with
      | inr NotFound => fail ErrIdentityNotFound
      | inr (OtherError e) => fail e
      | inl reply =>
          verKey ← lift (ParsePubKey (SigningKey reply));
          encKey ← lift (ParsePubKey (EncryptionKey reply));
          lift (NewPublic verKey encKey (Address_Version addr) (Address_Stream addr)
            (id_reply_Behavior reply) (NonceTrials reply, ExtraBytes reply))
      end
  end.

Definition SendObject (obj : string) : M B Z := bmd_SendObject obj.

(** The objects received, with their counters, until the stream fails. *)
Definition processObjects {S} (f : Z → string → M S unit) (received : list (Z * string)) : M S unit :=
  mfor received (λ o, f o.1 o.2).
End client.

(** ** The file of keys ([user.go]) *)

Section keyfile.
Context {EV : Env} {BM : Bmutil} {ID : Identity} {JT : JsonText}.
(** [ioutil.WriteFile] on the file of keys, which is kept by its contents. *)
Context (WriteFile : string → M (option string) unit).

(** The state: the readings of randomness, and the file.  Errors are logged. *)
Definition saveKeyfile (keys : Manager) (pass : option string) : M (nat * option string) unit :=
  serialized ← try (match pass with
    | None => lift (ExportPlaintext keys)
    | Some pass => zoom fst (λ n s, (n, s.2)) (ExportEncrypted pass keys)
    end);
  match serialized with
  | inr _ => mret tt
  | inl serialized => _ ← try (zoom snd (λ f s, (s.1, f)) (WriteFile serialized)); mret tt
  end.
End keyfile.

(** ** The server *)

(** What the server does when a proof of work is done, or its user. *)
Inductive server_done `{Wire} :=
  | UserDone (d : pow_done)
  | SendPubKey (b : string)
  | SendGetPubKey (address b : string).

Section server.
Context {BT : Bolt} {EV : Env} {BM : Bmutil} {ML : MailLibs} {SZ : Serialize} {IS : ImapSeq}.
Context {ID : Identity} {PB : Publics} {WR : Wire} {PT : ProtoText}.
Context {F : Type} {FO : Folder F} {B : Type} {NW : Network B} {JT : JsonText}.
(** Attempts at deriving a key, see [IdMgr.mgr_New_next]. *)
Context (fuel : nat).

Local Abbreviation Queue := (Pow.Pow (Target := Target) (Done := server_done)).

(** The file of keys is kept by its contents. *)
Record Server := MkServer {
  keys : Manager;
  pubIDs : gmap string IdPublic;
  store : sworld;
  pow : Queue;
  workers : nat;             (** goroutines started by the queue *)
  bmd : B;
  msgCounter : Z;
  broadcastCounter : Z;
  getpubkeyCounter : Z;
  keyfilePass : option string;
  keyfile : option string;
  randoms : nat;
}.

Definition set_keys (k : Manager) (s : Server) : Server :=
  MkServer k (pubIDs s) (store s) (pow s) (workers s) (bmd s) (msgCounter s) (broadcastCounter s)
    (getpubkeyCounter s) (keyfilePass s) (keyfile s) (randoms s).
Definition set_pubIDs (c : gmap string IdPublic) (s : Server) : Server :=
  MkServer (keys s) c (store s) (pow s) (workers s) (bmd s) (msgCounter s) (broadcastCounter s)
    (getpubkeyCounter s) (keyfilePass s) (keyfile s) (randoms s).
Definition set_store (w : sworld) (s : Server) : Server :=
  MkServer (keys s) (pubIDs s) w (pow s) (workers s) (bmd s) (msgCounter s) (broadcastCounter s)
    (getpubkeyCounter s) (keyfilePass s) (keyfile s) (randoms s).
Definition set_pow (q : Queue) (n : nat) (s : Server) : Server :=
  MkServer (keys s) (pubIDs s) (store s) q n (bmd s) (msgCounter s) (broadcastCounter s)
    (getpubkeyCounter s) (keyfilePass s) (keyfile s) (randoms s).
Definition set_bmd (b : B) (s : Server) : Server :=
  MkServer (keys s) (pubIDs s) (store s) (pow s) (workers s) b (msgCounter s) (broadcastCounter s)
    (getpubkeyCounter s) (keyfilePass s) (keyfile s) (randoms s).
Definition set_counters (m b g : Z) (s : Server) : Server :=
  MkServer (keys s) (pubIDs s) (store s) (pow s) (workers s) (bmd s) m b g (keyfilePass s) (keyfile s)
    (randoms s).
Definition set_keyfile (f : option string) (s : Server) : Server :=
  MkServer (keys s) (pubIDs s) (store s) (pow s) (workers s) (bmd s) (msgCounter s) (broadcastCounter s)
    (getpubkeyCounter s) (keyfilePass s) f (randoms s).

Definition on_keys {A} (m : M Manager A) : M Server A := zoom keys set_keys m.
Definition on_store {A} (m : M sworld A) : M Server A := zoom store set_store m.
Definition on_bmd {A} (m : M B A) : M Server A := zoom bmd set_bmd m.

(** [s.pow.Run]; a worker may be started. *)
Definition run_pow (t : Target) (obj : string) (d : server_done) : M Server unit := λ s,
  match Pow.Run t obj d (pow s) with
  | (Ok started, q) => (Ok tt, set_pow q (if started : bool then S (workers s) else workers s) s)
  | (Err e, q) => (Err e, set_pow q (workers s) s)
  | (Panic, q) => (Panic, set_pow q (workers s) s)
  | (Hang, q) => (Hang, set_pow q (workers s) s)
  end.
Definition server_now : M Server Time := on_store (onsw read_now).
Definition server_random : M Server nat := λ s,
  (Ok (randoms s), MkServer (keys s) (pubIDs s) (store s) (pow s) (workers s) (bmd s) (msgCounter s)
    (broadcastCounter s) (getpubkeyCounter s) (keyfilePass s) (keyfile s) (S (randoms s))).

(** Errors are logged and returned. *)
Definition server_Send (obj : string) : M Server unit := _ ← on_bmd (SendObject obj); mret tt.

(** An object of the server's own is put in the queue. *)
Definition queue_object (o : Object) (d : string → server_done) : M Server unit :=
  b ← lift (slice_from 8 (wire_Encode o));
  t ← server_now;
  run_pow (CalculateTarget (Z.of_nat (String.length b)) (Seconds (Time_Sub (Object_Expiration o) t)) pow_Default)
    b (d b).

Definition getOrRequestPublicIdentity (address : string) : M Server (option IdPublic) :=
  id ← try (on_bmd (GetIdentity address));
  match id with
  | inl id => mret (Some id)
  | inr err =>
      if negb (bool_decide (err = ErrIdentityNotFound)) then fail err
      else
        match DecodeAddress address with
        | Ok addr =>
            t ← server_now;
            _ ← queue_object (NewGetPubKey (Time_Add t defaultGetpubkeyExpiry) addr) (SendGetPubKey address);
            mret None
        | Err e => fail (ErrNew ("Failed to decode address: " ++ Error e)%string)
        | Panic => panic
        | Hang => lift Hang
        end
  end.

(** ** The operations for the user ([serverops.go]) *)

Definition GetPrivateID (addr : string) (s : Server) : option PrivateID := mgr_Get addr (keys s).

(** [private.Public()] calls itself without end. *)
Definition server_GetOrRequestPublicID (emailAddress : string) : M Server Recipient :=
  addr ← lift (ToBm emailAddress);
  if bool_decide (addr = Broadcast) then mret PBroadcast
  else
    s ← get;
    match pubIDs s !! addr with
    | Some identity => mret (PKnown identity)
    | None =>
        match GetPrivateID addr s with
        | Some _ => lift Hang
        | None =>
            pubID ← getOrRequestPublicIdentity addr;
            match pubID with
            | None => fail ErrGetPubKeySent
            | Some pubID => _ ← modify (λ s, set_pubIDs (<[addr := pubID]> (pubIDs s)) s); mret (PKnown pubID)
            end
        end
    end.

(** [msgExpiry] and [broadcastExpiry] are those of the configuration. *)
Definition ObjectExpiration (msgExpiry broadcastExpiry objType : Z) : Z :=
  if objType =? ObjectTypeMsg then msgExpiry
  else if objType =? ObjectTypeBroadcast then broadcastExpiry
  else if objType =? ObjectTypeGetPubKey then defaultGetpubkeyExpiry
  else if objType =? ObjectTypePubKey then defaultPubkeyExpiry
  else defaultUnknownObjExpiry.

#[export] Instance server_keys : Keyring Server := {
  keys_Get := GetPrivateID;
  keys_NewUnnamed stream behavior := on_keys (NewUnnamed fuel stream behavior);
  keys_Names s := mgr_Names (keys s);
}.
#[export] Instance server_host : Host Server := {
  host_keys := server_keys;
  GetOrRequestPublicID := server_GetOrRequestPublicID;
  Send obj := _ ← try (server_Send obj); mret tt;
  pow_Run t obj d := run_pow t obj (UserDone d);
  now := server_now;
  random := server_random;
}.

(** ** Files and counters ([user.go], [server.go]) *)

(** [ioutil.WriteFile] on the file of keys. *)
Context (WriteFile : string → M (option string) unit).

Definition set_reads (n : nat) (s : Server) : Server :=
  let w := st_wld (store s) in
  set_store (SW (st_this (store s)) (World (StoreEnv.db w) (db_open w) (writing w) n (ticks w))) s.
Definition SaveKeyfile : M Server unit :=
  s ← get;
  zoom (λ s, (reads (st_wld (store s)), keyfile s)) (λ x s, set_keyfile x.2 (set_reads x.1 s))
    (saveKeyfile WriteFile (keys s) (keyfilePass s)).

(** Errors are logged. *)
Definition saveData : M Server unit :=
  _ ← SaveKeyfile;
  s ← get;
  _ ← try (on_store (SetCounter ObjectTypeMsg (msgCounter s)));
  s ← get;
  _ ← try (on_store (SetCounter ObjectTypeBroadcast (broadcastCounter s)));
  s ← get;
  _ ← try (on_store (SetCounter ObjectTypeGetPubKey (getpubkeyCounter s)));
  mret tt.

(** A counter that cannot be read is left at zero. *)
Definition load_counter (objType : Z) (s : Server) : res Z :=
  match GetCounter objType (store s) with Err _ => Ok 0 | r => r end.
Definition load_counters : M Server unit :=
  s ← get;
  m ← lift (load_counter ObjectTypeMsg s);
  b ← lift (load_counter ObjectTypeBroadcast s);
  g ← lift (load_counter ObjectTypeGetPubKey s);
  modify (set_counters m b g).

(** ** Objects received ([server.go]) *)

Local Abbreviation System := (Sys (F := F) (H := Server)).

Definition srv {A} (m : M Server A) : M System A := host m.

(** The last message decrypted, its address, and whether it is a channel's. *)
Definition decrypted : Type := option CipherMessage * string * bool.

(** The callback of the search for a key. *)
Definition try_key (msg : ObjMessage) (id : PrivateID) : M decrypted unit := λ acc,
  match TryDecryptAndVerifyMessage msg (Private id) with
  | Some message =>
      match PrivateID_Address id with
      | Ok addr => (Err errSuccessCode, (Some message, Address_String addr, IsChan id))
      | Err e => (Err e, (Some message, acc.1.2, acc.2))
      | Panic => (Panic, acc)
      | Hang => (Hang, acc)
      end
  | None => (Ok tt, (None, acc.1.2, acc.2))
  end.
Definition find_key (msg : ObjMessage) (m : Manager) : res decrypted :=
  match IdMgr.ForEach (try_key msg) m (None, EmptyString, false) with
  | (Panic, _) => Panic
  | (Hang, _) => Hang
  | (_, acc) => Ok acc
  end.

(** What is done with the ack of a message that was filed. *)
Definition return_ack (message : CipherMessage) (ofChan : bool) : M Server unit :=
  match cm_ack message with
  | None => mret tt
  | Some ack =>
      if (String.length ack <? MessageHeaderSize)%nat || ofChan then mret tt
      else
        ackObj ← lift (slice_from MessageHeaderSize ack);
        match MsgObject_Decode ackObj with
        | Ok _ => _ ← try (on_bmd (SendObject ack)); mret tt
        | Err _ => mret tt
        | Panic => panic
        | Hang => lift Hang
        end
  end.

(** The user delivers an ack whose hash it awaits. *)
Definition newMessage (counter : Z) (object : string) : M System unit :=
  _ ← srv (modify (λ s, set_counters counter (broadcastCounter s) (getpubkeyCounter s) s));
  match Message_Decode object with
  | Err _ => mret tt
  | Panic => panic
  | Hang => lift Hang
  | Ok msg =>
      if (String.length object =? AckLength)%nat then
        _ ← try (DeliverAckReply (bytes_InventoryHash object)); mret tt
      else if (String.length (Message_Encrypted msg) <=? smallestEncrypted)%nat then mret tt
      else
        s ← get;
        '(message, address, ofChan) ← lift (find_key msg (keys (sys_host s)));
        match message with
        | None => mret tt
        | Some message =>
            r ← try (DeliverFromBMNet (MsgRead message address ofChan));
            match r with
            | inr _ => mret tt
            | inl _ => srv (return_ack message ofChan)
            end
        end
  end.

(** The callback for an address; a message that does not decrypt is a nil
    pointer, which [BroadcastRead] dereferences. *)
Definition try_address (msg : ObjBroadcast) (addr : Address) : M System unit :=
  broadcast ← lift (deref (TryDecryptAndVerifyBroadcast msg addr));
  r ← try (DeliverFromBMNet (BroadcastRead broadcast));
  match r with
  | inr _ => fail (ErrNew "Failed to save message")
  | inl _ => fail errSuccessCode
  end.

Fixpoint try_users (msg : ObjBroadcast) (users : list Store.User) : M System unit :=
  match users with
  | [] => mret tt
  | user :: users =>
      _ ← try (broadcasts_ForEach (user_broadcast user) (try_address msg));
      try_users msg users
  end.

Definition newBroadcast (counter : Z) (object : string) : M System unit :=
  _ ← srv (modify (λ s, set_counters (msgCounter s) counter (getpubkeyCounter s) s));
  match DecodeBroadcast object with
  | Err _ => mret tt
  | Panic => panic
  | Hang => lift Hang
  | Ok msg =>
      if (String.length (Broadcast_Encrypted msg) <=? smallestEncrypted)%nat then mret tt
      else s ← get; try_users msg (map_to_list (st_users (st_this (store (sys_host s))))).*2
  end.

(** Whether a request is for this identity. *)
Definition asked_for (version : Z) (ripe tag : string) (p : IdPrivateID) : bool :=
  if (version =? SimplePubKeyVersion) || (version =? ExtendedPubKeyVersion) then
    bool_decide (RipeHash (id_Address p) = ripe)
  else if version =? TagGetPubKeyVersion then bool_decide (Tag (id_Address p) = tag)
  else false.
Definition match_key (version : Z) (ripe tag : string) (id : PrivateID) : M (option PrivateID) unit :=
  if Disabled id || IsChan id then mret tt
  else
    p ← lift (deref (Private id));
    if asked_for version ripe tag p then _ ← put (Some id); fail (ErrNew "We have a match.") else mret tt.

Definition newGetpubkey (counter : Z) (object : string) : M Server unit :=
  _ ← modify (λ s, set_counters (msgCounter s) (broadcastCounter s) counter s);
  match GetPubKey_Decode object with
  | Err _ => mret tt
  | Panic => panic
  | Hang => lift Hang
  | Ok (version, ripe, tag) =>
      s ← get;
      match IdMgr.ForEach (match_key version ripe tag) (keys s) None with
      | (Ok _, _) => mret tt
      | (Panic, _) => panic
      | (Hang, _) => lift Hang
      | (Err _, privID) =>
          id ← lift (deref privID);
          p ← lift (deref (Private id));
          n ← server_random;
          match GeneratePubKey n p defaultPubkeyExpiry with
          | Ok pkObj => queue_object pkObj SendPubKey
          | Err _ => mret tt
          | Panic => panic
          | Hang => lift Hang
          end
      end
  end.

(** *** Proof of work done: [nonce] is its 8 bytes *)

Definition run_server_done (nonce : string) (d : server_done) : M System unit :=
  match d with
  | UserDone d => run_done nonce d
  | SendPubKey b => _ ← try (srv (server_Send (nonce ++ b))); mret tt
  | SendGetPubKey address b =>
      _ ← try (srv (server_Send (nonce ++ b)));
      _ ← try (srv (on_store (onsw (pk_New address))));
      mret tt
  end.

(** *** Public keys asked for *)

(** The keys that have arrived, by address; the requests are independent. *)
Fixpoint collect (addrs : list string) (found : gmap string IdPublic) : M Server (gmap string IdPublic) :=
  match addrs with
  | [] => mret found
  | addr :: addrs =>
      r ← try (on_bmd (GetIdentity addr));
      collect addrs (match r with inl public => <[addr := public]> found | inr _ => found end)
  end.
Definition requested (s : Server) : list string :=
  match pk_ForEach (λ addr _ _, modify (λ l, l ++ [addr])) (st_wld (store s)) [] with (_, l) => l end.

(** One tick of [pkRequestHandler]. *)
Definition check_public_keys : M System unit :=
  s ← get;
  found ← srv (collect (requested (sys_host s)) ∅);
  mfor (map_to_list found) (λ x,
    _ ← try (DeliverPublic x.1);
    _ ← try (srv (on_store (onsw (pk_Remove x.1))));
    mret tt).
End server.

(** ** Properties *)

Section laws.
Context {BT : Bolt} {EV : Env} {BM : Bmutil} {ML : MailLibs} {SZ : Serialize} {IS : ImapSeq}.
Context {ID : Identity} {PB : Publics} {WR : Wire} {PT : ProtoText}.
Context {F : Type} {FO : Folder F} {B : Type} {NW : Network B} {JT : JsonText}.
Context {LL : MailLaws} {EL : EnvLaws} {SL : SerializeLaws}.
Context (rep : F → fstate → Prop) {FR : FolderRefines F rep} {FI : FolderIterates F rep}.
Context (fuel : nat).
Implicit Types (s : Sys (F := F) (H := Server (B := B))) (h : Server (B := B)).

(** *** Searching for a key *)

Lemma try_keys_miss msg l : (∀ a p, (a, p) ∈ l → TryDecryptAndVerifyMessage msg (Private p) = None) →
  mfor l (λ x : string * PrivateID, try_key msg x.2) (None, EmptyString, false) =
  (Ok tt, (None, EmptyString, false)).
Proof.
  induction l as [|[a p] l IH]; intros Hl; [done|]. cbn [mfor].
  run_step ltac:(unfold try_key; cbn [snd]; rewrite (Hl a p) by apply list_elem_of_here; reflexivity).
  apply IH. intros a' p' Hin. apply (Hl a' p'). by apply list_elem_of_further.
Qed.

Lemma try_keys_hit msg l a p addr cm : (a, p) ∈ l → PrivateID_Address p = Ok addr →
  TryDecryptAndVerifyMessage msg (Private p) = Some cm →
  (∀ a' p', (a', p') ∈ l → a' ≠ a → TryDecryptAndVerifyMessage msg (Private p') = None) → NoDup l.*1 →
  mfor l (λ x : string * PrivateID, try_key msg x.2) (None, EmptyString, false) =
  (Err errSuccessCode, (Some cm, Address_String addr, IsChan p)).
Proof.
  induction l as [|[a1 p1] l IH]; intros Hin Ha Hp Hl Hnd; [by apply not_elem_of_nil in Hin|].
  apply NoDup_cons in Hnd as [Hn Hnd]. cbn [mfor].
  apply elem_of_cons in Hin as [[= <- <-]|Hin].
  - apply bind_Err. unfold try_key. cbn [snd]. by rewrite Hp, Ha.
  - run_step ltac:(unfold try_key; cbn [snd]; rewrite (Hl a1 p1); [reflexivity|apply list_elem_of_here|];
      intros ->; apply Hn; apply list_elem_of_fmap; by exists (a, p)).
    apply IH; [done..| |done]. intros a' p' Hin'. apply Hl. by apply list_elem_of_further.
Qed.

(** A message that one key decrypts, and no other. *)
Record for_key (msg : ObjMessage) (k : Manager) (p : PrivateID) (addr : Address) (cm : CipherMessage) : Prop := {
  fk_id : ∃ a, ids k !! a = Some p ∧
    ∀ a' p', ids k !! a' = Some p' → a' ≠ a → TryDecryptAndVerifyMessage msg (Private p') = None;
  fk_addr : PrivateID_Address p = Ok addr;
  fk_decrypt : TryDecryptAndVerifyMessage msg (Private p) = Some cm;
}.

Lemma find_key_hit msg k p addr cm : for_key msg k p addr cm →
  find_key msg k = Ok (Some cm, Address_String addr, IsChan p).
Proof.
  intros [(a & Ha & Hl) Haddr Hp]. unfold find_key, IdMgr.ForEach.
  rewrite (try_keys_hit msg _ a p addr cm); [done|by apply elem_of_map_to_list|done..| |apply NoDup_fst_map_to_list].
  intros a' p' Hin%elem_of_map_to_list. by apply Hl.
Qed.
Lemma find_key_miss msg k : (∀ a p, ids k !! a = Some p → TryDecryptAndVerifyMessage msg (Private p) = None) →
  find_key msg k = Ok (None, EmptyString, false).
Proof.
  intros Hl. unfold find_key, IdMgr.ForEach. rewrite try_keys_miss; [done|].
  intros a p Hin%elem_of_map_to_list. by eapply Hl.
Qed.

(** The server after a counter was stored, and after the clock was read. *)
Definition counted (counter : Z) h : Server := set_counters counter (broadcastCounter h) (getpubkeyCounter h) h.
Definition read_at h : Time := time_Now (ticks (st_wld (store h))).
Definition ticked h : Server :=
  let w := st_wld (store h) in
  set_store (SW (st_this (store h)) (World (StoreEnv.db w) (db_open w) (writing w) (reads w) (S (ticks w)))) h.

(** Storing a counter does not change the keys. *)
Ltac same_keys msg s :=
  match goal with |- context [find_key msg ?k] => change k with (keys (sys_host s)) end.

(** An ack that is to be sent back: the message carries it and did not come
    to a channel, and what follows its header is an object. *)
Record returnable (cm : CipherMessage) (ofChan : bool) (ack : string) : Prop := {
  rt_carried : cm_ack cm = Some ack;
  rt_private : ofChan = false;
  rt_object : ∃ hd body, ack = (hd ++ body)%string ∧ String.length hd = MessageHeaderSize ∧
    MsgObject_Decode body = Ok tt;
}.

(** It is sent as it came, its header included; that it cannot be sent is
    not an error. *)
Lemma return_ack_sent cm ofChan ack h r c :
  returnable cm ofChan ack → SendObject ack (bmd h) = (r, c) → (∃ n, r = Ok n) ∨ (∃ e, r = Err e) →
  return_ack cm ofChan h = (Ok tt, set_bmd c h).
Proof.
  intros [Ha -> (hd & body & -> & Hl & Hd)] Hs Hr.
  unfold return_ack. rewrite Ha, (proj2 (Nat.ltb_ge _ _)) by (rewrite slength_app; lia). cbn [orb].
  destruct (slice_app hd body _ Hl) as [_ Hb]. run_step ltac:(unfold lift; rewrite Hb; reflexivity). rewrite Hd.
  unfold try, on_bmd, zoom. munfold. rewrite Hs. by destruct Hr as [[n ->]|[e ->]].
Qed.
Lemma return_ack_none cm ofChan h :
  (∀ x, match MsgObject_Decode x with Panic | Hang => False | _ => True end) →
  (∀ ack, ¬ returnable cm ofChan ack) → return_ack cm ofChan h = (Ok tt, h).
Proof.
  intros Hret Hno. unfold return_ack. destruct (cm_ack cm) as [ack|] eqn:Ha; [|done].
  destruct (Nat.ltb_spec (String.length ack) MessageHeaderSize) as [Hlt|Hle]; [done|]. cbn [orb].
  destruct ofChan; [done|].
  set (hd := stake MessageHeaderSize ack). set (body := sdrop MessageHeaderSize ack).
  assert (ack = hd ++ body)%string as Hsplit by (symmetry; apply stake_sdrop).
  assert (String.length hd = MessageHeaderSize) as Hl by (by apply stake_length).
  destruct (slice_app hd body _ Hl) as [_ Hb]. rewrite <- Hsplit in Hb.
  run_step ltac:(unfold lift; rewrite Hb; reflexivity). specialize (Hret body).
  destruct (MsgObject_Decode body) as [[]|e| |] eqn:Hd; try done.
  destruct (Hno ack). split; [done..|]. by exists hd, body.
Qed.

(** C9: a message from the network that one of our keys decrypts is filed in
    the inbox as recent, from its sender and to the address of the key; its
    counter is stored.  Then, if it carries an ack, did not come to a
    channel, and what follows the header of the ack is an object, that ack
    is given to [bmd], once and whole, whether or not [bmd] takes it; and
    otherwise nothing is.  Nothing else of the user or of the server
    changes. *)
Theorem newMessage_delivers counter object s msg p addr cm b a :
  Message_Decode object = Ok msg → String.length object ≠ AckLength →
  (smallestEncrypted < String.length (Message_Encrypted msg))%nat →
  for_key msg (keys (sys_host s)) p addr cm →
  sys_boxes s !! InboxFolderName = Some b → box_inv rep b a → room 1 (abs a) →
  let filed := prepared b FlagRecent (read_at (sys_host s)) (MsgRead cm (Address_String addr) (IsChan p)) in
  storable filed →
  ∃ b' a', box_inv rep b' a' ∧ abs a' = AMail (fs_next a + 1) (visible a ++ [(fs_next a, stored filed)]) ∧
    let h := ticked (counted counter (sys_host s)) in
    (∀ ack r c, returnable cm (IsChan p) ack →
       bmd_SendObject ack (bmd (sys_host s)) = (r, c) → (∃ n, r = Ok n) ∨ (∃ e, r = Err e) →
       newMessage fuel counter object s = (Ok tt, set_host (set_bmd c h) (put_box InboxFolderName b' s))) ∧
    ((∀ x, match MsgObject_Decode x with Panic | Hang => False | _ => True end) →
     (∀ ack, ¬ returnable cm (IsChan p) ack) →
       newMessage fuel counter object s = (Ok tt, set_host h (put_box InboxFolderName b' s))).
Proof.
  intros Hm Hl Henc Hk Hb Hi Hr filed Hs. set (s1 := set_host (counted counter (sys_host s)) s).
  destruct (with_AddNew_ok (HO := server_host fuel) rep InboxFolderName s1 b a
    (MsgRead cm (Address_String addr) (IsChan p)) FlagRecent (read_at (sys_host s))
    (ticked (counted counter (sys_host s)))) as (b' & a' & He & Hi' & Ha'); [done..|].
  exists b', a'. split; [done|]. split; [done|]. intros h.
  assert (newMessage fuel counter object s =
    let '(r, h') := return_ack cm (IsChan p) h in (r, set_host h' (put_box InboxFolderName b' s))) as Hn.
  { unfold newMessage. run_step ltac:(reflexivity).
    rewrite Hm. rewrite (proj2 (Nat.eqb_neq _ _) Hl), (proj2 (Nat.leb_gt _ _) Henc).
    run_step ltac:(reflexivity).
    run_step ltac:(unfold lift; same_keys msg s; rewrite (find_key_hit _ _ _ _ _ Hk); reflexivity).
    cbv beta iota. run_step ltac:(unfold try, DeliverFromBMNet;
      match goal with |- context [with_msg _ _ ?x] => change x with s1 end; rewrite He; reflexivity).
    cbv beta iota. unfold srv, host, zoom. cbn [sys_host put_box set_user set_host s1].
    by destruct (return_ack cm (IsChan p) _). }
  rewrite Hn. split.
  - intros ack r c Hack Hsend Hret. by rewrite (return_ack_sent _ _ _ h r c Hack Hsend Hret).
  - intros Hret Hno. by rewrite (return_ack_none _ _ h Hret Hno).
Qed.

(** An object that is not a message, is too short, or is for none of our
    keys is ignored: only its counter is stored. *)
Theorem newMessage_ignores counter object s :
  (∃ e, Message_Decode object = Err e) ∨
  (∃ msg, Message_Decode object = Ok msg ∧ String.length object ≠ AckLength ∧
    ((String.length (Message_Encrypted msg) ≤ smallestEncrypted)%nat ∨
     ∀ a p, ids (keys (sys_host s)) !! a = Some p → TryDecryptAndVerifyMessage msg (Private p) = None)) →
  newMessage fuel counter object s = (Ok tt, set_host (counted counter (sys_host s)) s).
Proof.
  intros Hno. unfold newMessage. run_step ltac:(reflexivity).
  destruct Hno as [[e ->]|(msg & -> & Hl & Hno)]; [done|]. rewrite (proj2 (Nat.eqb_neq _ _) Hl).
  destruct (String.length (Message_Encrypted msg) <=? smallestEncrypted)%nat eqn:E; [done|].
  destruct Hno as [Hle|Hno]; [apply Nat.leb_gt in E; lia|]. run_step ltac:(reflexivity).
  run_step ltac:(unfold lift; same_keys msg s; rewrite (find_key_miss _ _ Hno); reflexivity).
  done.
Qed.

(** When the user subscribes to broadcasts, every broadcast that the
    first address does not decrypt, one of somebody else for instance, makes
    the server panic; one that it decrypts is filed as recent in the
    inbox. *)
Theorem newBroadcast_first counter object s msg name u addr rest b a :
  DecodeBroadcast object = Ok msg → (smallestEncrypted < String.length (Broadcast_Encrypted msg))%nat →
  st_users (st_this (store (sys_host s))) = {[ name := u ]} → ba_addrs (user_broadcast u) = addr :: rest →
  sys_boxes s !! InboxFolderName = Some b → box_inv rep b a → room 1 (abs a) →
  let h := set_counters (msgCounter (sys_host s)) counter (getpubkeyCounter (sys_host s)) (sys_host s) in
  let filed cm := prepared b FlagRecent (read_at (sys_host s)) (BroadcastRead cm) in
  match TryDecryptAndVerifyBroadcast msg addr with
  | None => newBroadcast fuel counter object s = (Panic, set_host h s)
  | Some cm => storable (filed cm) →
      ∃ b' a', newBroadcast fuel counter object s = (Ok tt, put_box InboxFolderName b' (set_host (ticked h) s)) ∧
        box_inv rep b' a' ∧ abs a' = AMail (fs_next a + 1) (visible a ++ [(fs_next a, stored (filed cm))])
  end.
Proof.
  intros Hm Henc Hu Hb Hbox Hi Hr h filed.
  assert (newBroadcast fuel counter object s =
    (_ ← try (_ ← try_address fuel msg addr; mfor rest (try_address fuel msg)); mret tt) (set_host h s)) as Hrun.
  { unfold newBroadcast. run_step ltac:(reflexivity). rewrite Hm, (proj2 (Nat.leb_gt _ _) Henc).
    run_step ltac:(reflexivity).
    match goal with |- context [st_users ?x] => change (st_users x) with (st_users (st_this (store (sys_host s)))) end.
    rewrite Hu, map_to_list_singleton. cbn [fmap list_fmap snd try_users]. unfold broadcasts_ForEach.
    by rewrite Hb. }
  destruct (TryDecryptAndVerifyBroadcast msg addr) as [cm|] eqn:E.
  - intros Hs.
    destruct (with_AddNew_ok (HO := server_host fuel) rep InboxFolderName (set_host h s) b a (BroadcastRead cm)
      FlagRecent (read_at (sys_host s)) (ticked h)) as (b' & a' & He & Hi' & Ha'); [done..|].
    exists b', a'. split; [|done]. rewrite Hrun. run_step ltac:(apply try_Err, bind_Err; unfold try_address;
      run_step ltac:(unfold lift; rewrite E; reflexivity);
      run_step ltac:(unfold try, DeliverFromBMNet; rewrite He; reflexivity); reflexivity).
    done.
  - rewrite Hrun. apply bind_Panic, try_Panic, bind_Panic. unfold try_address. apply bind_Panic.
    unfold lift. by rewrite E.
Qed.

(** Broadcasts cannot be sent: for the address of broadcasts, ToBm gives
    the empty string, which the server does not take for it; it asks bmd for
    the identity of an empty address, and processing the message fails with
    an error that does not name the cause. *)
Theorem broadcast_refused s m addr from p e0 x :
  To m = Broadcast → mail_ParseAddress Broadcast = Ok x → DecodeAddress EmptyString = Err e0 →
  pubIDs (sys_host s) !! EmptyString = None → mgr_Get EmptyString (keys (sys_host s)) = None →
  ToBm (From m) = Ok addr → mgr_Get addr (keys (sys_host s)) = Some from → Private from = Some p →
  box_getObject m (sys_boxes s !! OutboxFolderName) = Ok None →
  process (HO := server_host fuel) (s, m) = (Err (ErrNew "Address decode failed: <nil>"), (s, m)).
Proof.
  intros Hto Hx Hd Hc Hk0 Ha Hk Hp Ho.
  assert (GetOrRequestPublicID (Host := server_host fuel) Broadcast (sys_host s) =
    (Err (ErrNew "Address decode failed: <nil>"), sys_host s)) as Hg.
  { cbn. unfold server_GetOrRequestPublicID. assert (ToBm Broadcast = Ok EmptyString) as Hbm
      by (unfold ToBm; munfold; by rewrite Hx).
    run_step ltac:(unfold lift; rewrite Hbm; reflexivity). rewrite bool_decide_eq_false_2 by done.
    run_step ltac:(reflexivity). rewrite Hc. unfold GetPrivateID. rewrite Hk0.
    apply bind_Err. unfold getOrRequestPublicIdentity.
    run_step ltac:(apply try_Err; unfold on_bmd, zoom, GetIdentity; rewrite Hd; reflexivity).
    cbv beta iota. rewrite bool_decide_eq_false_2 by done. cbn [negb]. by destruct (sys_host s). }
  assert (generateObject (HO := server_host fuel) (s, m) = (Err (ErrNew "Address decode failed: <nil>"), (s, m))) as Hgen.
  { unfold generateObject. run_step ltac:(reflexivity). cbv beta iota.
    run_step ltac:(unfold lift; rewrite Ha; reflexivity). cbn [keys_Get host_keys server_host server_keys]. unfold GetPrivateID. rewrite Hk.
    run_step ltac:(unfold lift; rewrite Hp; reflexivity). run_step ltac:(unfold lift; rewrite Ho; reflexivity).
    cbv beta iota. rewrite Hto.
    run_step ltac:(unfold try, on_sys, host, zoom; cbn [fst]; rewrite Hg; reflexivity). cbv beta iota.
    rewrite bool_decide_eq_false_2 by done. by destruct s. }
  unfold process. rewrite (bind_Ok _ _ _ _ _ (try_Err _ _ _ _ Hgen)). cbv beta iota.
  by rewrite !bool_decide_eq_false_2.
Qed.

(** A message to one of our own addresses never gets an answer. *)
Lemma own_address_hangs a e h p : ToBm e = Ok a → a ≠ Broadcast → pubIDs h !! a = None →
  mgr_Get a (keys h) = Some p → server_GetOrRequestPublicID e h = (Hang, h).
Proof.
  intros Ha Hne Hc Hk. unfold server_GetOrRequestPublicID. run_step ltac:(unfold lift; rewrite Ha; reflexivity).
  rewrite bool_decide_eq_false_2 by done. run_step ltac:(reflexivity). rewrite Hc. unfold GetPrivateID.
  by rewrite Hk.
Qed.

(** *** Counters *)

Section counters.
Context {BL : BoltLaws}.
Context (WriteFile : string → M (option string) unit).

(** The three types of objects have numbers of their own. *)
Definition types_ok : Prop :=
  is_u32 ObjectTypeMsg ∧ is_u32 ObjectTypeBroadcast ∧ is_u32 ObjectTypeGetPubKey ∧
  NoDup [ObjectTypeMsg; ObjectTypeBroadcast; ObjectTypeGetPubKey].

(** Saving the keys leaves the counters and the database alone. *)
Lemma SaveKeyfile_store h r h1 : SaveKeyfile WriteFile h = (r, h1) →
  (counters_db (store h) → counters_db (store h1)) ∧
  msgCounter h1 = msgCounter h ∧ broadcastCounter h1 = broadcastCounter h ∧
  getpubkeyCounter h1 = getpubkeyCounter h.
Proof.
  assert (∀ n, counters_db (store h) → counters_db (store (set_reads n h))) as Hreads.
  { intros n [[H1 H2] H3 H4]. by split. }
  unfold SaveKeyfile. rewrite (bind_Ok _ _ h h h) by done. unfold zoom.
  destruct (saveKeyfile _ _ _ _) as [r' [n f]]. intros [= _ <-]. split; [apply Hreads|done].
Qed.

(** Saving one counter. *)
Lemma save_counter o c h : counters_db (store h) → is_u32 o → is_u64 c →
  ∃ w, try (on_store (SetCounter o c)) h = (Ok (inl tt), set_store w h) ∧ counters_db w ∧
    ∀ o', is_u32 o' → GetCounter o' w = if decide (o' = o) then Ok c else GetCounter o' (store h).
Proof.
  intros Hdb Ho Hc. destruct (SetCounter_step (store h) o c Hdb Ho Hc) as (w & He & Hw & Hg & _).
  exists w. split; [|done]. unfold try, on_store, zoom. by rewrite He.
Qed.

(** The counters that a server saves are those that it finds when it
    is started again; the database is ready for the next time. *)
Theorem counters_saved h h1 :
  types_ok → counters_db (store h) → SaveKeyfile WriteFile h = (Ok tt, h1) →
  is_u64 (msgCounter h) → is_u64 (broadcastCounter h) → is_u64 (getpubkeyCounter h) →
  ∃ h2, saveData WriteFile h = (Ok tt, h2) ∧ counters_db (store h2) ∧
    ∀ h3, store h3 = store h2 →
      load_counters h3 = (Ok tt, set_counters (msgCounter h) (broadcastCounter h) (getpubkeyCounter h) h3).
Proof.
  intros (Hu1 & Hu2 & Hu3 & Hnd) Hdb Hk H1 H2 H3.
  destruct (SaveKeyfile_store _ _ _ Hk) as (Hdb1 & E1 & E2 & E3).
  destruct (save_counter ObjectTypeMsg (msgCounter h1) h1) as (w1 & S1 & D1 & G1); [by auto|done|by rewrite E1|].
  destruct (save_counter ObjectTypeBroadcast (broadcastCounter h1) (set_store w1 h1)) as (w2 & S2 & D2 & G2);
    [done|done|by rewrite E2|].
  destruct (save_counter ObjectTypeGetPubKey (getpubkeyCounter h1) (set_store w2 (set_store w1 h1)))
    as (w3 & S3 & D3 & G3); [done|done|by rewrite E3|].
  rewrite E1 in *. rewrite E2 in *. rewrite E3 in *.
  exists (set_store w3 (set_store w2 (set_store w1 h1))). split; [|split; [done|]].
  - unfold saveData. run_step ltac:(exact Hk). run_step ltac:(reflexivity). rewrite E1.
    run_step ltac:(exact S1). run_step ltac:(reflexivity).
    change (broadcastCounter (set_store w1 h1)) with (broadcastCounter h1). rewrite E2.
    run_step ltac:(exact S2). run_step ltac:(reflexivity).
    change (getpubkeyCounter (set_store w2 (set_store w1 h1))) with (getpubkeyCounter h1). rewrite E3.
    by run_step ltac:(exact S3).
  - intros h3 Hs. change (store (set_store w3 (set_store w2 (set_store w1 h1)))) with w3 in Hs.
    apply NoDup_cons in Hnd as [N1 Hnd]. apply NoDup_cons in Hnd as [N2 _].
    assert (ObjectTypeMsg ≠ ObjectTypeBroadcast) as N12 by (intros E; apply N1; rewrite E; solve_elem).
    assert (ObjectTypeMsg ≠ ObjectTypeGetPubKey) as N13 by (intros E; apply N1; rewrite E; solve_elem).
    assert (ObjectTypeBroadcast ≠ ObjectTypeGetPubKey) as N23 by (intros E; apply N2; rewrite E; solve_elem).
    assert (GetCounter ObjectTypeMsg w3 = Ok (msgCounter h)) as L1
      by (rewrite G3, decide_False, G2, decide_False, G1, decide_True by done; done).
    assert (GetCounter ObjectTypeBroadcast w3 = Ok (broadcastCounter h)) as L2
      by (rewrite G3, decide_False, G2, decide_True by done; done).
    assert (GetCounter ObjectTypeGetPubKey w3 = Ok (getpubkeyCounter h)) as L3
      by (rewrite G3, decide_True by done; done).
    unfold load_counters, load_counter. run_step ltac:(reflexivity). rewrite Hs, L1, L2, L3. done.
Qed.
End counters.
End laws.

(** ** A concrete network: an object is decrypted by the key whose address
    it starts with *)

Module NetworkModel.
Import EnvModel BmutilModel IdentityModel SerializeModel WireModel.
Definition decrypts (msg address : string) : option CipherMessage :=
  if sprefix address msg
  then Some (MkCipherMessage "BM-def" (Some (Encoding2 "Hi" "there")) (byte_of_Z 9) (Some "an ack of some length"%string))
  else None.
#[export] Instance model : Network (list string) := {
  bmd_GetIdentity _ := mret (inr NotFound);
  bmd_SendObject o := _ ← modify (λ l, l ++ [o]); mret 1;
  PubKey := string;
  ParsePubKey s := Ok s;
  NewPublic v e version stream b d := Ok (v, b, Some d);
  ObjMessage := string;
  Message_Decode s := if bool_decide (s = EmptyString) then Err (ErrNew "EOF") else Ok s;
  Message_Encrypted s := s;
  TryDecryptAndVerifyMessage msg p := p ≫= λ q, decrypts msg q.1.1;
  ObjBroadcast := string;
  DecodeBroadcast s := Ok s;
  Broadcast_Encrypted s := s;
  TryDecryptAndVerifyBroadcast msg a := decrypts msg a;
  GetPubKey_Decode s := Ok (4, EmptyString, s);
  Tag a := a;
  MsgObject_Decode s := Ok tt;
  GeneratePubKey n p e := Ok "pubkey object"%string;
  NewGetPubKey t a := ("getpubkey " ++ a)%string;
  bytes_InventoryHash s := s;
  AckLength := 7;
  MessageHeaderSize := 4;
  SimplePubKeyVersion := 2;
  ExtendedPubKeyVersion := 3;
  TagGetPubKeyVersion := 4;
  ObjectTypeGetPubKey := 0;
  ObjectTypePubKey := 1;
  pow_Default := (1000, 1000);
}.
#[export] Instance json : JsonText := {
  json_Marshal _ := "{}"%string;
  json_Decode _ := Err (ErrNew "not a file of keys");
}.
End NetworkModel.

(** ** What the server is for its user

    The server keeps the promises of [Sending.HostView], as long as [bmd]
    accepts the objects it is sent: recipients whose identities it has cached
    are known, orders wait in its queue behind those of before, and what is
    sent goes to [bmd]. *)

Section view.
Context {BT : Bolt} {EV : Env} {BM : Bmutil} {ML : MailLibs} {SZ : Serialize} {IS : ImapSeq}.
Context {ID : Identity} {PB : Publics} {WR : Wire} {PT : ProtoText}.
Context {F : Type} {FO : Folder F} {B : Type} {NW : Network B} {JT : JsonText}.
Context (fuel : nat) (sent_to : B → list string).
Hypothesis bmd_accepts : ∀ x c, ∃ n c', bmd_SendObject x c = (Ok n, c') ∧ sent_to c' = sent_to c ++ [x].
Implicit Types (h : Server (B := B)).

Definition user_order (x : Target * string * pow_done) : powOrder :=
  MkOrder x.1.1 x.1.2 (UserDone x.2).

Record server_rep h (v : host_view) : Prop := {
  sv_keys a : GetPrivateID a h = hv_keys v a;
  sv_known a p : hv_known v a = Some p → ∃ addr, ToBm a = Ok addr ∧ addr ≠ Broadcast ∧ pubIDs h !! addr = Some p;
  sv_orders : ∃ before, represents (pow h) (before ++ (user_order <$> hv_queued v));
  sv_sent : ∃ before, sent_to (bmd h) = before ++ hv_sent v;
}.

Lemma server_rep_now h v : server_rep h v → ∃ t h', server_now h = (Ok t, h') ∧ server_rep h' v.
Proof. intros [Hk Hn Ho Hs]. do 2 eexists. split; [reflexivity|by split]. Qed.

Lemma server_rep_known h v a p : server_rep h v → hv_known v a = Some p →
  ∃ h', server_GetOrRequestPublicID a h = (Ok (PKnown p), h') ∧ server_rep h' v.
Proof.
  intros Hr Hk. destruct (sv_known _ _ Hr a p Hk) as (addr & Ha & Hne & Hp). exists h. split; [|done].
  unfold server_GetOrRequestPublicID. munfold. rewrite Ha. cbn. rewrite bool_decide_eq_false_2 by done. by rewrite Hp.
Qed.

Lemma server_rep_Send h v x : server_rep h v →
  ∃ h', (_ ← try (server_Send x); mret tt) h = (Ok tt, h') ∧ server_rep h' (hv_send x v).
Proof.
  intros [Hk Hn Ho [l Hs]]. destruct (bmd_accepts x (bmd h)) as (n & c' & E & Hc).
  exists (set_bmd c' h). split.
  - unfold server_Send, SendObject, on_bmd, zoom, try. munfold. by rewrite E.
  - split; [done|done|done|]. exists l. cbn. by rewrite Hc, Hs, app_assoc.
Qed.

Lemma server_rep_Run h v t x d : server_rep h v →
  ∃ h', run_pow t x (UserDone d) h = (Ok tt, h') ∧ server_rep h' (hv_queue (t, x, d) v).
Proof.
  intros [Hk Hn [l Ho] Hs]. destruct (enqueue_represents _ _ (user_order (t, x, d)) Ho) as (q & E & Hq).
  unfold run_pow, Pow.Run. change (MkOrder t x (UserDone d)) with (user_order (t, x, d)). rewrite E.
  eexists. split; [reflexivity|]. split; [done|done| |done]. exists l. cbn [hv_queued hv_queue pow set_pow].
  by rewrite fmap_app, app_assoc.
Qed.

Definition server_view : HostView (Host0 := server_host fuel) Server.
Proof.
  refine {| host_rep := server_rep |}.
  - intros h v a Hr. exact (sv_keys h v Hr a).
  - exact server_rep_now.
  - intros h v [Hk Hn Ho Hs]. do 2 eexists. split; [reflexivity|by split].
  - exact server_rep_known.
  - exact server_rep_Send.
  - exact server_rep_Run.
Defined.
End view.

Section witnesses.
Import BoltModel.Model EnvModel BmutilModel MailModel SerializeModel ImapModel IdentityModel WireModel NetworkModel.

Local Abbreviation frep := (λ f s : fstate, f = s ∧ fwf s).
Definition keys1 : Manager := MkManager (MkDb 1 None 1 (Some {[ "BM-abc"%string := own_id ]})) [] ["BM-abc"%string].
Definition addr_def : Address := "def"%string.
Definition subscriber : Store.User :=
  Store.MkUser None "user-alice" "alice" (MkBroadcastAddresses "alice" [addr_def]).
Definition store1 : sworld := SW (MkStore None {[ "alice"%string := subscriber ]}) (st_wld counter_store).
Definition server1 : Server (B := list string) :=
  MkServer keys1 ∅ store1 Pow.New 0 [] 5 6 7 None None 0.
Definition sys1 : Sys (F := fstate) (H := Server (B := list string)) :=
  MkSys (MkUser "alice" {[ "Inbox" := box2; "Outbox" := box2 ]}%string ∅ None false) server1.

Definition padded (s : string) : string := (s ++ zeros 140)%string.
Definition incoming : CipherMessage :=
  MkCipherMessage "BM-def" (Some (Encoding2 "Hi" "there")) (byte_of_Z 9) (Some "an ack of some length"%string).

(** The ack of the message is given to [bmd]. *)
Lemma newMessage_delivers_witness :
  let filed := prepared box2 FlagRecent (read_at server1) (MsgRead incoming "BM-abc" false) in
  ∃ b' a', box_inv frep b' a' ∧ abs a' = AMail 5 (visible s2 ++ [(4, stored filed)]) ∧
    newMessage 1 8 (padded "abc") sys1 =
      (Ok tt, set_host (set_bmd ["an ack of some length"%string] (ticked (counted 8 server1)))
        (put_box InboxFolderName b' sys1)).
Proof.
  intros filed.
  pose proof (newMessage_delivers frep 1 8 (padded "abc") sys1 (padded "abc") own_id ("abc"%string : Address) incoming
    box2 s2) as Hw.
  edestruct Hw as (b' & a' & H1 & H2 & H3 & _); clear Hw.
  - reflexivity.
  - vm_compute. discriminate.
  - vm_compute. lia.
  - split; [|reflexivity|reflexivity]. exists "BM-abc"%string. split; [reflexivity|].
    intros a' p' Hl Hne. unfold ids, keys1 in Hl. cbn in Hl. apply lookup_singleton_Some in Hl as [<- _]. done.
  - reflexivity.
  - exact box2_inv.
  - split; [cbn; lia|vm_compute; discriminate].
  - eapply storable_intro; [reflexivity|cbn; lia|reflexivity|discriminate|vm_compute; discriminate].
  - exists b', a'. split; [exact H1|]. split; [exact H2|]. eapply H3.
    + split; [reflexivity|reflexivity|]. do 2 eexists. split; [|split].
      1: symmetry; apply (stake_sdrop MessageHeaderSize). all: reflexivity.
    + reflexivity.
    + left. by eexists.
Defined.

Lemma newMessage_ignores_witness :
  newMessage 1 8 (padded "xyz") sys1 = (Ok tt, set_host (counted 8 server1) sys1).
Proof.
  apply (newMessage_ignores 1 8 (padded "xyz") sys1). right. exists (padded "xyz").
  split; [reflexivity|]. split; [vm_compute; discriminate|]. right. intros a p Hl.
  unfold ids, keys1 in Hl. cbn in Hl. apply lookup_singleton_Some in Hl as [_ <-]. reflexivity.
Defined.

Lemma newBroadcast_first_witness :
  newBroadcast 1 9 (padded "xyz") sys1 = (Panic, set_host (set_counters 5 9 7 server1) sys1) ∧
  ∃ b' a', newBroadcast 1 9 (padded "def") sys1 =
      (Ok tt, put_box InboxFolderName b' (set_host (ticked (set_counters 5 9 7 server1)) sys1)) ∧
    box_inv frep b' a' ∧
    abs a' = AMail 5 (visible s2 ++ [(4, stored (prepared box2 FlagRecent (read_at server1) (BroadcastRead incoming)))]).
Proof.
  assert (room 1 (abs s2)) as Hroom by (split; [cbn; lia|vm_compute; discriminate]).
  split.
  - pose proof (newBroadcast_first frep 1 9 (padded "xyz") sys1 (padded "xyz") "alice" subscriber addr_def [] box2 s2) as Hw.
    apply Hw; clear Hw; [reflexivity|vm_compute; lia|reflexivity|reflexivity|reflexivity|exact box2_inv|exact Hroom].
  - pose proof (newBroadcast_first frep 1 9 (padded "def") sys1 (padded "def") "alice" subscriber addr_def [] box2 s2) as Hw.
    assert (TryDecryptAndVerifyBroadcast (padded "def" : ObjBroadcast) addr_def = Some incoming) as Hd by reflexivity.
    rewrite Hd in Hw. apply Hw; clear Hw;
      [reflexivity|vm_compute; lia|reflexivity|reflexivity|reflexivity|exact box2_inv|exact Hroom|].
    eapply storable_intro; [reflexivity|cbn; lia|reflexivity|discriminate|vm_compute; discriminate].
Defined.

Lemma broadcast_refused_witness :
  let m := bmail_to Broadcast "Hello" "World" in
  process (HO := server_host 1) (sys1, m) = (Err (ErrNew "Address decode failed: <nil>"), (sys1, m)).
Proof.
  intros m.
  apply (broadcast_refused 1 sys1 m "BM-abc" own_id ("abc"%string, 1, Some (1000, 1000))
    (ErrNew "unknown address type") Broadcast); reflexivity.
Defined.

Lemma counters_saved_witness :
  ∃ h2, saveData (λ _, fail (ErrNew "read-only file")) server1 = (Ok tt, h2) ∧ counters_db (store h2) ∧
    ∀ h3, store h3 = store h2 → load_counters h3 = (Ok tt, set_counters 5 6 7 h3).
Proof.
  apply (counters_saved (λ _, fail (ErrNew "read-only file")) server1 server1).
  - split; [done|]. split; [done|]. split; [done|].
    change (NoDup [2; 3; 0]). by apply (bool_decide_unpack (NoDup [2; 3; 0])).
  - split; [done|reflexivity|]. intros k. apply not_has; [done|]. simpl. set_solver.
  - reflexivity.
  - done.
  - done.
  - done.
Defined.
End witnesses.
