(* ===== verification/Running.v ===== *)
(** * What a running server keeps ([server.go], [user/])

    Everything that happens to a server between its start and its stop:
    objects received, proofs of work done, public keys that arrive, mail and
    commands that come in, and whatever a mail program does to a mailbox.

    Proved: none of it makes or loses a mailbox, or changes what the user was
    made with (so what [NewUser] leaves out stays missing), and the counters
    are those of the last objects received, from which the next start goes on. *)

From S2P Require Import Prelude Bytes Text Bolt StoreEnv Bmutil FolderSpec BoltModel BoltFolder Store Pow Keys.
From S2P Require Import Float64 MessageSequence Email Codec Mailbox IdMgr Commands User Server.
Local Open Scope Z_scope.
Local Open Scope list_scope.

(** ** The user *)

Section user.
Context {EV : Env} {BM : Bmutil} {ML : MailLibs} {SZ : Codec.Serialize} {IS : ImapSeq}.
Context {ID : Identity} {PB : Publics} {WR : Wire} {PT : ProtoText}.
Context {F : Type} {FO : Folder F} {H : Type} {HO : Host H}.
Context {T : Type} (g : H → T).

(** What the calls of a user leave alone in his server. *)
Class HostKeeps : Prop := {
  hk_NewUnnamed stream behavior : keeps g (keys_NewUnnamed stream behavior);
  hk_GetOrRequestPublicID addr : keeps g (GetOrRequestPublicID addr);
  hk_Send obj : keeps g (Send obj);
  hk_pow_Run t obj d : keeps g (pow_Run t obj d);
  hk_now : keeps g now;
  hk_random : keeps g random;
}.
Context {HK : HostKeeps}.

Lemma keeps_mfor {A S X} (v : S → X) (l : list A) f : (∀ x, keeps v (f x)) → keeps v (mfor l f).
Proof. intros Hf. induction l as [|x l IH]; [by apply keeps_same|]. cbn [mfor]. by apply keeps_bind. Qed.

(** The names of the mailboxes, what the user was made with, and that. *)
Definition fixed (s : Sys (F := F) (H := H)) : gset string * string * option (Z → Z) * bool * T :=
  (dom (sys_boxes s), username (sys_user s), expiration (sys_user s), pm (sys_user s), g (sys_host s)).
Definition fixed_msg (x : Sys (F := F) (H := H) * Bmail) := fixed x.1.

Lemma keeps_host {A} (f : M H A) : keeps g f → keeps fixed (host f).
Proof.
  intros Hf s r s'. unfold host, zoom. destruct (f (sys_host s)) as [r1 h] eqn:E. intros [= _ <-].
  unfold fixed. cbn. by rewrite (Hf _ _ _ E).
Qed.
Lemma fixed_put_box name b b' s : sys_boxes s !! name = Some b → fixed (put_box name b' s) = fixed s.
Proof.
  intros Hb. unfold fixed. rewrite sys_boxes_put, dom_insert_lookup_L by (by eexists). done.
Qed.
Lemma keeps_on_box {A} name (f : M (mailbox F) A) : keeps fixed (on_box name f).
Proof.
  intros s r s'. unfold on_box. destruct (sys_boxes s !! name) as [b|] eqn:Hb; [|by intros [= _ <-]].
  destruct (f b). intros [= _ <-]. by eapply fixed_put_box.
Qed.
Lemma keeps_on_box_msg {A} name (f : M (mailbox F * Bmail) A) : keeps fixed_msg (on_box_msg name f).
Proof.
  intros [s m] r s'. unfold on_box_msg. destruct (sys_boxes s !! name) as [b|] eqn:Hb; [|by intros [= _ <-]].
  destruct (f (b, m)) as [r1 [b1 m1]]. intros [= _ <-]. by eapply fixed_put_box.
Qed.
Lemma keeps_on_sys {A} (f : M Sys A) : keeps fixed f → keeps fixed_msg (on_sys f).
Proof.
  intros Hf [s m] r s'. unfold on_sys, zoom. cbn. destruct (f s) as [r1 s1] eqn:E. intros [= _ <-]. apply (Hf _ _ _ E).
Qed.
Lemma keeps_with_msg {A} bm (f : M (Sys * Bmail) A) : keeps fixed_msg f → keeps fixed (with_msg bm f).
Proof.
  intros Hf s r s'. unfold with_msg. destruct (f (s, bm)) as [r1 [s1 m1]] eqn:E. intros [= _ <-]. apply (Hf _ _ _ E).
Qed.
Lemma keeps_modify_state f : keeps fixed_msg (modify_state f).
Proof. intros [s m] r s'. unfold modify_state. munfold. cbn. destruct (deref (State m)); by intros [= _ <-]. Qed.
#[local] Hint Resolve hk_NewUnnamed hk_GetOrRequestPublicID hk_Send hk_pow_Run hk_now hk_random
  keeps_host keeps_on_box keeps_on_box_msg keeps_on_sys keeps_with_msg keeps_modify_state : keeps.

(** The sequences given to them too. *)
Local Ltac framed :=
  keeps; repeat (first [apply keeps_with_msg | apply keeps_on_sys | apply keeps_host | apply keeps_mfor; intros ?]; keeps).

Lemma keeps_acks (f : gmap Hash Z → gmap Hash Z) :
  keeps fixed (modify (λ s, set_user (set_acks (f (acks (sys_user s))) (sys_user s)) s)).
Proof. by intros s r s' [= _ <-]. Qed.
#[local] Hint Resolve keeps_acks : keeps.
Lemma keeps_put_msg (f : Sys * Bmail → Bmail) : keeps fixed_msg (λ x, (Ok tt, (x.1, f x))).
Proof. by intros x r s' [= _ <-]. Qed.

Lemma keeps_box_AddNew name flags : keeps fixed_msg (box_AddNew name flags).
Proof. unfold box_AddNew. keeps. Qed.
#[local] Hint Resolve keeps_box_AddNew : keeps.
Lemma keeps_expires e : keeps fixed (expires e).
Proof. unfold expires. keeps. Qed.
Lemma keeps_expiry t : keeps fixed (expiry t).
Proof. unfold expiry. keeps. Qed.
#[local] Hint Resolve keeps_expires keeps_expiry : keeps.
Lemma keeps_generateBroadcast c from e : keeps fixed (generateBroadcast c from e).
Proof. unfold generateBroadcast. keeps. Qed.
Lemma keeps_generateMessage c ack from to e : keeps fixed (generateMessage c ack from to e).
Proof. unfold generateMessage. keeps. Qed.
#[local] Hint Resolve keeps_generateBroadcast keeps_generateMessage : keeps.
Lemma keeps_decide_ack to : keeps fixed_msg (decide_ack to).
Proof.
  intros [s m] r s'. unfold decide_ack.
  change ((match keys_Get (To m) (sys_host s) with
    | Some id => _ ← put (s, set_OfChannel (IsChan id) m); modify_state (set_AckExpected false)
    | None => b ← lift (Recipient_Behavior to);
        if Z.land b BehaviorAck =? BehaviorAck then modify_state (set_AckExpected true) else mret tt
    end) (s, m) = (r, s') → fixed_msg s' = fixed_msg (s, m)).
  destruct (keys_Get (To m) (sys_host s)) as [id|].
  - intros Hr. exact (keeps_modify_state _ (s, set_OfChannel (IsChan id) m) _ _ Hr).
  - assert (keeps fixed_msg (
      b ← lift (Recipient_Behavior to);
      if Z.land b BehaviorAck =? BehaviorAck then modify_state (set_AckExpected true) else mret tt)) as Hk by keeps.
    apply Hk.
Qed.
#[local] Hint Resolve keeps_decide_ack : keeps.
Lemma keeps_object_for fromID to : keeps fixed_msg (object_for fromID to).
Proof. unfold object_for. keeps. Qed.
#[local] Hint Resolve keeps_object_for : keeps.
Lemma keeps_generateObject : keeps fixed_msg generateObject.
Proof. unfold generateObject. keeps. Qed.
Lemma keeps_generateAck : keeps fixed_msg generateAck.
Proof. unfold generateAck. keeps. Qed.
Lemma keeps_sendPow o p next : keeps fixed (sendPow o p next).
Proof. unfold sendPow. keeps. Qed.
#[local] Hint Resolve keeps_generateObject keeps_generateAck keeps_sendPow : keeps.
Lemma keeps_sendPreparedMessage o p : keeps fixed_msg (sendPreparedMessage o p).
Proof. unfold sendPreparedMessage. keeps. Qed.
#[local] Hint Resolve keeps_sendPreparedMessage : keeps.
Lemma keeps_process : keeps fixed_msg process.
Proof. unfold process. keeps. Qed.
#[local] Hint Resolve keeps_process : keeps.
Lemma keeps_Move m from to : keeps fixed (Move m from to).
Proof. unfold Move. keeps. Qed.
#[local] Hint Resolve keeps_Move : keeps.

(** The operations of a user keep what is fixed. *)
Lemma keeps_run_done nonce d : keeps fixed (run_done nonce d).
Proof. unfold run_done, after_pow. framed. Qed.
Lemma keeps_DeliverFromBMNet m : keeps fixed (DeliverFromBMNet m).
Proof. unfold DeliverFromBMNet. framed. Qed.
Lemma keeps_DeliverPublic addr : keeps fixed (DeliverPublic addr).
Proof. unfold DeliverPublic. framed. Qed.
Lemma keeps_DeliverAckReply h : keeps fixed (DeliverAckReply h).
Proof. unfold DeliverAckReply. framed. Qed.
Lemma keeps_NewAddress tag ack : keeps fixed (user_NewAddress tag ack).
Proof. unfold user_NewAddress. framed. Qed.
Lemma keeps_ListAddresses : keeps fixed user_ListAddresses.
Proof. unfold user_ListAddresses. framed. Qed.
#[local] Hint Resolve keeps_NewAddress keeps_ListAddresses : keeps.
Lemma keeps_Execute c : keeps fixed (Execute c).
Proof.
  unfold Execute, helpCommand_Execute, newAddressCommand_Execute, listAddressesCommand_Execute.
  cbn [NewAddress ListAddresses user_commands]. framed.
Qed.
#[local] Hint Resolve keeps_Execute : keeps.
Lemma keeps_RPCCommand req : keeps fixed (RPCCommand req).
Proof. unfold RPCCommand. framed. Qed.
#[local] Hint Resolve keeps_RPCCommand : keeps.
Lemma keeps_BMAgentRequest running req : keeps fixed (BMAgentRequest running req).
Proof. unfold BMAgentRequest. framed. Qed.
Lemma keeps_executeCommand from name params : keeps fixed (executeCommand from name params).
Proof. unfold executeCommand, EmailCommand, execute_words. framed. Qed.
#[local] Hint Resolve keeps_executeCommand : keeps.
Lemma keeps_DeliverFromSMTP smtp : keeps fixed (DeliverFromSMTP smtp).
Proof. unfold DeliverFromSMTP. framed. Qed.
End user.

(** ** The server *)

Section server.
Context {BT : Bolt} {EV : Env} {BM : Bmutil} {ML : MailLibs} {SZ : Codec.Serialize} {IS : ImapSeq}.
Context {ID : Identity} {PB : Publics} {WR : Wire} {PT : ProtoText}.
Context {F : Type} {FO : Folder F} {B : Type} {NW : Network B} {JT : JsonText}.
Context (fuel : nat) (WriteFile : string → M (option string) unit).

Local Abbreviation Srv := (Server (B := B)).
Local Abbreviation System := (Sys (F := F) (H := Srv)).
#[local] Hint Extern 0 (Host _) => exact (server_host fuel) : typeclass_instances.

(** The counters of the last objects of each kind. *)
Definition heard (h : Srv) : Z * Z * Z := (msgCounter h, broadcastCounter h, getpubkeyCounter h).

(** What happens to a server; a mail program does anything to a mailbox. *)
Inductive happening :=
  | Message (counter : Z) (object : string)
  | Broadcasted (counter : Z) (object : string)
  | Asked (counter : Z) (object : string)
  | ProofDone (nonce : string) (d : server_done)
  | CheckKeys
  | MailIn (m : Content)
  | RPCIn (running : bool) (req : option BMRPCRequest)
  | OnMailbox (name : string) (f : M (mailbox F) unit)
  | SaveData.
Definition happens (e : happening) : M System unit :=
  match e with
  | Message c o => newMessage fuel c o
  | Broadcasted c o => newBroadcast fuel c o
  | Asked c o => host (newGetpubkey c o)
  | ProofDone nonce d => run_server_done fuel nonce d
  | CheckKeys => check_public_keys fuel
  | MailIn m => DeliverFromSMTP m
  | RPCIn running req => _ ← BMAgentRequest running req; mret tt
  | OnMailbox name f => on_box name f
  | SaveData => host (saveData WriteFile)
  end.

(** The errors are logged or answered; a panic is the end. *)
Definition life_of (es : list happening) : M System unit := mfor es (λ e, _ ← try (happens e); mret tt).

Definition hear (c : Z * Z * Z) (e : happening) : Z * Z * Z :=
  match e with
  | Message n _ => (n, c.1.2, c.2)
  | Broadcasted n _ => (c.1.1, n, c.2)
  | Asked n _ => (c.1.1, c.1.2, n)
  | _ => c
  end.

(** *** The calls of the server *)

Lemma keeps_on_store {A} (f : M sworld A) : keeps heard (on_store f).
Proof. by apply keeps_zoom. Qed.
Lemma keeps_on_bmd {A} (f : M B A) : keeps heard (on_bmd f).
Proof. by apply keeps_zoom. Qed.
Lemma keeps_run_pow t o d : keeps heard (run_pow (B := B) t o d).
Proof. intros s r s'. unfold run_pow. destruct (Pow.Run t o d (pow s)) as [[b|e| |] q]; by intros [= _ <-]. Qed.
Lemma keeps_random : keeps heard (server_random (B := B)).
Proof. by intros s r s' [= _ <-]. Qed.
#[local] Hint Resolve keeps_on_store keeps_on_bmd keeps_run_pow keeps_random : keeps.
Lemma keeps_queue_object o d : keeps heard (queue_object (B := B) o d).
Proof. unfold queue_object, server_now. keeps. Qed.
#[local] Hint Resolve keeps_queue_object : keeps.
Lemma keeps_getOrRequest a : keeps heard (getOrRequestPublicIdentity (B := B) a).
Proof. unfold getOrRequestPublicIdentity, server_now. keeps. Qed.
#[local] Hint Resolve keeps_getOrRequest : keeps.
Lemma keeps_GetOrRequestPublicID a : keeps heard (server_GetOrRequestPublicID (B := B) a).
Proof. unfold server_GetOrRequestPublicID. keeps. by intros s r s' [= _ <-]. Qed.
Lemma keeps_server_Send o : keeps heard (server_Send (B := B) o).
Proof. unfold server_Send. keeps. Qed.
#[local] Hint Resolve keeps_server_Send : keeps.

#[local] Instance server_keeps : HostKeeps heard.
Proof.
  split; [|apply keeps_GetOrRequestPublicID|..]; intros; cbn [keys_NewUnnamed host_keys Send pow_Run now random
    server_host server_keys]; unfold server_now, Server.on_keys; keeps. by apply keeps_zoom.
Qed.

(** What is kept of the system. *)
Local Abbreviation kept := (fixed (F := F) heard).
Lemma keeps_srv {A} (f : M Srv A) : keeps heard f → keeps kept (srv f).
Proof. apply keeps_host. Qed.
#[local] Hint Resolve keeps_srv : keeps.
Local Ltac calls :=
  keeps; repeat (first [apply keeps_srv | apply keeps_host | apply keeps_mfor; intros ?]; keeps).

Lemma keeps_saveData : keeps heard (saveData (B := B) WriteFile).
Proof.
  unfold saveData. keeps. unfold SaveKeyfile. keeps. all: by apply keeps_zoom.
Qed.
Lemma keeps_return_ack m b : keeps heard (return_ack (B := B) m b).
Proof. unfold return_ack. keeps. Qed.
#[local] Hint Resolve keeps_saveData keeps_return_ack : keeps.
#[local] Hint Extern 1 (keeps kept (DeliverAckReply _)) => solve [apply keeps_DeliverAckReply; exact server_keeps] : keeps.
#[local] Hint Extern 1 (keeps kept (DeliverFromBMNet _)) => solve [apply keeps_DeliverFromBMNet; exact server_keeps] : keeps.
#[local] Hint Extern 1 (keeps kept (DeliverPublic _)) => solve [apply keeps_DeliverPublic; exact server_keeps] : keeps.
#[local] Hint Extern 1 (keeps kept (run_done _ _)) => solve [apply keeps_run_done; exact server_keeps] : keeps.

(** The counter comes first. *)
Lemma heard_first (f : Srv → Srv) (k : unit → M System unit) s r s' : keeps kept (k tt) →
  bind (srv (modify f)) k s = (r, s') → kept s' = kept (set_host (f (sys_host s)) s).
Proof. intros Hk H. by apply (Hk _ _ _ H). Qed.

Lemma Message_hears c o s r s' : newMessage fuel c o s = (r, s') →
  kept s' = kept (set_host (set_counters c (broadcastCounter (sys_host s)) (getpubkeyCounter (sys_host s)) (sys_host s)) s).
Proof. intros H. apply heard_first in H; [exact H|calls]. Qed.

Lemma keeps_try_users msg users : keeps kept (try_users fuel msg users).
Proof. induction users as [|u users IH]; cbn [try_users]; unfold broadcasts_ForEach, try_address; calls. Qed.
#[local] Hint Resolve keeps_try_users : keeps.
Lemma Broadcasted_hears c o s r s' : newBroadcast fuel c o s = (r, s') →
  kept s' = kept (set_host (set_counters (msgCounter (sys_host s)) c (getpubkeyCounter (sys_host s)) (sys_host s)) s).
Proof. intros H. apply heard_first in H; [exact H|calls]. Qed.

Lemma heard_after (f : Srv → Srv) (k : unit → M Srv unit) h r h' : keeps heard (k tt) →
  bind (modify f) k h = (r, h') → heard h' = heard (f h).
Proof. intros Hk H. by apply (Hk _ _ _ H). Qed.
Lemma Asked_hears c o s r s' : host (newGetpubkey (B := B) c o) s = (r, s') →
  kept s' = kept (set_host (set_counters (msgCounter (sys_host s)) (broadcastCounter (sys_host s)) c (sys_host s)) s).
Proof.
  unfold host, zoom. destruct (newGetpubkey c o (sys_host s)) as [r1 h] eqn:E. intros [= _ <-].
  apply heard_after in E; [|keeps]. unfold fixed. cbn. by rewrite E.
Qed.

Lemma keeps_run_server_done nonce d : keeps kept (run_server_done fuel nonce d).
Proof. unfold run_server_done. calls. Qed.
Lemma keeps_collect addrs found : keeps heard (collect (B := B) addrs found).
Proof. revert found. induction addrs as [|a addrs IH]; intros found; cbn [collect]; keeps. Qed.
#[local] Hint Resolve keeps_collect : keeps.
Lemma keeps_check_public_keys : keeps kept (check_public_keys fuel).
Proof. unfold check_public_keys. calls. Qed.

(** *** What the life of a server keeps *)

(** A happening changes nothing that is kept but the counter of its kind. *)
Lemma happens_kept e s r s' : happens e s = (r, s') →
  kept s' = (fixed (F := F) (λ h : Srv, hear (heard h) e)) s.
Proof.
  destruct e as [c o|c o|c o|nonce d|m| |running req|name f|]; cbn [happens hear].
  - apply Message_hears.
  - apply Broadcasted_hears.
  - apply Asked_hears.
  - apply keeps_run_server_done.
  - apply keeps_check_public_keys.
  - apply keeps_DeliverFromSMTP. exact server_keeps.
  - revert r s'. assert (keeps kept (_ ← BMAgentRequest running req; mret tt)) as Hk.
    { apply keeps_bind; [apply keeps_BMAgentRequest; exact server_keeps|]. intros ?. by apply keeps_same. }
    intros r s'. apply Hk.
  - apply keeps_on_box.
  - revert r s'. assert (keeps kept (host (saveData WriteFile))) as Hk by (apply keeps_srv, keeps_saveData).
    intros r s'. apply Hk.
Qed.

Lemma life_of_kept es s s' : life_of es s = (Ok tt, s') →
  kept s' = fixed (F := F) (λ h : Srv, foldl hear (heard h) es) s.
Proof.
  revert s. induction es as [|e es IH]; intros s; [by intros [= <-]|].
  unfold life_of. cbn [mfor foldl]. intros (x & s2 & (y & s1 & H1 & [= <- <-])%bind_inv & H)%bind_inv.
  rewrite (IH _ H). unfold try in H1.
  destruct (happens e s) as [[a|er| |] s0] eqn:E; try done; injection H1 as _ <-;
    apply happens_kept in E; unfold fixed in E |- *; congruence.
Qed.

(** Counters have 64 bits. *)
Definition heard_ok (c : Z * Z * Z) : Prop := is_u64 c.1.1 ∧ is_u64 c.1.2 ∧ is_u64 c.2.
Definition happening_ok (e : happening) : Prop :=
  match e with Message n _ | Broadcasted n _ | Asked n _ => is_u64 n | _ => True end.
Lemma foldl_hear_ok es c : heard_ok c → Forall happening_ok es → heard_ok (foldl hear c es).
Proof.
  intros Hc Hes. revert c Hc. induction Hes as [|e es He _ IH]; intros c Hc; [done|]. cbn [foldl].
  apply IH. destruct Hc as (H1 & H2 & H3). by destruct e.
Qed.

Context {BL : BoltLaws} {EL : EnvLaws}.

(** C32: whatever happens to a server while it runs, its user has the same
    mailboxes and what he was made with, and the counters are those of the
    last objects received of each kind; when they are saved, the server that
    is started next loads these. *)
Theorem server_resumes es s s' h1 :
  types_ok → heard_ok (heard (sys_host s)) → Forall happening_ok es → life_of es s = (Ok tt, s') →
  counters_db (store (sys_host s')) → SaveKeyfile WriteFile (sys_host s') = (Ok tt, h1) →
  let c := foldl hear (heard (sys_host s)) es in
  dom (sys_boxes s') = dom (sys_boxes s) ∧ username (sys_user s') = username (sys_user s) ∧
  expiration (sys_user s') = expiration (sys_user s) ∧ pm (sys_user s') = pm (sys_user s) ∧
  heard (sys_host s') = c ∧
  ∃ h2, saveData WriteFile (sys_host s') = (Ok tt, h2) ∧
    ∀ h3, store h3 = store h2 → load_counters h3 = (Ok tt, set_counters c.1.1 c.1.2 c.2 h3).
Proof.
  intros Ht Hok Hes Hl Hdb Hk c. pose proof (life_of_kept _ _ _ Hl) as Hf. injection Hf as Hd Hn He Hp Hc.
  change (heard (sys_host s') = c) in Hc. pose proof (foldl_hear_ok es _ Hok Hes) as (U1 & U2 & U3).
  fold c in U1, U2, U3. rewrite <- Hc in U1, U2, U3.
  split; [done|]. split; [done|]. split; [done|]. split; [done|]. split; [done|].
  destruct (counters_saved WriteFile (sys_host s') h1) as (h2 & Hs & _ & Hload); [done..|].
  exists h2. split; [done|]. intros h3 Hh. by rewrite (Hload h3 Hh), <- Hc.
Qed.
End server.

(** ** Witness *)

Section witness.
Import BoltModel.Model EnvModel BmutilModel MailModel SerializeModel ImapModel IdentityModel WireModel NetworkModel.

(** A message for one of the keys, a request for another one's, a look into
    the inbox and a tick. *)
Definition a_day : list (happening (F := fstate)) :=
  [Message 8 (padded "abc"); Asked 12 "somebody"; OnMailbox InboxFolderName (mret tt); CheckKeys; Message 9 (padded "xyz")].
Definition read_only (x : string) : M (option string) unit := fail (ErrNew "read-only file").
Definition day_over := life_of (F := fstate) (B := list string) 1 read_only a_day sys1.
Definition is_done (r : res unit) : bool := match r with Ok _ => true | _ => false end.

Lemma server_resumes_witness :
  day_over.1 = Ok tt ∧ heard (sys_host day_over.2) = (9, 6, 12) ∧
  ∃ h2, saveData read_only (sys_host day_over.2) = (Ok tt, h2) ∧
    ∀ h3, store h3 = store h2 → load_counters h3 = (Ok tt, set_counters 9 6 12 h3).
Proof.
  assert (types_ok (B := list string)) as Ht.
  { split; [done|]. split; [done|]. split; [done|].
    change (NoDup [2; 3; 0]). by apply (bool_decide_unpack (NoDup [2; 3; 0])). }
  assert (heard_ok (heard (sys_host sys1))) as Hh0 by (split; [done|split; done]).
  assert (Forall happening_ok a_day) as Hes.
  { repeat (apply Forall_cons; split); try exact (Forall_nil_2 _); done. }
  assert (counters_db (store (sys_host day_over.2))) as Hdb.
  { assert (StoreEnv.db (st_wld (store (sys_host day_over.2))) = StoreEnv.db (st_wld counter_store)) as Hdb
      by (vm_cast_no_check (@eq_refl Tx (StoreEnv.db (st_wld counter_store)))).
    split; [split; vm_compute; reflexivity|rewrite Hdb; reflexivity|].
    intros k. rewrite Hdb. clear. apply not_has; [done|]. simpl. set_solver. }
  assert ((SaveKeyfile read_only (sys_host day_over.2)).1 = Ok tt) as Hk by (vm_cast_no_check (@eq_refl (res unit) (Ok tt))).
  assert (day_over.1 = Ok tt) as H by (vm_cast_no_check (@eq_refl (res unit) (Ok tt))).
  split; [exact H|].
  assert (life_of 1 read_only a_day sys1 = (Ok tt, day_over.2)) as Hl by (rewrite <- H; apply surjective_pairing).
  assert (∃ h1, SaveKeyfile read_only (sys_host day_over.2) = (Ok tt, h1)) as [h1 Hk1]
    by (exists (SaveKeyfile read_only (sys_host day_over.2)).2; rewrite <- Hk; apply surjective_pairing).
  destruct (server_resumes 1 read_only a_day sys1 day_over.2 h1 Ht Hh0 Hes Hl Hdb Hk1)
    as (_ & _ & _ & _ & Hh & h2 & Hs & Hload).
  split; [exact Hh|]. exists h2. split; [exact Hs|exact Hload].
Defined.
End witness.
