(* ===== verification/Config.v ===== *)
(** * Configuration ([config.go], [log.go], [version.go])

    The configuration is read from the command line and a file by a library;
    [Validate] checks it and fills it in.  The operating system ([OS]) and
    the libraries for flags ([Flags]) and logging ([LogLibs]) are parameters.  Calls
    of [os.Exit] are results: [Some code].  What is printed is left out.

    Proved: what holds of every configuration that is accepted; the effect of
    a debug level; addresses keep their host and get the default port. *)

From S2P Require Import Prelude Bytes Text Bolt StoreEnv Bmutil Keys IdMgr Email Commands.
From coqutil Require Import Datatypes.RecordSetters.
From Stdlib Require Import Ascii.
Import TriangleBracketNotations.
Local Open Scope Z_scope.
Local Open Scope list_scope.

(** ** Parameters *)

(** What [os.Stat] says of a path. *)
Inductive stat := StatDir | StatFile | StatNotExist | StatError (e : error).

Class OS (W : Type) := {
  os_Stat : string → W → stat;
  os_MkdirAll : string → M W unit;
  LookupHost : string → W → res (list string);
  ExpandEnv : string → string;              (** [os.ExpandEnv] *)
  AppDataDir : string → string;             (** [btcutil.AppDataDir(name, false)] *)
  NumCPU : Z;
}.

Class LogLibs := {
  LoggerFromConfigAsString : string → bool;   (** whether the configuration is good *)
  LogLevelFromString : string → option Z;
  InfoLvl : Z;
}.

(** ** Constants *)

Definition defaultCAFilename : string := "bmd.cert".
Definition defaultConfigFilename : string := "bmagent.conf".
Definition defaultLogLevel : string := "info".
Definition defaultLogDirname : string := "logs".
Definition defaultLogFilename : string := "bmagent.log".
Definition defaultBmdPort : Z := 8442.
Definition defaultRPCPort : Z := 8446.
Definition defaultIMAPPort : Z := 1143.
Definition defaultSMTPPort : Z := 1587.
Definition keyfileName : string := "keys.dat".
Definition storeDbName : string := "store.db".
Definition defaultPowHandler : string := "parallel".
Definition defaultMsgExpiry : Z := 60 * 3600 * 10 ^ 9.
Definition defaultBroadcastExpiry : Z := 48 * 3600 * 10 ^ 9.
Definition defaultGenKeys : Z := -1.

(** ** The configuration *)

(** The handler is kept by name. *)
Inductive PowHandler := DoSequential | DoParallel (threads : Z).

Record Config := MkConfig {
  ShowVersion : bool; DataDir : string; LogDir : string;
  DebugLevel : string; ConfigFile : string;
  Create : bool; ImportKeyFile : string; NoPass : bool; Seed : string;
  EnableRPC : bool; RPCListeners : list string; IMAPListeners : list string; SMTPListeners : list string;
  DisableServerTLS : bool; DisableClientTLS : bool; CAFile : string; RPCConnect : string;
  Username : string; Password : string; BmdUsername : string; BmdPassword : string;
  RPCUser : string; RPCPass : string; RPCLimitUser : string; RPCLimitPass : string;
  RPCCert : string; RPCKey : string; RPCMaxClients : Z; cfg_Profile : string;
  ProofOfWork : string; PowThreads : Z; MsgExpiry : Z; BroadcastExpiry : Z;
  LogConsole : bool; GenKeys : Z;
  powHandler : option PowHandler; storePath : string;
  keyfilePath : string; cfg_keyfilePass : option string;
}.

(** The configuration of the RPC server of [bmd/rpc]. *)
Record rpc_Config := MkRpcConfig {
  rc_DisableTLS : bool; rc_Key : string; rc_Cert : string; rc_User : string; rc_Pass : string;
  rc_LimitUser : string; rc_LimitPass : string; rc_MaxClients : Z; rc_Listeners : list string;
}.
Definition RPCConfig (cfg : Config) : rpc_Config :=
  MkRpcConfig (DisableServerTLS cfg) (RPCKey cfg) (RPCCert cfg) (RPCUser cfg) (RPCPass cfg)
    (RPCLimitUser cfg) (RPCLimitPass cfg) (u32 (RPCMaxClients cfg)) (RPCListeners cfg).

(** ** Version ([version.go]) *)

Definition semanticAlphabet : string := "0123456789ABCDEFGHIJKLMNOPQRSTUVWXYZabcdefghijklmnopqrstuvwxyz-".
(** The alphabet is ASCII: no other rune, nor an invalid one, is kept. *)
Fixpoint normalizeVerString (str : string) : string :=
  match str with
  | EmptyString => EmptyString
  | String r str =>
      if has_byte (Z_of_byte r) semanticAlphabet then String r (normalizeVerString str)
      else normalizeVerString str
  end.
Definition appPreRelease : string := "alpha".
Definition version (appBuild : string) : string :=
  let version := (decimal 0 ++ "." ++ decimal 0 ++ "." ++ decimal 1)%string in
  let preRelease := normalizeVerString appPreRelease in
  let version := if bool_decide (preRelease = EmptyString) then version
                 else (version ++ "-" ++ preRelease)%string in
  let build := normalizeVerString appBuild in
  if bool_decide (build = EmptyString) then version else (version ++ "+" ++ build)%string.

Example version_plain : version EmptyString = "0.0.1-alpha"%string.
Proof. vm_compute. reflexivity. Qed.

(** ** Addresses *)

Definition localhostListeners : list string := ["localhost"; "127.0.0.1"; "::1"]%string.
Definition is_local (host : string) : bool := bool_decide (host ∈ localhostListeners).

Fixpoint verifyListeners (addrs : list string) (service : string) : res unit :=
  match addrs with
  | [] => Ok tt
  | addr :: addrs =>
      match SplitHostPort addr with
      | Ok (host, _) =>
          if is_local host then verifyListeners addrs service
          else Err (ErrNew ("Validate: the --noservertls option may not be used when binding " ++ service ++
                            " to non localhost addresses: " ++ addr))
      | Err e => Err (ErrNew ("Validate: " ++ service ++ " listen interface '" ++ addr ++
                              "' is invalid: " ++ Error e))
      | Panic => Panic
      | Hang => Hang
      end
  end.

(** [seen] keeps what was found. *)
Fixpoint remove_duplicates (addrs : list string) (seen : gset string) : list string :=
  match addrs with
  | [] => []
  | val :: addrs =>
      if bool_decide (val ∈ seen) then remove_duplicates addrs seen
      else val :: remove_duplicates addrs ({[ val ]} ∪ seen)
  end.
Definition removeDuplicateAddresses (addrs : list string) : list string := remove_duplicates addrs ∅.

Definition normalizeAddress (addr : string) (defaultPort : Z) : string :=
  match SplitHostPort addr with
  | Ok _ => addr
  | _ => JoinHostPort addr (decimal defaultPort)
  end.
Definition normalizeAddresses (addrs : list string) (defaultPort : Z) : list string :=
  removeDuplicateAddresses ((λ addr, normalizeAddress addr defaultPort) <$> addrs).

(** ** Logging ([log.go]) *)

(** A logger is a pointer: the disabled one, or that of a subsystem, of
    which there is one for each prefix. *)
Inductive Logger := Disabled | SubsystemLogger (prefix : string).
#[export] Instance Logger_eq_dec : EqDecision Logger.
Proof. solve_decision. Defined.

(** [log_vars]: the variables with the logger of each subsystem. *)
Record Logging := MkLogging {
  backendLog : option string;
  subsystemLoggers : gmap string Logger;
  log_vars : gmap string Logger;
  log_levels : gmap string Z;
}.

Definition subsystems : list string := ["BMC"; "SRVR"; "RPCC"; "RPCS"; "IMAP"; "SMTP"; "POW"]%string.
Definition init_logging : Logging :=
  let l := list_to_map ((λ s, (s, Disabled)) <$> subsystems) in MkLogging None l l ∅.

Definition supportedSubsystems (l : Logging) : list string :=
  merge_sort ble (map_to_list (subsystemLoggers l)).*1.

(** Every name of the map is one of the cases. *)
Definition useLogger (subsystemID : string) (logger : Logger) (l : Logging) : Logging :=
  if bool_decide (is_Some (subsystemLoggers l !! subsystemID)) then
    MkLogging (backendLog l) (<[subsystemID := logger]> (subsystemLoggers l))
      (if bool_decide (subsystemID ∈ subsystems) then <[subsystemID := logger]> (log_vars l) else log_vars l)
      (log_levels l)
  else l.

(** The configuration of the backend, an XML text. *)
Definition seelog_config (console logFile : string) : string :=
  let attr name value := (" " ++ name ++ "=" ++ quote ++ value ++ quote)%string in
  let tab := String "009" EmptyString in
  (newline ++ tab ++ "<seelog" ++ attr "type" "adaptive" ++ attr "mininterval" "2000000" ++
     attr "maxinterval" "100000000" ++ newline ++
   tab ++ tab ++ "critmsgcount=" ++ quote ++ "500" ++ quote ++ attr "minlevel" "trace" ++ ">" ++ newline ++
   tab ++ tab ++ "<outputs" ++ attr "formatid" "all" ++ ">" ++ newline ++
   tab ++ tab ++ tab ++ console ++ newline ++
   tab ++ tab ++ tab ++ "<rollingfile" ++ attr "type" "size" ++ attr "filename" logFile ++
     attr "maxsize" "10485760" ++ attr "maxrolls" "3" ++ " />" ++ newline ++
   tab ++ tab ++ "</outputs>" ++ newline ++
   tab ++ tab ++ "<formats>" ++ newline ++
   tab ++ tab ++ tab ++ "<format" ++ attr "id" "all" ++ attr "format" "%Time %Date [%LEV] %Msg%n" ++ " />" ++
     newline ++
   tab ++ tab ++ "</formats>" ++ newline ++
   tab ++ "</seelog>")%string.

Section logging.
Context {LG : LogLibs}.

(** [Some code]: the program ends. *)
Definition initSeelogLogger (logFile : string) (logConsole : bool) : M Logging (option Z) :=
  let config := seelog_config (if logConsole then "<console />" else EmptyString) logFile in
  if LoggerFromConfigAsString config then
    _ ← modify (λ l, MkLogging (Some config) (subsystemLoggers l) (log_vars l) (log_levels l));
    mret None
  else mret (Some 1).

Definition setLogLevel (subsystemID logLevel : string) (l : Logging) : Logging :=
  match subsystemLoggers l !! subsystemID with
  | None => l
  | Some logger =>
      let level := default InfoLvl (LogLevelFromString logLevel) in
      let prefix := (subsystemID ++ ": ")%string in
      let '(logger, l) :=
        match logger with
        | Disabled => (prefix, useLogger subsystemID (SubsystemLogger prefix) l)
        | SubsystemLogger p => (p, l)
        end in
      MkLogging (backendLog l) (subsystemLoggers l) (log_vars l) (<[logger := level]> (log_levels l))
  end.
Definition setLogLevels (logLevel : string) (l : Logging) : Logging :=
  foldr (λ subsystemID, setLogLevel subsystemID logLevel) l (map_to_list (subsystemLoggers l)).*1.

Definition validLogLevel (logLevel : string) : bool :=
  bool_decide (logLevel ∈ ["trace"; "debug"; "info"; "warn"; "error"; "critical"]%string).

Definition bad_level (s : string) : error := ErrNew ("The specified debug level [" ++ s ++ "] is invalid").
(** One pair of a debug level: a third part is ignored. *)
Definition set_pair (pair : string) : M Logging unit :=
  if negb (Contains pair "=") then
    fail (ErrNew ("The specified debug level contains an invalid subsystem/level pair [" ++ pair ++ "]"))
  else
    match Split 61 pair with
    | subsysID :: logLevel :: _ =>
        l ← get;
        if negb (bool_decide (is_Some (subsystemLoggers l !! subsysID))) then
          fail (ErrNew ("The specified subsystem [" ++ subsysID ++ "] is invalid -- supported subsytems [" ++
                        Join " " (supportedSubsystems l) ++ "]"))
        else if negb (validLogLevel logLevel) then fail (bad_level logLevel)
        else modify (setLogLevel subsysID logLevel)
    | _ => panic
    end.
Definition parseAndSetDebugLevels (debugLevel : string) : M Logging unit :=
  if negb (Contains debugLevel ",") && negb (Contains debugLevel "=") then
    if negb (validLogLevel debugLevel) then fail (bad_level debugLevel)
    else modify (setLogLevels debugLevel)
  else mfor (Split 44 debugLevel) set_pair.
End logging.

(** ** Checking the configuration *)

Section config.
Context {LG : LogLibs} {W : Type} {OW : OS W}.

Record State := MkState { cs_cfg : Config; cs_log : Logging; cs_os : W }.
Definition on_log {A} (m : M Logging A) : M State A := zoom cs_log (λ l s, s <| cs_log := l |>) m.
Definition on_os {A} (m : M W A) : M State A := zoom cs_os (λ w s, s <| cs_os := w |>) m.
Definition set_cfg (f : Config → Config) : M State unit :=
  modify (λ s, s <| cs_cfg := f (cs_cfg s) |>).

Definition defaultDataDir : string := AppDataDir "bmagent".
Definition bmdDataDir : string := AppDataDir "bmd".
Definition bmdHomedirCAFile : string := JoinPath bmdDataDir "rpc.cert".
Definition defaultTLSKeyFile : string := JoinPath defaultDataDir "tls.key".
Definition defaultTLSCertFile : string := JoinPath defaultDataDir "tls.cert".
Definition defaultLogDir : string := JoinPath defaultDataDir defaultLogDirname.

Definition DefaultConfig : Config :=
  MkConfig false defaultDataDir defaultLogDir defaultLogLevel defaultConfigFilename
    false EmptyString false EmptyString false [] [] [] false false EmptyString EmptyString
    EmptyString EmptyString EmptyString EmptyString EmptyString EmptyString EmptyString EmptyString
    defaultTLSCertFile defaultTLSKeyFile 0 EmptyString
    defaultPowHandler NumCPU defaultMsgExpiry defaultBroadcastExpiry true defaultGenKeys
    None EmptyString EmptyString None.

Definition cleanAndExpandPath (path : string) : string :=
  let path := if sprefix "~" path then (Dir defaultDataDir ++ sdrop 1 path)%string else path in
  Clean (ExpandEnv path).

(** An error other than that the file is not there counts as existing. *)
Definition fileExists (name : string) (w : W) : bool :=
  match os_Stat name w with StatNotExist => false | _ => true end.

Definition checkCreateDir (path : string) : M W unit :=
  w ← get;
  match os_Stat path w with
  | StatDir => mret tt
  | StatFile => fail (ErrNew ("path '" ++ path ++ "' is not a directory"))
  | StatNotExist =>
      r ← try (os_MkdirAll path);
      match r with
      | inl _ => mret tt
      | inr e => fail (ErrNew ("cannot create directory: " ++ Error e))
      end
  | StatError e => fail (ErrNew ("error checking directory: " ++ Error e))
  end.

(** The stages of [Validate].  A stage that fails leaves no configuration,
    as nobody reads it then. *)
Definition use_DataDir (c : Config) : Config :=
  if bool_decide (DataDir c = defaultDataDir) then c
  else
    let c := if bool_decide (RPCKey c = defaultTLSKeyFile)
             then c <| RPCKey := JoinPath (DataDir c) "rpc.key" |> else c in
    let c := if bool_decide (RPCCert c = defaultTLSCertFile)
             then c <| RPCCert := JoinPath (DataDir c) "rpc.cert" |> else c in
    c <| DataDir := cleanAndExpandPath (DataDir c) |>.

Definition select_pow (c : Config) : res Config :=
  if bool_decide (ProofOfWork c = "sequential"%string) then Ok (c <| powHandler := Some DoSequential |>)
  else if bool_decide (ProofOfWork c = "parallel"%string) then
    if PowThreads c <? 2
    then Err (ErrNew "Number of threads for proof-of-work cannot be less than 2")
    else Ok (c <| powHandler := Some (DoParallel (PowThreads c)) |>)
  else Err (ErrNew "Unknown proof-of-work handler").

Definition check_login (c : Config) : res Config :=
  if bool_decide (Username c = EmptyString) || bool_decide (Password c = EmptyString)
  then Err (ErrNew "Username and password cannot be left blank.") else Ok c.

Definition choose_CAFile (host : string) (w : W) (c : Config) : Config :=
  let c :=
    if bool_decide (CAFile c = EmptyString) then
      let c := c <| CAFile := JoinPath (DataDir c) defaultCAFilename |> in
      if negb (fileExists (CAFile c) w) && is_local host && fileExists bmdHomedirCAFile w
      then c <| CAFile := bmdHomedirCAFile |> else c
    else c in
  c <| CAFile := cleanAndExpandPath (CAFile c) |>.

Definition default_connection (c : Config) : Config :=
  let c := if bool_decide (RPCConnect c = EmptyString) then c <| RPCConnect := "127.0.0.1"%string |> else c in
  c <| RPCConnect := normalizeAddress (RPCConnect c) defaultBmdPort |>.
Definition set_connection (w : W) (c : Config) : res Config :=
  let c := default_connection c in
  '(host, _) ← SplitHostPort (RPCConnect c);
  if DisableClientTLS c then
    if is_local host then Ok c
    else Err (ErrNew ("Validate: the --noclienttls option may not be used when connecting RPC to non localhost addresses: " ++ RPCConnect c))
  else Ok (choose_CAFile host w c).

Definition default_listeners (l addrs : list string) (port : Z) : list string :=
  match l with [] => (λ addr, JoinHostPort addr (decimal port)) <$> addrs | _ => l end.
Definition set_listeners (addrs : list string) (c : Config) : Config :=
  let rpc := if EnableRPC c then default_listeners (RPCListeners c) addrs defaultRPCPort else RPCListeners c in
  let imap := default_listeners (IMAPListeners c) addrs defaultIMAPPort in
  let smtp := default_listeners (SMTPListeners c) addrs defaultSMTPPort in
  c <| RPCListeners := normalizeAddresses rpc defaultRPCPort |>
    <| IMAPListeners := normalizeAddresses imap defaultIMAPPort |>
    <| SMTPListeners := normalizeAddresses smtp defaultSMTPPort |>.

Definition check_listeners (c : Config) : res Config :=
  if DisableServerTLS c then
    _ ← verifyListeners (RPCListeners c) "RPC";
    _ ← verifyListeners (IMAPListeners c) "IMAP";
    _ ← verifyListeners (SMTPListeners c) "SMTP";
    Ok c
  else Ok c.

Definition set_bmd_login (c : Config) : Config :=
  let c := if bool_decide (BmdUsername c = EmptyString) then c <| BmdUsername := Username c |> else c in
  if bool_decide (BmdPassword c = EmptyString) then c <| BmdPassword := Password c |> else c.

Definition check_cfg (f : Config → res Config) : M State unit :=
  s ← get; c ← lift (f (cs_cfg s)); put (s <| cs_cfg := c |>).

(** [Some code]: the program ends. *)
Definition Validate : M State (option Z) :=
  _ ← set_cfg use_DataDir;
  c ← gets cs_cfg;
  _ ← on_os (checkCreateDir (DataDir c));
  _ ← set_cfg (λ c, c <| LogDir := cleanAndExpandPath (LogDir c) |>);
  c ← gets cs_cfg;
  if bool_decide (DebugLevel c = "show"%string) then mret (Some 0)
  else
    x ← on_log (initSeelogLogger (JoinPath (LogDir c) defaultLogFilename) (LogConsole c));
    match x with
    | Some code => mret (Some code)
    | None =>
        _ ← on_log (modify (setLogLevels defaultLogLevel));
        r ← try (on_log (parseAndSetDebugLevels (DebugLevel c)));
        _ ← (match r with
             | inl _ => mret tt
             | inr e => fail (ErrNew ("loadConfig: " ++ Error e))
             end);
        _ ← check_cfg select_pow;
        _ ← check_cfg check_login;
        w ← gets cs_os;
        _ ← check_cfg (set_connection w);
        addrs ← lift (LookupHost "localhost" w);
        _ ← set_cfg (set_listeners addrs);
        _ ← check_cfg check_listeners;
        _ ← set_cfg set_bmd_login;
        mret None
    end.

(** ** Loading *)

(** The parser of [go-flags]: the options of a command line are set in the
    configuration, and what is left is returned. *)
Class Flags := {
  ParseArgs : list string → Config → res (list string * Config);
  ParseFile : string → Config → W → res Config;   (** [ErrNotFound]: an [os.PathError] *)
}.
Context {FL : Flags}.

(** [inr code]: the program ends. *)
Definition LoadConfig (args : list string) : M State (list string + Z) :=
  cfg ← gets cs_cfg;
  '(_, preCfg) ← lift (ParseArgs args cfg);
  if ShowVersion preCfg then mret (inr 0)
  else
    w ← gets cs_os;
    let configFilename := JoinPath (DataDir preCfg) (ConfigFile preCfg) in
    _ ← (if negb (bool_decide (ConfigFile preCfg = defaultConfigFilename)) || fileExists configFilename w
         then
           r ← try (check_cfg (λ c, ParseFile configFilename c w));
           match r with
           | inl _ => mret tt
           | inr e => if bool_decide (e = ErrNotFound) then mret tt else fail e
           end
         else mret tt);
    cfg ← gets cs_cfg;
    '(remainingArgs, cfg) ← lift (ParseArgs args cfg);
    _ ← set_cfg (λ _, cfg);
    x ← Validate;
    mret (match x with Some code => inr code | None => inl remainingArgs end).
End config.

(** ** Addresses *)

Lemma elem_of_remove_duplicates l seen x :
  x ∈ remove_duplicates l seen ↔ x ∈ l ∧ x ∉ seen.
Proof.
  revert seen; induction l as [|y l IH]; intros seen; cbn [remove_duplicates]; [set_solver|].
  case_bool_decide; [rewrite IH; set_solver|].
  rewrite elem_of_cons, IH. destruct (decide (x = y)); set_solver.
Qed.

Lemma NoDup_remove_duplicates l seen : NoDup (remove_duplicates l seen).
Proof.
  revert seen; induction l as [|y l IH]; intros seen; cbn [remove_duplicates]; [constructor|].
  case_bool_decide; [done|]. constructor; [|done]. rewrite elem_of_remove_duplicates. set_solver.
Qed.

Lemma normalizeAddress_split addr port :
  has_byte 91 addr = false → has_byte 93 addr = false →
  SplitHostPort (normalizeAddress addr port) =
    match SplitHostPort addr with Ok hp => Ok hp | _ => Ok (addr, decimal port) end.
Proof.
  intros Ho Hc. unfold normalizeAddress. destruct (SplitHostPort addr) as [hp|e| |] eqn:E; [done|..];
    apply SplitHostPort_JoinHostPort; try done; apply has_byte_decimal; lia.
Qed.

(** An IPv6 address in brackets without a port is spoilt. *)
Example normalize_brackets :
  normalizeAddress "[::1]" 8446 = "[[::1]]:8446"%string ∧ is_Ok (SplitHostPort "[[::1]]:8446") = false.
Proof. vm_compute. done. Qed.

Lemma elem_of_normalizeAddresses l port x :
  x ∈ normalizeAddresses l port ↔ ∃ addr, addr ∈ l ∧ x = normalizeAddress addr port.
Proof.
  unfold normalizeAddresses, removeDuplicateAddresses. rewrite elem_of_remove_duplicates, list_elem_of_fmap.
  set_solver.
Qed.

Definition local_address (addr : string) : Prop :=
  ∃ host port, SplitHostPort addr = Ok (host, port) ∧ host ∈ localhostListeners.

Lemma verifyListeners_Ok l service : verifyListeners l service = Ok tt ↔ Forall local_address l.
Proof.
  induction l as [|addr l IH]; cbn [verifyListeners]; [by split|]. rewrite Forall_cons. unfold local_address at 1.
  destruct (SplitHostPort addr) as [[host port]|e| |] eqn:E; unfold is_local.
  - case_bool_decide as Hl; [rewrite IH|]; split; try done.
    + intros H. split; [by exists host, port|done].
    + by intros [_ H].
    + intros [(h & p & Heq & Hh) _]. by simplify_eq.
  - split; [done|]. by intros [(h & p & Heq & _) _].
  - split; [done|]. by intros [(h & p & Heq & _) _].
  - split; [done|]. by intros [(h & p & Heq & _) _].
Qed.

(** ** What is accepted *)

Section accepted.
Context {LG : LogLibs} {W : Type} {OW : OS W}.
Implicit Types (c : Config) (s : State (W := W)).

(** What no stage of [Validate] changes. *)
Definition kept c := (Username c, Password c, ProofOfWork c, PowThreads c, DisableServerTLS c, DisableClientTLS c).

Definition pow_ok c : Prop :=
  (ProofOfWork c = "sequential"%string ∧ powHandler c = Some DoSequential) ∨
  (ProofOfWork c = "parallel"%string ∧ 2 ≤ PowThreads c ∧ powHandler c = Some (DoParallel (PowThreads c))).
Definition connect_ok c : Prop :=
  if DisableClientTLS c then local_address (RPCConnect c)
  else CAFile c ≠ EmptyString ∧ is_Ok (SplitHostPort (RPCConnect c)) = true.
Definition listeners c : list (list string) := [RPCListeners c; IMAPListeners c; SMTPListeners c].

Lemma select_pow_Ok c c' : select_pow c = Ok c' → kept c' = kept c ∧ pow_ok c'.
Proof.
  unfold select_pow. case_bool_decide as H1; [intros [= <-]; split; [done|by left]|].
  case_bool_decide as H2; [|done]. destruct (Z.ltb_spec (PowThreads c) 2); [done|].
  intros [= <-]. split; [done|]. right. by repeat split.
Qed.

Lemma kept_fields c c' : kept c' = kept c →
  Username c' = Username c ∧ Password c' = Password c ∧ ProofOfWork c' = ProofOfWork c ∧
  PowThreads c' = PowThreads c ∧ DisableServerTLS c' = DisableServerTLS c ∧
  DisableClientTLS c' = DisableClientTLS c.
Proof. unfold kept. by intros [= -> -> -> -> -> ->]. Qed.

(** The fields a stage does not set are those before it. *)
Local Ltac untouched := repeat case_match; done.

Lemma default_connection_kept c :
  kept (default_connection c) = kept c ∧ powHandler (default_connection c) = powHandler c.
Proof. unfold default_connection. by case_bool_decide. Qed.

Lemma choose_CAFile_kept host w c : kept (choose_CAFile host w c) = kept c ∧
  powHandler (choose_CAFile host w c) = powHandler c ∧ RPCConnect (choose_CAFile host w c) = RPCConnect c ∧
  CAFile (choose_CAFile host w c) ≠ EmptyString.
Proof.
  unfold choose_CAFile. repeat split; try untouched. apply Clean_nonempty.
Qed.

Lemma set_connection_Ok w c c' : set_connection w c = Ok c' →
  kept c' = kept c ∧ powHandler c' = powHandler c ∧ connect_ok c'.
Proof.
  unfold set_connection. destruct (default_connection_kept c) as [<- <-].
  generalize (default_connection c) as c1. intros c1 ([host port] & Hs & H)%res_bind_inv.
  destruct (DisableClientTLS c1) eqn:Hd.
  - unfold is_local in H. case_bool_decide as Hl; [|done]. injection H as <-.
    split; [done|]. split; [done|]. unfold connect_ok. rewrite Hd. by exists host, port.
  - injection H as <-. destruct (choose_CAFile_kept host w c1) as (Hk & Hp & Hr & Hc).
    split; [done|]. split; [done|]. unfold connect_ok.
    destruct (kept_fields _ _ Hk) as (_ & _ & _ & _ & _ & ->). rewrite Hd, Hr, Hs. by split.
Qed.

Lemma set_listeners_kept addrs c : kept (set_listeners addrs c) = kept c ∧
  powHandler (set_listeners addrs c) = powHandler c ∧ RPCConnect (set_listeners addrs c) = RPCConnect c ∧
  CAFile (set_listeners addrs c) = CAFile c ∧ Forall NoDup (listeners (set_listeners addrs c)).
Proof. repeat split. repeat constructor; apply NoDup_remove_duplicates. Qed.

Lemma check_listeners_Ok c c' : check_listeners c = Ok c' →
  c' = c ∧ (DisableServerTLS c = true → Forall (Forall local_address) (listeners c)).
Proof.
  unfold check_listeners. destruct (DisableServerTLS c); [|by intros [= <-]].
  intros ([] & H1 & ([] & H2 & ([] & H3 & [= <-])%res_bind_inv)%res_bind_inv)%res_bind_inv.
  apply verifyListeners_Ok in H1, H2, H3. split; [done|]. intros _. by repeat constructor.
Qed.

Lemma set_bmd_login_ok c : Username c ≠ EmptyString → Password c ≠ EmptyString →
  BmdUsername (set_bmd_login c) ≠ EmptyString ∧ BmdPassword (set_bmd_login c) ≠ EmptyString ∧
  kept (set_bmd_login c) = kept c ∧ powHandler (set_bmd_login c) = powHandler c ∧
  RPCConnect (set_bmd_login c) = RPCConnect c ∧ CAFile (set_bmd_login c) = CAFile c ∧
  listeners (set_bmd_login c) = listeners c.
Proof.
  intros Hu Hp. unfold set_bmd_login. destruct (decide (BmdUsername c = EmptyString)) as [Hbu|Hbu].
  - rewrite (bool_decide_eq_true_2 _ Hbu). case_bool_decide; by repeat split.
  - rewrite (bool_decide_eq_false_2 _ Hbu). case_bool_decide; by repeat split.
Qed.

Lemma use_DataDir_kept c : kept (use_DataDir c) = kept c.
Proof. unfold use_DataDir. untouched. Qed.

Lemma check_cfg_inv (f : Config → res Config) s s' : check_cfg f s = (Ok tt, s') →
  f (cs_cfg s) = Ok (cs_cfg s').
Proof.
  unfold check_cfg. intros (s1 & s2 & [= <- <-] & (c & s3 & [= Hf <-] & [= <-])%bind_inv)%bind_inv. done.
Qed.

Lemma on_log_cfg {A} (m : M Logging A) s r s' : on_log m s = (r, s') → cs_cfg s' = cs_cfg s.
Proof. unfold on_log, zoom. destruct (m _). by intros [= _ <-]. Qed.
Lemma on_os_cfg {A} (m : M W A) s r s' : on_os m s = (r, s') → cs_cfg s' = cs_cfg s.
Proof. unfold on_os, zoom. destruct (m _). by intros [= _ <-]. Qed.

(** What holds of a configuration that is used, from the one given. *)
Record usable c c' : Prop := {
  us_kept : kept c' = kept c;
  us_login : Username c' ≠ EmptyString ∧ Password c' ≠ EmptyString ∧
    BmdUsername c' ≠ EmptyString ∧ BmdPassword c' ≠ EmptyString;
  us_pow : pow_ok c';
  us_connect : connect_ok c';
  us_distinct : Forall NoDup (listeners c');
  us_local : DisableServerTLS c' = true → Forall (Forall local_address) (listeners c');
}.

Lemma check_login_Ok c c' : check_login c = Ok c' → c' = c ∧ Username c ≠ EmptyString ∧ Password c ≠ EmptyString.
Proof.
  unfold check_login. case_bool_decide; [done|]. case_bool_decide; [done|]. by intros [= <-].
Qed.

(** The stages after logging, on the configuration alone. *)
Lemma stages_usable w addrs c c1 c2 c3 c4 :
  select_pow c = Ok c1 → check_login c1 = Ok c2 → set_connection w c2 = Ok c3 →
  check_listeners (set_listeners addrs c3) = Ok c4 → usable c (set_bmd_login c4).
Proof.
  intros (K1 & P1)%select_pow_Ok (-> & Hu & Hp)%check_login_Ok (K3 & P3 & C3)%set_connection_Ok
    (-> & L4)%check_listeners_Ok.
  destruct (set_listeners_kept addrs c3) as (K4 & P4 & R4 & F4 & N4).
  set (c4 := set_listeners addrs c3) in *.
  assert (kept c4 = kept c1) as K by congruence.
  pose proof (kept_fields _ _ K) as (Eu & Ep & Ew & Et & Es & Ec).
  destruct (set_bmd_login_ok c4) as (Bu & Bp & K5 & P5 & R5 & F5 & L5); [congruence..|].
  pose proof (kept_fields _ _ K5) as (Eu' & Ep' & Ew' & Et' & Es' & Ec').
  split.
  - congruence.
  - repeat split; congruence.
  - unfold pow_ok in *. rewrite P5, P4, P3, Ew', Ew, Et', Et. done.
  - unfold connect_ok in *. rewrite R5, F5, R4, F4, Ec', Ec.
    destruct (kept_fields _ _ K3) as (_ & _ & _ & _ & _ & <-). done.
  - by rewrite L5.
  - rewrite L5, Es'. done.
Qed.

Lemma Validate_Ok s s' : Validate s = (Ok None, s') → usable (cs_cfg s) (cs_cfg s').
Proof.
  unfold Validate. intros ([] & s1 & [= <-] & H)%bind_inv. apply bind_inv in H as (c0 & ? & [= <- <-] & H).
  apply bind_inv in H as ([] & s2 & E2%on_os_cfg & H). apply bind_inv in H as ([] & s3 & [= <-] & H).
  apply bind_inv in H as (c1 & ? & [= <- <-] & H). case_bool_decide; [done|].
  apply bind_inv in H as ([code|] & s4 & E4%on_log_cfg & H); [done|].
  apply bind_inv in H as ([] & s5 & E5%on_log_cfg & H). apply bind_inv in H as (r & s6 & E6 & H).
  assert (cs_cfg s6 = cs_cfg s5) as E6'.
  { revert E6. unfold try. destruct (on_log _ s5) as [x sx] eqn:E. apply on_log_cfg in E. destruct x; by intros [= _ <-]. }
  destruct r as [[]|e]; [|by apply bind_inv in H as (? & ? & ? & _)].
  apply bind_inv in H as ([] & ? & [= <-] & H).
  apply bind_inv in H as ([] & s7 & E7%check_cfg_inv & H). apply bind_inv in H as ([] & s8 & E8%check_cfg_inv & H).
  apply bind_inv in H as (w & ? & [= <- <-] & H). apply bind_inv in H as ([] & s9 & E9%check_cfg_inv & H).
  apply bind_inv in H as (addrs & ? & [= _ <-] & H). apply bind_inv in H as ([] & s10 & [= <-] & H).
  apply bind_inv in H as ([] & s11 & E11%check_cfg_inv & H). apply bind_inv in H as ([] & s12 & [= <-] & H).
  injection H as <-.
  cbn [cs_cfg] in *.
  assert (kept (cs_cfg s6) = kept (cs_cfg s)) as K.
  { rewrite E6', E5, E4. change (kept (cs_cfg s2) = kept (cs_cfg s)). rewrite E2. apply use_DataDir_kept. }
  pose proof (stages_usable _ _ _ _ _ _ _ E7 E8 E9 E11) as [Uk Ul Up Uc Ud Us].
  split; try done. by rewrite <-K.
Qed.

(** C16: every configuration that [Validate] accepts is usable: user names
    and passwords are set, for clients and for bmd, those given are kept;
    the proof of work is the one asked for, the parallel one with two
    threads at least; the address of bmd has a host and a port, on this host
    if TLS is switched off for it, and there is a file of certificates
    otherwise; no address is listened to twice; and if TLS is switched off
    for the servers, all of them listen on this host only. *)
Theorem Validate_usable s s' : Validate s = (Ok None, s') → usable (cs_cfg s) (cs_cfg s').
Proof. apply Validate_Ok. Qed.

Lemma LoadConfig_Ok {FL : Flags (W := W)} args s rest s' :
  LoadConfig args s = (Ok (inl rest), s') → ∃ given, usable given (cs_cfg s').
Proof.
  intros (c & s1 & _ & ([? pre] & s2 & _ & H)%bind_inv)%bind_inv. revert H. case_match; [done|].
  intros (w & s3 & _ & (u & s4 & _ & (c4 & s5 & _ & ([? c5] & s6 & _ &
    (u6 & s7 & _ & (x & s8 & H8 & Hx)%bind_inv)%bind_inv)%bind_inv)%bind_inv)%bind_inv)%bind_inv.
  revert Hx. destruct x; intros [= _ <-]. eexists. by eapply Validate_Ok.
Qed.
End accepted.

(** ** Debug levels *)

Section levels.
Context {LG : LogLibs}.
Implicit Types l : Logging.

(** The variables and the map agree, and a logger has its own prefix. *)
Record logging_inv l : Prop := {
  li_names : dom (subsystemLoggers l) = list_to_set subsystems;
  li_vars : log_vars l = subsystemLoggers l;
  li_own id logger : subsystemLoggers l !! id = Some logger →
    logger = Disabled ∨ logger = SubsystemLogger (id ++ ": ");
}.

Definition level_of l (id : string) : option Z :=
  match subsystemLoggers l !! id with
  | Some (SubsystemLogger prefix) => log_levels l !! prefix
  | _ => None
  end.
Definition level (s : string) : Z := default InfoLvl (LogLevelFromString s).

Lemma li_lookup l id : logging_inv l → is_Some (subsystemLoggers l !! id) ↔ id ∈ subsystems.
Proof. intros Hi. by rewrite <-elem_of_dom, (li_names _ Hi), elem_of_list_to_set. Qed.

Lemma init_logging_inv : logging_inv init_logging.
Proof.
  split.
  - unfold init_logging. cbn [subsystemLoggers]. by rewrite dom_list_to_map_L.
  - done.
  - intros id logger H. left.
    by apply elem_of_list_to_map_2, list_elem_of_fmap in H as (s & [= _ ->] & _).
Qed.

(** After [setLogLevel] the logger of a subsystem exists. *)
Lemma setLogLevel_shape id s l : logging_inv l → id ∈ subsystems →
  let m := <[id := SubsystemLogger (id ++ ": ")]> (subsystemLoggers l) in
  setLogLevel id s l = MkLogging (backendLog l) m m (<[(id ++ ": ")%string := level s]> (log_levels l)).
Proof.
  intros Hi Hid. cbn. unfold setLogLevel. destruct (proj2 (li_lookup l id Hi) Hid) as [logger Hl].
  rewrite Hl. destruct (li_own _ Hi id logger Hl) as [->| ->].
  - unfold useLogger. rewrite Hl, (bool_decide_eq_true_2 (is_Some _)) by by eexists.
    rewrite (bool_decide_eq_true_2 (id ∈ _)) by done.
    cbn. by rewrite (li_vars _ Hi).
  - cbn. by rewrite (li_vars _ Hi), (insert_id (subsystemLoggers l)).
Qed.

Lemma setLogLevel_inv id s l : logging_inv l → id ∈ subsystems → logging_inv (setLogLevel id s l).
Proof.
  intros Hi Hid. rewrite setLogLevel_shape by done. split; cbn; [|done|].
  - rewrite dom_insert_L, (li_names _ Hi). set_unfold. naive_solver.
  - intros id' logger. destruct (decide (id' = id)) as [->|Hne].
    + rewrite lookup_insert_eq. intros [= <-]. by right.
    + rewrite lookup_insert_ne by done. apply (li_own _ Hi).
Qed.

Lemma setLogLevel_level id s l id' : logging_inv l → id ∈ subsystems →
  level_of (setLogLevel id s l) id' = if decide (id' = id) then Some (level s) else level_of l id'.
Proof.
  intros Hi Hid. rewrite setLogLevel_shape by done. unfold level_of. cbn.
  destruct (decide (id' = id)) as [->|Hne]; [by rewrite !lookup_insert_eq|].
  rewrite lookup_insert_ne by done. destruct (subsystemLoggers l !! id') as [[|p]|] eqn:Hl; [done| |done].
  destruct (li_own _ Hi _ _ Hl) as [H|H]; [done|]. injection H as ->. rewrite lookup_insert_ne; [done|].
  intros E. apply Hne. symmetry.
  refine (proj1 (sapp_inj _ _ _ _ _ E)). apply (f_equal String.length) in E. rewrite !slength_app in E. lia.
Qed.
(** A pair of a debug level. *)
Definition pair_text (p : string * string) : string := (p.1 ++ "=" ++ p.2)%string.
Definition set_pairs (pairs : list (string * string)) l : Logging :=
  foldl (λ l p, setLogLevel p.1 p.2 l) l pairs.

Lemma set_pair_ok p l : logging_inv l → p.1 ∈ subsystems → validLogLevel p.2 = true →
  set_pair (pair_text p) l = (Ok tt, setLogLevel p.1 p.2 l).
Proof.
  intros Hi Hs Hv. unfold set_pair.
  assert (Contains (pair_text p) "=" = true ∧ Split 61 (pair_text p) = [p.1; p.2]) as [-> ->].
  { unfold validLogLevel in Hv. apply bool_decide_eq_true in Hv. destruct p as [id lv]. cbn in *.
    repeat (apply elem_of_cons in Hs as [->|Hs]; [|]); try by apply not_elem_of_nil in Hs.
    all: repeat (apply elem_of_cons in Hv as [->|Hv]; [by vm_compute|]); by apply not_elem_of_nil in Hv. }
  cbn [negb]. run_step ltac:(reflexivity). rewrite (bool_decide_eq_true_2 _ (proj2 (li_lookup l _ Hi) Hs)).
  by rewrite Hv.
Qed.

Lemma set_pairs_ok pairs l : logging_inv l →
  (∀ p, p ∈ pairs → p.1 ∈ subsystems ∧ validLogLevel p.2 = true) →
  mfor (pair_text <$> pairs) set_pair l = (Ok tt, set_pairs pairs l) ∧ logging_inv (set_pairs pairs l).
Proof.
  revert l; induction pairs as [|p pairs IH]; intros l Hi Hp; [by split|].
  destruct (Hp p) as [Hs Hv]; [apply list_elem_of_here|].
  destruct (IH (setLogLevel p.1 p.2 l)) as [IH1 IH2];
    [by apply setLogLevel_inv|intros q Hq; apply Hp; by apply list_elem_of_further|].
  split; [|done]. cbn [fmap list_fmap mfor]. run_step ltac:(by apply set_pair_ok). done.
Qed.
Lemma set_pairs_level pairs l id : logging_inv l →
  (∀ p, p ∈ pairs → p.1 ∈ subsystems ∧ validLogLevel p.2 = true) →
  level_of (set_pairs pairs l) id =
    match last (filter (λ p, p.1 = id) pairs) with Some p => Some (level p.2) | None => level_of l id end.
Proof.
  induction pairs as [|p pairs IH] using rev_ind; intros Hi Hp; [done|].
  unfold set_pairs. rewrite foldl_app. fold (set_pairs pairs l). cbn [foldl].
  assert (∀ q, q ∈ pairs → q.1 ∈ subsystems ∧ validLogLevel q.2 = true) as Hq.
  { intros q Hq. apply Hp, elem_of_app. by left. }
  destruct (Hp p) as [Hs _]; [apply elem_of_app; right; apply list_elem_of_here|].
  destruct (set_pairs_ok pairs l Hi Hq) as [_ Hi'].
  rewrite setLogLevel_level, filter_app, filter_cons, filter_nil by done. destruct (decide (id = p.1)) as [->|Hne].
  - by rewrite decide_True, last_snoc.
  - rewrite decide_False, app_nil_r by done. by apply IH.
Qed.

Lemma pair_text_ok p : p.1 ∈ subsystems → validLogLevel p.2 = true →
  has_byte 44 (pair_text p) = false ∧ Contains (pair_text p) "=" = true.
Proof.
  intros Hs Hv. unfold validLogLevel in Hv. apply bool_decide_eq_true in Hv. destruct p as [id lv]. cbn in *.
  repeat (apply elem_of_cons in Hs as [->|Hs]; [|]); try by apply not_elem_of_nil in Hs.
  all: repeat (apply elem_of_cons in Hv as [->|Hv]; [by vm_compute|]); by apply not_elem_of_nil in Hv.
Qed.

(** A debug level made of pairs of a subsystem and a level is accepted,
    and sets the level of every subsystem it names to the last one given,
    and of no other; the logger of a subsystem stays the one in its
    variable. *)
Theorem debug_levels_set pairs l : logging_inv l → pairs ≠ [] →
  (∀ p, p ∈ pairs → p.1 ∈ subsystems ∧ validLogLevel p.2 = true) →
  ∃ l', parseAndSetDebugLevels (Join "," (pair_text <$> pairs)) l = (Ok tt, l') ∧ logging_inv l' ∧
    ∀ id, level_of l' id =
      match last (filter (λ p, p.1 = id) pairs) with Some p => Some (level p.2) | None => level_of l id end.
Proof.
  intros Hi Hne Hp. destruct (set_pairs_ok pairs l Hi Hp) as [Hrun Hi'].
  exists (set_pairs pairs l). split; [|split; [done|by intros id; apply set_pairs_level]].
  unfold parseAndSetDebugLevels.
  assert (Contains (Join "," (pair_text <$> pairs)) "=" = true) as ->.
  { destruct pairs as [|p pairs]; [done|]. destruct (Hp p) as [H1 H2]; [apply list_elem_of_here|].
    destruct (pair_text_ok p H1 H2) as [_ Hc]. cbn [fmap list_fmap].
    destruct (pair_text <$> pairs) as [|q qs]; [done|].
    change (Contains (pair_text p ++ ("," ++ Join "," (q :: qs)))%string "=" = true). by apply Contains_app. }
  rewrite andb_false_r. rewrite (Split_Join 44); [done|done|by destruct pairs|].
  apply Forall_fmap, Forall_forall. intros p Hin. destruct (Hp p Hin) as [H1 H2].
  by destruct (pair_text_ok p H1 H2).
Qed.
End levels.

(** ** A model of the system, and witnesses *)

Module ConfigModel.

(** Every path is a directory, and nothing is expanded. *)
#[export] Instance os : OS unit := {
  os_Stat _ _ := StatDir;
  os_MkdirAll _ := mret tt;
  LookupHost _ _ := Ok ["127.0.0.1"; "::1"]%string;
  ExpandEnv s := s;
  AppDataDir name := ("/home/u/." ++ name)%string;
  NumCPU := 4;
}.
#[export] Instance logs : LogLibs := {
  LoggerFromConfigAsString _ := true;
  LogLevelFromString s := if bool_decide (s = "debug"%string) then Some 1 else None;
  InfoLvl := 2;
}.

Definition cfg0 : Config :=
  DefaultConfig <| Username := "admin"%string |> <| Password := "secret"%string |>
    <| DebugLevel := "SMTP=debug,POW=info"%string |>
    <| DisableServerTLS := true |> <| DisableClientTLS := true |>
    <| SMTPListeners := ["localhost"; "localhost:1587"]%string |>.
Definition state0 : State := MkState cfg0 init_logging tt.

(** The key of the RPC server is sought under a name that is not expanded. *)
Example key_not_expanded :
  let c := use_DataDir (cfg0 <| DataDir := "~/data"%string |>) in
  DataDir c = "/home/u/data"%string ∧ RPCKey c = "~/data/rpc.key"%string.
Proof. vm_compute. done. Qed.

Lemma Validate_usable_witness :
  ∃ s', Validate state0 = (Ok None, s') ∧
    IMAPListeners (cs_cfg s') = ["127.0.0.1:1143"; "[::1]:1143"]%string ∧
    SMTPListeners (cs_cfg s') = ["localhost:1587"]%string ∧ usable cfg0 (cs_cfg s').
Proof.
  assert (Validate state0 = (Ok None, (Validate state0).2)) as H.
  { rewrite (surjective_pairing (Validate state0)) at 1. f_equal. }
  exists (Validate state0).2. split; [exact H|]. split; [vm_compute; reflexivity|].
  split; [vm_compute; reflexivity|]. exact (Validate_usable state0 _ H).
Defined.

Lemma debug_levels_set_witness :
  ∃ l', parseAndSetDebugLevels "SMTP=info,POW=info,SMTP=debug" init_logging = (Ok tt, l') ∧
    logging_inv l' ∧ level_of l' "SMTP" = Some 1 ∧ level_of l' "POW" = Some 2 ∧ level_of l' "IMAP" = None.
Proof.
  destruct (debug_levels_set [("SMTP", "info"); ("POW", "info"); ("SMTP", "debug")]%string init_logging)
    as (l' & Hrun & Hi & Hl).
  - exact init_logging_inv.
  - discriminate.
  - apply Forall_forall. repeat (apply Forall_cons; split); [..|by apply Forall_nil].
    all: cbn [fst snd]; unfold subsystems; split; [solve_elem|reflexivity].
  - exists l'. split; [exact Hrun|]. split; [exact Hi|].
    split; [exact (Hl "SMTP"%string)|]. split; [exact (Hl "POW"%string)|exact (Hl "IMAP"%string)].
Defined.
End ConfigModel.
