(* ===== verification/Setup.v ===== *)
(** * Setting up ([dbsetup.go], [config.go])

    The questions on the console, the creation and opening of the key file
    and the data store, and [loadConfig].  The console is the list of lines
    still to be typed; what is printed is left out.  The data store is the
    database of [Store]; the default mailboxes are made by [User.Initialize]
    over the persistent folders of [Folders].

    Proved: the questions end, within the lines typed, and never give an
    empty passphrase; the key file created with a passphrase opens with it
    and holds the keys that were made.  Not true of the code: what is created
    without a passphrase can be opened again. *)

From S2P Require Import Prelude Bytes Text Bolt BoltModel StoreEnv Bmutil FolderSpec BoltFolder Folders Store Keys.
From S2P Require Import Float64 MessageSequence Email Codec Mailbox MailboxInv IdMgr Commands User Server Config.
From coqutil Require Import Datatypes.RecordSetters.
From Stdlib Require Import Ascii.
Import TriangleBracketNotations.
Local Open Scope Z_scope.
Local Open Scope list_scope.

(** ** Questions *)

Definition io_EOF : error := ErrNew "EOF".

(** The lines that follow an answer, and the answer. *)
Local Abbreviation Console := (M (list string)).

Fixpoint promptConsoleList (validResponses : list string) (defaultEntry : string) (input : list string)
    : res string * list string :=
  match input with
  | [] => (Err io_EOF, [])
  | reply :: input =>
      let reply := TrimSpace (ToLower reply) in
      let reply := if bool_decide (reply = EmptyString) then defaultEntry else reply in
      if bool_decide (reply ∈ validResponses) then (Ok reply, input)
      else promptConsoleList validResponses defaultEntry input
  end.

Definition promptConsoleListBool (defaultEntry : string) : Console bool :=
  response ← promptConsoleList ["n"; "no"; "y"; "yes"]%string defaultEntry;
  mret (bool_decide (response = "yes"%string) || bool_decide (response = "y"%string)).

(** [None]: nothing was entered. *)
Fixpoint promptConsolePass (confirm : bool) (input : list string) : res (option string) * list string :=
  match input with
  | [] => (Err io_EOF, [])
  | pass :: input =>
      let pass := TrimSpace pass in
      if bool_decide (pass = EmptyString) then (Ok None, input)
      else if negb confirm then (Ok (Some pass), input)
      else
        match input with
        | [] => (Err io_EOF, [])
        | again :: input =>
            if bool_decide (pass = TrimSpace again) then (Ok (Some pass), input)
            else promptConsolePass confirm input
        end
  end.

(** Asking until something is entered; [fuel]: how often. *)
Fixpoint until_pass (fuel : nat) (confirm : bool) : Console string :=
  match fuel with
  | O => lift Hang
  | S fuel =>
      pass ← promptConsolePass confirm;
      match pass with Some pass => mret pass | None => until_pass fuel confirm end
  end.
(** Each question takes a line, so their number is enough. *)
Definition ask_pass (confirm : bool) : Console string := λ input,
  until_pass (S (length input)) confirm input.
Definition promptKeyfilePassPhrase : Console string := ask_pass false.
Definition promptStorePassPhrase : Console string := ask_pass false.

(** [^[a-zA-Z][a-zA-Z0-9]*$] *)
Definition letter (c : ascii) : bool := between 65 90 c || between 97 122 c.
Definition username_ok (s : string) : bool :=
  match s with
  | EmptyString => false
  | String c s => letter c && all_chars (λ c, letter c || between 48 57 c) s
  end.
Fixpoint promptUsername (input : list string) : res string * list string :=
  match input with
  | [] => (Err io_EOF, [])
  | uname :: input =>
      let uname := TrimSpace uname in
      if username_ok uname then (Ok uname, input) else promptUsername input
  end.

(** ** Seeds *)

(** [hex.DecodeString] *)
Definition hex_digit (c : ascii) : option Z :=
  if between 48 57 c then Some (Z_of_byte c - 48)
  else if between 97 102 c then Some (Z_of_byte c - 87)
  else if between 65 70 c then Some (Z_of_byte c - 55)
  else None.
Fixpoint hex_DecodeString (s : string) : res string :=
  match s with
  | EmptyString => Ok EmptyString
  | String _ EmptyString => Err (ErrNew "encoding/hex: odd length hex string")
  | String a (String b s) =>
      match hex_digit a, hex_digit b with
      | Some x, Some y => r ← hex_DecodeString s; Ok (String (byte_of_Z (16 * x + y)) r)
      | _, _ => Err (ErrNew "encoding/hex: invalid byte")
      end
  end.

(** [strings.Trim] of one character *)
Fixpoint trim_lead (z : Z) (s : string) : string :=
  match s with
  | String c r => if is_char z c then trim_lead z r else s
  | EmptyString => EmptyString
  end.
Fixpoint trim_trail (z : Z) (s : string) : string :=
  match s with
  | String c r => if all_chars (is_char z) s then EmptyString else String c (trim_trail z r)
  | EmptyString => EmptyString
  end.
Definition Trim (z : Z) (s : string) : string := trim_trail z (trim_lead z s).

(** [hdkeychain], with the number of a reading of randomness. *)
Class HDSeed := {
  GenerateSeed : nat → res string;
  MinSeedBytes : nat;
  MaxSeedBytes : nat;
}.

Fixpoint confirm_seed (input : list string) : res unit * list string :=
  match input with
  | [] => (Err io_EOF, [])
  | line :: input =>
      if bool_decide (Trim 34 (TrimSpace line) = "OK"%string) then (Ok tt, input) else confirm_seed input
  end.
Fixpoint existing_seed `{HDSeed} (input : list string) : res string * list string :=
  match input with
  | [] => (Err io_EOF, [])
  | line :: input =>
      match hex_DecodeString (TrimSpace (ToLower line)) with
      | Ok seed =>
          if (String.length seed <? MinSeedBytes)%nat || (MaxSeedBytes <? String.length seed)%nat
          then existing_seed input else (Ok seed, input)
      | _ => existing_seed input
      end
  end.

(** ** The persistent folders of a user, and the key manager *)

Section databases.
Context {BT : Bolt} {EV : Env} {BM : Bmutil} {ML : MailLibs} {SZ : Codec.Serialize} {IS : ImapSeq}.
Context {ID : Identity} {PB : Publics} {WR : Wire} {JT : JsonText} {HD : HDSeed} {LG : LogLibs}.
Context {W : Type} {OW : OS W} {FL : Flags (W := W)}.
(** Attempts at deriving a key, see [IdMgr.mgr_New_next]. *)
Context (fuel : nat).

(** What a pointer to a folder points to, with the database. *)
Definition target (l : nat) : M userFolders bfolder := λ st,
  (match uf_heap st !! l with Some f => Ok (BF f (uf_world st)) | None => Panic end, st).
Definition put_target (nm : string) (b : bfolder) (st : userFolders) : userFolders :=
  match uf_folders st !! nm with
  | Some (Some l) => uf_set_world (wld b) (uf_set_heap (<[l := this b]> (uf_heap st)) st)
  | _ => st
  end.
#[export] Instance persistent_folders : FoldersOps bfolder userFolders := {
  User.folders_New nm := l ← Folders.folders_New nm; target l;
  User.folders_Get nm := l ← Folders.folders_Get nm; target l;
  User.folders_Names := Folders.folders_Names;
  folders_set := put_target;
  folders_now := inw read_now;
}.
#[export] Instance manager_keys : Keyring Manager := {
  keys_Get := mgr_Get;
  keys_NewUnnamed := NewUnnamed fuel;
  keys_Names := mgr_Names;
}.

(** ** The machine

    The contents of the key file are kept beside what the system says of
    its path; the data store is the database of the loader. *)

Record Machine := MkMachine {
  mc_state : State (W := W);
  mc_input : list string;
  mc_loader : Loader;
  mc_keyfile : option string;
}.

Definition mc_cfg (m : Machine) : Config := cs_cfg (mc_state m).
Definition on_state {A} (f : M (State (W := W)) A) : M Machine A :=
  zoom mc_state (λ s m, m <| mc_state := s |>) f.
Definition on_input {A} (f : M (list string) A) : M Machine A :=
  zoom mc_input (λ i m, m <| mc_input := i |>) f.
Definition on_loader {A} (f : M Loader A) : M Machine A :=
  zoom mc_loader (λ l m, m <| mc_loader := l |>) f.
Definition on_world {A} (f : M world A) : M Machine A := on_loader (onl f).
(** A call on a store; the store after it is returned too. *)
Definition on_store {A} (s : Store.Store) (f : M sworld A) : M Machine (A * Store.Store) :=
  on_world (λ w, let '(r, sw) := f (SW s w) in (res_map (λ a, (a, st_this sw)) r, st_wld sw)).

(** [bolt.Open] and [ioutil.WriteFile]; [os_ReadFile] reads other files. *)
Context (bolt_Open : M world unit) (WriteFile : string → M (option string) unit).
Context (os_ReadFile : string → W → res string).
Context (ini_Load : string → res (gmap string (gmap string string))).

Definition store_Open : M Machine unit :=
  _ ← on_world bolt_Open; on_loader (modify (λ l, MkLoader true (l_wld l))).
Definition wrapped {A} (prefix : string) (f : M Machine A) : M Machine A :=
  r ← try f;
  match r with inl a => mret a | inr e => fail (ErrNew (prefix ++ Error e)) end.
Definition save_keys (keys : Manager) (pass : option string) : M Machine unit :=
  zoom (λ m, (reads (l_wld (mc_loader m)), mc_keyfile m))
    (λ x m, let w := l_wld (mc_loader m) in
       m <| mc_loader := MkLoader (l_db (mc_loader m))
              (World (StoreEnv.db w) (db_open w) (writing w) x.1 (ticks w)) |>
         <| mc_keyfile := x.2 |>)
    (saveKeyfile WriteFile keys pass).

Definition generate_seed : M Machine string :=
  m ← get;
  seed ← lift (GenerateSeed (reads (l_wld (mc_loader m))));
  _ ← on_world (read_rand 0);
  mret seed.
Definition promptConsoleSeed : M Machine string :=
  useUserSeed ← on_input (promptConsoleListBool "no");
  if (useUserSeed : bool) then on_input existing_seed
  else seed ← generate_seed; _ ← on_input confirm_seed; mret seed.

(** ** Creating *)

Definition ask_username : M Machine string :=
  m ← get;
  if bool_decide (Username (mc_cfg m) = EmptyString) then
    username ← on_input promptUsername;
    _ ← on_state (set_cfg (λ c, c <| Username := username |>));
    mret username
  else mret (Username (mc_cfg m)).
Definition ask_seed : M Machine string :=
  m ← get;
  if bool_decide (Seed (mc_cfg m) = EmptyString) then promptConsoleSeed
  else lift (hex_DecodeString (Seed (mc_cfg m))).
(** The empty passphrase, which is not [nil], without a question. *)
Definition new_pass : M Machine string :=
  m ← get;
  if NoPass (mc_cfg m) then mret EmptyString else on_input (ask_pass true).

(** The default mailboxes, over the persistent folders. *)
Definition init_mailboxes (u : Store.User) (genkeys : nat) (kmgr : Manager) : M Machine Manager :=
  f ← on_world (user_Folders u);
  let '(r, (f, kmgr)) := Initialize genkeys (f, kmgr) in
  _ ← on_loader (modify (λ l, MkLoader (l_db l) (uf_world f)));
  _ ← lift r;
  mret kmgr.

(** The data store with its user, and the keys generated. *)
Definition create_store : M Machine Manager :=
  username ← ask_username;
  seed ← ask_seed;
  storePass ← new_pass;
  kmgr ← lift (IdMgr.New seed);
  _ ← wrapped "Failed to create data store: " store_Open;
  s ← wrapped "Failed to create data store: " (on_loader (Construct (Some storePass)));
  '(u, s) ← on_store s (Store.NewUser username);
  m ← get;
  kmgr ← init_mailboxes u (Z.to_nat (u32 (GenKeys (mc_cfg m)))) kmgr;
  _ ← on_loader loader_Close;
  mret kmgr.
Definition createDatabases : M Machine unit :=
  kmgr ← create_store;
  keyfilePass ← new_pass;
  save_keys kmgr (Some keyfilePass).

(** ** Opening *)

Definition open_keys : M Machine Manager :=
  m ← get;
  keyFile ← lift (match mc_keyfile m with Some f => Ok f | None => Err ErrNotFound end);
  if NoPass (mc_cfg m) then lift (FromPlaintext keyFile)
  else
    keyfilePass ← on_input promptKeyfilePassPhrase;
    kmgr ← wrapped "Failed to create key manager: " (lift (FromEncrypted keyFile keyfilePass));
    _ ← on_state (set_cfg (λ c, c <| cfg_keyfilePass := Some keyfilePass |>));
    mret kmgr.

(** An error without a passphrase is dropped: the store is then [nil]. *)
Definition open_store : M Machine (option Store.Store) :=
  _ ← store_Open;
  m ← get;
  encrypted ← (if NoPass (mc_cfg m) then on_loader IsEncrypted else mret true);
  if negb encrypted then
    s ← try (on_loader (Construct None));
    mret (match s with inl s => Some s | inr _ => None end)
  else
    storePass ← on_input promptStorePassPhrase;
    s ← wrapped "Failed to open data store: " (on_loader (Construct (Some storePass)));
    mret (Some s).

Definition openDatabases : M Machine (Manager * option Store.Store) :=
  kmgr ← open_keys; s ← open_store; mret (kmgr, s).

Definition importKeyfile (kmgr : Manager) (file : string) : M Machine Manager :=
  m ← get;
  b ← lift (os_ReadFile file (cs_os (mc_state m)));
  let '(r, kmgr) := ImportKeys ini_Load b kmgr in
  keys ← lift r;
  match keys with None => fail (ErrNew "Could not read file.") | Some _ => mret kmgr end.

(** ** Starting ([loadConfig]): [inr code] when the program ends *)

Definition file_exists (name : string) (m : Machine) : bool := fileExists name (cs_os (mc_state m)).

Definition create_files : M Machine unit :=
  m ← get;
  if file_exists (keyfilePath (mc_cfg m)) m then fail (ErrNew "The key file already exists.")
  else if file_exists (storePath (mc_cfg m)) m then fail (ErrNew "The data store already exists.")
  else
    _ ← on_state (set_cfg (λ c, if GenKeys c <=? 0 then c <| GenKeys := 1 |> else c));
    createDatabases.
Definition import_files : M Machine unit :=
  _ ← on_state (set_cfg (λ c, c <| ImportKeyFile := cleanAndExpandPath (W := W) (ImportKeyFile c) |>));
  '(kmgr, s) ← openDatabases;
  m ← get;
  kmgr ← importKeyfile kmgr (ImportKeyFile (mc_cfg m));
  m ← get;
  _ ← save_keys kmgr (cfg_keyfilePass (mc_cfg m));
  s ← lift (deref s);
  _ ← on_store s store_Close;
  mret tt.

Definition loadConfig (args : list string) : M Machine (list string + Z) :=
  r ← on_state (LoadConfig args);
  match r with
  | inr code => mret (inr code)
  | inl remaining =>
      _ ← on_state (set_cfg (λ c, c <| keyfilePath := JoinPath (DataDir c) keyfileName |>
                                    <| storePath := JoinPath (DataDir c) storeDbName |>));
      m ← get;
      if Create (mc_cfg m) then _ ← create_files; mret (inr 0)
      else if negb (file_exists (keyfilePath (mc_cfg m)) m) || negb (file_exists (storePath (mc_cfg m)) m)
      then fail (ErrNew "The key file and/or data store do not exist.")
      else if negb (bool_decide (ImportKeyFile (mc_cfg m) = EmptyString)) then
        _ ← import_files; mret (inr 0)
      else mret (inl remaining)
  end.
End databases.

(** ** Answers *)

(** A question ends within the lines typed: with an answer that is one of
    them, or at their end. *)
Definition answered (confirm : bool) (input : list string) (r : res (option string)) (rest : list string) : Prop :=
  (r = Err io_EOF ∨
   ((length rest < length input)%nat ∧ rest `suffix_of` input ∧
    (r = Ok None ∨ ∃ line, line ∈ input ∧ r = Ok (Some (TrimSpace line)) ∧ TrimSpace line ≠ EmptyString))).

Lemma promptConsolePass_answered confirm input r rest :
  promptConsolePass confirm input = (r, rest) → answered confirm input r rest.
Proof.
  unfold answered. remember (length input) as n eqn:Hn. revert input Hn r rest.
  induction (lt_wf n) as [n _ IH]. intros [|pass input] -> r rest; cbn [promptConsolePass].
  { intros [= <- <-]. by left. }
  case_bool_decide as Hp; [intros [= <- <-]; right; cbn; split; [lia|]; split; [by exists [pass]|by left]|].
  destruct confirm; cbn [negb].
  2:{ intros [= <- <-]. right. cbn. split; [lia|]. split; [by exists [pass]|]. right. exists pass.
      split; [apply list_elem_of_here|done]. }
  destruct input as [|again input]; [intros [= <- <-]; by left|]. case_bool_decide as Ha.
  - intros [= <- <-]. right. cbn. split; [lia|]. split; [by exists [pass; again]|]. right. exists pass.
    split; [apply list_elem_of_here|done].
  - intros H. destruct (IH (length input)) with (input := input) (r := r) (rest := rest)
      as [?|(Hl & [pre Hs] & Hr)]; [cbn; lia|done|done|by left|]. right. cbn. split; [lia|].
    split; [exists (pass :: again :: pre); by rewrite Hs|].
    destruct Hr as [?|(line & Hin & ? & ?)]; [by left|]. right. exists line.
    split; [by do 2 apply list_elem_of_further|done].
Qed.

Lemma ask_pass_cases confirm input :
  ∃ r rest, ask_pass confirm input = (r, rest) ∧
    (r = Err io_EOF ∨ rest `suffix_of` input ∧
     ∃ line, line ∈ input ∧ r = Ok (TrimSpace line) ∧ TrimSpace line ≠ EmptyString).
Proof.
  unfold ask_pass. remember (S (length input)) as fuel eqn:Hf.
  assert (length input < fuel)%nat as Hlt by lia. clear Hf. revert input Hlt.
  induction fuel as [|fuel IH]; intros input Hlt; [lia|]. cbn [until_pass].
  destruct (promptConsolePass confirm input) as [r rest] eqn:E.
  destruct (promptConsolePass_answered _ _ _ _ E) as [->|(Hl & Hs & [->|(line & Hin & -> & Hne)])].
  - do 2 eexists. split; [by apply bind_Err|by left].
  - rewrite (bind_Ok _ _ _ _ _ E). destruct (IH rest) as (r' & rest' & H1 & H2); [lia|].
    do 2 eexists. split; [exact H1|]. destruct H2 as [?|(Hs' & line & Hin & ? & ?)]; [by left|]. right.
    split; [by etrans|]. exists line. split; [|done]. destruct Hs as [pre ->]. apply elem_of_app. by right.
  - rewrite (bind_Ok _ _ _ _ _ E). do 2 eexists. split; [reflexivity|]. right. split; [done|]. by exists line.
Qed.

(** Asking for a passphrase ends, however often nothing is entered or
    the two entries differ: there is an error when no line is left, and
    otherwise the answer is a line that was typed, without the spaces around
    it, and not empty; lines that follow the answer are still to be read. *)
Theorem ask_pass_answers confirm input :
  ∃ r rest, ask_pass confirm input = (r, rest) ∧
    (r = Err io_EOF ∨ rest `suffix_of` input ∧
     ∃ line, line ∈ input ∧ r = Ok (TrimSpace line) ∧ TrimSpace line ≠ EmptyString).
Proof. apply ask_pass_cases. Qed.

(** Calls on one part of the machine keep the others. *)
#[export] Hint Extern 1 (keeps _ (on_input _)) => solve [by apply keeps_zoom] : keeps.
#[export] Hint Extern 1 (keeps _ (on_loader _)) => solve [by apply keeps_zoom] : keeps.
#[export] Hint Extern 1 (keeps _ (on_world _)) => solve [by apply keeps_zoom] : keeps.
#[export] Hint Extern 1 (keeps _ (on_store _ _)) => solve [by apply keeps_zoom] : keeps.

(** ** What is created without a passphrase *)

Section locked.
Context {BT : Bolt} {EV : Env} {BM : Bmutil} {ML : MailLibs} {SZ : Codec.Serialize} {IS : ImapSeq}.
Context {ID : Identity} {PB : Publics} {WR : Wire} {JT : JsonText} {HD : HDSeed} {LG : LogLibs}.
Context {W : Type} {OW : OS W} (fuel : nat).
Context (bolt_Open : M world unit) (WriteFile : string → M (option string) unit).
Implicit Types m : Machine (W := W).

(** The key file and the option for passphrases. *)
Definition files m : option string * bool := (mc_keyfile m, NoPass (mc_cfg m)).

Lemma keeps_cfg (f : Config → Config) : (∀ c, NoPass (f c) = NoPass c) → keeps files (on_state (set_cfg f)).
Proof. intros Hf m r m' [= _ <-]. unfold files. f_equal. apply Hf. Qed.
#[local] Hint Resolve keeps_cfg : keeps.

Lemma keeps_create_store : keeps files (create_store fuel bolt_Open).
Proof.
  unfold create_store, ask_username, ask_seed, new_pass, store_Open, promptConsoleSeed, generate_seed, init_mailboxes.
  keeps.
Qed.
Lemma keeps_new_pass : keeps files new_pass.
Proof. unfold new_pass. keeps. Qed.

(** Without passphrases the empty one is used. *)
Lemma new_pass_NoPass m r m' : NoPass (mc_cfg m) = true → new_pass m = (r, m') → r = Ok EmptyString ∧ m' = m.
Proof. intros Hn. unfold new_pass. rewrite (bind_Ok _ _ m m m) by done. rewrite Hn. by intros [= <- <-]. Qed.

(** Writing leaves the text or what was there. *)
Definition writes : Prop := ∀ x f r f', WriteFile x f = (r, f') → f' = Some x ∨ f' = f.

Lemma save_keys_sealed k pass m r m' : writes → mc_keyfile m = None →
  save_keys WriteFile k (Some pass) m = (r, m') →
  ∀ enc, mc_keyfile m' = Some enc → ∃ n n', ExportEncrypted pass k n = (Ok enc, n').
Proof.
  intros Hw Hn. unfold save_keys, saveKeyfile, zoom. munfold. cbn [fst snd].
  destruct (ExportEncrypted pass k _) as [[x|e| |] n'] eqn:E; cbn [fst snd];
    [destruct (WriteFile x _) as [[u|e| |] f] eqn:Ef; apply Hw in Ef|..];
    intros [= <- <-] enc; cbn [mc_keyfile]; rewrite ?Hn; try done;
    destruct Ef as [->| ->]; rewrite ?Hn; intros [= <-]; eauto.
Qed.

(** What [openDatabases] needs: the text of the keys, or a passphrase that
    was typed. *)
Lemma open_keys_typed m k m' : open_keys m = (Ok k, m') →
  ∃ enc, mc_keyfile m = Some enc ∧
    (FromPlaintext enc = Ok k ∨ ∃ p, p ≠ EmptyString ∧ FromEncrypted enc p = Ok k).
Proof.
  unfold open_keys. rewrite (bind_Ok _ _ m m m) by done.
  destruct (mc_keyfile m) as [enc|]; [|done]. rewrite (bind_Ok _ _ m enc m) by done. intros H.
  exists enc. split; [done|]. destruct (NoPass (mc_cfg m)); [left; by injection H|right].
  apply bind_inv in H as (p & m1 & Hp & H). apply bind_inv in H as (k' & m2 & Hk & H).
  apply bind_inv in H as ([] & m3 & _ & [= -> _]). exists p. split.
  - revert Hp. unfold on_input, zoom, promptKeyfilePassPhrase.
    destruct (ask_pass_cases false (mc_input m)) as (r & rest & -> & Hr). intros [= -> _].
    destruct Hr as [?|(_ & line & _ & [= ->] & Hne)]; done.
  - revert Hk. unfold wrapped, lift. munfold. destruct (FromEncrypted enc p); try done. by intros [= <- _].
Qed.

(** What is created without passphrases is locked.  The key file is
    encrypted, with the empty passphrase: opened without passphrases it must
    be plain text, which it is not; and a passphrase that is typed is never
    empty.  So whatever is typed, the program opens the file only if the
    sealed text passes for plain text, or if another passphrase opens it. *)
Theorem nopass_locked m m' enc : writes → mc_keyfile m = None → NoPass (mc_cfg m) = true →
  createDatabases fuel bolt_Open WriteFile m = (Ok tt, m') → mc_keyfile m' = Some enc →
  (∃ k n n', ExportEncrypted EmptyString k n = (Ok enc, n')) ∧
  ∀ m2 k s m3, mc_keyfile m2 = Some enc → openDatabases bolt_Open m2 = (Ok (k, s), m3) →
    FromPlaintext enc = Ok k ∨ ∃ p, p ≠ EmptyString ∧ FromEncrypted enc p = Ok k.
Proof.
  intros Hw Hn Hp (k & m1 & H1 & (pass & m2 & H2 & H3)%bind_inv)%bind_inv Henc.
  pose proof (keeps_create_store _ _ _ H1) as [= K1 P1].
  destruct (new_pass_NoPass m1 _ _ ltac:(congruence) H2) as [[= ->] ->]. split.
  - destruct (save_keys_sealed k EmptyString m1 _ _ Hw ltac:(congruence) H3 enc Henc) as (n & n' & He). eauto.
  - intros mo k' s mo' Hm (k1 & m4 & Hk & (s1 & m5 & _ & [= -> _ _])%bind_inv)%bind_inv.
    destruct (open_keys_typed _ _ _ Hk) as (enc' & He & Hr). rewrite Hm in He. by injection He as <-.
Qed.
End locked.

(** ** What is created with a passphrase *)

Section reopened.
Context {BT : Bolt} {EV : Env} {BM : Bmutil} {ML : MailLibs} {SZ : Codec.Serialize} {IS : ImapSeq}.
Context {ID : Identity} {PB : Publics} {WR : Wire} {JT : JsonText} {HD : HDSeed} {LG : LogLibs}.
Context {EL : EnvLaws} {IL : IdentityLaws} {JL : JsonTextLaws}.
Context {W : Type} {OW : OS W} (fuel : nat).
Context (bolt_Open : M world unit) (WriteFile : string → M (option string) unit).
Implicit Types m : Machine (W := W).

Lemma ask_pass_line line rest : TrimSpace line ≠ EmptyString →
  ask_pass false (line :: rest) = (Ok (TrimSpace line), rest).
Proof.
  intros Hne. unfold ask_pass. cbn [length until_pass].
  by run_step ltac:(cbn [promptConsolePass]; rewrite bool_decide_eq_false_2 by done; reflexivity).
Qed.

Lemma save_keys_written k pass m enc n : (∀ x f, WriteFile x f = (Ok tt, Some x)) →
  ExportEncrypted pass k (reads (l_wld (mc_loader m))) = (Ok enc, n) →
  ∃ m', save_keys WriteFile k (Some pass) m = (Ok tt, m') ∧ mc_keyfile m' = Some enc.
Proof.
  intros Hw Hx. unfold save_keys, saveKeyfile, zoom. munfold. cbn [fst snd]. rewrite Hx. cbn [fst snd].
  rewrite Hw. eexists. split; reflexivity.
Qed.

(** The identities that are made with the store have no names. *)
Lemma create_store_unnamed m k m1 : create_store fuel bolt_Open m = (Ok k, m1) → unnamed k.
Proof.
  intros (username & ? & _ & (seed & ? & _ & (pass & ? & _ & (k0 & ? & Hk0 & H)%bind_inv)%bind_inv)%bind_inv)%bind_inv.
  apply bind_inv in H as (? & ? & _ & (s & ? & _ & ([u s'] & ? & _ & (m2 & ? & _ & H)%bind_inv)%bind_inv)%bind_inv).
  apply bind_inv in H as (k1 & ? & Hk1 & (? & ? & _ & [= <- _])%bind_inv).
  assert (unnamed k0) as Hu.
  { unfold lift in Hk0. destruct (IdMgr.New seed) as [k'| | |] eqn:E; try done. injection Hk0 as -> _.
    by eapply New_unnamed. }
  revert Hk1. intros (f & ? & _ & H)%bind_inv. destruct (Initialize _ (f, k0)) as [r [f' k2]] eqn:E.
  apply (Initialize_preserves unnamed) in E; [|apply NewUnnamed_preserves]. specialize (E Hu).
  by apply bind_inv in H as (? & ? & _ & (? & ? & _ & [= <- _])%bind_inv).
Qed.

(** C15: what is created with passphrases can be opened with them.  When the
    store was made and a passphrase typed, the key file is written; asked for
    it and given a line with that passphrase, the program reads back the same
    database of identities, with the same imported and derived addresses. *)
Theorem created_keys_open m k m1 pass rest :
  (∀ x f, WriteFile x f = (Ok tt, Some x)) →
  create_store fuel bolt_Open m = (Ok k, m1) → mgr_inv k → exportable k →
  NoPass (mc_cfg m) = false → ask_pass true (mc_input m1) = (Ok pass, rest) →
  ∃ m' enc, createDatabases fuel bolt_Open WriteFile m = (Ok tt, m') ∧ mc_keyfile m' = Some enc ∧
    ∀ (mo : Machine (W := W)) line more, mc_keyfile mo = Some enc → NoPass (mc_cfg mo) = false →
      mc_input mo = line :: more → TrimSpace line = pass →
      ∃ k', (open_keys mo).1 = Ok k' ∧ mgr_db k' = mgr_db k ∧
        importedIDs k' ≡ₚ importedIDs k ∧ derivedIDs k' ≡ₚ derivedIDs k.
Proof.
  intros Hw Hs Hi He Hn Hp. pose proof (keeps_create_store _ _ _ _ _ Hs) as [= _ Hn1]. rewrite Hn in Hn1.
  assert (pass ≠ EmptyString) as Hne.
  { destruct (ask_pass_cases true (mc_input m1)) as (r & rest' & Hc & [->|(_ & line & _ & -> & Hne)]);
      rewrite Hp in Hc; by simplify_eq. }
  destruct (encrypted_opens k pass (reads (l_wld (mc_loader m1))) Hi He) as (enc & k' & Hx & Ho & Hk).
  rewrite (unnamed_read_back k Hi (create_store_unnamed _ _ _ Hs)) in Hk.
  edestruct (save_keys_written k pass (m1 <| mc_input := rest |>)) as (m' & Hm & Hf'); [exact Hw|exact Hx|].
  exists m', enc. split; [|split; [done|]].
  - unfold createDatabases. run_step ltac:(exact Hs).
    run_step ltac:(unfold new_pass; run_step ltac:(reflexivity); rewrite Hn1;
      unfold on_input, zoom; rewrite Hp; reflexivity).
    exact Hm.
  - intros mo line more Hf Hno Hin Ht. exists k'. split; [|done].
    unfold open_keys. munfold. rewrite Hf, Hno. unfold on_input, zoom, promptKeyfilePassPhrase.
    rewrite Hin, ask_pass_line by (by rewrite Ht). unfold wrapped. munfold. rewrite Ht, Ho. reflexivity.
Qed.
End reopened.

(** ** Witnesses *)

Module SetupModel.
Import EnvModel BmutilModel MailModel SerializeModel ImapModel IdentityModel WireModel ConfigModel NetworkModel.

#[export] Instance seeds : HDSeed := {
  GenerateSeed n := Ok "seed"%string;
  MinSeedBytes := 1;
  MaxSeedBytes := 64;
}.

Definition cfg1 : Config := cfg0 <| NoPass := true |> <| Seed := "0a"%string |> <| GenKeys := 1 |>.
Definition machine0 : Machine := MkMachine (MkState cfg1 init_logging tt) [] new_file None.
Definition write_file (x : string) : M (option string) unit := λ _, (Ok tt, Some x).
Definition created := createDatabases 3 (mret tt) write_file machine0.
End SetupModel.

Section witnesses.
Import BoltModel.Model EnvModel BmutilModel MailModel SerializeModel ImapModel IdentityModel WireModel ConfigModel NetworkModel SetupModel.

Lemma created_Ok : created.1 = Ok tt.
Proof. vm_compute. reflexivity. Qed.

Lemma nopass_locked_witness :
  ∃ enc, mc_keyfile created.2 = Some enc ∧
    ∀ (m2 : Machine (W := unit)) k s m3, mc_keyfile m2 = Some enc → openDatabases (mret tt) m2 = (Ok (k, s), m3) →
      FromPlaintext enc = Ok k ∨ ∃ p, p ≠ EmptyString ∧ FromEncrypted enc p = Ok k.
Proof.
  destruct (mc_keyfile created.2) as [enc|] eqn:Henc; [|exfalso; revert Henc; vm_compute; discriminate].
  exists enc. split; [reflexivity|].
  pose proof (nopass_locked 3 (mret tt) write_file machine0 created.2 enc) as Hw. apply Hw; clear Hw.
  - intros x f r f' [= _ <-]. by left.
  - reflexivity.
  - reflexivity.
  - rewrite <- created_Ok. apply surjective_pairing.
  - exact Henc.
Defined.
End witnesses.

Section key_witness.
Import BoltModel.Model EnvModel BmutilModel MailModel SerializeModel ImapModel IdentityModel JsonModel WireModel.
Import ConfigModel SetupModel.

(** Two passphrases are typed, each twice; one key is made. *)
Definition typing : Machine (W := unit) :=
  MkMachine (MkState (cfg1 <| NoPass := false |>) init_logging tt)
    ["one"; "one"; " two"; "two "; "rest"]%string new_file None.
Definition no_keys : Manager := MkManager (newDb (String (byte_of_Z 10) EmptyString : ExtendedKey) latestFileVersion) [] [].
Definition one_key : Manager := (NewUnnamed 3 DefaultStream BehaviorAck no_keys).2.
Definition stored : Machine (W := unit) := (create_store 3 (mret tt) typing).2.

Lemma stored_Ok : create_store 3 (mret tt) typing = (Ok one_key, stored).
Proof.
  assert ((create_store 3 (mret tt) typing).1 = Ok one_key) as H
    by (vm_cast_no_check (@eq_refl (res Manager) (Ok one_key))).
  rewrite (surjective_pairing (create_store 3 (mret tt) typing)), H. reflexivity.
Qed.

Definition the_id : IdPrivateID :=
  NewPrivateID (NewPrivateAddress (String (byte_of_Z 10) (be32 0)) DefaultAddressVersion DefaultStream) BehaviorAck None.
Definition the_key : PrivateID := MkPrivateID (Some the_id) false false false EmptyString.
Lemma one_key_eq : NewUnnamed 3 DefaultStream BehaviorAck no_keys =
  (Ok the_key, MkManager (set_IDs {[ Address_String (id_Address the_id) := the_key ]}
     (MkDb latestFileVersion (Some (String (byte_of_Z 10) EmptyString : ExtendedKey)) 1 (Some ∅)))
     [] [Address_String (id_Address the_id)]).
Proof. reflexivity. Qed.
Lemma one_key_inv : mgr_inv one_key.
Proof.
  assert (mgr_inv no_keys) as Hi by by apply (inv_New (String (byte_of_Z 10) EmptyString)).
  apply (inv_step no_keys); [exact Hi|].
  refine (step_New 3 EmptyString DefaultStream BehaviorAck no_keys the_key (id_Address the_id) one_key _ eq_refl).
  unfold one_key. rewrite one_key_eq. exact one_key_eq.
Qed.
Lemma one_key_exportable : exportable one_key.
Proof.
  unfold one_key. rewrite one_key_eq. split; [reflexivity|unfold is_u32; cbn; lia|]. intros a p.
  cbn [snd]. unfold ids. cbn [mgr_db set_IDs IDs default from_option id].
  intros [_ <-]%lookup_singleton_Some.
  exists the_id, (1000, 1000). split; [reflexivity|]. split; [reflexivity|]. unfold is_u64, is_u32. cbn. lia.
Qed.

Lemma created_keys_open_witness :
  ∃ m' enc, createDatabases 3 (mret tt) write_file typing = (Ok tt, m') ∧ mc_keyfile m' = Some enc ∧
    ∃ k', (open_keys (typing <| mc_keyfile := Some enc |> <| mc_input := [" two  "]%string |>)).1 = Ok k' ∧
      mgr_db k' = mgr_db one_key.
Proof.
  destruct (created_keys_open 3 (mret tt) write_file typing one_key stored "two" ["rest"]%string)
    as (m' & enc & H1 & H2 & H3).
  - reflexivity.
  - exact stored_Ok.
  - exact one_key_inv.
  - exact one_key_exportable.
  - reflexivity.
  - vm_compute. reflexivity.
  - exists m', enc. split; [exact H1|]. split; [exact H2|].
    destruct (H3 (typing <| mc_keyfile := Some enc |> <| mc_input := [" two  "]%string |>) " two  "%string [])
      as (k' & H4 & H5 & _); [reflexivity..|]. exists k'. split; [exact H4|exact H5].
Defined.
End key_witness.
