(* ===== verification/Shutdown.v ===== *)
(** * Interrupts, and the life of the server ([signal.go], [server.go], [bmrpc/client.go])

    The goroutine that waits for interrupts and for handlers to register, as
    a step relation: the channel for interrupts holds one, that for handlers
    none, so those who register wait.  A handler runs in that goroutine; a
    call of it is recorded.  Then starting and stopping: the counters that
    make it happen once, the channels that are closed, and the goroutines
    that are waited for.

    Proved: every handler is called once, whenever it was registered, the
    earlier ones last first, and the program is told once to end; nothing
    that waits stays waiting; stopping any number of times stops once and
    saves the data once; and the server's goroutines are those waited for,
    none of which ends by itself before the server is stopped, and each of
    which can once it was. *)

From S2P Require Import Prelude Bytes Text Bolt StoreEnv Bmutil FolderSpec Store Pow Keys IdMgr.
From S2P Require Import Float64 MessageSequence Email Codec Mailbox MailboxInv Commands User Server.
Local Open Scope Z_scope.
Local Open Scope list_scope.

(** ** Interrupts ([signal.go]) *)

Section interrupts.
Context {H : Type}.

Inductive action :=
  | Call (h : H)
  | SendShutdown.   (** on [shutdownChannel] *)

(** [interruptChannel] exists once a handler was given, and holds one
    interrupt; callers of [addInterruptHandler] are blocked until their
    handler is taken. *)
Record Interrupts := MkInterrupts {
  listening : bool;
  interruptChannel : bool;
  addHandlerChannel : list H;
  interruptCallbacks : list H;
  isShutdown : bool;
  actions : list action;
}.

Definition no_interrupts : Interrupts := MkInterrupts false false [] [] false [].

Definition set_channels (l c : bool) (hs : list H) (s : Interrupts) : Interrupts :=
  MkInterrupts l c hs (interruptCallbacks s) (isShutdown s) (actions s).
Definition set_callbacks (hs : list H) (s : Interrupts) : Interrupts :=
  MkInterrupts (listening s) (interruptChannel s) (addHandlerChannel s) hs (isShutdown s) (actions s).
Definition set_isShutdown (s : Interrupts) : Interrupts :=
  MkInterrupts (listening s) (interruptChannel s) (addHandlerChannel s) (interruptCallbacks s) true (actions s).
Definition act (a : action) : M Interrupts unit :=
  modify (λ s, MkInterrupts (listening s) (interruptChannel s) (addHandlerChannel s)
    (interruptCallbacks s) (isShutdown s) (actions s ++ [a])).

(** An element of a slice. *)
Definition element (l : list H) (i : Z) : res H :=
  if i <? 0 then Panic else deref (l !! Z.to_nat i).

(** The two cases of [mainInterruptHandler]. *)
Definition interrupted : M Interrupts unit :=
  s ← get;
  if isShutdown s then mret tt
  else
    _ ← modify set_isShutdown;
    s ← get;
    _ ← mfor (seq 0 (length (interruptCallbacks s))) (λ i,
      let idx := Z.of_nat (length (interruptCallbacks s)) - 1 - Z.of_nat i in
      callback ← lift (element (interruptCallbacks s) idx);
      act (Call callback));
    act SendShutdown.
Definition handler_received (handler : H) : M Interrupts unit :=
  s ← get;
  _ ← (if isShutdown s then act (Call handler) else mret tt);
  modify (λ s, set_callbacks (interruptCallbacks s ++ [handler]) s).

(** Up to the point where the caller is blocked. *)
Definition addInterruptHandler (handler : H) : M Interrupts unit :=
  modify (λ s, set_channels true (interruptChannel s) (addHandlerChannel s ++ [handler]) s).

Inductive event := Signal | Interrupted | Add (h : H) | Received (h : H).

(** A signal that finds the channel full is lost.  Any of those blocked may
    be next. *)
Inductive step : Interrupts → event → Interrupts → Prop :=
  | step_signal s :
      listening s = true → step s Signal (set_channels true true (addHandlerChannel s) s)
  | step_interrupted s s' :
      interruptChannel s = true →
      interrupted (set_channels (listening s) false (addHandlerChannel s) s) = (Ok tt, s') →
      step s Interrupted s'
  | step_add h s s' :
      addInterruptHandler h s = (Ok tt, s') → step s (Add h) s'
  | step_received h l1 l2 s s' :
      addHandlerChannel s = l1 ++ h :: l2 →
      handler_received h (set_channels (listening s) (interruptChannel s) (l1 ++ l2) s) = (Ok tt, s') →
      step s (Received h) s'.

Inductive steps : list event → Interrupts → Prop :=
  | steps_init : steps [] no_interrupts
  | steps_snoc tr s e s' : steps tr s → step s e s' → steps (tr ++ [e]) s'.

(** The handlers given, and those registered, in order. *)
Definition added (tr : list event) : list H := omap (λ e, match e with Add h => Some h | _ => None end) tr.
Definition registered (tr : list event) : list H := omap (λ e, match e with Received h => Some h | _ => None end) tr.
Definition called (l : list action) : list H := omap (λ a, match a with Call h => Some h | _ => None end) l.
Definition is_signal (e : event) : bool := match e with Signal => true | _ => false end.
Definition of_loop (e : event) : bool := match e with Interrupted | Received _ => true | _ => false end.

(** *** The calls of an interrupt *)

Lemma calls_backwards l (s : Interrupts) n : (n ≤ length l)%nat →
  mfor (seq (length l - n) n) (λ i,
    callback ← lift (element l (Z.of_nat (length l) - 1 - Z.of_nat i)); act (Call callback)) s =
  (Ok tt, MkInterrupts (listening s) (interruptChannel s) (addHandlerChannel s) (interruptCallbacks s)
            (isShutdown s) (actions s ++ (Call <$> reverse (take n l)))).
Proof.
  revert s. induction n as [|n IH]; intros s Hn; [cbn; rewrite app_nil_r; by destruct s|].
  cbn [seq mfor]. destruct (lookup_lt_is_Some_2 l n ltac:(lia)) as [h Hh].
  assert (element l (Z.of_nat (length l) - 1 - Z.of_nat (length l - S n)) = Ok h) as He.
  { unfold element. replace (_ - _) with (Z.of_nat n) by lia.
    rewrite (proj2 (Z.ltb_ge _ _)) by lia. by rewrite Nat2Z.id, Hh. }
  rewrite (bind_Ok _ _ s tt (MkInterrupts (listening s) (interruptChannel s) (addHandlerChannel s)
    (interruptCallbacks s) (isShutdown s) (actions s ++ [Call h]))).
  2:{ rewrite (bind_Ok _ _ s h s) by (unfold lift; by rewrite He). done. }
  replace (S (length l - S n)) with (length l - n)%nat by lia. rewrite IH by lia. cbn.
  by rewrite (take_S_r _ _ _ Hh), reverse_snoc, <- app_assoc.
Qed.

(** The first interrupt calls the handlers, the last one first; another one
    does nothing. *)
Lemma interrupted_calls s : interrupted s = (Ok tt,
  if isShutdown s then s
  else MkInterrupts (listening s) (interruptChannel s) (addHandlerChannel s) (interruptCallbacks s) true
         (actions s ++ (Call <$> reverse (interruptCallbacks s)) ++ [SendShutdown])).
Proof.
  unfold interrupted. rewrite (bind_Ok _ _ s s s) by done. destruct (isShutdown s); [done|].
  rewrite (bind_Ok _ _ s tt (set_isShutdown s)), (bind_Ok _ _ _ (set_isShutdown s) (set_isShutdown s)) by done.
  pose proof (calls_backwards (interruptCallbacks s) (set_isShutdown s) (length (interruptCallbacks s))) as Hc.
  rewrite Nat.sub_diag in Hc. rewrite (bind_Ok _ _ _ _ _ (Hc (le_n _))), firstn_all.
  unfold act, modify. cbn. by rewrite <- app_assoc.
Qed.

(** *** What is called *)

(** What a history did. *)
Record handled (tr : list event) (s : Interrupts) : Prop := {
  hd_registered : interruptCallbacks s = registered tr;
  hd_added : added tr ≡ₚ registered tr ++ addHandlerChannel s;
  hd_signal : existsb is_signal tr = interruptChannel s || isShutdown s;
  hd_before : isShutdown s = false → actions s = [];
  hd_after : isShutdown s = true → ∃ before after, registered tr = before ++ after ∧
    actions s = (Call <$> reverse before) ++ SendShutdown :: (Call <$> after);
}.

Lemma registered_snoc tr e :
  registered (tr ++ [e]) = registered tr ++ match e with Received h => [h] | _ => [] end.
Proof. unfold registered. rewrite omap_app. by destruct e. Qed.
Lemma added_snoc tr e : added (tr ++ [e]) = added tr ++ match e with Add h => [h] | _ => [] end.
Proof. unfold added. rewrite omap_app. by destruct e. Qed.

(** Taking a handler. *)
Lemma handler_received_calls h s : handler_received h s = (Ok tt,
  MkInterrupts (listening s) (interruptChannel s) (addHandlerChannel s) (interruptCallbacks s ++ [h])
    (isShutdown s) (actions s ++ (if isShutdown s then [Call h] else []))).
Proof.
  destruct s as [l c hs cbs [] acts]; [done|].
  cbn. by rewrite app_nil_r.
Qed.

Lemma step_handled tr s e s' : handled tr s → step s e s' → handled (tr ++ [e]) s'.
Proof.
  intros [Hr Ha Hg Hb Hf] Hs.
  inversion Hs as [s0 Hl|s0 s1 Hc Hi|h s0 s1 Hi|h l1 l2 s0 s1 Hc Hi]; subst;
    [|rewrite interrupted_calls in Hi; injection Hi as <-|injection Hi as <-
     |rewrite handler_received_calls in Hi; injection Hi as <-];
    destruct s as [l c hs cbs [] acts]; cbn in *;
    (split; rewrite ?registered_snoc, ?added_snoc, ?existsb_app, ?app_nil_r; cbn;
     rewrite ?orb_false_r, ?orb_true_r, ?app_nil_r); try congruence; try done; try (by auto);
    try (rewrite Ha, Hc, <- !app_assoc; cbn; by rewrite <- Permutation_middle);
    try (by rewrite Ha, app_assoc); try (by rewrite Hg, ?Hc, ?orb_true_r, ?orb_false_r).
  - intros _. exists cbs, []. rewrite app_nil_r. split; [done|]. by rewrite (Hb eq_refl).
  - intros _. destruct (Hf eq_refl) as (before & after & -> & ->).
    exists before, (after ++ [h]). by rewrite fmap_app, <- !app_assoc.
Qed.
Lemma steps_handled tr s : steps tr s → handled tr s.
Proof. induction 1 as [|tr s e s' Hs IH He]; [by split|]. by eapply step_handled. Qed.

(** *** Nothing waits for ever *)

(** What waits, and the steps of the loop against those of its callers. *)
Definition waiting (s : Interrupts) : nat := length (addHandlerChannel s) + (if interruptChannel s then 1 else 0).
Definition loop_steps (tr : list event) : nat := length (List.filter of_loop tr).
Definition caller_steps (tr : list event) : nat := length (List.filter (negb ∘ of_loop) tr).

Lemma steps_waiting tr s : steps tr s → (loop_steps tr + waiting s ≤ caller_steps tr)%nat.
Proof.
  unfold loop_steps, caller_steps, waiting.
  induction 1 as [|tr s e s' _ IH He]; [done|]. rewrite !List.filter_app, !length_app.
  destruct s as [l c hs cbs sd acts].
  inversion He as [s0 Hl|s0 s1 Hc Hi|h s0 s1 Hi|h l1 l2 s0 s1 Hc Hi]; subst;
    [|rewrite interrupted_calls in Hi; injection Hi as <-|injection Hi as <-
     |rewrite handler_received_calls in Hi; injection Hi as <-]; cbn in *; subst.
  - destruct c; lia.
  - destruct sd; cbn in *; lia.
  - rewrite length_app. cbn. lia.
  - rewrite length_app in *. cbn in *. lia.
Qed.

(** While something waits the loop can move. *)
Lemma waiting_moves s : (0 < waiting s)%nat → ∃ e s', step s e s' ∧ of_loop e = true.
Proof.
  unfold waiting. destruct (interruptChannel s) eqn:E.
  - intros _. do 2 eexists. split; [by apply (step_interrupted _ _ E), interrupted_calls|done].
  - destruct (addHandlerChannel s) as [|h hs] eqn:Eh; [cbn; lia|]. intros _. do 2 eexists.
    split; [by apply (step_received h [] hs _ _ Eh), handler_received_calls|done].
Qed.

Lemma called_calls (l : list H) : called (Call <$> l) = l.
Proof. unfold called. induction l as [|h l IH]; [done|]. cbn. by f_equal. Qed.

(** C20: the loop ends with nothing waiting: it makes no more steps than
    there were interrupts and handlers given; and where it cannot move,
    nobody is blocked, and, if there was an interrupt, every handler that
    was ever given has been called exactly once and the program told once to
    end. *)
Theorem interrupts_served tr s : steps tr s →
  (loop_steps tr ≤ caller_steps tr)%nat ∧
  ((∀ e s', step s e s' → of_loop e = false) →
    addHandlerChannel s = [] ∧
    if existsb is_signal tr then
      called (actions s) ≡ₚ added tr ∧ length (actions s) = S (length (added tr))
    else actions s = []).
Proof.
  intros Hs. pose proof (steps_waiting _ _ Hs) as Hw. split; [lia|]. intros Hstuck.
  destruct (steps_handled _ _ Hs) as [_ Ha Hg Hb Hf].
  assert (waiting s = 0%nat) as Hz.
  { destruct (waiting s) eqn:E; [done|].
    destruct (waiting_moves s ltac:(lia)) as (e & s' & He & Hl). by rewrite (Hstuck _ _ He) in Hl. }
  unfold waiting in Hz. destruct (addHandlerChannel s) as [|h hs]; [|done].
  destruct (interruptChannel s); [done|]. split; [done|].
  rewrite app_nil_r in Ha. destruct (isShutdown s).
  - rewrite Hg. cbn [orb]. destruct (Hf eq_refl) as (before & after & Hr & ->). rewrite (Permutation_length Ha).
    split.
    + etrans; [|by symmetry]. rewrite Hr. unfold called. rewrite omap_app. cbn.
      fold (called (Call <$> reverse before)) (called (Call <$> after)). rewrite !called_calls.
      apply Permutation_app_tail, reverse_Permutation.
    + rewrite Hr, !length_app. cbn. rewrite !length_fmap, length_reverse. lia.
  - rewrite Hg. by apply Hb.
Qed.

(** C19: in every history, the handlers that were registered are called once
    each when there has been an interrupt, and never before: those
    registered before it last first, then the program is told once to end,
    then the later ones as they come.  Those not registered are blocked. *)
Theorem handlers_called_once tr s : steps tr s →
  added tr ≡ₚ registered tr ++ addHandlerChannel s ∧
  if isShutdown s then
    ∃ before after, registered tr = before ++ after ∧
      actions s = (Call <$> reverse before) ++ SendShutdown :: (Call <$> after)
  else actions s = [].
Proof.
  intros [Hr Ha _ Hb Hf]%steps_handled. split; [done|].
  destruct (isShutdown s); [by apply Hf|by apply Hb].
Qed.
End interrupts.

(** ** The server ([server.go]) and its client ([bmrpc/client.go]) *)

(** Adding to a 32-bit counter wraps around. *)
Definition i32 (z : Z) : Z := (z + 2 ^ 31) `mod` 2 ^ 32 - 2 ^ 31.

(** The goroutines that are waited for: those of the client, by the type of
    their objects, and those of the server. *)
Inductive processor := MESSAGE | BROADCAST | GETPUBKEY.
Inductive routine := PkRequestHandler | SavePeriodically.

(** Where [processObjects] is: waiting for its call of [GetObjects], at its
    [select], or waiting for an object. *)
Inductive phase := Opening | Selecting | Receiving.

Section life.
Context {BT : Bolt} {EV : Env} {BM : Bmutil} {ML : MailLibs} {SZ : Serialize} {IS : ImapSeq}.
Context {ID : Identity} {PB : Publics} {WR : Wire} {PT : ProtoText} {JT : JsonText}.
Context {F : Type} {FO : Folder F} {B : Type} {NW : Network B}.
Context (fuel : nat) (WriteFile : string → M (option string) unit).

(** The client: whether [quit] is closed and the connection open, and the
    goroutines started, with the counters that they start from, and where they
    are. *)
Record Client := MkClient {
  c_quit : bool;
  c_conn : bool;
  c_wg : Z;
  processors : list (processor * Z * phase);
}.
Definition NewClient : Client := MkClient false true 0 [].

(** [close] of a channel: closing it again panics. *)
Definition close (c : bool) : res bool := if c then Panic else Ok true.

Definition client_Start (msg broadcast getpubkey : Z) : M Client unit :=
  _ ← modify (λ c, MkClient (c_quit c) (c_conn c) (c_wg c + 1) (processors c ++ [(MESSAGE, msg, Opening)]));
  _ ← modify (λ c, MkClient (c_quit c) (c_conn c) (c_wg c + 1) (processors c ++ [(BROADCAST, broadcast, Opening)]));
  modify (λ c, MkClient (c_quit c) (c_conn c) (c_wg c + 1) (processors c ++ [(GETPUBKEY, getpubkey, Opening)])).
Definition client_Stop : M Client unit :=
  c ← get;
  q ← lift (close (c_quit c));
  put (MkClient q false (c_wg c) (processors c)).

(** The rest of the server: its state, with the mailboxes of its user; the
    listeners, whether they are open; the RPC server, whether it runs. *)
Record Life := MkLife {
  sys : Sys (F := F) (H := Server (B := B));
  client : Client;
  rpcServer : option bool;
  started : Z;
  shutdown : Z;
  smtpListeners : list bool;
  imapListeners : list bool;
  imapUser : bool;          (** whether [imapUser] is not [nil] *)
  quit : bool;
  wg : Z;
  routines : list routine;
}.

Definition on_sys {A} (m : M (Sys (F := F) (H := Server (B := B))) A) : M Life A :=
  zoom sys (λ x s, MkLife x (client s) (rpcServer s) (started s) (shutdown s) (smtpListeners s)
    (imapListeners s) (imapUser s) (quit s) (wg s) (routines s)) m.
Definition on_client {A} (m : M Client A) : M Life A :=
  zoom client (λ c s, MkLife (sys s) c (rpcServer s) (started s) (shutdown s) (smtpListeners s)
    (imapListeners s) (imapUser s) (quit s) (wg s) (routines s)) m.
(** [atomic.AddInt32], with the new value. *)
Definition add_started : M Life Z := λ s,
  let n := i32 (started s + 1) in
  (Ok n, MkLife (sys s) (client s) (rpcServer s) n (shutdown s) (smtpListeners s)
    (imapListeners s) (imapUser s) (quit s) (wg s) (routines s)).
Definition add_shutdown : M Life Z := λ s,
  let n := i32 (shutdown s + 1) in
  (Ok n, MkLife (sys s) (client s) (rpcServer s) (started s) n (smtpListeners s)
    (imapListeners s) (imapUser s) (quit s) (wg s) (routines s)).
Definition set_rpc (running : bool) : M Life unit :=
  modify (λ s, MkLife (sys s) (client s) ((λ _, running) <$> rpcServer s) (started s) (shutdown s)
    (smtpListeners s) (imapListeners s) (imapUser s) (quit s) (wg s) (routines s)).
Definition go (r : routine) : M Life unit :=
  modify (λ s, MkLife (sys s) (client s) (rpcServer s) (started s) (shutdown s)
    (smtpListeners s) (imapListeners s) (imapUser s) (quit s) (wg s + 1) (routines s ++ [r])).
(** Closing a listener again is an error, which is not looked at. *)
Definition close_listeners : M Life unit :=
  modify (λ s, MkLife (sys s) (client s) (rpcServer s) (started s) (shutdown s)
    ((λ _, false) <$> smtpListeners s) ((λ _, false) <$> imapListeners s) false (quit s) (wg s) (routines s)).
Definition close_quit : M Life unit :=
  s ← get;
  q ← lift (close (quit s));
  put (MkLife (sys s) (client s) (rpcServer s) (started s) (shutdown s) (smtpListeners s)
    (imapListeners s) (imapUser s) q (wg s) (routines s)).

Definition Start : M Life unit :=
  n ← add_started;
  if negb (n =? 1) then mret tt
  else
    s ← get;
    let h := sys_host (sys s) in
    _ ← on_client (client_Start (msgCounter h) (broadcastCounter h) (getpubkeyCounter h));
    _ ← set_rpc true;
    _ ← go PkRequestHandler;
    go SavePeriodically.

Definition Stop : M Life unit :=
  n ← add_shutdown;
  if negb (n =? 1) then mret tt
  else
    _ ← on_sys (host (saveData WriteFile));
    _ ← close_listeners;
    _ ← on_client client_Stop;
    _ ← set_rpc false;
    close_quit.

(** [WaitForShutdown] returns when both groups are at zero. *)
Definition WaitForShutdown (s : Life) : bool := (wg s =? 0) && (c_wg (client s) =? 0).

(** *** What happens meanwhile *)

(** What [newServer] makes of its state, its listeners and its RPC server. *)
Definition newServer (x : Sys (F := F) (H := Server (B := B))) (rpc : bool) (smtp imap : nat) : Life :=
  MkLife x NewClient (if rpc then Some false else None) 0 0 (replicate smtp true) (replicate imap true)
    true false 0 [].

(** The work of a tick. *)
Definition tick (r : routine) : M Life unit :=
  match r with
  | PkRequestHandler => on_sys (check_public_keys fuel)
  | SavePeriodically => on_sys (host (saveData WriteFile))
  end.
(** [defer wg.Done()] *)
Definition end_routine (rs : list routine) : M Life unit :=
  modify (λ s, MkLife (sys s) (client s) (rpcServer s) (started s) (shutdown s) (smtpListeners s)
    (imapListeners s) (imapUser s) (quit s) (wg s - 1) rs).
Definition end_processor (ps : list (processor * Z * phase)) : M Life unit :=
  on_client (modify (λ c, MkClient (c_quit c) (c_conn c) (c_wg c - 1) ps)).
Definition set_processors (ps : list (processor * Z * phase)) : M Life unit :=
  on_client (modify (λ c, MkClient (c_quit c) (c_conn c) (c_wg c) ps)).

(** [msgFunc], [broadcastFunc] and [getpubkeyFunc] *)
Definition handle (p : processor) (counter : Z) (object : string) : M (Sys (F := F) (H := Server (B := B))) unit :=
  match p with
  | MESSAGE => newMessage fuel counter object
  | BROADCAST => newBroadcast fuel counter object
  | GETPUBKEY => host (newGetpubkey counter object)
  end.
(** An object handled; once [Stop] has taken the user away, what its handler
    does is not said. *)
Definition handled_object (p : processor) (counter : Z) (object : string) (s s' : Life) : Prop :=
  if imapUser s then on_sys (handle p counter object) s = (Ok tt, s')
  else ∃ x, on_sys (put x) s = (Ok tt, s').

(** Where a goroutine of the client returns by itself: at the [select] when
    [quit] is closed; and, its call or its stream failing, when the
    connection is. *)
Definition returns (c : Client) (at_ : phase) : bool :=
  match at_ with Selecting => c_quit c | Opening | Receiving => negb (c_conn c) end.

Inductive life_event :=
  | DoStart | DoStop | Tick (r : routine)
  | Opened | Select | Object
  | EndRoutine | EndProcessor
  | StreamFailed
  | Other.

(** A goroutine of the server ends when it sees that [quit] is closed, one of
    the client where [returns] says; what [bmd] does can also make it fail,
    at any time.  Proofs of work and the connections of users change the
    state of the server. *)
Inductive life_step : Life → life_event → Life → Prop :=
  | life_start s s' : Start s = (Ok tt, s') → life_step s DoStart s'
  | life_stop s s' : Stop s = (Ok tt, s') → life_step s DoStop s'
  | life_tick r s s' : r ∈ routines s → tick r s = (Ok tt, s') → life_step s (Tick r) s'
  | life_end_routine r l1 l2 s s' :
      quit s = true → routines s = l1 ++ r :: l2 → end_routine (l1 ++ l2) s = (Ok tt, s') →
      life_step s EndRoutine s'
  | life_opened p n l1 l2 s s' :
      processors (client s) = l1 ++ (p, n, Opening) :: l2 → c_conn (client s) = true →
      set_processors (l1 ++ (p, n, Selecting) :: l2) s = (Ok tt, s') → life_step s Opened s'
  | life_select p n l1 l2 s s' :
      processors (client s) = l1 ++ (p, n, Selecting) :: l2 → c_quit (client s) = false →
      set_processors (l1 ++ (p, n, Receiving) :: l2) s = (Ok tt, s') → life_step s Select s'
  | life_object p n l1 l2 counter object s s1 s' :
      processors (client s) = l1 ++ (p, n, Receiving) :: l2 → handled_object p counter object s s1 →
      set_processors (l1 ++ (p, n, Selecting) :: l2) s1 = (Ok tt, s') → life_step s Object s'
  | life_end_processor p n at_ l1 l2 s s' :
      processors (client s) = l1 ++ (p, n, at_) :: l2 → returns (client s) at_ = true →
      end_processor (l1 ++ l2) s = (Ok tt, s') → life_step s EndProcessor s'
  | life_stream_failed p n at_ l1 l2 s s' :
      processors (client s) = l1 ++ (p, n, at_) :: l2 → at_ ≠ Selecting →
      end_processor (l1 ++ l2) s = (Ok tt, s') → life_step s StreamFailed s'
  | life_other s s' x : on_sys (put x) s = (Ok tt, s') → life_step s Other s'.

Inductive life_steps (s0 : Life) : list life_event → Life → Prop :=
  | life_init : life_steps s0 [] s0
  | life_snoc tr s e s' : life_steps s0 tr s → life_step s e s' → life_steps s0 (tr ++ [e]) s'.

(** *** Once *)

Lemma i32_small z : - 2 ^ 31 ≤ z < 2 ^ 31 → i32 z = z.
Proof. intros ?. unfold i32. rewrite Z.mod_small; lia. Qed.
Lemma i32_one z : 1 < z ≤ 2 ^ 32 → i32 z ≠ 1.
Proof.
  intros Hz. unfold i32. destruct (decide (z < 2 ^ 31)); [rewrite Z.mod_small; lia|].
  replace (z + 2 ^ 31) with (z - 2 ^ 31 + 1 * 2 ^ 32) by lia.
  rewrite Z.mod_add by lia. destruct (decide (z - 2 ^ 31 < 2 ^ 32)); [rewrite Z.mod_small; lia|lia].
Qed.
Lemma i32_step z : i32 (i32 z + 1) = i32 (z + 1).
Proof.
  unfold i32. replace ((z + 2 ^ 31) `mod` 2 ^ 32 - 2 ^ 31 + 1 + 2 ^ 31) with ((z + 2 ^ 31) `mod` 2 ^ 32 + 1) by lia.
  rewrite Z.add_mod_idemp_l by lia. do 2 f_equal. lia.
Qed.

(** The state after stopping, and [n] calls of [Stop]. *)
Definition stopped (h : Server (B := B)) (n : Z) (s : Life) : Life :=
  MkLife (set_host h (sys s)) (MkClient true false (c_wg (client s)) (processors (client s)))
    ((λ _, false) <$> rpcServer s) (started s) (i32 n) ((λ _, false) <$> smtpListeners s)
    ((λ _, false) <$> imapListeners s) false true (wg s) (routines s).

Lemma Stop_first s h : shutdown s = 0 → quit s = false → c_quit (client s) = false →
  saveData WriteFile (sys_host (sys s)) = (Ok tt, h) → Stop s = (Ok tt, stopped h 1 s).
Proof.
  intros Hn Hq Hc Hs. destruct s as [x [cq cc cw ps] rpc st sd smtp imap iu q w rs]. cbn in *. subst.
  unfold Stop. run_step ltac:(reflexivity). cbn [negb].
  run_step ltac:(unfold on_sys, host, zoom; cbn [sys sys_host]; rewrite Hs; reflexivity).
  run_step ltac:(reflexivity). run_step ltac:(reflexivity). by run_step ltac:(reflexivity).
Qed.
Lemma Stop_again h n s : 0 < n < 2 ^ 32 → Stop (stopped h n s) = (Ok tt, stopped h (n + 1) s).
Proof.
  intros Hn. unfold Stop. run_step ltac:(reflexivity). cbn [shutdown stopped].
  rewrite i32_step, (proj2 (Z.eqb_neq _ _)) by (apply i32_one; lia). reflexivity.
Qed.

(** *** Goroutines *)

(** What the goroutines depend on. *)
Definition frame (s : Life) : Client * Z * Z * bool * Z * list routine :=
  (client s, started s, shutdown s, quit s, wg s, routines s).

Lemma on_sys_frame {A} (m : M (Sys (F := F) (H := Server (B := B))) A) s r s' :
  on_sys m s = (r, s') → frame s' = frame s.
Proof. unfold on_sys, zoom. destruct (m (sys s)). by intros [= _ <-]. Qed.

Definition started_all (h : Server (B := B)) (c : Client) : Client :=
  MkClient (c_quit c) (c_conn c) (c_wg c + 3) (processors c ++
    [(MESSAGE, msgCounter h, Opening); (BROADCAST, broadcastCounter h, Opening);
     (GETPUBKEY, getpubkeyCounter h, Opening)]).
Lemma Start_frame s s' : Start s = (Ok tt, s') →
  let n := i32 (started s + 1) in
  frame s' = if n =? 1
    then (started_all (sys_host (sys s)) (client s), n, shutdown s, quit s, wg s + 2,
          routines s ++ [PkRequestHandler; SavePeriodically])
    else (client s, n, shutdown s, quit s, wg s, routines s).
Proof.
  cbv zeta. intros (n & s0 & [= <- <-] & H)%bind_inv. revert H. destruct (i32 (started s + 1) =? 1); cbn [negb].
  2:{ by intros [= <-]. }
  intros (s1 & s2 & [= <- <-] & ([] & s3 & [= <-] & ([] & s4 & [= <-] & ([] & s5 & [= <-] & [= <-])%bind_inv)%bind_inv)%bind_inv)%bind_inv.
  unfold frame, started_all. cbn.
  by rewrite <- !app_assoc, <- !Z.add_assoc.
Qed.
Lemma Stop_frame s s' : Stop s = (Ok tt, s') →
  let n := i32 (shutdown s + 1) in
  frame s' = if n =? 1
    then (MkClient true false (c_wg (client s)) (processors (client s)), started s, n, true, wg s, routines s)
    else (client s, started s, n, quit s, wg s, routines s).
Proof.
  cbv zeta. intros (n & s0 & [= <- <-] & H)%bind_inv. revert H. destruct (i32 (shutdown s + 1) =? 1); cbn [negb].
  2:{ by intros [= <-]. }
  intros ([] & s1 & H1 & ([] & s2 & [= <-] & ([] & s3 & H3 & ([] & s4 & [= <-] & H4)%bind_inv)%bind_inv)%bind_inv)%bind_inv.
  apply on_sys_frame in H1. unfold frame in H1. cbn in H1.
  revert H3. unfold on_client, zoom, client_Stop, close. munfold. cbn. destruct (c_quit _); [done|].
  intros [= <-]. revert H4. unfold close_quit, close. munfold. cbn. destruct (quit s1); [done|].
  intros [= <-]. unfold frame. cbn. by injection H1 as -> -> -> _ -> ->.
Qed.

Definition count (f : life_event → bool) (tr : list life_event) : nat := length (List.filter f tr).
Definition is_start (e : life_event) : bool := match e with DoStart => true | _ => false end.
Definition is_stop (e : life_event) : bool := match e with DoStop => true | _ => false end.
(** A goroutine ends, and ends by itself. *)
Definition ends_itself (e : life_event) : bool := match e with EndRoutine | EndProcessor => true | _ => false end.
Definition is_end (e : life_event) : bool := match e with StreamFailed => true | _ => ends_itself e end.

Lemma count_snoc f tr e : count f (tr ++ [e]) = (count f tr + if f e then 1 else 0)%nat.
Proof. unfold count. rewrite List.filter_app, length_app. cbn. by destruct (f e). Qed.

(** What a history leaves. *)
Record alive (tr : list life_event) (s : Life) : Prop := {
  al_wg : wg s = Z.of_nat (length (routines s));
  al_client : c_wg (client s) = Z.of_nat (length (processors (client s)));
  al_started : started s = i32 (Z.of_nat (count is_start tr));
  al_shutdown : shutdown s = i32 (Z.of_nat (count is_stop tr));
  al_quit : quit s = (0 <? count is_stop tr)%nat;
  al_c_quit : c_quit (client s) = (0 <? count is_stop tr)%nat;
  al_c_conn : c_conn (client s) = negb (0 <? count is_stop tr)%nat;
  al_all : Z.of_nat (count is_start tr) ≤ 2 ^ 32 →
    (count is_end tr + length (routines s) + length (processors (client s)) =
     if 0 <? count is_start tr then 5 else 0)%nat;
}.

Lemma i32_first n : 0 ≤ n < 2 ^ 32 → (i32 (n + 1) =? 1) = (n =? 0).
Proof.
  intros Hn. destruct (Z.eqb_spec n 0) as [->|Hne]; [done|]. apply Z.eqb_neq, i32_one. lia.
Qed.

Lemma count_step f tr e : f e = false → count f (tr ++ [e]) = count f tr.
Proof. intros H. by rewrite count_snoc, H, Nat.add_0_r. Qed.

(** An event other than [Start] and [Stop] changes neither the counters nor
    what is closed. *)
Lemma alive_other tr s e s' : alive tr s →
  is_start e = false → is_stop e = false →
  (started s', shutdown s', quit s', c_quit (client s'), c_conn (client s')) =
    (started s, shutdown s, quit s, c_quit (client s), c_conn (client s)) →
  wg s' = Z.of_nat (length (routines s')) →
  c_wg (client s') = Z.of_nat (length (processors (client s'))) →
  ((if is_end e then 1 else 0) + length (routines s') + length (processors (client s')) =
    length (routines s) + length (processors (client s)))%nat →
  alive (tr ++ [e]) s'.
Proof.
  intros [_ _ Hs Hd Hq Hcq Hcc Ha] H1 H2 [= E1 E2 E3 E4 E5] Hw Hc Hl.
  split; rewrite ?(count_step is_start tr e H1), ?(count_step is_stop tr e H2), ?E1, ?E2, ?E3, ?E4, ?E5; try done.
  intros Hle. rewrite <- (Ha Hle), count_snoc. lia.
Qed.

Lemma start_alive tr s s' : alive tr s → Start s = (Ok tt, s') → alive (tr ++ [DoStart]) s'.
Proof.
  intros [Hw Hc Hs Hd Hq Hcq Hcc Ha] H. pose proof (Start_frame _ _ H) as Hf. cbv zeta in Hf.
  rewrite Hs, i32_step in Hf. set (k := count is_start tr) in *.
  assert (i32 (Z.of_nat k + 1) = i32 (Z.of_nat (k + 1))) as Hk by (f_equal; lia).
  destruct (Z.eqb_spec (i32 (Z.of_nat k + 1)) 1) as [E|E]; injection Hf as E1 E2 E3 E4 E5 E6;
    split; rewrite ?count_snoc; fold k; cbn [is_start is_stop is_end ends_itself];
    rewrite ?Nat.add_0_r, ?E1, ?E2, ?E3, ?E4, ?E5, ?E6; try done;
    cbn [started_all c_wg c_quit c_conn processors]; rewrite ?length_app; cbn [length]; try lia; try done.
  - intros Hle. destruct (Nat.eq_dec k 0) as [Hk0|Hk0].
    + rewrite Hk0 in Ha |- *. cbn in Ha |- *. specialize (Ha ltac:(lia)). lia.
    + exfalso. apply (i32_one (Z.of_nat k + 1)); [lia|done].
  - intros Hle. destruct (Nat.eq_dec k 0) as [Hk0|Hk0]; [by rewrite Hk0 in E|].
    specialize (Ha ltac:(lia)). rewrite (proj2 (Nat.ltb_lt _ _)) in Ha by lia.
    rewrite (proj2 (Nat.ltb_lt _ _)) by lia. lia.
Qed.

Lemma stop_alive tr s s' : alive tr s → Stop s = (Ok tt, s') → alive (tr ++ [DoStop]) s'.
Proof.
  intros [Hw Hc Hs Hd Hq Hcq Hcc Ha] H. pose proof (Stop_frame _ _ H) as Hf. cbv zeta in Hf.
  rewrite Hd, i32_step in Hf. set (k := count is_stop tr) in *.
  assert (i32 (Z.of_nat k + 1) = i32 (Z.of_nat (k + 1))) as Hk by (f_equal; lia).
  assert ((0 <? k + 1)%nat = true) as Hpos by (apply Nat.ltb_lt; lia).
  destruct (Z.eqb_spec (i32 (Z.of_nat k + 1)) 1) as [E|E]; injection Hf as E1 E2 E3 E4 E5 E6;
    split; rewrite ?count_snoc; fold k; cbn [is_start is_stop is_end ends_itself];
    rewrite ?Nat.add_0_r, ?Hpos, ?E1, ?E2, ?E3, ?E4, ?E5, ?E6; try done;
    rewrite ?Hq, ?Hcq, ?Hcc; destruct (Nat.eq_dec k 0) as [Hk0|Hk0];
    try (by rewrite Hk0 in E); by rewrite (proj2 (Nat.ltb_lt 0 k)) by lia.
Qed.

Lemma life_step_alive tr s e s' : alive tr s → life_step s e s' → alive (tr ++ [e]) s'.
Proof.
  intros Hal He. pose proof Hal as [Hw Hc _ _ _ _ _ _].
  assert (∀ e, is_start e = false → is_stop e = false → is_end e = false → frame s' = frame s →
    alive (tr ++ [e]) s') as Hsame.
  { intros e0 H1 H2 H3 [= E1 E2 E3 E4 E5 E6].
    apply (alive_other tr s); rewrite ?H3, ?E1, ?E2, ?E3, ?E4, ?E5, ?E6; done. }
  destruct He as [s s' H|s s' H|r s s' Hin H|r l1 l2 s s' Hq' Hr H|p n l1 l2 s s' Hr Hc' H|p n l1 l2 s s' Hr Hq' H
    |p n l1 l2 k o s s1 s' Hr Hh H|p n at_ l1 l2 s s' Hr Hret H|p n at_ l1 l2 s s' Hr Hat H|s s' x H].
  - by eapply start_alive.
  - by eapply stop_alive.
  - apply Hsame; [done..|]. destruct r; by apply on_sys_frame in H.
  - injection H as <-. apply (alive_other tr s); try done; cbn; rewrite ?Hw, ?Hr, ?length_app; cbn; lia.
  - injection H as <-. apply (alive_other tr s); try done; cbn; rewrite ?Hc, ?Hr, ?length_app; cbn; lia.
  - injection H as <-. apply (alive_other tr s); try done; cbn; rewrite ?Hc, ?Hr, ?length_app; cbn; lia.
  - assert (frame s1 = frame s) as [= E1 E2 E3 E4 E5 E6].
    { unfold handled_object in Hh. destruct (imapUser s); [|destruct Hh as [x Hh]]; by apply on_sys_frame in Hh. }
    injection H as <-.
    apply (alive_other tr s); try done; cbn; rewrite ?E1, ?E2, ?E3, ?E4, ?E5, ?E6, ?Hc, ?Hr, ?length_app; cbn; try done; lia.
  - injection H as <-. apply (alive_other tr s); try done; cbn; rewrite ?Hc, ?Hr, ?length_app; cbn; lia.
  - injection H as <-. apply (alive_other tr s); try done; cbn; rewrite ?Hc, ?Hr, ?length_app; cbn; lia.
  - apply Hsame; [done..|]. by apply on_sys_frame in H.
Qed.
Lemma life_steps_alive x rpc smtp imap tr s : life_steps (newServer x rpc smtp imap) tr s → alive tr s.
Proof. induction 1 as [|tr s e s' Hs IH He]; [by split|]. by eapply life_step_alive. Qed.

Lemma count_stop tr : (0 <? count is_stop tr)%nat = true ↔ DoStop ∈ tr.
Proof.
  rewrite Nat.ltb_lt. unfold count. split.
  - destruct (List.filter is_stop tr) as [|e l] eqn:E; [cbn; lia|]. intros _.
    assert (In e (List.filter is_stop tr)) as [Hin He]%filter_In by (rewrite E; by left).
    apply list_elem_of_In. by destruct e.
  - intros Hin%list_elem_of_In. assert (In DoStop (List.filter is_stop tr)) as H by (by apply filter_In).
    destruct (List.filter is_stop tr); [done|cbn; lia].
Qed.

(** Once the server was stopped, each goroutine left can end, wherever it
    is; before, none ends by itself. *)
Lemma stopped_ends tr s : alive tr s → DoStop ∈ tr →
  (∀ l1 r l2, routines s = l1 ++ r :: l2 → ∃ s', life_step s EndRoutine s' ∧ routines s' = l1 ++ l2) ∧
  (∀ l1 p l2, processors (client s) = l1 ++ p :: l2 →
     ∃ s', life_step s EndProcessor s' ∧ processors (client s') = l1 ++ l2).
Proof.
  intros [_ _ _ _ Hq Hcq Hcc _] Hstop%count_stop. rewrite Hstop in Hq, Hcq, Hcc. split.
  - intros l1 r l2 Hr. eexists. by split; [apply (life_end_routine r l1 l2 s _ Hq Hr eq_refl)|].
  - intros l1 [[p n] at_] l2 Hp. eexists.
    split; [apply (life_end_processor p n at_ l1 l2 s _ Hp); [|reflexivity]|done].
    destruct at_; cbn [returns]; by rewrite ?Hcq, ?Hcc.
Qed.
Lemma running_stays tr s e s' : alive tr s → DoStop ∉ tr → life_step s e s' → ends_itself e = false.
Proof.
  intros [_ _ _ _ Hq Hcq Hcc _] Hno He.
  assert ((0 <? count is_stop tr)%nat = false) as Hz by (apply not_true_is_false; by rewrite count_stop).
  rewrite Hz in Hq, Hcq, Hcc. destruct He as [| | |r l1 l2 s s' Hq'| | | |p n at_ l1 l2 s s' _ Hret| |]; try done.
  - congruence.
  - destruct at_; cbn [returns] in Hret; rewrite ?Hcq, ?Hcc in Hret; done.
Qed.

(** C22: shutting down completes, and does not happen before.  Waiting for it
    returns exactly when no goroutine is left; the server starts five of
    them, once, and each that ended is counted.  Until it is stopped none of
    them ends by itself; once it was, each of those left can, wherever it is:
    at a [select], in a call of [bmd], or waiting for an object; so where
    none can end there is none left, and the wait is over. *)
Theorem shutdown_completes x rpc smtp imap tr s :
  life_steps (newServer x rpc smtp imap) tr s →
  (WaitForShutdown s = true ↔ routines s = [] ∧ processors (client s) = []) ∧
  (Z.of_nat (count is_start tr) ≤ 2 ^ 32 →
    (count is_end tr + length (routines s) + length (processors (client s)) =
     if 0 <? count is_start tr then 5 else 0)%nat) ∧
  (DoStop ∉ tr → ∀ e s', life_step s e s' → ends_itself e = false) ∧
  (DoStop ∈ tr →
    (∀ l1 r l2, routines s = l1 ++ r :: l2 → ∃ s', life_step s EndRoutine s' ∧ routines s' = l1 ++ l2) ∧
    (∀ l1 p l2, processors (client s) = l1 ++ p :: l2 →
       ∃ s', life_step s EndProcessor s' ∧ processors (client s') = l1 ++ l2) ∧
    ((∀ e s', life_step s e s' → ends_itself e = false) → WaitForShutdown s = true)).
Proof.
  intros Hal%life_steps_alive. pose proof Hal as [Hw Hc _ _ _ _ _ Ha].
  assert (WaitForShutdown s = true ↔ routines s = [] ∧ processors (client s) = []) as Hwait.
  { unfold WaitForShutdown. rewrite Hw, Hc, andb_true_iff, !Z.eqb_eq, <- !length_zero_iff_nil. lia. }
  split; [done|]. split; [done|]. split; [by intros Hno e s'; eapply running_stays|].
  intros Hstop. destruct (stopped_ends tr s Hal Hstop) as [H1 H2]. split; [done|]. split; [done|].
  intros Hstuck. apply Hwait. split.
  - destruct (routines s) as [|r rs] eqn:E; [done|].
    destruct (H1 [] r rs eq_refl) as (s' & He & _). by specialize (Hstuck _ _ He).
  - destruct (processors (client s)) as [|p ps] eqn:E; [done|].
    destruct (H2 [] p ps eq_refl) as (s' & He & _). by specialize (Hstuck _ _ He).
Qed.

(** C21: stopping any number of times, up to the size of the counter, stops
    once: the data is saved by the first call alone, the listeners and the
    connection are closed, and no channel is closed a second time, which
    would panic. *)
Theorem Stop_once s h k :
  shutdown s = 0 → quit s = false → c_quit (client s) = false →
  saveData WriteFile (sys_host (sys s)) = (Ok tt, h) → (Z.of_nat k < 2 ^ 32) →
  mfor (seq 0 (S k)) (λ _, Stop) s = (Ok tt, stopped h (Z.of_nat (S k)) s).
Proof.
  intros Hn Hq Hc Hs Hk. cbn [seq mfor].
  rewrite (bind_Ok _ _ _ _ _ (Stop_first s h Hn Hq Hc Hs)).
  assert (∀ m n i, 0 < n → n + Z.of_nat m ≤ 2 ^ 32 →
    mfor (seq i m) (λ _, Stop) (stopped h n s) = (Ok tt, stopped h (n + Z.of_nat m) s)) as Hm.
  { induction m as [|m IH]; intros n i H1 H2; [by rewrite Z.add_0_r|]. cbn [seq mfor].
    rewrite (bind_Ok _ _ _ _ _ (Stop_again h n s ltac:(lia))), IH by lia. do 2 f_equal. lia. }
  rewrite Hm by lia. do 2 f_equal. lia.
Qed.
End life.

(** ** Witnesses *)

Section interrupt_witnesses.
(** Two handlers, an interrupt, and one more handler. *)
Definition history : list (event (H := nat)) :=
  [Add 1; Received 1; Add 2; Received 2; Signal; Interrupted; Add 3; Received 3]%nat.
Definition after_history : Interrupts (H := nat) :=
  MkInterrupts true false [] [1; 2; 3]%nat true [Call 2; Call 1; SendShutdown; Call 3]%nat.

Lemma history_steps : steps history after_history.
Proof.
  apply (steps_snoc [Add 1; Received 1; Add 2; Received 2; Signal; Interrupted; Add 3]%nat
    (MkInterrupts true false [3] [1; 2] true [Call 2; Call 1; SendShutdown])%nat).
  2:{ by apply (step_received 3%nat [] []). }
  apply (steps_snoc [Add 1; Received 1; Add 2; Received 2; Signal; Interrupted]%nat
    (MkInterrupts true false [] [1; 2] true [Call 2; Call 1; SendShutdown])%nat); [|by apply step_add].
  apply (steps_snoc [Add 1; Received 1; Add 2; Received 2; Signal]%nat
    (MkInterrupts true true [] [1; 2] false [])%nat); [|by apply step_interrupted].
  apply (steps_snoc [Add 1; Received 1; Add 2; Received 2]%nat
    (MkInterrupts true false [] [1; 2] false [])%nat); [|by apply (step_signal (MkInterrupts true false [] [1; 2]%nat false []))].
  apply (steps_snoc [Add 1; Received 1; Add 2]%nat (MkInterrupts true false [2] [1] false [])%nat).
  2:{ by apply (step_received 2%nat [] []). }
  apply (steps_snoc [Add 1; Received 1]%nat (MkInterrupts true false [] [1] false [])%nat); [|by apply step_add].
  apply (steps_snoc [Add 1]%nat (MkInterrupts true false [1] [] false [])%nat).
  2:{ by apply (step_received 1%nat [] []). }
  apply (steps_snoc [] no_interrupts); [constructor|by apply step_add].
Qed.

Lemma handlers_called_once_witness :
  [1; 2; 3]%nat ≡ₚ [1; 2; 3]%nat ++ [] ∧ ∃ before after, [1; 2; 3]%nat = before ++ after ∧
    [Call 2; Call 1; SendShutdown; Call 3]%nat = (Call <$> reverse before) ++ SendShutdown :: (Call <$> after).
Proof.
  exact (handlers_called_once history after_history history_steps).
Defined.

Lemma interrupts_served_witness :
  (4 ≤ 4)%nat ∧ [2; 1; 3]%nat ≡ₚ [1; 2; 3]%nat.
Proof.
  destruct (interrupts_served history after_history history_steps) as [H1 H2].
  split; [exact H1|]. destruct H2 as (_ & H2 & _); [|exact H2].
  intros e s' He. inversion He as [s0 Hl|s0 s1 Hc Hi|h s0 s1 Hi|h l1 l2 s0 s1 Hc Hi]; [reflexivity|discriminate|reflexivity|].
  by destruct l1.
Defined.
End interrupt_witnesses.

Section life_witnesses.
Import BoltModel.Model EnvModel BmutilModel MailModel SerializeModel ImapModel IdentityModel WireModel NetworkModel.

Local Definition read_only : string → M (option string) unit := λ _, fail (ErrNew "read-only file").
Definition life0 : Life := newServer sys1 true 1 2.
Definition saved : Server := (saveData read_only server1).2.
Lemma saved_Ok : saveData read_only server1 = (Ok tt, saved).
Proof.
  assert ((saveData read_only server1).1 = Ok tt) as H by (vm_compute; reflexivity).
  rewrite <- H. apply surjective_pairing.
Qed.

Lemma Stop_once_witness :
  mfor (seq 0 3) (λ _, Stop read_only) life0 =
    (Ok tt, MkLife (set_host saved sys1) (MkClient true false 0 []) (Some false) 0 3 [false] [false; false] false
              true 0 []).
Proof.
  assert (Z.of_nat 2 < 2 ^ 32) as Hk by lia.
  exact (Stop_once read_only life0 saved 2 eq_refl eq_refl eq_refl saved_Ok Hk).
Defined.

(** Started; one goroutine of the client waits for an object, one is at its
    [select] and one still calls [bmd] when the server is stopped; every
    goroutine ends. *)
Definition whole_life : list life_event :=
  [DoStart; Opened; Select; Opened; DoStop; EndRoutine; EndRoutine; EndProcessor; EndProcessor; EndProcessor].
Definition at_end : Life :=
  MkLife (set_host saved sys1) (MkClient true false 0 []) (Some false) 1 1 [false] [false; false] false true 0 [].
Lemma whole_life_steps : life_steps 1 read_only life0 whole_life at_end.
Proof.
  set (run ps := MkLife sys1 (MkClient false true 3 ps) (Some true) 1 0 [true] [true; true] true false 2
    [PkRequestHandler; SavePeriodically]).
  set (st ps rs := MkLife (set_host saved sys1) (MkClient true false (Z.of_nat (length ps)) ps) (Some false) 1 1
    [false] [false; false] false true (Z.of_nat (length rs)) rs).
  set (p1 := (MESSAGE, 5)). set (p2 := (BROADCAST, 6)). set (p3 := (GETPUBKEY, 7, Opening)).
  apply (life_snoc _ _ _ [DoStart; Opened; Select; Opened; DoStop; EndRoutine; EndRoutine; EndProcessor; EndProcessor]
    (st [p3] [])).
  2:{ by apply (life_end_processor _ _ GETPUBKEY 7 Opening [] []). }
  apply (life_snoc _ _ _ [DoStart; Opened; Select; Opened; DoStop; EndRoutine; EndRoutine; EndProcessor]
    (st [(p2, Selecting); p3] [])).
  2:{ by apply (life_end_processor _ _ BROADCAST 6 Selecting [] [p3]). }
  apply (life_snoc _ _ _ [DoStart; Opened; Select; Opened; DoStop; EndRoutine; EndRoutine]
    (st [(p1, Receiving); (p2, Selecting); p3] [])).
  2:{ by apply (life_end_processor _ _ MESSAGE 5 Receiving [] [(p2, Selecting); p3]). }
  apply (life_snoc _ _ _ [DoStart; Opened; Select; Opened; DoStop; EndRoutine]
    (st [(p1, Receiving); (p2, Selecting); p3] [SavePeriodically])).
  2:{ by apply (life_end_routine _ _ SavePeriodically [] []). }
  apply (life_snoc _ _ _ [DoStart; Opened; Select; Opened; DoStop]
    (st [(p1, Receiving); (p2, Selecting); p3] [PkRequestHandler; SavePeriodically])).
  2:{ by apply (life_end_routine _ _ PkRequestHandler [] [SavePeriodically]). }
  apply (life_snoc _ _ _ [DoStart; Opened; Select; Opened] (run [(p1, Receiving); (p2, Selecting); p3])).
  2:{ apply life_stop. exact (Stop_first read_only (run _) saved eq_refl eq_refl eq_refl saved_Ok). }
  apply (life_snoc _ _ _ [DoStart; Opened; Select] (run [(p1, Receiving); (p2, Opening); p3])).
  2:{ by apply (life_opened _ _ BROADCAST 6 [(p1, Receiving)] [p3]). }
  apply (life_snoc _ _ _ [DoStart; Opened] (run [(p1, Selecting); (p2, Opening); p3])).
  2:{ by apply (life_select _ _ MESSAGE 5 [] [(p2, Opening); p3]). }
  apply (life_snoc _ _ _ [DoStart] (run [(p1, Opening); (p2, Opening); p3])).
  2:{ by apply (life_opened _ _ MESSAGE 5 [] [(p2, Opening); p3]). }
  apply (life_snoc _ _ _ [] life0); [constructor|]. by apply life_start.
Qed.

Lemma shutdown_completes_witness :
  (WaitForShutdown at_end = true ↔ @nil routine = [] ∧ @nil (processor * Z * phase) = []) ∧ (5 + 0 + 0 = 5)%nat ∧
  WaitForShutdown at_end = true.
Proof.
  destruct (shutdown_completes 1 read_only sys1 true 1 2 whole_life at_end whole_life_steps) as (H1 & H2 & _ & H3).
  split; [exact H1|]. split; [apply H2; by vm_compute|]. apply H3; [solve_elem|].
  intros e s' He. destruct e; try reflexivity;
    inversion He as [| | |r l1 l2 s0 s1 Hq' Hr H| | | |p n at_ l1 l2 s0 s1 Hr Hret H| |]; by destruct l1.
Defined.
End life_witnesses.
