(* ===== verification/Startup.v ===== *)
(** * Starting ([bmagent.go], [server.go], [bmrpc/client.go], [cmd/rpc.go])

    [bmagentMain] loads the configuration, opens the key file and the data
    store, makes the server ([newServer]: the connection to [bmd], the user
    with his mailboxes, the listeners, the counters), starts it, and gives
    its [Stop] to the handler of interrupts.  The dialling of [bmd], sockets
    and the RPC server of [bmd/rpc] are parameters.

    Proved: a server that was started runs with a configuration that is
    usable, listens to all its addresses, has a mailbox for each folder of
    its user, receives objects from the counters that are stored, and has its
    [Stop] with the handler of interrupts; a program that cannot make its
    server closes the data store.  Not true of the code: a data store that
    cannot be read without a passphrase is reported; it crashes the program.
    The TLS that is asked for mail programs is passed on and never used. *)

From S2P Require Import Prelude Bytes Text Bolt BoltModel StoreEnv Bmutil FolderSpec BoltFolder Folders Store Pow Keys.
From S2P Require Import Float64 MessageSequence Email Codec Mailbox MailboxInv IdMgr Commands User Smtp Server.
From S2P Require Import Config Setup Shutdown.
From coqutil Require Import Datatypes.RecordSetters.
Import TriangleBracketNotations.
Local Open Scope Z_scope.
Local Open Scope list_scope.

(** ** The connection to [bmd] ([bmrpc/client.go]) *)

Record ClientConfig := MkClientConfig {
  DisableTLS : bool;
  cc_CAFile : string;
  ConnectTo : string;
  cc_Username : string;
  cc_Password : string;
  Timeout : Z;
}.

(** The codes of [grpc] that the code distinguishes, of no error too. *)
Inductive code := codes_Unauthenticated | codes_PermissionDenied | codes_InvalidArgument | codes_other (e : string).

(** [credentials.NewClientTLSFromFile] *)
Class ClientTLS := {
  TransportCredentials : Type;
  NewClientTLSFromFile : string → res TransportCredentials;
}.
Class Dialer {TL : ClientTLS} (B : Type) := {
  (** user name, password, timeout, credentials or none, address *)
  grpc_Dial : string → string → Z → option TransportCredentials → string → res B;
  (** the code of a request for the identity of an address *)
  GetIdentity_code : string → M B code;
  (** [rpc.NewRPCServer] *)
  NewRPCServer : rpc_Config → res unit;
}.
Class Sockets (N : Type) := { net_Listen : string → M N unit }.

(** An error with a prefix. *)
Definition prefixed {A} (prefix : string) (r : res A) : res A :=
  match r with Err e => Err (ErrNew (prefix ++ Error e)) | _ => r end.

(** The option for TLS, of either client. *)
Definition transport {TL : ClientTLS} (cfg : ClientConfig) : res (option TransportCredentials) :=
  if DisableTLS cfg then Ok None
  else
    creds ← prefixed "Failed to create TLS credentials " (NewClientTLSFromFile (cc_CAFile cfg));
    Ok (Some creds).

Definition rpc_NewClient {TL : ClientTLS} {B} {DI : Dialer B} (cfg : ClientConfig) : res B :=
  opts ← transport cfg;
  conn ← prefixed "Failed to dial: "
    (grpc_Dial (cc_Username cfg) (cc_Password cfg) (Timeout cfg) opts (ConnectTo cfg));
  match GetIdentity_code "InvalidAddress" conn with
  | (Ok codes_Unauthenticated, _) | (Ok codes_PermissionDenied, _) =>
      Err (ErrNew "authentication failure; invalid username/password")
  | (Ok codes_InvalidArgument, conn) => Ok conn
  | (Ok (codes_other e), _) => Err (ErrNew ("Unexpected error verifying credentials: " ++ e))
  | (Err e, _) => Err e
  | (Panic, _) => Panic
  | (Hang, _) => Hang
  end.

Section startup.
Context {BT : Bolt} {EV : Env} {BM : Bmutil} {ML : MailLibs} {SZ : Codec.Serialize} {IS : ImapSeq}.
Context {ID : Identity} {PB : Publics} {WR : Wire} {PT : ProtoText} {JT : JsonText} {HD : HDSeed} {LG : LogLibs}.
Context {W : Type} {OW : OS W} {FL : Flags (W := W)}.
Context {B : Type} {NW : Network B} {TL : ClientTLS} {DI : Dialer B} {N : Type} {SK : Sockets N}.
Context (fuel : nat).
Context (bolt_Open : M world unit) (WriteFile : string → M (option string) unit).
Context (os_ReadFile : string → W → res string).
Context (ini_Load : string → res (gmap string (gmap string string))).

Local Abbreviation ServerLife := (Life (F := bfolder) (B := B)).
Local Abbreviation Outside := (Machine (W := W) * N)%type.

Definition on_machine {A} (f : M (Machine (W := W)) A) : M Outside A := zoom fst (λ m s, (m, s.2)) f.
Definition on_sockets {A} (f : M N A) : M Outside A := zoom snd (λ n s, (s.1, n)) f.

(** ** Making the server ([newServer]) *)

(** The listener that is printed in the error is [nil]. *)
Definition listen (laddrs : list string) : M N unit :=
  mfor laddrs (λ laddr,
    l ← try (net_Listen laddr);
    match l with
    | inl _ => mret tt
    | inr err => fail (ErrNew ("Failed to listen on %!s(<nil>): " ++ Error err))
    end).

(** The server that is made and registered does not run yet. *)
Definition GRPCServer (cfg : rpc_Config) : res unit := NewRPCServer cfg.

(** The folders of the user, with the database, and his mailboxes. *)
Definition open_user (cfg : Config) (keys : Manager) (userData : Store.User)
    : M (Machine (W := W)) (User.User (F := bfolder)) :=
  folders ← on_world (user_Folders userData);
  let '(imapUser, folders) :=
    User.NewUser (FD := persistent_folders) (KR := manager_keys fuel) (Config.Username cfg) keys
      (ObjectExpiration (MsgExpiry cfg) (BroadcastExpiry cfg)) folders in
  _ ← on_loader (modify (λ l, MkLoader (l_db l) (uf_world folders)));
  lift imapUser.

(** The servers for mail programs are for the one user, with the same login;
    [server] holds them all. *)
Record Servers := MkServers { sv_life : ServerLife; sv_smtp : SMTPConfig; sv_imap : IMAPConfig }.
Definition smtp_config (cfg : Config) : SMTPConfig :=
  MkSMTPConfig (negb (DisableServerTLS cfg)) (Config.Username cfg) (Config.Password cfg).
Definition imap_config (cfg : Config) : IMAPConfig :=
  MkIMAPConfig (Config.Username cfg) (Config.Password cfg) (negb (DisableServerTLS cfg)).

(** The server before its counters are loaded. *)
Definition idle_server (bmd : B) (keys : Manager) (s : Store.Store) (m : Machine (W := W)) : Server (B := B) :=
  MkServer keys ∅ (SW s (l_wld (mc_loader m))) Pow.New 0 bmd 0 0 0 (cfg_keyfilePass (mc_cfg m)) (mc_keyfile m) 0.

(** The data store is a nil pointer when [s] is [None]. *)
Definition newServer (rpcc : ClientConfig) (keys : Manager) (s : option Store.Store) : M Outside Servers :=
  bmd ← lift (rpc_NewClient rpcc);
  m ← gets fst;
  let cfg := mc_cfg m in
  s ← lift (deref s);
  userData ← lift (GetUser (Config.Username cfg) s);
  imapUser ← on_machine (open_user cfg keys userData);
  _ ← on_sockets (listen (IMAPListeners cfg));
  _ ← on_sockets (listen (SMTPListeners cfg));
  _ ← lift (if EnableRPC cfg then GRPCServer (RPCConfig cfg) else Ok tt);
  m ← gets fst;
  let '(loaded, srvr) := load_counters (idle_server bmd keys s m) in
  _ ← lift loaded;
  mret (MkServers
    (Shutdown.newServer (MkSys imapUser srvr) (EnableRPC cfg) (length (SMTPListeners cfg)) (length (IMAPListeners cfg)))
    (smtp_config cfg) (imap_config cfg)).

(** ** The program ([bmagent.go]) *)

Definition rpcc_of (cfg : Config) : ClientConfig :=
  MkClientConfig (DisableClientTLS cfg) (CAFile cfg) (RPCConnect cfg) (BmdUsername cfg) (BmdPassword cfg) (5 * 10 ^ 8).

(** [defer store.Close()], when the program ends with an error. *)
Definition closing {A} (s : option Store.Store) (f : M Outside A) : M Outside A :=
  r ← try f;
  match r with
  | inl a => mret a
  | inr e => s ← lift (deref s); _ ← on_machine (Setup.on_store s store_Close); fail e
  end.

(** The handler of interrupts gets [server.Stop], the only handler there is.
    [inr code]: the program ends. *)
Definition bmagentMain (args : list string) : M Outside (Servers * Interrupts (H := unit) + Z) :=
  tcfg ← on_machine (loadConfig fuel bolt_Open WriteFile os_ReadFile ini_Load args);
  match tcfg with
  | inr code => mret (inr code)
  | inl _ =>
      '(keys, store) ← on_machine (openDatabases bolt_Open);
      m ← gets fst;
      server ← closing store (newServer (rpcc_of (mc_cfg m)) keys store);
      let '(r, life) := Start (sv_life server) in
      _ ← lift r;
      let '(r, interrupts) := addInterruptHandler tt no_interrupts in
      _ ← lift r;
      mret (inl (MkServers life (sv_smtp server) (sv_imap server), interrupts))
  end.

(** Main waits for the handler of interrupts or the end of the server. *)
Definition main_ends (server : ServerLife) (interrupts : Interrupts (H := unit)) : bool :=
  existsb (λ a, match a with SendShutdown => true | _ => false end) (actions interrupts) || WaitForShutdown server.

(** ** What is running *)

Implicit Types m : Machine (W := W).

(** The configuration without the passphrase that is typed. *)
Definition settings m : Config := (mc_cfg m) <| cfg_keyfilePass := None |>.

Lemma usable_settings given m m' : settings m' = settings m → usable given (mc_cfg m) → usable given (mc_cfg m').
Proof.
  assert (∀ m, usable given (mc_cfg m) ↔ usable given (settings m)) as Hs.
  { intros x. by split; intros []; split. }
  rewrite !Hs. by intros ->.
Qed.

Lemma loadConfig_usable args m rest m' :
  loadConfig fuel bolt_Open WriteFile os_ReadFile ini_Load args m = (Ok (inl rest), m') →
  ∃ given, usable given (mc_cfg m').
Proof.
  intros ([l|c] & m1 & H1 & H)%bind_inv; [|done].
  assert (∃ given, usable given (mc_cfg m1)) as [given Hg].
  { revert H1. unfold Setup.on_state, zoom. destruct (LoadConfig args _) as [r s] eqn:E.
    intros [= -> <-]. by eapply LoadConfig_Ok. }
  exists given. apply bind_inv in H as ([] & m2 & [= <-] & H).
  apply bind_inv in H as (x & m3 & [= <- <-] & H). revert H.
  destruct (Create _); [by intros (? & ? & _ & [=])%bind_inv|]. destruct (_ || _); [done|].
  destruct (negb _); [by intros (? & ? & _ & [=])%bind_inv|]. intros [= _ <-]. destruct Hg. by split.
Qed.

Lemma keeps_openDatabases : keeps settings (openDatabases bolt_Open).
Proof.
  assert (∀ p : option string, keeps settings (Setup.on_state (set_cfg (λ c, c <| cfg_keyfilePass := p |>)))) as Hp
    by (by intros p m r m' [= _ <-]).
  unfold openDatabases, open_keys, open_store, store_Open, wrapped. keeps.
Qed.

(** A mailbox for each folder. *)
Lemma open_boxes_dom names addrs bs d bs' d' :
  open_boxes (FD := persistent_folders) names addrs bs d = (Ok bs', d') →
  dom bs' = dom (D := gset string) bs ∪ list_to_set names.
Proof.
  revert bs d. induction names as [|nm names IH]; intros bs d; cbn [open_boxes].
  { intros [= <- _]. cbn [list_to_set]. set_solver. }
  intros (f & d1 & _ & (mb & d2 & _ & H)%bind_inv)%bind_inv. rewrite (IH _ _ H), dom_insert_L.
  cbn [list_to_set]. set_solver.
Qed.

Lemma open_user_boxes cfg keys userData m u m' : open_user cfg keys userData m = (Ok u, m') →
  mc_cfg m' = mc_cfg m ∧
  ∃ folders w, user_Folders userData (l_wld (mc_loader m)) = (Ok folders, w) ∧
    dom (D := gset string) (User.boxes u) = list_to_set (folders_Names folders).
Proof.
  intros (folders & m1 & H1 & H)%bind_inv.
  destruct (User.NewUser _ _ _ _) as [imapUser folders'] eqn:Hu.
  apply bind_inv in H as ([] & m2 & [= <-] & [= -> <-]).
  revert H1. unfold on_world, onl, Setup.on_loader, zoom.
  destruct (user_Folders userData _) as [r w] eqn:Hf. intros [= -> <-].
  split; [done|]. exists folders, w. split; [done|].
  apply bind_inv in Hu as (? & ? & [= <- <-] & (bs & d & Hb & [= <- _])%bind_inv).
  cbn [User.boxes]. rewrite (open_boxes_dom _ _ _ _ _ _ Hb), dom_empty_L. apply union_empty_l_L.
Qed.

(** The server at rest, with its counters. *)
Definition counted (c : Z * Z * Z) (bmd : B) (keys : Manager) (s : Store.Store) m : Server (B := B) :=
  set_counters c.1.1 c.1.2 c.2 (idle_server bmd keys s m).
(** A counter is the one stored, or zero if it cannot be read. *)
Definition stored_counters (s : Store.Store) (w : world) (c : Z * Z * Z) : Prop :=
  ∀ objType n, (objType, n) ∈ [(ObjectTypeMsg, c.1.1); (ObjectTypeBroadcast, c.1.2); (ObjectTypeGetPubKey, c.2)] →
    GetCounter objType (SW s w) = Ok n ∨ n = 0 ∧ ∃ e, GetCounter objType (SW s w) = Err e.

Lemma load_counters_stored h h' : load_counters (B := B) h = (Ok tt, h') →
  ∃ c, stored_counters (st_this (store h)) (st_wld (store h)) c ∧ h' = set_counters c.1.1 c.1.2 c.2 h.
Proof.
  intros (? & ? & [= <- <-] & (c1 & ? & [= H1 <-] & (c2 & ? & [= H2 <-] & (c3 & ? & [= H3 <-] & [= <-])%bind_inv)%bind_inv)%bind_inv)%bind_inv.
  exists (c1, c2, c3). split; [|done].
  assert (∀ o c, load_counter o h = Ok c → GetCounter o (SW (st_this (store h)) (st_wld (store h))) = Ok c ∨
    c = 0 ∧ ∃ e, GetCounter o (SW (st_this (store h)) (st_wld (store h))) = Err e) as Hl.
  { intros o c. unfold load_counter. destruct (store h) as [th w]. cbn [st_this st_wld].
    destruct (GetCounter o _) as [x|e| |]; intros [= <-]; eauto. }
  intros o n. rewrite !elem_of_cons, elem_of_nil. intros [[= -> ->]|[[= -> ->]|[[= -> ->]|[]]]]; by apply Hl.
Qed.

(** What a server that was made is like. *)
Record made (rpcc : ClientConfig) (keys : Manager) (s : Store.Store) (c : Z * Z * Z) m (n : N)
    (server : Servers) (m' : Machine (W := W)) (n' : N) : Prop := {
  md_settings : mc_cfg m' = mc_cfg m;
  md_listening : ∃ n1, listen (IMAPListeners (mc_cfg m')) n = (Ok tt, n1) ∧
    listen (SMTPListeners (mc_cfg m')) n1 = (Ok tt, n');
  md_user : ∃ userData folders w, GetUser (Config.Username (mc_cfg m')) s = Ok userData ∧
    user_Folders userData (l_wld (mc_loader m)) = (Ok folders, w) ∧
    dom (D := gset string) (sys_boxes (sys (sv_life server))) = list_to_set (folders_Names folders);
  md_counters : stored_counters s (l_wld (mc_loader m')) c;
  md_logins : sv_smtp server = smtp_config (mc_cfg m') ∧ sv_imap server = imap_config (mc_cfg m');
  md_server : ∃ bmd, rpc_NewClient rpcc = Ok bmd ∧
    sv_life server = Shutdown.newServer (MkSys (sys_user (sys (sv_life server))) (counted c bmd keys s m'))
      (EnableRPC (mc_cfg m')) (length (SMTPListeners (mc_cfg m'))) (length (IMAPListeners (mc_cfg m')));
}.

Lemma newServer_made rpcc keys s m n server m' n' :
  newServer rpcc keys (Some s) (m, n) = (Ok server, (m', n')) →
  ∃ c, made rpcc keys s c m n server m' n'.
Proof.
  intros (bmd & ? & [= Hb <-] & (m0 & ? & [= <- <-] & (? & ? & [= <- <-] & (userData & ? & [= Hg <-] &
    (imapUser & x1 & Hu & H)%bind_inv)%bind_inv)%bind_inv)%bind_inv)%bind_inv.
  revert Hu. unfold on_machine, zoom. cbn [fst snd]. destruct (open_user _ _ _ m) as [r m1] eqn:Hu.
  intros [= -> <-]. destruct (open_user_boxes _ _ _ _ _ _ Hu) as (Hset & folders & w & Hf & Hdom).
  apply bind_inv in H as ([] & x2 & H2 & H). revert H2. unfold on_sockets, zoom. cbn [fst snd].
  destruct (listen _ n) as [r2 n1] eqn:L1. intros [= -> <-].
  apply bind_inv in H as ([] & x3 & H3 & H). revert H3. unfold on_sockets, zoom. cbn [fst snd].
  destruct (listen _ n1) as [r3 n2] eqn:L2. intros [= -> <-].
  apply bind_inv in H as ([] & ? & [= _ <-] & (? & ? & [= <- <-] & H)%bind_inv). cbn [fst] in H.
  destruct (load_counters _) as [r4 h] eqn:Hl.
  apply bind_inv in H as ([] & ? & [= -> <-] & [= <- <- <-]).
  apply load_counters_stored in Hl as (c & Hc & ->). exists c.
  split; rewrite ?Hset; eauto 10.
Qed.

Lemma Start_newServer (x : Sys (F := bfolder) (H := Server (B := B))) rpc smtp imap :
  let h := sys_host x in
  Start (Shutdown.newServer x rpc smtp imap) = (Ok tt,
    MkLife x (MkClient false true 3 [(MESSAGE, msgCounter h, Opening); (BROADCAST, broadcastCounter h, Opening);
                              (GETPUBKEY, getpubkeyCounter h, Opening)])
      (if rpc then Some true else None) 1 0 (replicate smtp true) (replicate imap true) true false 2
      [PkRequestHandler; SavePeriodically]).
Proof. by destruct rpc. Qed.

Lemma closing_Ok {A} s (f : M Outside A) x a x' : closing s f x = (Ok a, x') → f x = (Ok a, x').
Proof.
  unfold closing. intros (r & x1 & H1 & H2)%bind_inv. unfold try in H1.
  destruct (f x) as [[a'|e| |] x2]; try done; injection H1 as <- <-; [by injection H2 as -> ->|].
  apply bind_inv in H2 as (? & ? & _ & (? & ? & _ & [=])%bind_inv).
Qed.

(** C24: a program that has started runs a server that is as it should be:
    its configuration is usable; it is connected to bmd and listens to all
    its addresses for IMAP and SMTP, and for RPC if that is enabled; its
    user, the one of the configuration, has a mailbox for each of his
    folders; it receives objects from the counters that are stored; its two
    goroutines run, nothing is closed, and its Stop, alone, is what waits to
    be registered as a handler of interrupts, which the program awaits. *)
Theorem bmagentMain_starts args m n server interrupts m' n' :
  bmagentMain args (m, n) = (Ok (inl (server, interrupts)), (m', n')) →
  let cfg := mc_cfg m' in
  let life := sv_life server in
  (∃ given, usable given cfg) ∧
  (∃ keys s c m1 idle, made (rpcc_of cfg) keys s c m1 n idle m' n' ∧ sys life = sys (sv_life idle) ∧
    processors (client life) = [(MESSAGE, c.1.1, Opening); (BROADCAST, c.1.2, Opening); (GETPUBKEY, c.2, Opening)]) ∧
  sv_smtp server = smtp_config cfg ∧ sv_imap server = imap_config cfg ∧
  rpcServer life = (if EnableRPC cfg then Some true else None) ∧
  smtpListeners life = replicate (length (SMTPListeners cfg)) true ∧
  imapListeners life = replicate (length (IMAPListeners cfg)) true ∧
  routines life = [PkRequestHandler; SavePeriodically] ∧ quit life = false ∧
  steps [Add tt] interrupts ∧ main_ends life interrupts = false.
Proof.
  intros ([rest|code] & x1 & H1 & H)%bind_inv; [|done].
  revert H1. unfold on_machine at 1, zoom. cbn [fst snd].
  destruct (loadConfig _ _ _ _ _ args m) as [r1 m1] eqn:E1. intros [= -> <-].
  apply bind_inv in H as ([keys s] & x2 & H2 & H). revert H2. unfold on_machine, zoom. cbn [fst snd].
  destruct (openDatabases bolt_Open m1) as [r2 m2] eqn:E2. intros [= -> <-].
  apply bind_inv in H as (? & ? & [= <- <-] & (idle & x3 & H3%closing_Ok & H)%bind_inv).
  destruct s as [s|].
  2:{ apply bind_inv in H3 as (? & ? & [= _ <-] & (? & ? & [= <- <-] & (? & ? & [=] & _)%bind_inv)%bind_inv). }
  destruct x3 as [m3 n3]. cbn [fst] in H3. apply newServer_made in H3 as [c Hmade].
  pose proof (md_settings _ _ _ _ _ _ _ _ _ Hmade) as Hs.
  destruct (md_server _ _ _ _ _ _ _ _ _ Hmade) as (bmd & Hb & Hidle).
  destruct (md_logins _ _ _ _ _ _ _ _ _ Hmade) as [Hsmtp Himap].
  rewrite Hidle, Start_newServer in H. apply bind_inv in H as ([] & ? & [= <-] & H).
  injection H as <- <- <- <-.
  destruct (loadConfig_usable _ _ _ _ E1) as [given Hg].
  assert (usable given (mc_cfg m3)) as Hg3.
  { apply (usable_settings given m1); [|done]. unfold settings. rewrite Hs. by apply (keeps_openDatabases _ _ _ E2). }
  split; [by exists given|].
  assert (steps [Add ()] (addInterruptHandler () (no_interrupts (H := unit))).2) as Hsteps
    by (apply (steps_snoc [] no_interrupts); [constructor|by apply step_add]).
  split; [|split; [exact Hsmtp|split; [exact Himap|by repeat split]]].
  exists keys, s, c, m2, idle. rewrite Hs. split; [done|]. split; [by rewrite Hidle|done].
Qed.

(** *** When the server cannot be made *)

Lemma on_machine_run {A} (f : M (Machine (W := W)) A) m n r m' : f m = (r, m') → on_machine f (m, n) = (r, (m', n)).
Proof. intros H. unfold on_machine, zoom. cbn [fst snd]. by rewrite H. Qed.

(** Closing the store changes nothing that is stored. *)
Lemma store_Close_on s m : ∃ x m', Setup.on_store s store_Close m = (Ok x, m') ∧
  db_open (l_wld (mc_loader m')) = false ∧ StoreEnv.db (l_wld (mc_loader m')) = StoreEnv.db (l_wld (mc_loader m)) ∧
  mc_keyfile m' = mc_keyfile m.
Proof. by eexists _, _. Qed.

Lemma newServer_nil rpcc keys x r x' : newServer rpcc keys None x = (r, x') →
  (∀ server, r ≠ Ok server) ∧ x' = x.
Proof.
  unfold newServer, lift, gets. munfold. by destruct (rpc_NewClient rpcc) as [bmd|e| |]; intros [= <- <-].
Qed.

(** C25: after its data store has been opened the program ends with the error
    of the server that could not be made, once the data store is closed;
    what is stored, the key file and the sockets are left as they are.  With
    the nil pointer that openDatabases returns instead of the error of a
    data store without a passphrase it never gets so far: it crashes. *)
Theorem bmagentMain_fails args m n rest m1 keys s m2 :
  loadConfig fuel bolt_Open WriteFile os_ReadFile ini_Load args m = (Ok (inl rest), m1) →
  openDatabases bolt_Open m1 = (Ok (keys, s), m2) →
  let made := newServer (rpcc_of (mc_cfg m2)) keys s (m2, n) in
  let main := bmagentMain args (m, n) in
  match s with
  | Some _ => ∀ e m3 n3, made = (Err e, (m3, n3)) →
      ∃ m', main = (Err e, (m', n3)) ∧ db_open (l_wld (mc_loader m')) = false ∧
        StoreEnv.db (l_wld (mc_loader m')) = StoreEnv.db (l_wld (mc_loader m3)) ∧ mc_keyfile m' = mc_keyfile m3
  | None => main.1 = Panic ∨ main.1 = Hang ∧ made.1 = Hang
  end.
Proof.
  intros H1 H2 made main.
  assert (main = (
      server ← closing s (newServer (rpcc_of (mc_cfg m2)) keys s);
      let '(r, life) := Start (sv_life server) in
      _ ← lift r;
      let '(r, interrupts) := addInterruptHandler tt no_interrupts in
      _ ← lift r;
      mret (inl (MkServers life (sv_smtp server) (sv_imap server), interrupts))) (m2, n)) as ->.
  { unfold main, bmagentMain. rewrite (bind_Ok _ _ _ (inl rest) (m1, n)) by (by apply on_machine_run).
    by rewrite (bind_Ok _ _ _ (keys, s) (m2, n)) by (by apply on_machine_run). }
  destruct s as [s|].
  - intros e m3 n3 He. destruct (store_Close_on s m3) as (x & m' & Hc & Hrest). exists m'. split; [|done].
    apply bind_Err. unfold closing. rewrite (bind_Ok _ _ _ (inr e) (m3, n3)) by (by apply try_Err).
    cbn [deref lift]. rewrite (bind_Ok _ _ _ s (m3, n3)) by done.
    by rewrite (bind_Ok _ _ _ x (m', n3)) by (by apply on_machine_run).
  - destruct made as [r x] eqn:Hr. destruct (newServer_nil _ _ _ _ _ Hr) as [Hno ->].
    unfold closing, try. munfold. unfold made in Hr. rewrite Hr.
    destruct r as [server|e| |]; [by destruct (Hno server)|by left|by left|by right].
Qed.
End startup.

(** ** Witnesses *)

Module StartupModel.
Import BoltModel.Model EnvModel BmutilModel MailModel SerializeModel ImapModel IdentityModel WireModel.
Import NetworkModel ConfigModel SetupModel.
#[local] Existing Instance JsonModel.model.

#[export] Instance flags : Flags (W := unit) := {
  ParseArgs args c := Ok (args, c);
  ParseFile _ _ _ := Err ErrNotFound;
}.
#[export] Instance client_tls : ClientTLS := {
  TransportCredentials := string;
  NewClientTLSFromFile := Ok;
}.
#[export] Instance dialer : Dialer (list string) := {
  grpc_Dial _ _ _ _ _ := Ok [];
  GetIdentity_code _ := mret codes_InvalidArgument;
  NewRPCServer _ := Ok tt;
}.
(** The addresses that are listened to. *)
#[export] Instance sockets : Sockets (list string) := { net_Listen laddr n := (Ok tt, n ++ [laddr]) }.

(** The files that were created before, and the passphrases typed again. *)
Definition reopen : M world unit := λ w, (Ok tt, World (StoreEnv.db w) true (writing w) (reads w) (ticks w)).
Definition ready : Machine (W := unit) :=
  stored <| mc_state := MkState cfg0 init_logging tt |>
    <| mc_keyfile := mc_keyfile (createDatabases 3 (mret tt) write_file typing).2 |>
    <| mc_input := ["two"; "one"]%string |>.
Definition for_bob : Machine (W := unit) :=
  ready <| mc_state := MkState (cfg0 <| Username := "bob"%string |>) init_logging tt |>.
(** A data store of a version that is not known, and no passphrases. *)
Definition unreadable : Machine (W := unit) :=
  let w := l_wld (Construct None new_file).2 in
  ready <| mc_state := MkState (cfg0 <| NoPass := true |>) init_logging tt |>
    <| mc_keyfile := match ExportPlaintext one_key with Ok s => Some s | _ => None end |>
    <| mc_loader := MkLoader true (StoreEnv.set_db (bucket_Put [miscBucket] versionKey "2" (StoreEnv.db w)).2 w) |>.

Definition no_file {X} (name : string) (w : unit) : res X := Err ErrNotFound.
Definition no_ini {X} (text : string) : res X := Err ErrNotFound.
Definition load_config (m : Machine (W := unit)) := loadConfig 3 reopen write_file no_file no_ini [] m.
Definition run (m : Machine (W := unit)) := bmagentMain (B := list string) 3 reopen write_file no_file no_ini [] (m, []).
(** What newServer makes of the databases, the store first. *)
Definition opening (m : Machine (W := unit)) :=
  '(rest, m) ← (match load_config m with (Ok (inl rest), m) => Some (rest, m) | _ => None end);
  '(keys, s, m) ← (match openDatabases reopen m with (Ok (keys, s), m) => Some (keys, s, m) | _ => None end);
  Some (s, newServer (B := list string) (N := list string) 3 (rpcc_of (mc_cfg m)) keys s (m, [])).
Definition runs {A C} (r : res (A + C)) : bool := match r with Ok (inl _) => true | _ => false end.

Lemma bmagentMain_starts_witness :
  ∃ server interrupts m', run ready = (Ok (inl (server, interrupts)), (m', ["127.0.0.1:1143"; "[::1]:1143"; "localhost:1587"]%string)) ∧
    (∃ given, usable given (mc_cfg m')) ∧ main_ends (sv_life server) interrupts = false.
Proof.
  assert (runs (run ready).1 = true) as Hrun by (vm_cast_no_check (@eq_refl bool true)).
  assert ((run ready).2.2 = ["127.0.0.1:1143"; "[::1]:1143"; "localhost:1587"]%string) as Hn
    by (vm_cast_no_check (@eq_refl (list string) ["127.0.0.1:1143"; "[::1]:1143"; "localhost:1587"]%string)).
  destruct (run ready) as [[[[server interrupts]|c]|e| |] [m' n']] eqn:E; try discriminate Hrun. cbn in Hn. subst n'.
  destruct (bmagentMain_starts _ _ _ _ _ _ _ _ _ _ _ _ E) as (Hu & _ & _ & _ & _ & _ & _ & _ & _ & _ & He).
  exists server, interrupts, m'. split; [reflexivity|]. split; [exact Hu|exact He].
Defined.


Lemma opening_Some m s made : opening m = Some (s, made) → ∃ rest m1 keys m2,
  load_config m = (Ok (inl rest), m1) ∧ openDatabases reopen m1 = (Ok (keys, s), m2) ∧
  newServer (B := list string) (N := list string) 3 (rpcc_of (mc_cfg m2)) keys s (m2, []) = made.
Proof.
  unfold opening. destruct (load_config m) as [[[rest|c]|e| |] m1]; try done. cbn.
  destruct (openDatabases reopen m1) as [[[keys s']|e| |] m2] eqn:E; try done. cbn.
  intros [= <- <-]. by exists rest, m1, keys, m2.
Qed.

(** The user is not in the data store; the data store cannot be read. *)
Lemma bmagentMain_fails_witness :
  (∃ m', run for_bob = (Err (ErrNew "No such user."), (m', [])) ∧ db_open (l_wld (mc_loader m')) = false) ∧
  (run unreadable).1 = Panic.
Proof.
  split.
  - assert (match opening for_bob with
            | Some (Some _, (Err e, (_, []))) => bool_decide (e = ErrNew "No such user.")
            | _ => false end = true) as Hc by (vm_cast_no_check (@eq_refl bool true)).
    destruct (opening for_bob) as [[[s|] [[a|e| |] [m3 [|l n3]]]]|] eqn:E; try discriminate Hc.
    apply bool_decide_eq_true in Hc as ->.
    apply opening_Some in E as (rest & m1 & keys & m2 & H1 & H2 & H3).
    pose proof (bmagentMain_fails 3 reopen write_file no_file no_ini [] for_bob (@nil string) rest _ keys _ _ H1 H2) as Hw.
    destruct (Hw _ _ _ H3) as (m' & Hrun & Hclosed & _). exists m'. split; [exact Hrun|exact Hclosed].
  - assert (match opening unreadable with Some (None, (Panic, _)) => true | _ => false end = true) as Hc
      by (vm_cast_no_check (@eq_refl bool true)).
    destruct (opening unreadable) as [[[s|] [[a|e| |] x]]|] eqn:E; try discriminate Hc.
    apply opening_Some in E as (rest & m1 & keys & m2 & H1 & H2 & H3).
    pose proof (bmagentMain_fails 3 reopen write_file no_file no_ini [] unreadable (@nil string) rest _ keys _ _ H1 H2) as Hw.
    destruct Hw as [Hw|[_ Hw]]; [exact Hw|]. rewrite H3 in Hw. discriminate Hw.
Defined.
End StartupModel.
