(* ===== verification/Cli.v ===== *)
(** * The command-line client ([cmd/client/main.go], [GRPCClient] of [cmd/rpc.go])

    The words of the command line are read as a command, sent to the agent on
    this machine and its reply is printed.  The connection is a parameter.

    Proved: over a connection that carries calls to a running agent, the
    words do there what they do in an e-mail, except that the flag of a new
    address is lost, and what is printed is the reply of that e-mail, except
    that help gives names only and a command that fails prints nothing. *)

From S2P Require Import Prelude Bytes Text Bolt StoreEnv Bmutil Keys IdMgr Email Commands.
From S2P Require Import Float64 MessageSequence FolderSpec BoltModel Codec Mailbox User Pow Server Config Setup Startup.
Local Open Scope Z_scope.
Local Open Scope list_scope.

(** The connection to an agent, and a call of [BMAgentRequest] there; [S] is
    the state of the world outside of the client. *)
Class AgentRPC {TL : ClientTLS} (S : Type) := {
  AgentConn : Type;
  (** credentials or none, timeout, address *)
  agent_Dial : option TransportCredentials → Z → string → M S AgentConn;
  agent_Request : AgentConn → BMRPCRequest → M S (option BMRPCReply);
}.

(** What is printed, and the rest of the world. *)
Record Terminal (S : Type) := MkTerminal { printed : list string; outside : S }.
Arguments MkTerminal {_} _ _.
Arguments printed {_} _.
Arguments outside {_} _.

Section client.
Context {BM : Bmutil} {ID : Identity} {PB : Publics} {PT : ProtoText}.
Context {TL : ClientTLS} {S : Type} {AR : AgentRPC S}.

Definition println (s : string) : M (Terminal S) unit :=
  modify (λ t, MkTerminal (printed t ++ [s]) (outside t)).
Definition on_outside {A} (f : M S A) : M (Terminal S) A :=
  zoom outside (λ x t, MkTerminal (printed t) x) f.

Definition GRPCClient (cfg : ClientConfig) : M S AgentConn :=
  opts ← lift (transport cfg);
  conn ← try (agent_Dial opts (Timeout cfg) (ConnectTo cfg));
  match conn with
  | inl conn => mret conn
  | inr err => fail (ErrNew ("Failed to dial: " ++ Error err))
  end.

Definition local_agent : ClientConfig :=
  MkClientConfig true EmptyString (JoinHostPort "localhost" "8446") EmptyString EmptyString (10 ^ 9).
Definition request (req : BMRPCRequest) : M (Terminal S) (option BMRPCReply) :=
  client ← try (on_outside (GRPCClient local_agent));
  match client with
  | inr err => _ ← println "request error..."; fail err
  | inl client => on_outside (agent_Request client req)
  end.

Definition run (command : Command) : M (Terminal S) (option BMRPCReply) := request (Command_RPC command).

Definition try_words (cmdName : string) (args : list string) : M (Terminal S) string :=
  match ReadCommand cmdName args with
  | (Err err, _) => mret (Error err)
  | (Ok command, _) =>
      response ← try (run command);
      match response with
      | inr err => _ ← println "response error"; mret (Error err)
      | inl response => lift (Message response)
      end
  | (Panic, _) => panic
  | (Hang, _) => lift Hang
  end.

(** The first of [os.Args] is the name of the program. *)
Definition main (os_Args : list string) : M (Terminal S) unit :=
  match os_Args with
  | _ :: name :: args => text ← try_words name args; println text
  | _ => println "Put a help message here."
  end.

(** ** The same as by e-mail *)

Context {US : Commands.User S}.

(** A connection that carries calls to an agent that runs. *)
Record connected : Prop := {
  co_dial s : ∃ conn, agent_Dial None (10 ^ 9) "localhost:8446" s = (Ok conn, s);
  co_call conn req s reply s' : BMAgentRequest true (Some req) s = (Ok reply, s') →
    agent_Request conn req s = (Ok reply, s');
}.

(** What is printed for a response to the words: for help the names, and
    nothing for the error of a command that could be read. *)
Definition client_text (name : string) (args : list string) (r : Response) : res string :=
  match r with
  | helpResponse cmds _ => Ok (Join newline cmds)
  | errorResponse e => Ok (match ReadCommand name args with (Ok _, _) => EmptyString | _ => Error e end)
  | _ => Response_String r
  end.

Lemma run_reply (Hc : connected) c out s reply s' : BMAgentRequest true (Some (Command_RPC c)) s = (Ok reply, s') →
  run c (MkTerminal out s) = (Ok reply, MkTerminal out s').
Proof.
  intros Hr. destruct (co_dial Hc s) as [conn Hd]. unfold run, request.
  rewrite (bind_Ok _ _ _ (inl conn) (MkTerminal out s)).
  2:{ apply try_Ok. unfold on_outside, zoom. cbn [outside]. unfold GRPCClient. munfold.
      by change (ConnectTo local_agent) with "localhost:8446"%string; cbn [local_agent transport DisableTLS Timeout]; rewrite Hd. }
  unfold on_outside, zoom. cbn [outside]. by rewrite (co_call Hc _ _ _ _ _ Hr).
Qed.

(** The flag for acks is what is lost. *)
Lemma Execute_rebuilt name args c args' : ReadCommand name args = (Ok c, args') →
  (name, args) ≠ ("newaddress"%string, ["false"%string]) → Execute (S := S) (rebuilt c) = Execute c.
Proof.
  intros Hr Hn. pose proof (ReadCommand_cases name args) as Ha. rewrite Hr in Ha.
  destruct Ha as [| params ack Hack|]; [done| |done].
  destruct Hack as [[-> ->]|[[-> ->]|[-> ->]]]; done.
Qed.
(** What [Execute] gives can be sent, if it can be written; its error is
    sent as well. *)
Lemma sent_Ok name args c args' s r text s' : ReadCommand name args = (Ok c, args') →
  Execute c s = (Ok r, s') → client_text name args r = Ok text →
  ∃ reply, Response_RPC r = Ok reply ∧ Message reply = Ok text.
Proof.
  intros Hr He Ht.
  assert (∀ e, r ≠ errorResponse e) as Hno.
  { intros e ->. destruct c as [[|cmd cmds]|c|]; try done;
      by apply bind_inv in He as (? & ? & _ & [=]). }
  destruct r as [cmds long|addr|addrs|e]; [injection Ht as <-; by eexists| | |by destruct (Hno e)].
  all: apply res_bind_inv in Ht as (rp & Hrp & Hm); exists (Some rp); cbn [Response_RPC]; by rewrite Hrp.
Qed.

Lemma agent_answers c s r s' : BuildCommand (Some (Command_RPC c)) = Ok (rebuilt c) →
  Execute (rebuilt c) s = (r, s') →
  match r with
  | Ok r => ∀ reply, Response_RPC r = Ok reply → BMAgentRequest true (Some (Command_RPC c)) s = (Ok reply, s')
  | Err e => BMAgentRequest true (Some (Command_RPC c)) s = (Ok (Some (new_reply (ErrorReply (Some (Error e))))), s')
  | _ => True
  end.
Proof.
  intros Hb He. unfold BMAgentRequest, RPCCommand. cbn [negb]. munfold. rewrite Hb, He.
  destruct r as [r|e| |]; [|done..]. intros reply Hreply. by rewrite Hreply.
Qed.

(** C26: over a connection to a running agent the words of the command line do
    what the same words in an e-mail do, but for those that ask for a new
    address without acks: the state of the agent afterwards is the same, and
    the text is that of the response, except that it is only names for help,
    and empty for a command that could be read and fails.  Words that cannot
    be read give their error without a call. *)
Theorem client_as_email name args out s r args' s' text : connected →
  execute_words name args s = (Ok (r, args'), s') →
  (name, args) ≠ ("newaddress"%string, ["false"%string]) →
  client_text name args r = Ok text →
  try_words name args (MkTerminal out s) = (Ok text, MkTerminal out s').
Proof.
  intros Hc Hw Hn Ht. unfold execute_words in Hw. unfold try_words.
  destruct (ReadCommand name args) as [[c|e| |] args1] eqn:Hr; try done.
  2:{ injection Hw as <- _ <-. cbn in Ht. rewrite Hr in Ht. by injection Ht as <-. }
  apply bind_inv in Hw as (r1 & s1 & H1 & [= <- _ <-]).
  pose proof (BuildCommand_words _ _ _ _ Hr) as Hb. pose proof (Execute_rebuilt _ _ _ _ Hr Hn) as Hx.
  unfold try in H1. destruct (Execute c s) as [r0 s0] eqn:He.
  assert (Hx' : Execute (rebuilt c) s = (r0, s0)) by (by rewrite Hx).
  pose proof (agent_answers _ _ _ _ Hb Hx') as Ha.
  destruct r0 as [r|e| |]; try done; injection H1 as <- <-.
  - destruct (sent_Ok _ _ _ _ _ _ _ _ Hr He Ht) as (reply & Hrpc & Hm).
    by rewrite (bind_Ok _ _ _ (inl reply) (MkTerminal out s0)), <- Hm by (by apply try_Ok, run_reply, Ha).
  - rewrite (bind_Ok _ _ _ _ (MkTerminal out s0)) by (by apply try_Ok, run_reply, Ha).
    cbn in Ht. rewrite Hr in Ht. by injection Ht as <-.
Qed.
End client.

(** ** Witness *)

Section witness.
Import BoltModel.Model EnvModel BmutilModel MailModel SerializeModel ImapModel IdentityModel WireModel.
Import NetworkModel SetupModel StartupModel.

Local Abbreviation Agent := (Sys (F := fstate) (H := Server (B := list string))).
#[local] Instance agent_commands : Commands.User Agent := user_commands (HO := server_host 3).
#[local] Instance local_rpc : AgentRPC Agent := {
  AgentConn := unit;
  agent_Dial _ _ _ := mret tt;
  agent_Request _ req := BMAgentRequest true (Some req);
}.
Definition agent : Agent := set_host (MkServer one_key ∅ store1 Pow.New 0 [] 5 6 7 None None 0) sys1.
Definition asked := execute_words "newaddress" [] agent.
Definition printed_text : res string :=
  match asked.1 with Ok (r, _) => client_text "newaddress" [] r | _ => Err ErrNotFound end.
Definition is_text (r : res string) : bool := match r with Ok (String _ _) => true | _ => false end.

(** A new address is asked for and printed. *)
Lemma client_as_email_witness :
  ∃ text, text ≠ EmptyString ∧
    try_words "newaddress" [] (MkTerminal ["before"%string] agent) = (Ok text, MkTerminal ["before"%string] asked.2).
Proof.
  assert (Hc : connected) by (split; [by intros s; exists tt|done]).
  assert (is_text printed_text = true) as Ht by (vm_cast_no_check (@eq_refl bool true)).
  unfold printed_text in Ht. destruct asked as [[[r args']|e| |] s'] eqn:Hr; try discriminate Ht. cbn [fst] in Ht.
  destruct (client_text "newaddress" [] r) as [text|e| |] eqn:Hx; try discriminate Ht.
  exists text. split; [intros ->; discriminate Ht|].
  apply (client_as_email "newaddress" [] ["before"%string] agent r args' s' text Hc Hr); [discriminate|exact Hx].
Defined.
End witness.
